(* ===== verification/_CoqProject ===== *)
-Q . S2P
Prelude.v
Codec.v
Hex.v
DasDb.v
SqliteDb.v
KzgLib.v
KzgIndex.v
KzgToy.v
KzgDomain.v
DasPrimitives.v
Blob.v
KzgTypes.v
ErasureCoding.v
RowRecovery.v
ColumnExtension.v
CorePrimitives.v
Reliability.v
Sidecar.v
PosUtils.v
ProofOfSpace.v
PosIndex.v
PosProps.v
MeloStore.v
MeloOffchain.v
MeloStoreProps.v
MeloStoreFacts.v
MeloOffchainProps.v
MeloStoreRuns.v
FarmersFortune.v
FortuneProps.v
Executive.v
TryRuntime.v
Testing.v
TestTypes.v
HeaderFlow.v
Availability.v
DasNetwork.v
NetworkMetrics.v
NetworkStart.v
DaserNetwork.v
NodeService.v
ClientStart.v
DaserRows.v
DaserBlock.v
Daser.v
DaserProps.v
DaserRuns.v
RuntimeApi.v
Rpc.v
Submission.v
SubmissionRuns.v
PosKzg.v
AvailabilityFlow.v
AvailabilityRuns.v
RuntimeConfig.v
Weights.v
VoterBags.v
AutoConfig.v
ChainSpec.v
Runtime.v
Light.v
LightProps.v
LightRuns.v
Meloxt.v
ClientFlow.v
Farmer.v
FarmerProps.v
FarmerRuns.v
FarmerFlow.v
