(* ===== verification/Prelude.v ===== *)
(** * Melodot: a data availability layer on Substrate

    Applications submit data as blobs; validators commit to it in the block header;
    light clients sample it and the chain drops what cannot be fetched; farmers store it
    and are paid for proofs of space.  This library is a shallow embedding of the
    repository's own crates with the theorems that make them correct.

    ** The program and the files that model it

    - [Prelude]: outcomes of Rust functions ([Ok]/[Err]/[Panic]), the state monad with
      errors, machine integers, bounded vectors, chunks; lemmas and tactics shared by all
      files.  [Codec]: the SCALE codec as an interface.  [KzgLib]: field, curve, FFT, KZG,
      FK20 and hash libraries as interfaces with laws; [KzgToy]: executable instances that
      satisfy the laws; [KzgDomain]: laws of the evaluation domain and of openings on cosets,
      and what follows for the segments of a row.  [Hex]: hexadecimal text.
    - [DasDb] (crates/das-db): the [DasKv] trait, the in-memory store, the off-chain store
      seen from the runtime and from the node; [SqliteDb]: the SQLite store over an
      interface of its SQL statements.
    - [KzgIndex], [DasPrimitives], [Blob] (crates/das-primitives): positions in the
      evaluation domain, scalars, commitments, proofs, polynomials, segments, blobs;
      [KzgTypes]: the byte, SCALE and JSON forms of commitments, proofs and scalars.
    - [ErasureCoding] with [RowRecovery] and [ColumnExtension]
      (crates/melo-erasure-coding): payloads to blobs, extension, segments, columns, row
      recovery.
    - [CorePrimitives], [Reliability], [Sidecar] (crates/core-primitives): the extended
      header and its application lookup, sampling records, submission metadata.
    - [PosUtils], [ProofOfSpace] with [PosIndex] and [PosProps] (crates/proof-of-space):
      pieces, cells, the Y and Z indices, solutions.
    - [MeloStore] with [MeloStoreProps], [MeloStoreFacts], [MeloStoreRuns], and
      [MeloOffchain] with [MeloOffchainProps] (crates/pallet-melo-store): the pallet's
      storage, calls, hooks and unsigned validation; its off-chain worker.
    - [FarmersFortune] with [FortuneProps] (crates/pallet-farmers-fortune): the rewards.
    - [Executive] and [TryRuntime] (crates/frame-executive-ext, crates/frame-system-ext):
      building and executing blocks, and executing them for testing; [HeaderFlow] connects
      them with the pallet, [Testing] (crates/core-primitives/src/testing.rs) with the mock
      extrinsic that validates unsigned calls; [TestTypes]: the other types of that file.
    - [DasNetwork] (crates/das-network): the worker that owns the DHT node, as a state
      machine over commands and events, and the service that batches requests;
      [NetworkMetrics]: the registration of its metrics; [NetworkStart]: the construction of
      worker and service, the address requests and the protocol trait
      (crates/das-network/protocol).
    - [DaserNetwork] with [DaserRows] and [DaserBlock], [Daser] with [DaserProps],
      [DaserRuns] (crates/daser): publication and retrieval of segments, sampling of
      submissions and blocks, the listener.
    - [RuntimeApi] (runtime/src/lib.rs): the two runtime calls that find submissions in
      extrinsics.  [Rpc] (crates/das-rpc): errors, availability queries, submission of data.
      [Submission] and [SubmissionRuns] compose them with publication and the listener.
    - [Availability], [AvailabilityFlow] and [AvailabilityRuns] compose the listeners of the
      validators, their off-chain workers, the pallet and the executive.
    - [RuntimeConfig], [Runtime] (runtime/src/config.rs, runtime/src/lib.rs): the constants
      of the runtime, the transactions it signs, and the two pallets among the others with
      the session keys.  [ChainSpec] (node/src/chain_spec.rs, node/src/command.rs): the
      genesis configurations the node is shipped with.  [Weights]: the weights of the
      pallets' calls and the share of a block they may use.  [VoterBags]
      (runtime/src/voter_bags.rs): the thresholds of the bags list.  [AutoConfig]
      (crates/auto-config): the macro that completes a pallet's configuration.
    - [NodeService] (node/src/service.rs, rpc.rs, command.rs, cli.rs): what a node is built of, in
      which order, which objects its parts share and which tasks run.
    - [Light] with [LightProps] and [LightRuns] (light/, crates/meloxt/src/header.rs): the
      light client's loop over finalized headers.
    - [Meloxt] (crates/meloxt): conversions to the runtime's types, nonces and parameters
      of submissions; [ClientFlow] connects it with the pallet.  [PosKzg]: the proofs of
      cells and pre-cells under the embedded settings.  [Farmer] with
      [FarmerProps] and [FarmerRuns] (farmer/): the farmer's loop over best blocks;
      [FarmerFlow] follows its claims to the pallet.  [ClientStart] (light/, farmer/,
      crates/meloxt/src/lib.rs): command line, chain client and start of both clients.

    ** How state and operations correspond to the code

    A Rust function is a definition of the same name in a module named after its type.
    Errors are values of [res]; slice indexing out of range, [unwrap] of a failure and
    failed assertions are [Panic].  Storage of a pallet is a record, a storage map a
    [gmap], a bounded vector a list with its bound tested where the source tests it.
    Dispatchables run in [stM E S A := S -> res E A * S]; [transactional] is the
    dispatcher that undoes the writes of a failed call.  Traits are classes: [DasKv],
    [HeaderCommitList], [CommitmentFromPosition], [FrameSystem], and the clients are
    proved against the classes.  Integers are [Z] at their width: [u16]/[u32]/[u64] casts
    and release-mode wrap-around are written out, and [usize] is the parameter [Platform]
    (64 bits on the host, 32 bits in the Wasm runtime).

    ** What the theorems show

    - Data: the byte round trip of blobs and payloads, the transcript of a blob proof, that
      what is committed and proved verifies singly and in batch, that any half of a row in
      any order recovers the row with proofs that verify, that a column is extended
      independently of the order of its segments, data and proofs alike.
    - Pallet: the effect of a report on every branch; over every sequence of calls, hooks
      and sessions, the storage invariant and the voting rule (votes are indices, which name
      authorities as long as the keys do not change); which reports the pool
      admits; that the reports of the off-chain worker are accepted and sent once.
    - Header: the lookup table, the commitment list, and that a block built by an author is
      executed by every node and carries the submissions of the previous block; that the
      test run of a block agrees with its execution.
    - Availability, end to end: votes come only from reports signed by the authority they
      name ([votes_are_signed]); with the reports of the workers of at most [MaxBlobNum]
      validators included, the next header drops exactly what a majority holds an
      unfavourable record of ([header_drops_unavailable]), hence what a majority could not
      fetch ([lost_data_dropped]); beyond that bound votes are refused, and with twice as
      many authorities nothing is dropped ([majority_unreachable]).  In the runtime as assembled none of this happens: the pallet
      is not among the session keys, never has an authority, and refuses every report
      ([reports_never_count]).
    - Genesis and node: the shipped chain specifications are consistent in themselves; a node
      that starts runs the listener and the network worker and serves the listener's
      records ([node_runs]), while its voter has another state object than the RPC.
    - Sampling: which positions are drawn, when sampling terminates, how a record turns into
      confidence, and that records are read back.
    - Proof of space: pieces that do not collide (different positions, no Y value equal to
      the number of a saved block) are indexed exactly by their matching pairs, and the
      solutions found are the recorded pairs; what a verifier accepts and rejects; what a
      claim pays and how much a block can pay; from a run of the farmer to the pallet, which
      of the claims submitted are paid ([farmer_claim_verdict]).  By its weight a block holds at most one
      claim ([one_claim_per_block]), and all farmers share an account.
    - Network: a lookup is answered once and with its own outcome, and an address request
      when the peer is routed; published segments are
      fetched; a block is available exactly when half of every row can be fetched, and then
      comes back complete; what sampling a submission records; and two flaws: recovered
      segments carry the proof of the first one, and the listener never gets past the
      first blocks.  The worker never has metrics, and pre-cells are checked as if they were
      the first of their row.
    - Stores: every sequence of operations on the SQLite store behaves as on the in-memory
      one.
    - Clients: what submitting data does on every path, and that data submitted with its
      own metadata is published and then found available by the listener; what the light
      client's RPC answers after a stream of headers; which claims a farmer submits.  Two
      flaws: both clients stop after 100 headers, since nothing reads the channel they
      send them on ([light_stops_after_100]), and the rows a farmer saves for a block
      displace each other.  The option for the network's port is ignored
      ([client_command_line]).

    ** What the network is assumed to return

    The library's check can panic, and a commitment can be opened to other data by whoever
    breaks the scheme.  The theorems on sampling and fetching do not exclude this of the
    library: they are about networks whose values are harmless (the check of a value does
    not panic: [harmless], [harmless_cells], [calm]) and, where a whole row is put
    together, unforged (a value that verifies has the data of the row: [honest_values]).
    The farmer's runs are those in which no fetch panics ([followed]).

    ** Fuel and bounds

    Two loops of the sources are not structural.  The scale search in [KzgIndex] runs on
    the number of bits of [usize], and [max_scale_log2_up] shows the value it ends with.
    Sampling draws positions until enough are distinct: [set_sample_terminates] shows
    for which requests some amount of fuel is enough, and that no amount is otherwise.

    ** What is not modelled

    Curve and field arithmetic, hashing, SCALE, [frame_system], the currency, the
    transaction pool, the SQL engine, libp2p, the subscriptions of the chain client, the
    constructors of Substrate's node components and the host storage are interfaces or
    parameters; each theorem that assumes laws of them has a witness on a concrete instance.
    Benchmarks, mocks, tests, examples and end-to-end programs, derive macros, logging and the
    chain API generated from metadata are left out.  So are the configuration and the calls
    of Substrate's pallets in the runtime and the runtime APIs that delegate to them: their
    code is not in the repository, and the runtime adds only names and constants, of which
    those that a theorem needs are modelled.  Root's power to overwrite storage or code is
    left out too.  Concurrency in the sampling client is an order in which tasks complete,
    and store requests are performed in the order they are issued. *)

From stdpp Require Export prelude list gmap strings sorting pretty.
From Stdlib Require Export ZArith Lia Zdiv.

#[global] Open Scope Z_scope.

(** ** Outcomes of Rust functions

    [Ok]/[Err] are the two constructors of [core::result::Result]; [Panic] is a
    thread panic (slice index out of range, failed [assert!], [unwrap] or
    [expect] on an error). *)
Inductive res (E A : Type) : Type :=
| Ok (a : A)
| Err (e : E)
| Panic.
Arguments Ok {E A} _.
Arguments Err {E A} _.
Arguments Panic {E A}.

#[export] Instance res_eq_dec {E A} `{EqDecision E} `{EqDecision A} : EqDecision (res E A).
Proof. solve_decision. Defined.

#[export] Instance res_ret E : MRet (res E) := fun A a => Ok a.
#[export] Instance res_bind E : MBind (res E) := fun A B f m =>
  match m with Ok a => f a | Err e => Err e | Panic => Panic end.
#[export] Instance res_fmap E : FMap (res E) := fun A B f m =>
  match m with Ok a => Ok (f a) | Err e => Err e | Panic => Panic end.

Definition res_map_err {E F A} (f : E -> F) (m : res E A) : res F A :=
  match m with Ok a => Ok a | Err e => Err (f e) | Panic => Panic end.

(** [Option::ok_or] / [Option::ok_or_else]. *)
Definition ok_or {E A} (o : option A) (e : E) : res E A :=
  match o with Some a => Ok a | None => Err e end.

(** [Option::unwrap], [Option::expect] and slice indexing [v[i]]. *)
Definition unwrap {E A} (o : option A) : res E A :=
  match o with Some a => Ok a | None => Panic end.

(** [Result::ok]: a panic is not caught, so this stays a [res]. *)
Definition res_ok {E F A} (m : res E A) : res F (option A) :=
  match m with Ok a => Ok (Some a) | Err _ => Ok None | Panic => Panic end.

(** [Result::expect] / [Result::unwrap]. *)
Definition res_unwrap {E F A} (m : res E A) : res F A :=
  match m with Ok a => Ok a | Err _ => Panic | Panic => Panic end.

Definition is_ok {E A} (m : res E A) : bool :=
  match m with Ok _ => true | _ => false end.

(** [ensure!(cond, err)] and an early [return Err(err)]. *)
Definition ensure {E} (b : bool) (e : E) : res E unit :=
  if b then Ok tt else Err e.

Lemma res_bind_Ok {E A B} (m : res E A) (f : A -> res E B) (b : B) :
  m ≫= f = Ok b <-> exists a, m = Ok a /\ f a = Ok b.
Proof. destruct m; simpl; naive_solver. Qed.

Lemma ensure_Ok {E} b (e : E) u : ensure b e = Ok u <-> b = true.
Proof. destruct b, u; simpl; naive_solver. Qed.

Lemma ok_or_Ok {E A} (o : option A) (e : E) a : ok_or o e = Ok a <-> o = Some a.
Proof. destruct o; simpl; naive_solver. Qed.

Lemma unwrap_Ok {E A} (o : option A) a : unwrap (E := E) o = Ok a <-> o = Some a.
Proof. destruct o; simpl; naive_solver. Qed.

(** Splits a hypothesis [... = Ok v] through the binds, guards and conversions
    that led to it. *)
Ltac res_inv_step :=
  match goal with
  | H : context [_ ≫= _] |- _ => progress (apply res_bind_Ok in H; destruct H as (? & ? & H))
  | H : ensure _ _ = Ok _ |- _ => apply ensure_Ok in H
  | H : ok_or _ _ = Ok _ |- _ => apply ok_or_Ok in H
  | H : unwrap _ = Ok _ |- _ => apply unwrap_Ok in H
  | H : Ok _ = Ok _ |- _ => injection H as H
  | H : Err _ = Ok _ |- _ => discriminate H
  | H : Panic = Ok _ |- _ => discriminate H
  end.
(** Decides a closed proposition by evaluation. *)
Ltac by_decision := apply (bool_decide_unpack _); vm_compute; exact I.
(** Reduces the binds at a known outcome and nothing else. *)
Ltac bind_simpl := cbn [mbind res_bind res_unwrap ok_or unwrap res_map_err].
Ltac res_inv := repeat res_inv_step; simplify_eq/=.

(** Every element of a list mapped through a fallible function
    ([Iterator::map(..).collect::<Result<Vec<_>, _>>()]). *)
Lemma mapM_res_Ok {E A B} (f : A -> res E B) l k :
  mapM (M := res E) f l = Ok k <-> Forall2 (fun x y => f x = Ok y) l k.
Proof.
  revert k. induction l as [|x l IH]; intros k; simpl.
  - unfold mret, res_ret. split; intros H; [by simplify_eq | by inversion H].
  - split.
    + intros H. apply res_bind_Ok in H as (y & Hy & H).
      apply res_bind_Ok in H as (k' & Hk & H). unfold mret, res_ret in H. simplify_eq.
      constructor; [done | by apply IH].
    + intros H. inversion H as [|? y ? k' Hy Hk]; simplify_eq.
      apply IH in Hk. rewrite Hy. simpl. by rewrite Hk.
Qed.

Lemma mapM_res_Ok_total {E A B} (f : A -> res E B) (g : A -> B) l :
  (forall x, x ∈ l -> f x = Ok (g x)) -> mapM (M := res E) f l = Ok (g <$> l).
Proof.
  intros H. apply mapM_res_Ok. induction l as [|x l IH]; constructor.
  - apply H. left.
  - apply IH. intros y Hy. apply H. by right.
Qed.

Lemma mapM_res_exists {E A B} (f : A -> res E B) l :
  (forall x, x ∈ l -> exists y, f x = Ok y) -> exists k, mapM (M := res E) f l = Ok k.
Proof.
  intros Hf. assert (exists k, Forall2 (fun x y => f x = Ok y) l k) as [k Hk].
  { induction l as [|x l IH]; [by exists []|].
    destruct IH as [k Hk]; [intros; apply Hf; by right|].
    destruct (Hf x) as [y Hy]; [left|]. exists (y :: k). by constructor. }
  exists k. by apply mapM_res_Ok.
Qed.

Lemma mapM_res_lookup {E A B} (f : A -> res E B) l k i x y :
  mapM (M := res E) f l = Ok k -> l !! i = Some x -> k !! i = Some y -> f x = Ok y.
Proof. intros Hk%mapM_res_Ok Hx Hy. by eapply (Forall2_lookup_lr _ _ _ _ _ _ Hk). Qed.

Lemma mapM_res_length {E A B} (f : A -> res E B) l k :
  mapM (M := res E) f l = Ok k -> length k = length l.
Proof. intros Hk%mapM_res_Ok. symmetry. by eapply Forall2_length. Qed.

(** A list recovered element by element. *)
Lemma Forall2_fmap_inv {A B} (f : B -> A) (k : list B) (l : list A) :
  Forall2 (fun x y => f y = x) l k -> f <$> k = l.
Proof. induction 1 as [|?? l k Hx _ IH]; [done|]. rewrite fmap_cons, IH. by rewrite Hx. Qed.

Lemma existsb_negb_false {A} (f : A -> bool) l :
  Forall (fun x => f x = true) l -> existsb (fun x => negb (f x)) l = false.
Proof. induction 1 as [|x l Hx _ IH]; simpl; [done|]. by rewrite Hx. Qed.

(** ** State passing

    A computation over a state [S] that may fail.  The state reached before an error
    is kept: storage writes are undone by the dispatcher, not by the operation. *)
Definition stM (E S A : Type) : Type := S -> res E A * S.
#[export] Instance stM_ret E S : MRet (stM E S) := fun A a s => (Ok a, s).
#[export] Instance stM_bind E S : MBind (stM E S) := fun A B f m s =>
  match m s with
  | (Ok a, s') => f a s'
  | (Err e, s') => (Err e, s')
  | (Panic, s') => (Panic, s')
  end.
Definition lift_res {E S A} (m : res E A) : stM E S A := fun s => (m, s).
Definition gets {E S A} (f : S -> A) : stM E S A := fun s => (Ok (f s), s).
Definition modify {E S} (f : S -> S) : stM E S unit := fun s => (Ok tt, f s).
Definition ensureM {E S} (b : bool) (e : E) : stM E S unit := lift_res (ensure b e).

(** A dispatched call: an error undoes every write. *)
Definition transactional {E S A} (m : stM E S A) : stM E S A := fun s =>
  match m s with
  | (Ok a, s') => (Ok a, s')
  | (o, _) => (o, s)
  end.

Lemma transactional_Err {E S A} (m : stM E S A) s e s' :
  transactional m s = (Err e, s') -> s' = s.
Proof. unfold transactional. destruct (m s) as [[| |] ?]; naive_solver. Qed.

Lemma stM_bind_Ok {E S A B} (m : stM E S A) (f : A -> stM E S B) s b s' :
  (m ≫= f) s = (Ok b, s') <-> exists a s1, m s = (Ok a, s1) /\ f a s1 = (Ok b, s').
Proof.
  unfold mbind, stM_bind. destruct (m s) as [[a|e|] s1]; naive_solver.
Qed.

(** ** Machine integers

    A [w]-bit unsigned integer is a [Z] in [[0, 2^w)]; the sources are built with
    a release profile without overflow checks, so [+], [-] and [*] wrap. *)
Definition in_u (w z : Z) : Prop := 0 <= z < 2 ^ w.
#[export] Instance in_u_dec w z : Decision (in_u w z).
Proof. unfold in_u. apply _. Defined.

Definition wrap (w z : Z) : Z := z mod 2 ^ w.

Lemma wrap_small w z : in_u w z -> wrap w z = z.
Proof. intros. by apply Z.mod_small. Qed.

Lemma wrap_in_u w z : 0 <= w -> in_u w (wrap w z).
Proof. intros. apply Z.mod_pos_bound. by apply Z.pow_pos_nonneg. Qed.

(** The width of [usize]: 64 on the host, 32 in the Wasm runtime. *)
Class Platform := { usize_bits : nat }.
Definition host64 : Platform := {| usize_bits := 64 |}.
Definition wasm32 : Platform := {| usize_bits := 32 |}.
Definition wrap_usize `{Platform} (z : Z) : Z := wrap (Z.of_nat usize_bits) z.

(** Bytes are values of [u8]. *)
Abbreviation bytes := (list Z).
Definition is_bytes (l : list Z) : Prop := Forall (in_u 8) l.

(** [uN::to_be_bytes] for an integer of [n] bytes. *)
Fixpoint to_be_bytes (n : nat) (z : Z) : list Z :=
  match n with
  | O => []
  | S n' => (z / 2 ^ (8 * Z.of_nat n')) mod 256 :: to_be_bytes n' z
  end.

(** [uN::from_be_bytes]. *)
Definition from_be_bytes (l : list Z) : Z :=
  fold_left (fun acc b => acc * 256 + b) l 0.

Lemma length_to_be_bytes n z : length (to_be_bytes n z) = n.
Proof. induction n; simpl; congruence. Qed.

Lemma to_be_bytes_is_bytes n z : is_bytes (to_be_bytes n z).
Proof.
  induction n; simpl; constructor; [|done].
  unfold in_u. apply Z.mod_pos_bound. lia.
Qed.

Lemma from_be_bytes_acc l : forall acc,
  fold_left (fun acc b => acc * 256 + b) l acc
  = acc * 2 ^ (8 * Z.of_nat (length l)) + from_be_bytes l.
Proof.
  unfold from_be_bytes. induction l as [|b l IH]; intros acc; simpl.
  - lia.
  - rewrite IH. rewrite (IH (0 * 256 + b)).
    replace (8 * Z.of_nat (S (length l))) with (8 + 8 * Z.of_nat (length l)) by lia.
    rewrite Z.pow_add_r by lia. change (2 ^ 8) with 256. ring.
Qed.

Lemma from_to_be_bytes_mod n z :
  from_be_bytes (to_be_bytes n z) = z mod 2 ^ (8 * Z.of_nat n).
Proof.
  induction n as [|n IH]; simpl.
  - by rewrite Z.mod_1_r.
  - unfold from_be_bytes. simpl. rewrite from_be_bytes_acc, IH, length_to_be_bytes.
    replace (8 * Z.of_nat (S n)) with (8 * Z.of_nat n + 8) by lia.
    rewrite Z.pow_add_r by lia. change (2 ^ 8) with 256.
    rewrite Z.rem_mul_r by lia. ring.
Qed.

Lemma from_to_be_bytes n z :
  in_u (8 * Z.of_nat n) z -> from_be_bytes (to_be_bytes n z) = z.
Proof. intros. rewrite from_to_be_bytes_mod. by apply Z.mod_small. Qed.

Lemma to_be_bytes_inj n z z' :
  in_u (8 * Z.of_nat n) z -> in_u (8 * Z.of_nat n) z' ->
  to_be_bytes n z = to_be_bytes n z' -> z = z'.
Proof.
  intros Hz Hz' Heq. rewrite <- (from_to_be_bytes n z), <- (from_to_be_bytes n z') by done.
  by rewrite Heq.
Qed.

(** [usize::is_power_of_two]. *)
Definition is_power_of_two (z : Z) : bool := (0 <? z) && (2 ^ Z.log2 z =? z).

Lemma is_power_of_two_spec z :
  is_power_of_two z = true <-> exists k, 0 <= k /\ z = 2 ^ k.
Proof.
  unfold is_power_of_two. rewrite andb_true_iff, Z.ltb_lt, Z.eqb_eq. split.
  - intros [Hz He]. exists (Z.log2 z). split; [apply Z.log2_nonneg | done].
  - intros (k & Hk & ->). rewrite Z.log2_pow2 by done. split; [|done].
    by apply Z.pow_pos_nonneg.
Qed.

Lemma is_power_of_two_nat (n : nat) : is_power_of_two (Z.of_nat n) = true -> exists k, n = (2 ^ k)%nat.
Proof.
  intros (k & Hk & Hn)%is_power_of_two_spec. exists (Z.to_nat k).
  apply Nat2Z.inj. rewrite Nat2Z.inj_pow, Z2Nat.id by done. done.
Qed.

(** ** Slices and iterators *)

(** [slice::chunks]: the fuel is the length, an upper bound on the number of
    chunks when [n > 0]; the callers that pass [n = 0] panic before. *)
Fixpoint chunks_go {A} (fuel : nat) (n : nat) (l : list A) : list (list A) :=
  match fuel, l with
  | O, _ | _, [] => []
  | S fuel', _ => take n l :: chunks_go fuel' n (drop n l)
  end.
Definition chunks {A} (n : nat) (l : list A) : list (list A) := chunks_go (length l) n l.

Section chunks.
Context {A : Type}.
Implicit Types l : list A.

Lemma chunks_go_fuel n : (0 < n)%nat -> forall f l,
  (length l <= f)%nat -> chunks_go f n l = chunks n l.
Proof.
  intros Hn. assert (Hgen : forall f g l, (length l <= f)%nat -> (length l <= g)%nat ->
    chunks_go f n l = chunks_go g n l).
  { induction f as [|f IH]; intros [|g] l Hf Hg; destruct l as [|x l]; simpl in *; try done; try lia.
    f_equal. apply IH; rewrite length_drop; simpl; lia. }
  intros f l Hf. by apply Hgen.
Qed.

Lemma chunks_nil n : chunks n (@nil A) = [].
Proof. done. Qed.

Lemma chunks_unfold n l : (0 < n)%nat -> l <> [] ->
  chunks n l = take n l :: chunks n (drop n l).
Proof.
  intros Hn Hl. destruct l as [|x l]; [done|]. unfold chunks at 1. simpl.
  f_equal. apply chunks_go_fuel; [done|]. rewrite length_drop. simpl. lia.
Qed.

(** Induction over a slice, one chunk at a time. *)
Lemma chunks_ind n (Hn : (0 < n)%nat) (P : list A -> Prop) :
  P [] -> (forall l, l <> [] -> P (drop n l) -> P l) -> forall l, P l.
Proof.
  intros H0 HS l. remember (length l) as m eqn:Hm. revert l Hm.
  induction (lt_wf m) as [m _ IH]. intros [|x l] ->; [done|].
  apply HS; [done|]. eapply IH; [|done]. rewrite length_drop. simpl. lia.
Qed.

Lemma concat_chunks n l : (0 < n)%nat -> concat (chunks n l) = l.
Proof.
  intros Hn. induction l as [|l Hl IH] using (chunks_ind n Hn); [done|].
  rewrite chunks_unfold by done. simpl. by rewrite IH, take_drop.
Qed.

Lemma chunks_app n l k : (0 < n)%nat -> length l = n ->
  chunks n (l ++ k) = l :: chunks n k.
Proof.
  intros Hn Hl. rewrite chunks_unfold; [|done|by destruct l; simpl in *; [lia|]].
  by rewrite take_app_length', drop_app_length'.
Qed.

Lemma chunks_concat n (ls : list (list A)) : (0 < n)%nat ->
  Forall (fun c => length c = n) ls -> chunks n (concat ls) = ls.
Proof.
  intros Hn. induction 1 as [|c ls Hc _ IH]; [done|]. simpl.
  by rewrite chunks_app, IH.
Qed.

Lemma lookup_chunks n l i : (0 < n)%nat ->
  chunks n l !! i =
    if bool_decide (i * n < length l)%nat then Some (take n (drop (i * n) l)) else None.
Proof.
  intros Hn. revert i. induction l as [|l Hl IH] using (chunks_ind n Hn); intros i.
  - rewrite chunks_nil, bool_decide_false by (simpl; lia). done.
  - rewrite chunks_unfold by done. destruct i as [|i]; simpl.
    + rewrite bool_decide_true; [done|]. destruct l; simpl; [done|lia].
    + rewrite IH, length_drop, drop_drop. repeat case_bool_decide; try lia; done.
Qed.

Lemma length_chunks n l : (0 < n)%nat ->
  length (chunks n l) = ((length l + n - 1) / n)%nat.
Proof.
  intros Hn. induction l as [|l Hl IH] using (chunks_ind n Hn).
  - simpl. rewrite Nat.div_small; lia.
  - rewrite chunks_unfold by done. simpl. rewrite IH, length_drop.
    destruct (decide (n <= length l)%nat).
    + replace (length l + n - 1)%nat with ((length l - n + n - 1) + 1 * n)%nat by lia.
      rewrite Nat.div_add by lia. lia.
    + destruct l as [|x l]; [done|]. simpl length in *.
      replace (S (length l) - n + n - 1)%nat with (n - 1)%nat by lia.
      rewrite Nat.div_small by lia.
      replace (S (length l) + n - 1)%nat with (length l + 1 * n)%nat by lia.
      rewrite Nat.div_add by lia. rewrite Nat.div_small; lia.
Qed.

(** When the length is a multiple of [n] every chunk is full. *)
Lemma chunks_full n l m : (0 < n)%nat -> length l = (m * n)%nat ->
  length (chunks n l) = m /\ Forall (fun c => length c = n) (chunks n l).
Proof.
  intros Hn. revert l. induction m as [|m IH]; intros l Hl.
  - destruct l; [|done]. split; [done|constructor].
  - rewrite chunks_unfold; [|done|by destruct l; simpl in *; [lia|]].
    destruct (IH (drop n l)) as [Hm Hf]; [rewrite length_drop; lia|].
    split; [simpl; lia|]. constructor; [|done]. rewrite length_take. lia.
Qed.
End chunks.

(** [Iterator::step_by]: the first element of every chunk. *)
Definition step_by {A} (n : nat) (l : list A) : list A := omap head (chunks n l).

Lemma lookup_omap_all {A B} (f : A -> option B) (l : list A) i :
  Forall (fun x => is_Some (f x)) l -> omap f l !! i = l !! i ≫= f.
Proof.
  intros H. revert i. induction H as [|x l [y Hy] _ IH]; intros i; [done|].
  simpl. rewrite Hy. destruct i; simpl; [done|apply IH].
Qed.

Lemma chunks_nonempty {A} n (l : list A) : (0 < n)%nat ->
  Forall (fun c => c <> []) (chunks n l).
Proof.
  intros Hn. induction l as [|l Hl IH] using (chunks_ind n Hn); [constructor|].
  rewrite chunks_unfold by done. constructor; [|done].
  destruct l, n; simpl; [done..|lia|done].
Qed.

Lemma lookup_step_by {A} n (l : list A) i : (0 < n)%nat ->
  step_by n l !! i = l !! (i * n)%nat.
Proof.
  intros Hn. unfold step_by. rewrite lookup_omap_all.
  - rewrite lookup_chunks by done. case_bool_decide as Hi; simpl.
    + rewrite head_lookup, lookup_take_lt, lookup_drop, Nat.add_0_r by done. done.
    + symmetry. apply lookup_ge_None. lia.
  - eapply Forall_impl; [by apply chunks_nonempty|]. intros [|x c]; simpl; [done|eauto].
Qed.

(** [slice::chunks_exact]: a shorter tail is dropped. *)
Definition chunks_exact {A} (n : nat) (l : list A) : list (list A) :=
  filter (fun c => length c = n) (chunks n l).

(** [dst[off .. off + src.len()].copy_from_slice(src)]. *)
Definition copy_at {E A} (off : Z) (src dst : list A) : res E (list A) :=
  if (off <? 0) || (Z.of_nat (length dst) <? off + Z.of_nat (length src)) then Panic
  else Ok (take (Z.to_nat off) dst ++ src ++ drop (Z.to_nat off + length src) dst).

(** [dst[i] = v]. *)
Definition set_at {E A} (i : Z) (v : A) (dst : list A) : res E (list A) :=
  if (0 <=? i) && (i <? Z.of_nat (length dst)) then Ok (<[Z.to_nat i := v]> dst) else Panic.

(** A loop over a sequence that updates a state and may fail. *)
Fixpoint foldM {E A S} (f : S -> A -> res E S) (s : S) (l : list A) : res E S :=
  match l with
  | [] => Ok s
  | x :: l => s' ← f s x; foldM f s' l
  end.

Lemma copy_at_app {E A} off (pre src mid post : list A) :
  Z.of_nat (length pre) = off -> length src = length mid ->
  copy_at (E := E) off src (pre ++ mid ++ post) = Ok (pre ++ src ++ post).
Proof.
  intros <- Hl. unfold copy_at. rewrite !length_app.
  rewrite (proj2 (Z.ltb_ge _ _)) by lia. rewrite (proj2 (Z.ltb_ge _ _)) by lia. simpl.
  rewrite Nat2Z.id, take_app_length. f_equal. f_equal. f_equal.
  rewrite <- drop_drop, drop_app_length, Hl, drop_app_length. done.
Qed.

Lemma set_at_app {E A} i (pre : list A) (v d : A) (post : list A) :
  Z.of_nat (length pre) = i ->
  set_at (E := E) i v (pre ++ d :: post) = Ok (pre ++ v :: post).
Proof.
  intros <-. unfold set_at. rewrite length_app. simpl.
  rewrite (proj2 (Z.leb_le _ _)) by lia. rewrite (proj2 (Z.ltb_lt _ _)) by lia. simpl.
  rewrite Nat2Z.id. by rewrite insert_app_r_alt, Nat.sub_diag by lia.
Qed.

(** An invariant-style rule for a loop that cannot fail. *)
Lemma foldM_Ok {E A S} (f : S -> A -> res E S) (g : S -> A -> S) l s :
  (forall s x, x ∈ l -> f s x = Ok (g s x)) -> foldM f s l = Ok (fold_left g l s).
Proof.
  revert s. induction l as [|x l IH]; intros s Hf; simpl; [done|].
  rewrite Hf by left. simpl. apply IH. intros. apply Hf. by right.
Qed.

Lemma foldM_app {E A S} (f : S -> A -> res E S) l k s :
  foldM f s (l ++ k) = foldM f s l ≫= fun s' => foldM f s' k.
Proof.
  revert s. induction l as [|x l IH]; intros s; simpl; [done|].
  destruct (f s x); simpl; [apply IH|done|done].
Qed.

(** [Vec::resize(n, d)]. *)
Definition vec_resize {A} (n : nat) (d : A) (l : list A) : list A := resize n d l.

(** [Iterator::position]-free forms used by several components. *)
Definition enumerate {A} (l : list A) : list (nat * A) := imap (fun i x => (i, x)) l.

Lemma lookup_enumerate {A} (l : list A) i :
  enumerate l !! i = (fun x => (i, x)) <$> l !! i.
Proof. unfold enumerate. by rewrite list_lookup_imap. Qed.

Lemma length_enumerate {A} (l : list A) : length (enumerate l) = length l.
Proof. apply length_imap. Qed.

(** [Iterator::sum] over machine integers read as [Z]. *)
Definition sum_Z (l : list Z) : Z := foldr Z.add 0 l.

Lemma sum_Z_app l k : sum_Z (l ++ k) = sum_Z l + sum_Z k.
Proof. unfold sum_Z. induction l; simpl; lia. Qed.

Lemma sum_Z_nonneg l : Forall (fun z => 0 <= z) l -> 0 <= sum_Z l.
Proof. unfold sum_Z. induction 1; simpl; lia. Qed.

Create HintDb melo.
Create Rewrite HintDb melo_rw.
#[export] Hint Resolve to_be_bytes_is_bytes : melo.
#[export] Hint Rewrite @length_to_be_bytes @length_enumerate @lookup_enumerate
  @length_fmap @length_app @length_take @length_drop @length_replicate : melo_rw.
