(* ===== verification/Codec.v ===== *)
(** * The SCALE codec interface

    [parity-scale-codec] ([Encode]/[Decode] and their derive macros) is a crate the
    repository only calls, so it is an interface here: for every type the sources
    encode, a pair of functions, with the round-trip law the sources rely on as a
    class of its own.  [Decode::decode] reads a prefix of its input and leaves the
    rest, so the law is stated for an encoding followed by arbitrary bytes.

    [ref_codec] is a concrete self-delimiting codec for every countable type: the
    law class is inhabited, and statements that assume it can be evaluated. *)

From S2P Require Import Prelude.

(** Values whose integer fields are within their Rust width. *)
Class Wf (A : Type) := wf : A -> Prop.
#[export] Hint Mode Wf ! : typeclass_instances.

Class Codec (A : Type) := {
  scale_encode : A -> list Z;
  scale_decode : list Z -> option (A * list Z)
}.
#[export] Hint Mode Codec ! : typeclass_instances.

Class CodecLaws (A : Type) `{Wf A} `{Codec A} : Prop :=
  scale_decode_encode : forall (a : A) (r : list Z),
    wf a -> scale_decode (scale_encode a ++ r) = Some (a, r).
#[export] Hint Mode CodecLaws ! - - : typeclass_instances.

(** [Decode::decode(&mut &bytes[..]).ok()]: trailing bytes are ignored. *)
Definition decode_all {A} `{Codec A} (bs : list Z) : option A := fst <$> scale_decode bs.

Section laws.
Context {A : Type} `{CodecLaws A}.
Implicit Types a b : A.

Lemma decode_all_encode a : wf a -> decode_all (scale_encode a) = Some a.
Proof.
  intros Ha. unfold decode_all. rewrite <- (app_nil_r (scale_encode a)).
  by rewrite scale_decode_encode.
Qed.

(** No encoding is a proper prefix of another one. *)
Lemma scale_encode_app_inj a b r s : wf a -> wf b ->
  scale_encode a ++ r = scale_encode b ++ s -> a = b /\ r = s.
Proof.
  intros Ha Hb Heq.
  assert (Some (a, r) = Some (b, s)) as [= -> ->]; [|done].
  by rewrite <- !scale_decode_encode, Heq by done.
Qed.

Lemma scale_encode_inj a b : wf a -> wf b ->
  scale_encode a = scale_encode b -> a = b.
Proof.
  intros Ha Hb Heq. eapply (scale_encode_app_inj a b [] []); [done..|].
  by rewrite Heq.
Qed.
End laws.

(** ** A concrete codec for every countable type *)
Module RefCodec.

Fixpoint pos_bytes (p : positive) : list Z :=
  match p with
  | xH => [2]
  | xO p => 0 :: pos_bytes p
  | xI p => 1 :: pos_bytes p
  end.

Fixpoint bytes_pos (l : list Z) : option (positive * list Z) :=
  match l with
  | [] => None
  | b :: l =>
      if b =? 2 then Some (xH, l)
      else if b =? 0 then '(p, r) ← bytes_pos l; Some (xO p, r)
      else if b =? 1 then '(p, r) ← bytes_pos l; Some (xI p, r)
      else None
  end.

Lemma bytes_pos_bytes p r : bytes_pos (pos_bytes p ++ r) = Some (p, r).
Proof. induction p as [p IH|p IH|]; simpl; rewrite ?IH; done. Qed.

Definition ref_codec (A : Type) `{Countable A} : Codec A := {|
  scale_encode a := pos_bytes (encode a);
  scale_decode l := '(p, r) ← bytes_pos l; a ← decode p; Some (a, r)
|}.

Lemma ref_codec_laws (A : Type) `{Countable A} (W : Wf A) :
  @CodecLaws A W (ref_codec A).
Proof.
  intros a r _. simpl. rewrite bytes_pos_bytes. simpl. by rewrite decode_encode.
Qed.
End RefCodec.
