(* ===== verification/Hex.v ===== *)
(** * Hexadecimal strings

    What the sources use of the crate [hex]: lower-case encoding, decoding of literals, and
    the fallible decoding into an array. *)

From S2P Require Import Prelude.

Definition hex_char (n : Z) : Ascii.ascii :=
  Ascii.ascii_of_N (Z.to_N (if n <? 10 then 48 + n else 87 + n)).
(** [hex::encode]: two lower-case digits per byte. *)
Fixpoint hex_encode (bs : bytes) : string :=
  match bs with
  | [] => ""
  | b :: bs => String.String (hex_char (b / 16)) (String.String (hex_char (b mod 16)) (hex_encode bs))
  end.
(** [hex!]: two digits per byte. *)
Definition hex_digit (c : Ascii.ascii) : Z :=
  let n := Z.of_N (Ascii.N_of_ascii c) in if n <? 58 then n - 48 else n - 87.
Fixpoint hex (s : string) : bytes :=
  match s with
  | String.String a (String.String b s) => (16 * hex_digit a + hex_digit b) :: hex s
  | _ => []
  end.

(** [FromHex for [u8; N]]: both cases are digits; the length is checked first. *)
Definition hex_value (c : Ascii.ascii) : option Z :=
  let n := Z.of_N (Ascii.N_of_ascii c) in
  if (48 <=? n) && (n <=? 57) then Some (n - 48)
  else if (97 <=? n) && (n <=? 102) then Some (n - 87)
  else if (65 <=? n) && (n <=? 70) then Some (n - 55)
  else None.
Fixpoint hex_decode (s : string) : option bytes :=
  match s with
  | EmptyString => Some []
  | String.String a (String.String b s) =>
      h ← hex_value a; l ← hex_value b; bs ← hex_decode s; Some (16 * h + l :: bs)
  | String.String _ EmptyString => None
  end.
Definition hex_decode_array (N : nat) (s : string) : option bytes :=
  bs ← hex_decode s; if (length bs =? N)%nat then Some bs else None.

(** ** What is encoded is read back *)
Lemma hex_digit_char n : 0 <= n < 16 -> hex_digit (hex_char n) = n.
Proof.
  intros Hn. assert (Hc : Forall (fun n => hex_digit (hex_char n) = n) (Z.of_nat <$> seq 0 16))
    by (apply (bool_decide_unpack _); vm_compute; exact I).
  rewrite Forall_forall in Hc. apply Hc, list_elem_of_fmap. exists (Z.to_nat n).
  split; [lia|]. apply elem_of_seq. lia.
Qed.

Lemma hex_roundtrip bs : is_bytes bs -> hex (hex_encode bs) = bs.
Proof.
  induction 1 as [|b bs Hb _ IH]; [done|]. cbn [hex_encode hex]. unfold in_u in Hb. simpl in Hb.
  rewrite !hex_digit_char, IH; [|pose proof (Z.mod_pos_bound b 16); lia|].
  - f_equal. pose proof (Z.div_mod b 16). lia.
  - split; [apply Z.div_pos; lia|apply Z.div_lt_upper_bound; lia].
Qed.

Lemma hex_value_char n : 0 <= n < 16 -> hex_value (hex_char n) = Some n.
Proof.
  intros Hn. assert (Hc : Forall (fun n => hex_value (hex_char n) = Some n) (Z.of_nat <$> seq 0 16))
    by by_decision.
  rewrite Forall_forall in Hc. apply Hc, list_elem_of_fmap. exists (Z.to_nat n).
  split; [lia|]. apply elem_of_seq. lia.
Qed.

Lemma hex_decode_encode bs : is_bytes bs -> hex_decode (hex_encode bs) = Some bs.
Proof.
  induction 1 as [|b bs Hb _ IH]; [done|]. cbn [hex_encode hex_decode]. unfold in_u in Hb. simpl in Hb.
  rewrite !hex_value_char, IH; [|split; [apply Z.div_pos|apply Z.div_lt_upper_bound]; lia
    |pose proof (Z.mod_pos_bound b 16); lia].
  simpl. do 2 f_equal. pose proof (Z.div_mod b 16). lia.
Qed.

Lemma hex_decode_array_encode bs : is_bytes bs -> hex_decode_array (length bs) (hex_encode bs) = Some bs.
Proof. intros Hb. unfold hex_decode_array. rewrite hex_decode_encode by done. simpl. by rewrite Nat.eqb_refl. Qed.
