(* ===== verification/DasDb.v ===== *)
(** * Key-value stores ([crates/das-db])

    The trait [DasKv] is the class of the same name; what its documentation
    promises is [DasKvLaws].  [MockDb] is the in-memory implementation and
    [OffchainKv] the one over the node's off-chain storage, which prefixes every
    key.  The host functions [sp_io::offchain::local_storage_*] are the interface
    [HostStorage].  Clients (reliability records, the proof-of-space index, the
    sampling client, the report lock) are verified against [DasKvLaws] only. *)

From S2P Require Import Prelude.


(** The trait: [&mut self] becomes state passing; [get] and [contains] are reads
    in every implementation. *)
Class DasKv (DB : Type) := {
  kv_get : bytes -> DB -> option bytes;
  kv_set : bytes -> bytes -> DB -> DB;
  kv_remove : bytes -> DB -> DB;
  kv_contains : bytes -> DB -> bool;
  kv_compare_and_set : bytes -> option bytes -> bytes -> DB -> bool * DB
}.
#[export] Hint Mode DasKv ! : typeclass_instances.

(** The contract the trait documents. *)
Class DasKvLaws (DB : Type) `{DasKv DB} : Prop := {
  kv_get_set_eq : forall k v (db : DB), kv_get k (kv_set k v db) = Some v;
  kv_get_set_ne : forall k k' v (db : DB), k <> k' -> kv_get k' (kv_set k v db) = kv_get k' db;
  kv_get_remove_eq : forall k (db : DB), kv_get k (kv_remove k db) = None;
  kv_get_remove_ne : forall k k' (db : DB), k <> k' -> kv_get k' (kv_remove k db) = kv_get k' db;
  kv_contains_spec : forall k (db : DB), kv_contains k db = bool_decide (is_Some (kv_get k db));
  kv_cas_hit : forall k old new (db : DB), kv_get k db = old ->
    kv_compare_and_set k old new db = (true, kv_set k new db);
  kv_cas_miss : forall k old new (db : DB), kv_get k db <> old ->
    kv_compare_and_set k old new db = (false, db)
}.
#[export] Hint Mode DasKvLaws ! - : typeclass_instances.

Lemma kv_get_set {DB} `{DasKvLaws DB} k k' v (db : DB) :
  kv_get k' (kv_set k v db) = if decide (k = k') then Some v else kv_get k' db.
Proof.
  case_decide; subst; [apply kv_get_set_eq | by apply kv_get_set_ne].
Qed.

(** ** [mock_db.rs] *)
Module MockDb.

Record t := mk { storage : gmap bytes bytes }.

Definition new : t := mk ∅.

Definition get (key : bytes) (self : t) : option bytes := storage self !! key.

Definition set (key value : bytes) (self : t) : t := mk (<[key := value]> (storage self)).

Definition remove (key : bytes) (self : t) : t := mk (delete key (storage self)).

Definition contains (key : bytes) (self : t) : bool :=
  match storage self !! key with Some _ => true | None => false end.

Definition compare_and_set (key : bytes) (old_value : option bytes) (new_value : bytes)
    (self : t) : bool * t :=
  match get key self, old_value with
  | Some current_value, Some old_value =>
      if bool_decide (current_value = old_value)
      then (true, set key new_value self)
      else (false, self)
  | None, None => (true, set key new_value self)
  | _, _ => (false, self)
  end.

#[export] Instance kv : DasKv t := {|
  kv_get := get; kv_set := set; kv_remove := remove;
  kv_contains := contains; kv_compare_and_set := compare_and_set
|}.

#[export] Instance kv_laws : DasKvLaws t.
Proof.
  split; intros; simpl in *; unfold compare_and_set, contains, get, set, remove in *; simpl in *.
  - by rewrite lookup_insert_eq.
  - by rewrite lookup_insert_ne.
  - by rewrite lookup_delete_eq.
  - by rewrite lookup_delete_ne.
  - destruct (storage db !! k); [by rewrite bool_decide_true by eauto|].
    rewrite bool_decide_false; [done|]. by intros [? ?].
  - subst. destruct (storage db !! k); simpl; [by rewrite bool_decide_true|done].
  - destruct (storage db !! k), old; simpl; try done. rewrite bool_decide_false; naive_solver.
Qed.
End MockDb.
Export (hints) MockDb.

(** ** Host storage

    [sp_io::offchain::local_storage_get/set/clear/compare_and_set] with
    [StorageKind::PERSISTENT]. *)
Class HostStorage (H : Type) := {
  local_storage_get : bytes -> H -> option bytes;
  local_storage_set : bytes -> bytes -> H -> H;
  local_storage_clear : bytes -> H -> H;
  local_storage_compare_and_set : bytes -> option bytes -> bytes -> H -> bool * H
}.

Class HostStorageLaws (H : Type) `{HostStorage H} : Prop := {
  host_get_set_eq : forall k v (h : H), local_storage_get k (local_storage_set k v h) = Some v;
  host_get_set_ne : forall k k' v (h : H), k <> k' ->
    local_storage_get k' (local_storage_set k v h) = local_storage_get k' h;
  host_get_clear_eq : forall k (h : H), local_storage_get k (local_storage_clear k h) = None;
  host_get_clear_ne : forall k k' (h : H), k <> k' ->
    local_storage_get k' (local_storage_clear k h) = local_storage_get k' h;
  host_cas_hit : forall k old new (h : H), local_storage_get k h = old ->
    local_storage_compare_and_set k old new h = (true, local_storage_set k new h);
  host_cas_miss : forall k old new (h : H), local_storage_get k h <> old ->
    local_storage_compare_and_set k old new h = (false, h)
}.

(** ** [offchain.rs] *)
Module OffchainKv.

(** b"das_default_prefix" *)
Definition DEFAULT_PREFIX : bytes :=
  [100; 97; 115; 95; 100; 101; 102; 97; 117; 108; 116; 95; 112; 114; 101; 102; 105; 120].

Section offchain.
Context {H : Type} `{HostStorage H}.

(** The struct holds the prefix; the storage itself is the host's, threaded
    alongside. *)
Record t := mk { prefix : bytes; host : H }.

Definition new (prefix : option bytes) (h : H) : t :=
  mk (default DEFAULT_PREFIX prefix) h.

Definition get_prefixed_key (self : t) (key : bytes) : bytes := prefix self ++ key.

Definition get (key : bytes) (self : t) : option bytes :=
  local_storage_get (get_prefixed_key self key) (host self).

Definition set (key value : bytes) (self : t) : t :=
  mk (prefix self) (local_storage_set (get_prefixed_key self key) value (host self)).

Definition remove (key : bytes) (self : t) : t :=
  mk (prefix self) (local_storage_clear (get_prefixed_key self key) (host self)).

Definition contains (key : bytes) (self : t) : bool :=
  match get key self with Some _ => true | None => false end.

Definition compare_and_set (key : bytes) (old_value : option bytes) (new_value : bytes)
    (self : t) : bool * t :=
  let '(b, h) := local_storage_compare_and_set (get_prefixed_key self key)
                   old_value new_value (host self) in
  (b, mk (prefix self) h).

#[export] Instance kv : DasKv t := {|
  kv_get := get; kv_set := set; kv_remove := remove;
  kv_contains := contains; kv_compare_and_set := compare_and_set
|}.

#[export] Instance kv_laws `{!HostStorageLaws H} : DasKvLaws t.
Proof.
  split; intros; simpl in *; unfold compare_and_set, contains, get, set, remove,
    get_prefixed_key in *; simpl in *.
  - by rewrite host_get_set_eq.
  - rewrite host_get_set_ne; [done|]. by intros ?%(inj _).
  - by rewrite host_get_clear_eq.
  - rewrite host_get_clear_ne; [done|]. by intros ?%(inj _).
  - destruct (local_storage_get _ _); [by rewrite bool_decide_true by eauto|].
    rewrite bool_decide_false; [done|]. by intros [? ?].
  - by rewrite host_cas_hit.
  - rewrite host_cas_miss by done. by destruct db.
Qed.
End offchain.
Arguments t : clear implicits.
End OffchainKv.
Export (hints) OffchainKv.

(** ** [offchain_outside.rs]

    The same store seen from the node: the struct owns a handle to the off-chain
    database of the backend, whose operations are those of the host interface. *)
Module OffchainKvOutside.
Section outside.
Context {D : Type} `{HostStorage D}.

Record t := mk { db : D; prefix : bytes }.

Definition get_prefixed_key (self : t) (key : bytes) : bytes := prefix self ++ key.

Definition new (db : D) (prefix : option bytes) : t :=
  mk db (default OffchainKv.DEFAULT_PREFIX prefix).

Definition get (key : bytes) (self : t) : option bytes :=
  local_storage_get (get_prefixed_key self key) (db self).

Definition set (key value : bytes) (self : t) : t :=
  mk (local_storage_set (get_prefixed_key self key) value (db self)) (prefix self).

Definition remove (key : bytes) (self : t) : t :=
  mk (local_storage_clear (get_prefixed_key self key) (db self)) (prefix self).

Definition contains (key : bytes) (self : t) : bool :=
  match get key self with Some _ => true | None => false end.

Definition compare_and_set (key : bytes) (old_value : option bytes) (new_value : bytes)
    (self : t) : bool * t :=
  let '(b, d) := local_storage_compare_and_set (get_prefixed_key self key)
                   old_value new_value (db self) in
  (b, mk d (prefix self)).

#[export] Instance kv : DasKv t := {|
  kv_get := get; kv_set := set; kv_remove := remove;
  kv_contains := contains; kv_compare_and_set := compare_and_set
|}.
End outside.
Arguments t : clear implicits.
End OffchainKvOutside.
Export (hints) OffchainKvOutside.

(** ** One database, two views *)
Section views.
Context {H : Type} `{HostStorage H}.

(** The runtime's view and the node's view of the same host storage. *)
Definition inside (o : OffchainKvOutside.t H) : OffchainKv.t H :=
  OffchainKv.mk (OffchainKvOutside.prefix o) (OffchainKvOutside.db o).

Lemma inside_ops (o : OffchainKvOutside.t H) k v old :
  kv_get k o = kv_get k (inside o) /\
  inside (kv_set k v o) = kv_set k v (inside o) /\
  inside (kv_remove k o) = kv_remove k (inside o) /\
  kv_contains k o = kv_contains k (inside o) /\
  (let '(b, o') := kv_compare_and_set k old v o in (b, inside o'))
  = kv_compare_and_set k old v (inside o).
Proof.
  split_and!; try reflexivity. simpl.
  unfold OffchainKvOutside.compare_and_set, OffchainKv.compare_and_set,
    OffchainKvOutside.get_prefixed_key, OffchainKv.get_prefixed_key, inside. simpl.
  by destruct (local_storage_compare_and_set _ _ _ _).
Qed.

(** What the node writes the runtime reads: with the default prefix on both
    sides, a value set through [OffchainKvOutside] is the value [OffchainKv] returns
    for the same key, every other key keeps its value, and neither side touches host
    keys outside the prefix. *)
Theorem outside_set_inside_get `{!HostStorageLaws H} (h : H) k v k' raw :
  let o := OffchainKvOutside.new h None in
  let h' := OffchainKvOutside.db (OffchainKvOutside.set k v o) in
  OffchainKv.get k' (OffchainKv.new None h')
  = (if decide (k = k') then Some v else OffchainKv.get k' (OffchainKv.new None h)) /\
  (~ OffchainKv.DEFAULT_PREFIX `prefix_of` raw ->
     local_storage_get raw h' = local_storage_get raw h).
Proof.
  intros o h'. split.
  - unfold h', OffchainKv.get, OffchainKv.get_prefixed_key.
    cbn [OffchainKv.new OffchainKv.prefix OffchainKv.host OffchainKvOutside.set
         OffchainKvOutside.db default]. case_decide as Hk.
    + subst k'. by rewrite host_get_set_eq.
    + rewrite host_get_set_ne; [done|]. intros Heq. by apply (app_inv_head OffchainKv.DEFAULT_PREFIX) in Heq.
  - intros Hp. unfold h'. simpl. rewrite host_get_set_ne; [done|].
    intros <-. apply Hp. by eexists.
Qed.
End views.

(** ** A concrete host *)
Definition map_host : HostStorage (gmap bytes bytes) := {|
  local_storage_get k h := h !! k;
  local_storage_set k v h := <[k := v]> h;
  local_storage_clear k h := delete k h;
  local_storage_compare_and_set k old new h :=
    if bool_decide (h !! k = old) then (true, <[k := new]> h) else (false, h)
|}.
Lemma map_host_laws : @HostStorageLaws _ map_host.
Proof.
  split; intros; simpl.
  - apply lookup_insert_eq.
  - by apply lookup_insert_ne.
  - apply lookup_delete_eq.
  - by apply lookup_delete_ne.
  - by rewrite bool_decide_true.
  - by rewrite bool_decide_false.
Qed.

Section views_witness.
#[local] Existing Instances map_host map_host_laws.
#[local] Definition empty_host : gmap bytes bytes := ∅.

Lemma outside_set_inside_get_witness :
  let h' := OffchainKvOutside.db
              (OffchainKvOutside.set [1] [2] (OffchainKvOutside.new empty_host None)) in
  OffchainKv.get [1] (OffchainKv.new None h') = Some [2] /\ h' !! [1] = None.
Proof.
  intros h'. destruct (outside_set_inside_get empty_host [1] [2] [1] [1]) as [Hg Hr]. split.
  - exact Hg.
  - apply Hr. intros [k Hk]. discriminate Hk.
Defined.
End views_witness.
