(* ===== verification/SqliteDb.v ===== *)
(** * The SQLite store ([crates/das-db/src/sqlite.rs])

    [SqliteDasDb] keeps the key-value pairs of the light client and of the farmer in one
    table.  [rusqlite] and SQLite are the interface [Sqlite], one operation per statement
    the source issues; [SqliteLaws] is what the SQL of a table with a primary key means.
    The refinement theorem says that the store, behind its mutex, answers every sequence
    of operations as the in-memory [MockDb] does. *)

From S2P Require Import Prelude DasDb.

Class Sqlite (Conn : Type) := {
  (* Connection::open *)
  sql_open : string -> res string Conn;
  (* CREATE TABLE IF NOT EXISTS melodot_das_kvs (key BLOB PRIMARY KEY, value BLOB NOT NULL) *)
  sql_create_table : Conn -> res string unit * Conn;
  (* SELECT value FROM melodot_das_kvs WHERE key = ?, as query_row(..).optional() *)
  sql_select_value : bytes -> Conn -> res string (option bytes);
  (* SELECT COUNT of the rows WHERE key = ? *)
  sql_count : bytes -> Conn -> res string Z;
  (* INSERT OR REPLACE INTO melodot_das_kvs (key, value) VALUES (?,?) *)
  sql_insert_or_replace : bytes -> bytes -> Conn -> res string unit * Conn;
  (* INSERT INTO melodot_das_kvs (key, value) VALUES (?,?) *)
  sql_insert : bytes -> bytes -> Conn -> res string unit * Conn;
  (* DELETE FROM melodot_das_kvs WHERE key = ? *)
  sql_delete : bytes -> Conn -> res string unit * Conn
}.

(** [Result::expect] of a statement that changes the table. *)
Definition expect_st {S A} (m : stM string S A) : stM string S A := fun s =>
  match m s with (Err _, s') => (Panic, s') | out => out end.

Module SqliteDasDb.
Section sqlite.
Context {Conn : Type} `{Sqlite Conn}.

(** [Mutex<Connection>]: a panic while the guard is held poisons the mutex. *)
Record t := mk { conn : Conn; poisoned : bool }.

(** [self.conn.lock().unwrap()] and the code up to the end of the guard's scope. *)
Definition locked {A} (f : stM string Conn A) : stM string t A := fun self =>
  if poisoned self then (Panic, self)
  else match f (conn self) with
       | (Panic, c) => (Panic, mk c true)
       | (r, c) => (r, mk c false)
       end.

Definition new (db_path : string) : res string t :=
  conn ← sql_open db_path;
  match sql_create_table conn with
  | (Ok _, conn) => Ok (mk conn false)
  | (Err e, _) => Err e
  | (Panic, _) => Panic
  end.

Definition default : res string t := res_unwrap (new "./melodot_light_client.sqlite3"%string).

(** The queries, with [expect]. *)
Definition select_value (key : bytes) : stM string Conn (option bytes) := fun conn =>
  (res_unwrap (sql_select_value key conn), conn).
Definition count (key : bytes) : stM string Conn Z := fun conn => (res_unwrap (sql_count key conn), conn).

Definition get (key : bytes) : stM string t (option bytes) := locked (select_value key).

Definition set (key value : bytes) : stM string t unit :=
  locked (expect_st (sql_insert_or_replace key value)).

Definition remove (key : bytes) : stM string t unit := locked (expect_st (sql_delete key)).

Definition contains (key : bytes) : stM string t bool :=
  locked (count ← count key; mret (0 <? count)).

Definition compare_and_set (key : bytes) (old_value : option bytes) (new_value : bytes)
    : stM string t bool :=
  locked
    match old_value with
    | Some old_val =>
        current ← select_value key;
        if bool_decide (current = Some old_val)
        then _ ← expect_st (sql_insert_or_replace key new_value); mret true
        else mret false
    | None =>
        count ← count key;
        if count =? 0
        then _ ← expect_st (sql_insert key new_value); mret true
        else mret false
    end.
End sqlite.
Arguments t : clear implicits.
End SqliteDasDb.

(** ** The contract *)

(** On a usable connection [rows] is the table: a key occurs in at most one row, [INSERT]
    of a key that is there violates the primary key. *)
Class SqliteLaws (Conn : Type) `{Sqlite Conn} := {
  rows : Conn -> gmap bytes bytes;
  usable : Conn -> Prop;
  select_usable : forall k c, usable c -> sql_select_value k c = Ok (rows c !! k);
  count_usable : forall k c, usable c ->
    sql_count k c = Ok (if decide (is_Some (rows c !! k)) then 1 else 0);
  replace_usable : forall k v c, usable c -> exists c',
    sql_insert_or_replace k v c = (Ok tt, c') /\ usable c' /\ rows c' = <[k := v]> (rows c);
  insert_usable : forall k v c, usable c -> rows c !! k = None -> exists c',
    sql_insert k v c = (Ok tt, c') /\ usable c' /\ rows c' = <[k := v]> (rows c);
  insert_present : forall k v c, usable c -> is_Some (rows c !! k) ->
    is_ok (sql_insert k v c).1 = false;
  delete_usable : forall k c, usable c -> exists c',
    sql_delete k c = (Ok tt, c') /\ usable c' /\ rows c' = delete k (rows c)
}.

(** ** Operations as data *)
Inductive KvOp :=
| OpGet (key : bytes)
| OpSet (key value : bytes)
| OpRemove (key : bytes)
| OpContains (key : bytes)
| OpCompareAndSet (key : bytes) (old_value : option bytes) (new_value : bytes).
Inductive KvOut := OutValue (v : option bytes) | OutUnit | OutBool (b : bool).

(** A store with the trait's signature. *)
Definition kv_step `{DasKv DB} (op : KvOp) (db : DB) : KvOut * DB :=
  match op with
  | OpGet k => (OutValue (kv_get k db), db)
  | OpSet k v => (OutUnit, kv_set k v db)
  | OpRemove k => (OutUnit, kv_remove k db)
  | OpContains k => (OutBool (kv_contains k db), db)
  | OpCompareAndSet k old new => let '(b, db) := kv_compare_and_set k old new db in (OutBool b, db)
  end.
Fixpoint kv_run `{DasKv DB} (ops : list KvOp) (db : DB) : list KvOut * DB :=
  match ops with
  | [] => ([], db)
  | op :: ops =>
      let '(out, db) := kv_step op db in
      let '(outs, db) := kv_run ops db in (out :: outs, db)
  end.

Section refinement.
Context {Conn : Type} `{SqliteLaws Conn}.
Implicit Types (db : SqliteDasDb.t Conn) (m : MockDb.t).

Definition sqlite_step (op : KvOp) : stM string (SqliteDasDb.t Conn) KvOut :=
  match op with
  | OpGet k => v ← SqliteDasDb.get k; mret (OutValue v)
  | OpSet k v => _ ← SqliteDasDb.set k v; mret OutUnit
  | OpRemove k => _ ← SqliteDasDb.remove k; mret OutUnit
  | OpContains k => b ← SqliteDasDb.contains k; mret (OutBool b)
  | OpCompareAndSet k old new => b ← SqliteDasDb.compare_and_set k old new; mret (OutBool b)
  end.
Fixpoint sqlite_run (ops : list KvOp) : stM string (SqliteDasDb.t Conn) (list KvOut) :=
  match ops with
  | [] => mret []
  | op :: ops => out ← sqlite_step op; outs ← sqlite_run ops; mret (out :: outs)
  end.

(** The simulation: an open mutex over a usable connection whose table is the map. *)
Record simulates db m : Prop := {
  sim_open : SqliteDasDb.poisoned db = false;
  sim_usable : usable (SqliteDasDb.conn db);
  sim_rows : rows (SqliteDasDb.conn db) = MockDb.storage m
}.

Lemma sqlite_step_simulates op db m : simulates db m ->
  exists db', sqlite_step op db = (Ok (kv_step op m).1, db') /\ simulates db' (kv_step op m).2.
Proof.
  destruct db as [c p], m as [s]. intros [Hp Hu Hr]. simpl in Hp, Hu, Hr. subst p s.
  assert (Hsim : forall c', usable c' -> simulates (SqliteDasDb.mk c' false) (MockDb.mk (rows c')))
    by by intros.
  destruct op as [k|k v|k|k|k old new]; simpl;
    unfold SqliteDasDb.get, SqliteDasDb.set, SqliteDasDb.remove, SqliteDasDb.contains,
      SqliteDasDb.compare_and_set, SqliteDasDb.locked, SqliteDasDb.select_value, SqliteDasDb.count,
      expect_st, mbind, stM_bind, mret, stM_ret; simpl.
  - rewrite select_usable by done. simpl. eauto.
  - destruct (replace_usable k v c Hu) as (c' & -> & Hu' & Hr'). unfold MockDb.set. simpl. rewrite <- Hr'. eauto.
  - destruct (delete_usable k c Hu) as (c' & -> & Hu' & Hr'). unfold MockDb.remove. simpl. rewrite <- Hr'. eauto.
  - rewrite count_usable by done. simpl. exists (SqliteDasDb.mk c false). split; [|by auto].
    unfold MockDb.contains. simpl. do 3 f_equal. destruct (rows c !! k) as [v|].
    + by rewrite decide_True by eauto.
    + rewrite decide_False; [done|]. by intros [? ?].
  - unfold MockDb.compare_and_set, MockDb.get, MockDb.set. simpl. destruct old as [old|].
    + rewrite select_usable by done. simpl. destruct (rows c !! k) as [v|] eqn:Hk.
      * destruct (decide (v = old)) as [->|Hne].
        -- rewrite !bool_decide_true by done.
           destruct (replace_usable k new c Hu) as (c' & -> & Hu' & Hr'). rewrite <- Hr'. eauto.
        -- rewrite !bool_decide_false by congruence. eauto.
      * rewrite bool_decide_false by done. eauto.
    + rewrite count_usable by done. simpl. destruct (rows c !! k) as [v|] eqn:Hk.
      * rewrite decide_True by eauto. simpl. eauto.
      * rewrite decide_False by (by intros [? ?]). simpl.
        destruct (insert_usable k new c Hu Hk) as (c' & -> & Hu' & Hr'). rewrite <- Hr'. eauto.
Qed.

(** C19: The SQLite store is the in-memory store: on a usable connection every sequence of
    [get], [set], [remove], [contains] and [compare_and_set] completes without a panic,
    gives exactly the answers of [MockDb], and leaves the table equal to the map, the mutex
    unpoisoned and the connection usable. *)
Theorem sqlite_refines_mock ops : forall db m, simulates db m ->
  exists db', sqlite_run ops db = (Ok (kv_run ops m).1, db') /\ simulates db' (kv_run ops m).2.
Proof.
  induction ops as [|op ops IH]; intros db m Hs; [by exists db|].
  destruct (sqlite_step_simulates op db m Hs) as (db1 & H1 & Hs1).
  destruct (IH db1 _ Hs1) as (db2 & H2 & Hs2). exists db2.
  cbn [sqlite_run kv_run]. unfold mbind, stM_bind. rewrite H1, H2.
  destruct (kv_step op m) as [out m1]. simpl in *. by destruct (kv_run ops m1).
Qed.
End refinement.

(** ** A table in memory; [None] is a database file without the table *)
Definition mem_sqlite : Sqlite (option (gmap bytes bytes)) := {|
  sql_open _ := Ok None;
  sql_create_table c := (Ok tt, Some (default ∅ c));
  sql_select_value k c := match c with Some m => Ok (m !! k) | None => Err "no such table"%string end;
  sql_count k c := match c with
                   | Some m => Ok (if decide (is_Some (m !! k)) then 1 else 0)
                   | None => Err "no such table"%string
                   end;
  sql_insert_or_replace k v c := match c with
                                 | Some m => (Ok tt, Some (<[k := v]> m))
                                 | None => (Err "no such table"%string, c)
                                 end;
  sql_insert k v c := match c with
                      | Some m => if decide (is_Some (m !! k))
                                  then (Err "UNIQUE constraint failed"%string, c)
                                  else (Ok tt, Some (<[k := v]> m))
                      | None => (Err "no such table"%string, c)
                      end;
  sql_delete k c := match c with
                    | Some m => (Ok tt, Some (delete k m))
                    | None => (Err "no such table"%string, c)
                    end
|}.

Section sqlite_witness.
#[local] Existing Instance mem_sqlite.
#[local] Instance mem_sqlite_laws : SqliteLaws (option (gmap bytes bytes)).
Proof.
  refine {| rows := default ∅; usable := is_Some |}; intros until c; intros [m ->]; simpl; try done.
  - by eexists.
  - intros Hk. rewrite decide_False by (rewrite Hk; by intros [? ?]). by eexists.
  - intros Hk. by rewrite decide_True.
  - by eexists.
Defined.

Lemma sqlite_refines_mock_witness : exists db db',
  SqliteDasDb.new "db"%string = Ok db /\
  sqlite_run [OpSet [1] [2]; OpCompareAndSet [1] None [3]; OpCompareAndSet [1] (Some [2]) [4];
              OpGet [1]; OpRemove [1]; OpCompareAndSet [1] None [5]; OpContains [1]] db
  = (Ok [OutUnit; OutBool false; OutBool true; OutValue (Some [4]); OutUnit; OutBool true;
         OutBool true], db').
Proof.
  exists (SqliteDasDb.mk (Some ∅) false).
  destruct (sqlite_refines_mock
    [OpSet [1] [2]; OpCompareAndSet [1] None [3]; OpCompareAndSet [1] (Some [2]) [4];
     OpGet [1]; OpRemove [1]; OpCompareAndSet [1] None [5]; OpContains [1]]
    (SqliteDasDb.mk (Some ∅) false) MockDb.new) as (db' & Hr & _).
  - split; [reflexivity|by eexists|reflexivity].
  - exists db'. split; [reflexivity|]. exact Hr.
Defined.
End sqlite_witness.
