(* ===== verification/KzgLib.v ===== *)
(** * The cryptographic libraries the sources call

    [rust-kzg-blst] / [kzg] (field and curve elements, FFT settings, KZG proofs,
    FK20), BLAKE2, ChaCha8 and the random number generator are crates outside the
    repository.  They are interfaces here: a class of operations that every
    definition using them takes as an argument, and one class per group of
    documented facts a theorem may assume.  Concrete instances at the end of the
    files that assume them show that the facts can hold. *)

From S2P Require Import Prelude.

(** Lengths of the canonical encodings ([kzg::eip_4844]). *)
Definition BYTES_PER_G1 : nat := 48.
Definition BYTES_PER_G2 : nat := 96.

Class KzgLib := {
  FsFr : Type;
  FsG1 : Type;
  FsG2 : Type;
  FsFFTSettings : Type;
  FsKZGSettings : Type;
  FsFK20MultiSettings : Type;
  FsFr_eq_dec :: EqDecision FsFr;
  FsG1_eq_dec :: EqDecision FsG1;
  (* kzg::Fr, kzg::G1, kzg::G2 *)
  fr_default : FsFr;
  fr_zero : FsFr;
  g1_identity : FsG1;
  g1_is_valid : FsG1 -> bool;
  fr_to_bytes : FsFr -> bytes;
  fr_from_bytes : bytes -> res string FsFr;
  g1_to_bytes : FsG1 -> bytes;
  g1_from_bytes : bytes -> res string FsG1;
  g2_from_bytes : bytes -> res string FsG2;
  (* FsFFTSettings *)
  fft_settings_new : Z -> res string FsFFTSettings;
  fs_max_width : FsFFTSettings -> Z;
  fft_fr : FsFFTSettings -> list FsFr -> bool -> res string (list FsFr);
  fft_g1 : FsFFTSettings -> list FsG1 -> bool -> res string (list FsG1);
  das_fft_extension : FsFFTSettings -> list FsFr -> res string (list FsFr);
  (* utils::reverse_bit_order *)
  reverse_bit_order : forall {A : Type}, list A -> list A;
  (* FsPoly *)
  poly_new : Z -> res string (list FsFr);
  poly_eval : list FsFr -> FsFr -> FsFr;
  recover_poly_from_samples :
    list (option FsFr) -> FsFFTSettings -> res string (list FsFr);
  recover_poly_coeffs_from_samples :
    list (option FsFr) -> FsFFTSettings -> res string (list FsFr);
  (* FsKZGSettings *)
  kzg_settings : list FsG1 -> list FsG2 -> FsFFTSettings -> FsKZGSettings;
  ks_fs : FsKZGSettings -> FsFFTSettings;
  ks_get_expanded_roots_of_unity_at : FsKZGSettings -> Z -> res string FsFr;
  commit_to_poly : FsKZGSettings -> list FsFr -> res string FsG1;
  compute_proof_single : FsKZGSettings -> list FsFr -> FsFr -> res string FsG1;
  ks_check_proof_single : FsKZGSettings -> FsG1 -> FsG1 -> FsFr -> FsFr -> res string bool;
  ks_compute_proof_multi : FsKZGSettings -> list FsFr -> FsFr -> nat -> res string FsG1;
  ks_check_proof_multi :
    FsKZGSettings -> FsG1 -> FsG1 -> FsFr -> list FsFr -> nat -> res string bool;
  verify_kzg_proof_batch :
    list FsG1 -> list FsFr -> list FsFr -> list FsG1 -> FsKZGSettings -> bool;
  (* FsFK20MultiSettings *)
  fk20_new : FsKZGSettings -> nat -> nat -> res string FsFK20MultiSettings;
  fk20_kzg_settings : FsFK20MultiSettings -> FsKZGSettings;
  fk20_data_availability : FsFK20MultiSettings -> list FsFr -> res string (list FsG1);
  (* eip_4844: the Fiat-Shamir challenge *)
  CHALLENGE_INPUT_SIZE : nat;
  FIAT_SHAMIR_PROTOCOL_DOMAIN : bytes;
  bytes_of_uint64 : Z -> bytes;
  kzg_hash : bytes -> bytes;
  hash_to_bls_field : bytes -> FsFr
}.

(** Group elements have a canonical 48-byte form. *)
Class G1BytesLaws `{KzgLib} : Prop := {
  length_g1_to_bytes : forall g, length (g1_to_bytes g) = BYTES_PER_G1;
  g1_from_to_bytes : forall g, g1_from_bytes (g1_to_bytes g) = Ok g
}.

(** Scalars have a canonical 32-byte little-endian form; a value below [2^248] is
    below the modulus. *)
Class FrBytesLaws `{KzgLib} : Prop := {
  length_fr_to_bytes : forall r, length (fr_to_bytes r) = 32%nat;
  fr_from_to_bytes : forall r, fr_from_bytes (fr_to_bytes r) = Ok r;
  fr_from_bytes_safe : forall bs, length bs = 31%nat -> is_bytes bs ->
    exists r, fr_from_bytes (bs ++ [0]) = Ok r /\ fr_to_bytes r = bs ++ [0]
}.

(** The bit-reversal permutation: a natural involution on slices. *)
Class BitOrderLaws `{KzgLib} : Prop := {
  reverse_bit_order_involutive : forall A (l : list A),
    reverse_bit_order (reverse_bit_order l) = l;
  reverse_bit_order_fmap : forall A B (f : A -> B) (l : list A),
    reverse_bit_order (f <$> l) = f <$> reverse_bit_order l;
  reverse_bit_order_perm : forall A (l : list A), reverse_bit_order l ≡ₚ l
}.

(** An honest opening of a committed polynomial at a point is accepted, and what the
    library computes are points of the right subgroup. *)
Class KzgSingleLaws `{KzgLib} : Prop := {
  check_proof_single_complete : forall ks p c x pr,
    commit_to_poly ks p = Ok c -> compute_proof_single ks p x = Ok pr ->
    ks_check_proof_single ks c pr x (poly_eval p x) = Ok true;
  commit_to_poly_valid : forall ks p c, commit_to_poly ks p = Ok c -> g1_is_valid c = true;
  compute_proof_single_valid : forall ks p x pr,
    compute_proof_single ks p x = Ok pr -> g1_is_valid pr = true
}.

(** The batch check accepts when every single check does. *)
Class KzgBatchLaws `{KzgLib} : Prop :=
  verify_kzg_proof_batch_complete : forall ks (os : list (FsG1 * FsFr * FsFr * FsG1)),
    Forall (fun '(c, z, y, pr) => ks_check_proof_single ks c pr z y = Ok true) os ->
    verify_kzg_proof_batch ((fun '(c, _, _, _) => c) <$> os) ((fun '(_, z, _, _) => z) <$> os)
      ((fun '(_, _, y, _) => y) <$> os) ((fun '(_, _, _, pr) => pr) <$> os) ks = true.

(** The transcript buffer: a 16-byte domain separator and 8-byte integers. *)
Class TranscriptLaws `{KzgLib} : Prop := {
  length_FIAT_SHAMIR : length FIAT_SHAMIR_PROTOCOL_DOMAIN = 16%nat;
  length_bytes_of_uint64 : forall n, length (bytes_of_uint64 n) = 8%nat
}.

(** A sample is missing or equal to the value it stands for. *)
Definition agrees {A} (s : option A) (v : A) : Prop := s = None \/ s = Some v.
Definition count_some {A} (l : list (option A)) : nat := length (omap (M := list) id l).

(** The FFT keeps the length and the inverse transform undoes the forward one. *)
Class FftLaws `{KzgLib} : Prop := {
  fft_fr_length : forall fs l inv r, fft_fr fs l inv = Ok r -> length r = length l;
  fft_fr_inverse : forall fs l r, fft_fr fs l false = Ok r -> fft_fr fs r true = Ok l
}.

(** So does the transform of group elements. *)
Class FftG1Laws `{KzgLib} : Prop :=
  fft_g1_length : forall fs l inv r, fft_g1 fs l inv = Ok r -> length r = length l.

(** Reed-Solomon recovery: half of the samples of a polynomial whose degree is below
    half the domain determine it. *)
Class RecoverLaws `{KzgLib} : Prop := {
  recover_coeffs_complete : forall fs coeffs evals samples,
    fft_fr fs (coeffs ++ replicate (length coeffs) fr_zero) false = Ok evals ->
    Forall2 agrees samples evals -> (length coeffs <= count_some samples)%nat ->
    None ∈ samples ->
    recover_poly_coeffs_from_samples samples fs
    = Ok (coeffs ++ replicate (length coeffs) fr_zero);
  recover_samples_complete : forall fs coeffs evals samples,
    fft_fr fs (coeffs ++ replicate (length coeffs) fr_zero) false = Ok evals ->
    Forall2 agrees samples evals -> (length coeffs <= count_some samples)%nat ->
    None ∈ samples ->
    recover_poly_from_samples samples fs = Ok evals
}.

(** FK20 settings keep the KZG settings they were made from. *)
Class Fk20Laws `{KzgLib} : Prop :=
  fk20_new_settings : forall ks n l fk, fk20_new ks n l = Ok fk -> fk20_kzg_settings fk = ks.

(** ** Hashing and the stream cipher *)
Class HashLib := {
  (* sp_runtime::traits::BlakeTwo256 / sp_io::hashing::blake2_256 *)
  blake2_256 : bytes -> bytes;
  (* the first 32 bytes of the ChaCha8 key stream for a 32-byte key and the zero
     nonce *)
  chacha8_keystream : bytes -> bytes
}.

Class HashLaws `{HashLib} : Prop := {
  length_blake2_256 : forall m, length (blake2_256 m) = 32%nat;
  blake2_256_is_bytes : forall m, is_bytes (blake2_256 m);
  length_chacha8_keystream : forall k, length (chacha8_keystream k) = 32%nat;
  chacha8_keystream_is_bytes : forall k, is_bytes (chacha8_keystream k)
}.
