(* ===== verification/KzgIndex.v ===== *)
(** * Positions in the evaluation domain ([das-primitives/src/crypto/mod.rs])

    The arithmetic of [KZG::get_kzg_index] and [KZG::reverse_bits_limited], which
    place segment [i] of a row in the FFT domain, and of the scale search in
    [bytes_to_kzg_settings].  [usize] is 64 bits on the host and 32 bits in the
    Wasm runtime; both widths are the parameter [W]. *)

From S2P Require Import Prelude.

(** [usize::reverse_bits] at width [n]. *)
Fixpoint reverse_bits (n : nat) (v : Z) : Z :=
  match n with
  | O => 0
  | S n' => (v mod 2) * 2 ^ Z.of_nat n' + reverse_bits n' (v / 2)
  end.

(** [usize::leading_zeros] at width [W]. *)
Definition leading_zeros (W : nat) (v : Z) : Z :=
  if v =? 0 then Z.of_nat W else Z.of_nat W - 1 - Z.log2 v.

(** [value.reverse_bits() >> length.leading_zeros()]: the shift amount is taken
    modulo the width, as the release build does. *)
Definition reverse_bits_limited (W : nat) (length value : Z) : Z :=
  let unused_bits := leading_zeros W length in
  Z.shiftr (reverse_bits W value) (unused_bits mod Z.of_nat W).

Definition get_kzg_index (W : nat) (max_width chunk_count chunk_index chunk_size : Z)
    : res string Z :=
  let divisor := wrap (Z.of_nat W) (2 * chunk_size * chunk_count) in
  if divisor =? 0 then Panic
  else
    let domain_stride := max_width / divisor in
    let domain_pos := reverse_bits_limited W chunk_count chunk_index in
    Ok (wrap (Z.of_nat W) (domain_pos * domain_stride)).

(** [while (1 << max_scale) < num_g1_powers { max_scale += 1 }]; the fuel is the
    width, the largest shift the loop can reach. *)
Fixpoint max_scale_go (fuel : nat) (num_g1_powers max_scale : Z) : Z :=
  match fuel with
  | O => max_scale
  | S fuel' =>
      if Z.shiftl 1 max_scale <? num_g1_powers
      then max_scale_go fuel' num_g1_powers (max_scale + 1)
      else max_scale
  end.
Definition max_scale (W : nat) (num_g1_powers : Z) : Z := max_scale_go W num_g1_powers 0.

(** ** Bit reversal *)

Lemma reverse_bits_bound n v : 0 <= reverse_bits n v < 2 ^ Z.of_nat n.
Proof.
  revert v. induction n as [|n IH]; intros v; simpl.
  - lia.
  - specialize (IH (v / 2)). pose proof (Z.mod_pos_bound v 2 ltac:(lia)).
    rewrite Nat2Z.inj_succ, Z.pow_succ_r by lia. nia.
Qed.

Lemma reverse_bits_0 n : reverse_bits n 0 = 0.
Proof. induction n as [|n IH]; simpl; [done|]. by rewrite Z.div_0_l, IH, Z.mod_0_l by lia. Qed.

(** Reversing more bits than the value has only scales the result. *)
Lemma reverse_bits_wider m d v : 0 <= v < 2 ^ Z.of_nat m ->
  reverse_bits (m + d) v = reverse_bits m v * 2 ^ Z.of_nat d.
Proof.
  revert v. induction m as [|m IH]; intros v Hv; simpl.
  - assert (v = 0) as -> by (simpl in Hv; lia). by rewrite reverse_bits_0.
  - rewrite Nat2Z.inj_succ, Z.pow_succ_r in Hv by lia.
    rewrite IH by (split; [apply Z.div_pos; lia | apply Z.div_lt_upper_bound; lia]).
    rewrite Nat2Z.inj_add, Z.pow_add_r by lia. ring.
Qed.

Lemma reverse_bits_testbit n v i : 0 <= i < Z.of_nat n ->
  Z.testbit (reverse_bits n v) i = Z.testbit v (Z.of_nat n - 1 - i).
Proof.
  revert v i. induction n as [|n IH]; intros v i Hi; [lia|]. simpl.
  pose proof (reverse_bits_bound n (v / 2)) as Hb.
  destruct (decide (i = Z.of_nat n)) as [->|Hne].
  - replace (Z.of_nat (S n) - 1 - Z.of_nat n) with 0 by lia.
    rewrite Z.testbit_eqb by lia.
    rewrite Z.div_add_l by (apply Z.pow_nonzero; lia).
    rewrite (Z.div_small (reverse_bits _ _)) by done.
    rewrite Z.add_0_r, Zmod_mod. by rewrite Z.bit0_eqb.
  - rewrite <- (Z.mod_pow2_bits_low _ (Z.of_nat n)) by lia.
    rewrite Z.add_comm, Z.mod_add by (apply Z.pow_nonzero; lia).
    rewrite (Z.mod_small (reverse_bits _ _)) by done.
    rewrite IH by lia.
    change (v / 2) with (v / 2 ^ 1). rewrite <- Z.shiftr_div_pow2 by lia.
    rewrite Z.shiftr_spec by lia. f_equal. lia.
Qed.

Lemma reverse_bits_involutive n v : 0 <= v < 2 ^ Z.of_nat n ->
  reverse_bits n (reverse_bits n v) = v.
Proof.
  intros Hv. apply Z.bits_inj'. intros i Hi.
  destruct (decide (i < Z.of_nat n)).
  - rewrite !reverse_bits_testbit by lia. f_equal. lia.
  - rewrite <- (Z.mod_small v (2 ^ Z.of_nat n)) at 2 by done.
    rewrite <- (Z.mod_small (reverse_bits _ _) (2 ^ Z.of_nat n))
      by apply reverse_bits_bound.
    by rewrite !Z.mod_pow2_bits_high by lia.
Qed.

Arguments reverse_bits : simpl never.

Lemma reverse_bits_limited_pow2 W k v : (k < W)%nat ->
  0 <= v < 2 ^ Z.of_nat (S k) ->
  reverse_bits_limited W (2 ^ Z.of_nat k) v = reverse_bits (S k) v.
Proof.
  intros Hk Hv. unfold reverse_bits_limited, leading_zeros.
  pose proof (Z.pow_pos_nonneg 2 (Z.of_nat k) ltac:(lia) ltac:(lia)).
  rewrite (proj2 (Z.eqb_neq _ _)) by lia.
  rewrite Z.log2_pow2 by lia. rewrite Z.mod_small by lia.
  replace W with (S k + (W - S k))%nat at 1 by lia.
  rewrite reverse_bits_wider by done.
  rewrite Z.shiftr_div_pow2 by lia.
  replace (Z.of_nat W - 1 - Z.of_nat k) with (Z.of_nat (W - S k)) by lia.
  apply Z.div_mul. apply Z.pow_nonzero; lia.
Qed.

(** Where the index of segment [i] lands when the row fits the domain. *)
Lemma get_kzg_index_val W k max_width i size stride :
  (k < W)%nat -> 0 < size -> 0 < stride ->
  max_width = 2 * size * 2 ^ Z.of_nat k * stride -> max_width < 2 ^ Z.of_nat W ->
  0 <= i < 2 ^ Z.of_nat (S k) ->
  get_kzg_index W max_width (2 ^ Z.of_nat k) i size = Ok (reverse_bits (S k) i * stride).
Proof.
  intros Hk Hsize Hstride -> Hw Hi.
  pose proof (Z.pow_pos_nonneg 2 (Z.of_nat k) ltac:(lia) ltac:(lia)) as Hp.
  pose proof (reverse_bits_bound (S k) i) as Hb.
  rewrite Nat2Z.inj_succ, Z.pow_succ_r in Hb by lia.
  assert (Hd : 0 < 2 * size * 2 ^ Z.of_nat k) by nia.
  assert (Hle : 2 * size * 2 ^ Z.of_nat k <= 2 * size * 2 ^ Z.of_nat k * stride) by nia.
  assert (Hle' : 2 * 2 ^ Z.of_nat k * stride <= 2 * size * 2 ^ Z.of_nat k * stride).
  { replace (2 * size * 2 ^ Z.of_nat k * stride)
      with (size * (2 * 2 ^ Z.of_nat k * stride)) by ring. nia. }
  unfold get_kzg_index. rewrite (wrap_small _ (2 * size * _)) by (unfold in_u; lia).
  rewrite (proj2 (Z.eqb_neq _ _)) by lia.
  rewrite (Z.mul_comm _ stride), Z.div_mul by lia.
  rewrite reverse_bits_limited_pow2 by done.
  rewrite wrap_small; [done|]. unfold in_u. nia.
Qed.

(** ** Properties *)

(** For a row of [2^k] segments of [size] elements that fits the FFT domain,
    [get_kzg_index] places the [2^(k+1)] extended segments at pairwise distinct
    positions, each at a coset start below [max_width / size], and the position
    does not depend on the width of [usize]: the 64-bit host and the 32-bit Wasm
    runtime verify a segment at the same domain point. *)
Theorem get_kzg_index_injective W W' k max_width i j size stride p :
  (k < W)%nat -> (k < W')%nat -> 0 < size -> 0 < stride ->
  max_width = 2 * size * 2 ^ Z.of_nat k * stride ->
  max_width < 2 ^ Z.of_nat W -> max_width < 2 ^ Z.of_nat W' ->
  0 <= i < 2 ^ Z.of_nat (S k) -> 0 <= j < 2 ^ Z.of_nat (S k) ->
  get_kzg_index W max_width (2 ^ Z.of_nat k) i size = Ok p ->
  0 <= p < max_width / size /\ p mod stride = 0 /\
  get_kzg_index W' max_width (2 ^ Z.of_nat k) i size = Ok p /\
  (get_kzg_index W max_width (2 ^ Z.of_nat k) j size = Ok p -> i = j).
Proof.
  intros Hk Hk' Hsize Hstride Hm Hw Hw' Hi Hj Hp.
  rewrite (get_kzg_index_val _ _ _ _ _ stride) in Hp by done. injection Hp as <-.
  rewrite !(get_kzg_index_val _ _ _ _ _ stride) by done.
  pose proof (reverse_bits_bound (S k) i) as Hb.
  split_and!; [apply Z.mul_nonneg_nonneg; lia| |apply Z.mod_mul; lia|done|].
  - rewrite Hm. rewrite Nat2Z.inj_succ, Z.pow_succ_r in Hb by lia.
    replace (2 * size * 2 ^ Z.of_nat k * stride)
      with (2 * 2 ^ Z.of_nat k * stride * size) by ring.
    rewrite Z.div_mul by lia. apply Z.mul_lt_mono_pos_r; lia.
  - intros [= Heq]. apply Z.mul_cancel_r in Heq; [|lia].
    rewrite <- (reverse_bits_involutive (S k) i), <- (reverse_bits_involutive (S k) j) by done.
    by rewrite Heq.
Qed.

Lemma get_kzg_index_injective_witness :
  0 <= 192 < 4096 / 16 /\ 192 mod 1 = 0 /\
  get_kzg_index 32 4096 (2 ^ Z.of_nat 7) 3 16 = Ok 192 /\
  (get_kzg_index 64 4096 (2 ^ Z.of_nat 7) 5 16 = Ok 192 -> 3 = 5).
Proof.
  apply (get_kzg_index_injective 64 32 7 4096 3 5 16 1 192);
    first [lia | reflexivity | vm_compute; intuition congruence].
Defined.

(** The scale search stops at the first power of two that is large enough. *)
Lemma max_scale_go_spec fuel n s : 0 <= s -> 1 <= n ->
  n <= 2 ^ (s + Z.of_nat fuel) -> (s = 0 \/ 2 ^ (s - 1) < n) ->
  let r := max_scale_go fuel n s in
  s <= r /\ n <= 2 ^ r /\ (r = 0 \/ 2 ^ (r - 1) < n).
Proof.
  revert s. induction fuel as [|fuel IH]; intros s Hs Hn Hf Hlow; simpl.
  - rewrite Z.add_0_r in Hf. done.
  - rewrite Z.shiftl_1_l. destruct (Z.ltb_spec (2 ^ s) n) as [Hlt|Hge]; [|done].
    specialize (IH (s + 1)). simpl in IH.
    destruct IH as (? & ? & ?); [lia|done|by replace (s + 1 + Z.of_nat fuel)
      with (s + Z.of_nat (S fuel)) by lia| |split_and!; [lia|done|done]].
    right. by replace (s + 1 - 1) with s by lia.
Qed.

(** The scale search of [bytes_to_kzg_settings] terminates and returns the
    ceiling of the binary logarithm of the number of powers. *)
Theorem max_scale_log2_up W n : 1 <= n <= 2 ^ Z.of_nat W -> max_scale W n = Z.log2_up n.
Proof.
  intros Hn. unfold max_scale.
  destruct (max_scale_go_spec W n 0) as (Hr & Hle & Hlow); [lia|lia|by rewrite Z.add_0_l; lia|by left|].
  symmetry. destruct (decide (max_scale_go W n 0 = 0)) as [He|Hne].
  - rewrite He in *. simpl in Hle. by assert (n = 1) as -> by lia.
  - destruct Hlow as [He|Hlow]; [done|]. apply Z.log2_up_unique; lia.
Qed.

Lemma max_scale_log2_up_witness : max_scale 64 4096 = Z.log2_up 4096.
Proof. apply max_scale_log2_up. vm_compute. intuition congruence. Defined.
