(* ===== verification/KzgToy.v ===== *)
(** * Concrete instances of the cryptographic interfaces

    [bytes_lib] represents scalars and group elements by their canonical encodings
    and satisfies the byte and transcript laws.  [poly_lib] is polynomial arithmetic
    over the field of five elements with an evaluation domain of size four; the
    commitment of a polynomial is the polynomial itself.  Both are executable, and
    the witnesses of the theorems that assume laws evaluate on them. *)

From S2P Require Import Prelude Codec KzgLib KzgIndex.

(** ** The bit-reversal permutation *)

(** Of a slice of [2^k] elements; other lengths are left alone. *)
Definition ref_reverse_bit_order {A} (l : list A) : list A :=
  let k := Z.to_nat (Z.log2 (Z.of_nat (length l))) in
  if bool_decide (length l = (2 ^ k)%nat)
  then omap (fun i => l !! Z.to_nat (reverse_bits k (Z.of_nat i))) (seq 0 (length l))
  else l.

Lemma lookup_ref_reverse_bit_order {A} (l : list A) k i :
  length l = (2 ^ k)%nat -> (i < 2 ^ k)%nat ->
  ref_reverse_bit_order l !! i = l !! Z.to_nat (reverse_bits k (Z.of_nat i)).
Proof.
  intros Hl Hi. unfold ref_reverse_bit_order.
  assert (Z.to_nat (Z.log2 (Z.of_nat (length l))) = k) as ->
    by (rewrite Hl, Nat2Z.inj_pow, Z.log2_pow2; lia).
  rewrite bool_decide_true by done.
  assert (Hpow : Z.of_nat (2 ^ k) = 2 ^ Z.of_nat k) by (by rewrite Nat2Z.inj_pow).
  rewrite lookup_omap_all.
  - rewrite lookup_seq_lt by lia. done.
  - apply Forall_forall. intros j Hj. apply lookup_lt_is_Some.
    pose proof (reverse_bits_bound k (Z.of_nat j)).
    lia.
Qed.

Lemma omap_all_length {A B} (f : A -> option B) (l : list A) :
  Forall (fun x => is_Some (f x)) l -> length (omap f l) = length l.
Proof. induction 1 as [|x l [y Hy] _ IH]; simpl; [done|]. rewrite Hy. simpl. by f_equal. Qed.

Lemma length_ref_reverse_bit_order {A} (l : list A) :
  length (ref_reverse_bit_order l) = length l.
Proof.
  unfold ref_reverse_bit_order. case_bool_decide as Hl; [|done].
  rewrite omap_all_length, length_seq; [done|].
  apply Forall_forall. intros j Hj. apply lookup_lt_is_Some.
  remember (Z.to_nat (Z.log2 (Z.of_nat (length l)))) as k eqn:Hk. clear Hk.
  assert (Hpow : Z.of_nat (2 ^ k) = 2 ^ Z.of_nat k) by (by rewrite Nat2Z.inj_pow).
  pose proof (reverse_bits_bound k (Z.of_nat j)). lia.
Qed.

Lemma ref_reverse_bit_order_other {A} (l : list A) :
  (forall k, length l <> (2 ^ k)%nat) -> ref_reverse_bit_order l = l.
Proof. intros Hl. unfold ref_reverse_bit_order. rewrite bool_decide_false; auto. Qed.

Lemma pow2_or_not (n : nat) : (exists k, n = (2 ^ k)%nat) \/ (forall k, n <> (2 ^ k)%nat).
Proof.
  destruct (decide (n = (2 ^ Nat.log2 n)%nat)) as [He|Hne]; [left; eauto|right].
  intros k ->. apply Hne. by rewrite Nat.log2_pow2 by lia.
Qed.

Lemma ref_reverse_bit_order_involutive {A} (l : list A) :
  ref_reverse_bit_order (ref_reverse_bit_order l) = l.
Proof.
  destruct (pow2_or_not (length l)) as [[k Hk]|Hn].
  - apply list_eq. intros i. destruct (decide (i < 2 ^ k)%nat) as [Hi|Hi].
    + assert (Hpow : Z.of_nat (2 ^ k) = 2 ^ Z.of_nat k) by (by rewrite Nat2Z.inj_pow).
      pose proof (reverse_bits_bound k (Z.of_nat i)).
      rewrite (lookup_ref_reverse_bit_order _ k); [|by rewrite length_ref_reverse_bit_order|done].
      rewrite (lookup_ref_reverse_bit_order _ k); [|done|lia].
      rewrite Z2Nat.id, reverse_bits_involutive, Nat2Z.id by lia. done.
    + rewrite !lookup_ge_None_2; [done|lia|rewrite !length_ref_reverse_bit_order; lia].
  - rewrite (ref_reverse_bit_order_other l) by done. by apply ref_reverse_bit_order_other.
Qed.

Lemma ref_reverse_bit_order_fmap {A B} (f : A -> B) (l : list A) :
  ref_reverse_bit_order (f <$> l) = f <$> ref_reverse_bit_order l.
Proof.
  destruct (pow2_or_not (length l)) as [[k Hk]|Hn].
  - apply list_eq. intros i. rewrite list_lookup_fmap.
    destruct (decide (i < 2 ^ k)%nat) as [Hi|Hi].
    + rewrite !(lookup_ref_reverse_bit_order _ k); [|done..|by rewrite length_fmap|done].
      by rewrite list_lookup_fmap.
    + rewrite !lookup_ge_None_2; [done| |]; rewrite !length_ref_reverse_bit_order, ?length_fmap; lia.
  - rewrite !ref_reverse_bit_order_other; [done|done|by rewrite length_fmap].
Qed.

Lemma omap_lookup_seq {A} (l : list A) : omap (fun i => l !! i) (seq 0 (length l)) = l.
Proof.
  apply list_eq. intros i. rewrite lookup_omap_all.
  - destruct (decide (i < length l)%nat).
    + by rewrite lookup_seq_lt by done.
    + rewrite !lookup_ge_None_2; rewrite ?length_seq; [done|lia..].
  - apply Forall_forall. intros j Hj%elem_of_seq. apply lookup_lt_is_Some. lia.
Qed.

Lemma ref_reverse_bit_order_perm {A} (l : list A) : ref_reverse_bit_order l ≡ₚ l.
Proof.
  destruct (pow2_or_not (length l)) as [[k Hk]|Hn];
    [|by rewrite ref_reverse_bit_order_other].
  assert (Hpow : Z.of_nat (2 ^ k) = 2 ^ Z.of_nat k) by (by rewrite Nat2Z.inj_pow).
  set (f i := Z.to_nat (reverse_bits k (Z.of_nat i))).
  assert (Hf : forall i, (f i < 2 ^ k)%nat)
    by (intros i; unfold f; pose proof (reverse_bits_bound k (Z.of_nat i)); lia).
  assert (Hff : forall i, (i < 2 ^ k)%nat -> f (f i) = i).
  { intros i Hi. unfold f. rewrite Z2Nat.id by apply reverse_bits_bound.
    rewrite reverse_bits_involutive by lia. apply Nat2Z.id. }
  assert (Hs : f <$> seq 0 (2 ^ k) ≡ₚ seq 0 (2 ^ k)).
  { apply NoDup_Permutation.
    - apply NoDup_fmap_2_strong; [|apply NoDup_seq].
      intros i j Hi%elem_of_seq Hj%elem_of_seq Heq.
      rewrite <- (Hff i), <- (Hff j) by lia. by rewrite Heq.
    - apply NoDup_seq.
    - intros i. rewrite list_elem_of_fmap, elem_of_seq. split.
      + intros (j & -> & _). specialize (Hf j). lia.
      + intros Hi. exists (f i). split; [by rewrite Hff by lia|]. apply elem_of_seq.
        specialize (Hf i). lia. }
  assert (Hr : ref_reverse_bit_order l = omap (fun i => l !! i) (f <$> seq 0 (2 ^ k))).
  { apply list_eq. intros i. rewrite lookup_omap_all.
    2: { apply Forall_fmap, Forall_forall. intros j _. apply lookup_lt_is_Some. rewrite Hk. apply Hf. }
    rewrite list_lookup_fmap. destruct (decide (i < 2 ^ k)%nat).
    - by rewrite (lookup_ref_reverse_bit_order _ k), lookup_seq_lt by done.
    - rewrite !lookup_ge_None_2; [done|rewrite length_seq; lia|].
      rewrite length_ref_reverse_bit_order. lia. }
  rewrite Hr, Hs, <- Hk. by rewrite omap_lookup_seq.
Qed.

(** ** Canonical encodings as elements *)
Definition is_enc (n : nat) (l : list Z) : Prop := length l = n /\ is_bytes l.
#[export] Instance is_enc_dec n l : Decision (is_enc n l).
Proof. unfold is_enc, is_bytes. apply _. Defined.

Definition enc (n : nat) : Type := dsig (is_enc n).

Lemma is_enc_zeros n : is_enc n (replicate n 0).
Proof. split; [apply length_replicate|]. by apply Forall_replicate. Qed.
Definition enc_zeros (n : nat) : enc n := dexist (replicate n 0) (is_enc_zeros n).

Definition enc_of (n : nat) (l : list Z) : res string (enc n) :=
  match decide (is_enc n l) with
  | left Hl => Ok (dexist l Hl)
  | right _ => Err "invalid encoding"
  end.

Lemma enc_of_proj n (e : enc n) : enc_of n (`e) = Ok e.
Proof.
  unfold enc_of. destruct (decide (is_enc n (`e))) as [He|Hne].
  - f_equal. by apply dsig_eq.
  - destruct Hne. apply (proj2_dsig e).
Qed.

Lemma enc_of_Ok n l : is_enc n l -> exists e, enc_of n l = Ok e /\ `e = l.
Proof.
  intros Hl. unfold enc_of. destruct (decide (is_enc n l)) as [He|]; [|done].
  exists (dexist l He). done.
Qed.

Definition bytes_lib : KzgLib := {|
  FsFr := enc 32; FsG1 := enc 48; FsG2 := list Z;
  FsFFTSettings := Z; FsKZGSettings := Z; FsFK20MultiSettings := Z;
  fr_default := enc_zeros 32; fr_zero := enc_zeros 32;
  g1_identity := enc_zeros 48; g1_is_valid _ := true;
  fr_to_bytes r := `r; fr_from_bytes := enc_of 32;
  g1_to_bytes g := `g; g1_from_bytes := enc_of 48; g2_from_bytes l := Ok l;
  fft_settings_new s := Ok (2 ^ s); fs_max_width s := s;
  fft_fr _ l _ := Ok l; fft_g1 _ l _ := Ok l; das_fft_extension _ l := Ok l;
  reverse_bit_order := @ref_reverse_bit_order;
  poly_new n := Ok (replicate (Z.to_nat n) (enc_zeros 32));
  poly_eval _ x := x;
  recover_poly_from_samples _ _ := Err "unused";
  recover_poly_coeffs_from_samples _ _ := Err "unused";
  kzg_settings _ _ fs := fs; ks_fs k := k;
  ks_get_expanded_roots_of_unity_at _ _ := Ok (enc_zeros 32);
  commit_to_poly _ _ := Ok (enc_zeros 48);
  compute_proof_single _ _ _ := Ok (enc_zeros 48);
  ks_check_proof_single _ _ _ _ _ := Ok true;
  ks_compute_proof_multi _ _ _ _ := Ok (enc_zeros 48);
  ks_check_proof_multi _ _ _ _ _ _ := Ok true;
  verify_kzg_proof_batch _ _ _ _ _ := true;
  fk20_new k _ _ := Ok k; fk20_kzg_settings k := k;
  fk20_data_availability _ l := Ok (replicate (length l) (enc_zeros 48));
  CHALLENGE_INPUT_SIZE := 80 + 32 * 2048;
  FIAT_SHAMIR_PROTOCOL_DOMAIN := replicate 16 7;
  bytes_of_uint64 n := to_be_bytes 8 n;
  kzg_hash l := take 32 (drop 16 l);
  hash_to_bls_field l := match enc_of 32 l with Ok r => r | _ => enc_zeros 32 end
|}.

Lemma bytes_lib_g1 : @G1BytesLaws bytes_lib.
Proof.
  split; simpl.
  - intros g. apply (proj2_dsig g).
  - apply enc_of_proj.
Qed.

Lemma bytes_lib_fr : @FrBytesLaws bytes_lib.
Proof.
  split; simpl.
  - intros r. apply (proj2_dsig r).
  - apply enc_of_proj.
  - intros bs Hl Hb. apply enc_of_Ok. split.
    + rewrite length_app, Hl. done.
    + apply Forall_app. split; [done|]. by repeat constructor.
Qed.

Lemma bytes_lib_transcript : @TranscriptLaws bytes_lib.
Proof. split; [done|]. intros n. apply length_to_be_bytes. Qed.

Lemma bytes_lib_single : @KzgSingleLaws bytes_lib.
Proof. by split. Qed.

Lemma bytes_lib_batch : @KzgBatchLaws bytes_lib.
Proof. done. Qed.

Lemma bytes_lib_bit_order : @BitOrderLaws bytes_lib.
Proof.
  split; simpl.
  - apply @ref_reverse_bit_order_involutive.
  - apply @ref_reverse_bit_order_fmap.
  - apply @ref_reverse_bit_order_perm.
Qed.

(** ** Polynomials over the field of five elements *)
Inductive F5 := e0 | e1 | e2 | e3 | e4.
#[export] Instance F5_eq_dec : EqDecision F5.
Proof. solve_decision. Defined.

Definition F5_Z (a : F5) : Z :=
  match a with e0 => 0 | e1 => 1 | e2 => 2 | e3 => 3 | e4 => 4 end.
Definition Z_F5 (z : Z) : F5 :=
  match z mod 5 with 0 => e0 | 1 => e1 | 2 => e2 | 3 => e3 | _ => e4 end.
Definition F5_add (a b : F5) : F5 := Z_F5 (F5_Z a + F5_Z b).
Definition F5_mul (a b : F5) : F5 := Z_F5 (F5_Z a * F5_Z b).
Definition F5_pow (a : F5) (n : nat) : F5 := Nat.iter n (F5_mul a) e1.

(** Polynomials form a module: coefficient-wise operations, the shorter one padded. *)
Fixpoint poly_add (p q : list F5) : list F5 :=
  match p, q with
  | [], q => q
  | p, [] => p
  | a :: p, b :: q => F5_add a b :: poly_add p q
  end.
Definition poly_scale (a : F5) (p : list F5) : list F5 := F5_mul a <$> p.
Definition poly_at (p : list F5) (x : F5) : F5 :=
  foldr (fun a acc => F5_add a (F5_mul x acc)) e0 p.

(** A primitive root of unity of each supported order, and the inverse of the order. *)
Definition root_of (n : nat) : option (F5 * F5) :=
  match n with
  | 1%nat => Some (e1, e1)
  | 2%nat => Some (e4, e3)
  | 4%nat => Some (e2, e4)
  | _ => None
  end.

(** The transform over any module: [add], [scale] and zero. *)
Definition dft {M} (add : M -> M -> M) (scale : F5 -> M -> M) (zero : M)
    (l : list M) (inv : bool) : res string (list M) :=
  match root_of (length l) with
  | None => Err "unsupported length"
  | Some (w, ninv) =>
      let w := if inv then F5_pow w (length l - 1) else w in
      let at_ x := foldr (fun a acc => add a (scale x acc)) zero l in
      let r := (fun i => at_ (F5_pow w i)) <$> seq 0 (length l) in
      Ok (if inv then scale ninv <$> r else r)
  end.
Definition F5_dft := dft F5_add F5_mul e0.
Definition poly_dft := dft poly_add poly_scale [].

Definition all_F5 : list F5 := [e0; e1; e2; e3; e4].
Fixpoint all_polys (n : nat) : list (list F5) :=
  match n with
  | O => [[]]
  | S n => p ← all_polys n; (fun a => a :: p) <$> all_F5
  end.

Definition agreesb (s : option F5) (v : F5) : bool :=
  match s with None => true | Some u => bool_decide (u = v) end.

(** Search for the polynomial of half the degree that fits the samples. *)
Definition fit (samples : list (option F5)) : option (list F5) :=
  let n := (length samples / 2)%nat in
  List.find (fun p =>
    match F5_dft (p ++ replicate n e0) false with
    | Ok r => forallb (fun '(s, v) => agreesb s v) (zip samples r)
    | _ => false
    end) (all_polys n).

Definition poly_lib : KzgLib := {|
  FsFr := F5; FsG1 := list F5; FsG2 := list F5;
  FsFFTSettings := unit; FsKZGSettings := unit; FsFK20MultiSettings := unit;
  fr_default := e0; fr_zero := e0;
  g1_identity := []; g1_is_valid _ := true;
  fr_to_bytes r := [F5_Z r]; fr_from_bytes l := Ok (Z_F5 (from_be_bytes l));
  g1_to_bytes g := F5_Z <$> g; g1_from_bytes l := Ok (Z_F5 <$> l);
  g2_from_bytes l := Ok (Z_F5 <$> l);
  fft_settings_new _ := Ok tt; fs_max_width _ := 4;
  fft_fr _ := F5_dft; fft_g1 _ := poly_dft;
  das_fft_extension _ l :=
    c ← F5_dft l true;
    r ← F5_dft (c ++ replicate (length c) e0) false;
    Ok (step_by 2 (drop 1 r));
  reverse_bit_order := @ref_reverse_bit_order;
  poly_new n := Ok (replicate (Z.to_nat n) e0);
  poly_eval := poly_at;
  recover_poly_from_samples s _ :=
    p ← ok_or (fit s) "not enough samples"; F5_dft (p ++ replicate (length p) e0) false;
  recover_poly_coeffs_from_samples s _ :=
    p ← ok_or (fit s) "not enough samples"; Ok (p ++ replicate (length p) e0);
  kzg_settings _ _ fs := fs; ks_fs k := k;
  ks_get_expanded_roots_of_unity_at _ i :=
    if (0 <=? i) && (i <=? 4) then Ok (F5_pow e2 (Z.to_nat i)) else Panic;
  commit_to_poly _ p := Ok p;
  compute_proof_single _ p _ := Ok p;
  ks_check_proof_single _ c p x v := Ok (bool_decide (c = p /\ poly_at c x = v));
  ks_compute_proof_multi _ p _ _ := Ok p;
  ks_check_proof_multi _ c p x ys n :=
    Ok (bool_decide (c = p) &&
      match root_of n with
      | Some (w, _) =>
          bool_decide (ys = (fun i => poly_at c (F5_mul x (F5_pow w i))) <$> seq 0 n)
      | None => false
      end);
  verify_kzg_proof_batch cs zs ys ps _ :=
    forallb (fun '(c, (z, (y, p))) => bool_decide (c = p /\ poly_at c z = y))
      (zip cs (zip zs (zip ys ps)));
  fk20_new k _ _ := Ok k; fk20_kzg_settings k := k;
  fk20_data_availability _ l := Ok (replicate (2 * length l) l);
  CHALLENGE_INPUT_SIZE := 32 + 4 * 32 + 48;
  FIAT_SHAMIR_PROTOCOL_DOMAIN := replicate 16 7;
  bytes_of_uint64 n := to_be_bytes 8 n;
  kzg_hash l := [sum_Z l];
  hash_to_bls_field l := Z_F5 (from_be_bytes l)
|}.

Lemma poly_lib_single : @KzgSingleLaws poly_lib.
Proof.
  split; simpl; [|done|done]. intros _ p c x pr [= ->] [= ->]. by rewrite bool_decide_true.
Qed.

Lemma poly_lib_batch : @KzgBatchLaws poly_lib.
Proof.
  intros ks os. simpl. induction 1 as [|[[[c z] y] pr] os Hc _ IH]; simpl; [done|].
  injection Hc as Hc. by rewrite Hc.
Qed.

Lemma poly_lib_bit_order : @BitOrderLaws poly_lib.
Proof.
  split; simpl.
  - apply @ref_reverse_bit_order_involutive.
  - apply @ref_reverse_bit_order_fmap.
  - apply @ref_reverse_bit_order_perm.
Qed.

Lemma poly_lib_fk20 : @Fk20Laws poly_lib.
Proof. by intros [] ? ? []. Qed.

(** Lengths the transform supports. *)
Lemma dft_Ok_length {M} add scale (zero : M) l inv r : dft add scale zero l inv = Ok r ->
  length r = length l /\ (length l = 1 \/ length l = 2 \/ length l = 4)%nat.
Proof.
  unfold dft. destruct (root_of (length l)) as [[w ninv]|] eqn:Hw; [|done]. intros [= <-].
  split; [destruct inv; by rewrite ?length_fmap, length_seq|].
  destruct (length l) as [|[|[|[|[|n]]]]]; simpl in Hw; try done; auto.
Qed.

Lemma poly_lib_fft : @FftLaws poly_lib.
Proof.
  split; simpl.
  - intros _ l inv r Hr. by apply dft_Ok_length in Hr as [? _].
  - intros _ l r Hr. pose proof (dft_Ok_length _ _ _ _ _ _ Hr) as [_ Hl].
    destruct l as [|a [|b [|c [|d [|? ?]]]]]; simpl in Hl; try lia;
      injection Hr as <-; destruct a; try destruct b; try destruct c; try destruct d;
      reflexivity.
Qed.

Lemma poly_lib_fft_g1 : @FftG1Laws poly_lib.
Proof. intros fs l inv r Hr. by apply dft_Ok_length in Hr as [? _]. Qed.

(** Any half of the samples of a polynomial identifies it. *)
Lemma fit_complete coeffs evals samples :
  F5_dft (coeffs ++ replicate (length coeffs) e0) false = Ok evals ->
  Forall2 agrees samples evals -> (length coeffs <= count_some samples)%nat ->
  fit samples = Some coeffs.
Proof.
  intros Hf Ha Hc. pose proof (dft_Ok_length _ _ _ _ _ _ Hf) as [_ Hl].
  rewrite length_app, length_replicate in Hl.
  destruct coeffs as [|a [|b [|? ?]]]; simpl in Hl; try lia; injection Hf as <-;
    repeat match goal with
    | H : Forall2 agrees _ (_ :: _) |- _ => apply Forall2_cons_inv_r in H as (? & ? & ? & H & ->)
    | H : Forall2 agrees _ [] |- _ => apply Forall2_nil_inv_r in H as ->
    end;
    repeat match goal with H : agrees _ _ |- _ => destruct H as [-> | ->] end;
    unfold count_some in Hc; simpl in Hc; try lia; destruct a; try destruct b; reflexivity.
Qed.

Lemma poly_lib_recover : @RecoverLaws poly_lib.
Proof.
  split; simpl; intros _ coeffs evals samples Hf Ha Hc _;
    rewrite (fit_complete coeffs evals) by done; bind_simpl; done.
Qed.
