(* ===== verification/KzgDomain.v ===== *)
(** * Evaluation domains and openings on cosets

    What the FFT, the bit-reversal permutation and the multi-point openings of the KZG
    library compute, as laws, and what follows for the chunks of an extended row: chunk [i]
    holds, in bit-reversed order, the values of the row's polynomial on the coset that
    [get_kzg_index] assigns to position [i]. *)

From S2P Require Import Prelude KzgLib KzgIndex KzgToy.

(** ** Laws *)

(** Roots of unity exist over the whole domain. *)
Class RootsLaws `{KzgLib} : Prop :=
  expanded_roots_at : forall ks i, 0 <= i < fs_max_width (ks_fs ks) ->
    exists x, ks_get_expanded_roots_of_unity_at ks i = Ok x.

(** [reverse_bit_order] exchanges the elements whose indices have reversed bits. *)
Class BitIndexLaws `{KzgLib} : Prop :=
  lookup_reverse_bit_order : forall A (l : list A) k i, length l = (2 ^ k)%nat -> (i < 2 ^ k)%nat ->
    reverse_bit_order l !! i = l !! Z.to_nat (reverse_bits k (Z.of_nat i)).

(** The FFT evaluates a polynomial on the subgroup of its length, which divides the domain;
    zero coefficients at the end do not change a polynomial. *)
Class FftEvalLaws `{KzgLib} : Prop := {
  fft_fr_eval : forall ks p evals j v, fft_fr (ks_fs ks) p false = Ok evals -> evals !! j = Some v ->
    exists x, ks_get_expanded_roots_of_unity_at ks
        (Z.of_nat j * (fs_max_width (ks_fs ks) / Z.of_nat (length p))) = Ok x /\ v = poly_eval p x;
  fft_fr_fits : forall fs p evals, fft_fr fs p false = Ok evals ->
    0 < fs_max_width fs /\ (Z.of_nat (length p) | fs_max_width fs);
  poly_eval_zeros : forall p n x, poly_eval (p ++ replicate n fr_zero) x = poly_eval p x
}.

(** Openings on cosets of [n] points: the opening of a committed polynomial at
    [x, x w, .., x w^(n-1)], where [x] is the root of unity with index [pos] and [w] one of order
    [n], is computed, and accepted with the values there. *)
Class MultiProofLaws (n : nat) `{KzgLib} : Prop := {
  compute_proof_multi_total : forall ks p c pos x, commit_to_poly ks p = Ok c ->
    ks_get_expanded_roots_of_unity_at ks pos = Ok x -> exists pr, ks_compute_proof_multi ks p x n = Ok pr;
  check_proof_multi_complete : forall ks p c pos x pr ys,
    (Z.of_nat n | fs_max_width (ks_fs ks)) -> 0 <= pos < fs_max_width (ks_fs ks) / Z.of_nat n ->
    commit_to_poly ks p = Ok c -> ks_get_expanded_roots_of_unity_at ks pos = Ok x ->
    ks_compute_proof_multi ks p x n = Ok pr -> length ys = n ->
    (forall j v, ys !! j = Some v -> exists xj, ks_get_expanded_roots_of_unity_at ks
        (pos + Z.of_nat j * (fs_max_width (ks_fs ks) / Z.of_nat n)) = Ok xj /\ v = poly_eval p xj) ->
    ks_check_proof_multi ks c pr x ys n = Ok true
}.

(** FK20: the [i]-th proof of [data_availability] opens the committed polynomial on the
    [i]-th chunk of [l] values of the extended evaluations, in bit-reversed order. *)
Class Fk20ProofLaws `{KzgLib} : Prop :=
  fk20_proof_check : forall ks coeffs c l k fk proofs evals i pr chunk x,
    commit_to_poly ks coeffs = Ok c ->
    fk20_new ks (2 * length coeffs) l = Ok fk -> fk20_data_availability fk coeffs = Ok proofs ->
    fft_fr (ks_fs ks) (coeffs ++ replicate (length coeffs) fr_zero) false = Ok evals ->
    (2 * length coeffs = 2 ^ k * l)%nat ->
    proofs !! i = Some pr -> chunks l (reverse_bit_order evals) !! i = Some chunk ->
    ks_get_expanded_roots_of_unity_at ks
      (reverse_bits k (Z.of_nat i) * (fs_max_width (ks_fs ks) / (2 * Z.of_nat (length coeffs)))) = Ok x ->
    ks_check_proof_multi ks c pr x (reverse_bit_order chunk) l = Ok true.

(** ** Chunks of an extended row *)

(** Reversing a number written as two digits exchanges and reverses the digits. *)
Lemma reverse_bits_digits a b i m : 0 <= m < 2 ^ Z.of_nat a -> 0 <= i < 2 ^ Z.of_nat b ->
  reverse_bits (a + b) (i * 2 ^ Z.of_nat a + m) = reverse_bits a m * 2 ^ Z.of_nat b + reverse_bits b i.
Proof.
  revert m. induction a as [|a IH]; intros m Hm Hi.
  - assert (m = 0) as -> by (simpl in Hm; lia). rewrite reverse_bits_0, Z.pow_0_r, Z.mul_1_r, Z.add_0_r. done.
  - rewrite Nat2Z.inj_succ, Z.pow_succ_r in * by lia.
    change (S a + b)%nat with (S (a + b)). unfold reverse_bits at 1 2. fold reverse_bits.
    replace (i * (2 * 2 ^ Z.of_nat a) + m) with (m + i * 2 ^ Z.of_nat a * 2) by ring.
    rewrite Z.mod_add, Z.div_add by lia.
    replace (m / 2 + i * 2 ^ Z.of_nat a) with (i * 2 ^ Z.of_nat a + m / 2) by ring.
    rewrite IH; [|split; [apply Z.div_pos; lia|apply Z.div_lt_upper_bound; lia]|done].
    rewrite Nat2Z.inj_add, Z.pow_add_r by lia. ring.
Qed.

Section chunks.
Context `{KzgLib} `{!BitOrderLaws} `{!FftLaws} `{!BitIndexLaws} `{!FftEvalLaws}.

Lemma pow2_inj (k : nat) : Z.of_nat (2 ^ k) = 2 ^ Z.of_nat k.
Proof. by rewrite Nat2Z.inj_pow. Qed.

(** The values of chunk [i], bit-reversed, are those of the polynomial on the coset of
    [2^a] points that starts at the reversal of [i]. *)
Lemma chunk_evals ks p evals a b i chunk j v :
  fft_fr (ks_fs ks) (p ++ replicate (length p) fr_zero) false = Ok evals ->
  (2 * length p = 2 ^ b * 2 ^ a)%nat ->
  chunks (2 ^ a) (reverse_bit_order evals) !! i = Some chunk ->
  reverse_bit_order chunk !! j = Some v ->
  let W := fs_max_width (ks_fs ks) in
  exists x, ks_get_expanded_roots_of_unity_at ks
      (reverse_bits b (Z.of_nat i) * (W / (2 * Z.of_nat (length p))) + Z.of_nat j * (W / 2 ^ Z.of_nat a)) = Ok x /\
    v = poly_eval p x.
Proof.
  intros Hf Hl Hc Hj W. pose proof (fft_fr_length _ _ _ _ Hf) as Hel.
  rewrite length_app, length_replicate in Hel.
  destruct (fft_fr_fits _ _ _ Hf) as [HW [q Hq]]. fold W in HW, Hq.
  rewrite length_app, length_replicate in Hq.
  assert (Ha : (0 < 2 ^ a)%nat) by (apply Nat.neq_0_lt_0, Nat.pow_nonzero; lia).
  assert (Hrl : length (reverse_bit_order evals) = (2 ^ b * 2 ^ a)%nat)
    by (rewrite reverse_bit_order_perm; lia).
  apply lookup_lt_Some in Hc as Hi. rewrite length_chunks, Hrl in Hi by done.
  assert (Hib : (i < 2 ^ b)%nat).
  { replace (2 ^ b * 2 ^ a + 2 ^ a - 1)%nat with (2 ^ a - 1 + 2 ^ b * 2 ^ a)%nat in Hi by lia.
    rewrite Nat.div_add, Nat.div_small in Hi by lia. lia. }
  rewrite lookup_chunks in Hc by done. case_bool_decide as Hlt; [injection Hc as <-|done].
  set (chunk := take _ _) in Hj.
  assert (Hcl : length chunk = (2 ^ a)%nat)
    by (unfold chunk; rewrite length_take, length_drop, Hrl; nia).
  assert (Hja : (j < 2 ^ a)%nat) by (apply lookup_lt_Some in Hj; rewrite reverse_bit_order_perm in Hj; lia).
  rewrite (lookup_reverse_bit_order _ _ a) in Hj by done.
  pose proof (reverse_bits_bound a (Z.of_nat j)) as Hb. pose proof (pow2_inj a) as Hpa.
  pose proof (pow2_inj b) as Hpb.
  unfold chunk in Hj. rewrite lookup_take_lt in Hj by lia. rewrite lookup_drop in Hj.
  rewrite (lookup_reverse_bit_order _ _ (a + b)) in Hj; [|rewrite Nat.pow_add_r; lia|rewrite Nat.pow_add_r; nia].
  replace (Z.of_nat (i * 2 ^ a + Z.to_nat (reverse_bits a (Z.of_nat j))))
    with (Z.of_nat i * 2 ^ Z.of_nat a + reverse_bits a (Z.of_nat j)) in Hj by lia.
  rewrite reverse_bits_digits in Hj by lia. rewrite reverse_bits_involutive in Hj by lia.
  pose proof (reverse_bits_bound b (Z.of_nat i)) as Hbb.
  destruct (fft_fr_eval _ _ _ _ _ Hf Hj) as (x & Hx & ->). fold W in Hx.
  exists x. split; [|apply poly_eval_zeros]. rewrite <- Hx. f_equal.
  rewrite length_app, length_replicate, Z2Nat.id by nia.
  replace (Z.of_nat (length p + length p)) with (2 * Z.of_nat (length p)) in * by lia.
  assert (Hlz : 2 * Z.of_nat (length p) = 2 ^ Z.of_nat b * 2 ^ Z.of_nat a) by lia.
  rewrite Hlz in *. rewrite Hq, Z.div_mul by nia.
  replace (q * (2 ^ Z.of_nat b * 2 ^ Z.of_nat a)) with (q * 2 ^ Z.of_nat b * 2 ^ Z.of_nat a) by ring.
  rewrite Z.div_mul by lia. ring.
Qed.

(** The opening on the coset of chunk [i] is accepted with the values of the chunk. *)
Lemma chunk_opening a b `{!MultiProofLaws (2 ^ a)} ks p c evals i chunk x pr :
  commit_to_poly ks p = Ok c ->
  fft_fr (ks_fs ks) (p ++ replicate (length p) fr_zero) false = Ok evals ->
  (2 * length p = 2 ^ b * 2 ^ a)%nat ->
  chunks (2 ^ a) (reverse_bit_order evals) !! i = Some chunk ->
  ks_get_expanded_roots_of_unity_at ks
    (reverse_bits b (Z.of_nat i) * (fs_max_width (ks_fs ks) / (2 * Z.of_nat (length p)))) = Ok x ->
  ks_compute_proof_multi ks p x (2 ^ a) = Ok pr ->
  ks_check_proof_multi ks c pr x (reverse_bit_order chunk) (2 ^ a) = Ok true.
Proof.
  intros Hcm Hf Hl Hc Hx Hpr. destruct (fft_fr_fits _ _ _ Hf) as [HW [q Hq]].
  rewrite length_app, length_replicate in Hq.
  replace (Z.of_nat (length p + length p)) with (2 * Z.of_nat (length p)) in Hq by lia.
  pose proof (pow2_inj a) as Hpa. pose proof (pow2_inj b) as Hpb.
  assert (Hlz : 2 * Z.of_nat (length p) = 2 ^ Z.of_nat b * 2 ^ Z.of_nat a) by lia.
  pose proof (reverse_bits_bound b (Z.of_nat i)) as Hbb.
  assert (Hp2 : 0 < 2 ^ Z.of_nat a) by (apply Z.pow_pos_nonneg; lia).
  eapply (check_proof_multi_complete ks p c); [|..|exact Hcm|exact Hx|exact Hpr| |].
  - rewrite Hpa, Hq, Hlz. exists (q * 2 ^ Z.of_nat b). ring.
  - rewrite Hpa, Hq, Hlz, Z.div_mul by nia.
    replace (q * (2 ^ Z.of_nat b * 2 ^ Z.of_nat a)) with (q * 2 ^ Z.of_nat b * 2 ^ Z.of_nat a) by ring.
    rewrite Z.div_mul by lia. nia.
  - rewrite reverse_bit_order_perm. pose proof (fft_fr_length _ _ _ _ Hf) as Hel.
    rewrite length_app, length_replicate in Hel.
    assert (Ha : (0 < 2 ^ a)%nat) by lia.
    destruct (chunks_full (2 ^ a) (reverse_bit_order evals) (2 ^ b)) as [_ Hfull]; [done| |].
    { rewrite reverse_bit_order_perm. lia. }
    exact (Forall_lookup_1 _ _ _ _ Hfull Hc).
  - intros j v Hj. rewrite Hpa. exact (chunk_evals ks p evals a b i chunk j v Hf Hl Hc Hj).
Qed.
End chunks.

(** ** The laws hold of polynomials over the field of five elements *)
Lemma poly_lib_roots : @RootsLaws poly_lib.
Proof.
  intros ks i Hi. simpl in *. rewrite (proj2 (Z.leb_le _ _)), (proj2 (Z.leb_le i 4)) by lia. by eexists.
Qed.

Lemma poly_lib_bit_index : @BitIndexLaws poly_lib.
Proof. intros A l k i. apply lookup_ref_reverse_bit_order. Qed.

Lemma poly_at_zeros p n x : poly_at (p ++ replicate n e0) x = poly_at p x.
Proof.
  unfold poly_at. rewrite foldr_app. f_equal. induction n as [|n IH]; [done|]. simpl. rewrite IH. by destruct x.
Qed.

Lemma poly_lib_fft_eval : @FftEvalLaws poly_lib.
Proof.
  split; simpl.
  - intros _ p evals j v Hf Hj. unfold F5_dft, dft in Hf.
    destruct p as [|a [|b [|c [|d [|? p]]]]]; simpl in Hf; try done; injection Hf as <-;
      simpl in Hj; repeat (destruct j as [|j]; [injection Hj as <-; eexists; split; reflexivity|simpl in Hj]); done.
  - intros _ p evals Hf. split; [lia|]. apply dft_Ok_length in Hf as [_ [-> | [-> | ->]]];
      [by exists 4|by exists 2|by exists 1].
  - intros p n x. apply poly_at_zeros.
Qed.

Lemma poly_lib_multi n : @MultiProofLaws n poly_lib.
Proof.
  split; simpl; [by eexists|]. intros _ p c pos x pr ys [q Hq] Hpos [= <-] Hx [= <-] Hl Hys.
  assert (Hn : n = 1%nat \/ n = 2%nat \/ n = 4%nat).
  { destruct n as [|[|[|[|[|n]]]]]; auto; try lia. assert (0 < q < 1 \/ q <= 0) by nia. nia. }
  rewrite bool_decide_true by done. simpl. f_equal.
  assert (Hp4 : 0 <= pos < 4)
    by (split; [lia|]; eapply Z.lt_le_trans; [apply Hpos|]; apply Z.div_le_upper_bound; lia).
  assert (Hval : forall i, (i < n)%nat -> ys !! i = Some (poly_at p (F5_pow e2 (Z.to_nat (pos + Z.of_nat i * (4 / Z.of_nat n)))))).
  { intros i Hi. destruct (lookup_lt_is_Some_2 ys i) as [v Hv]; [lia|]. rewrite Hv. f_equal.
    destruct (Hys i v Hv) as (xj & Hxj & ->). case_match; [by injection Hxj as <-|done]. }
  assert (Hx' : x = F5_pow e2 (Z.to_nat pos)) by (case_match; [by injection Hx as <-|done]).
  destruct Hn as [-> | [-> | ->]]; simpl root_of; cbv iota; apply bool_decide_true; subst x;
    (apply list_eq_same_length with (n := length ys); [by rewrite ?length_fmap, ?length_seq..|]);
    intros i a b Hi Ha Hb; rewrite Hval in Ha by lia; injection Ha as <-;
    rewrite list_lookup_fmap, lookup_seq_lt in Hb by lia; injection Hb as <-; f_equal;
    simpl in Hl;
    (assert (Hp : pos = 0 \/ pos = 1 \/ pos = 2 \/ pos = 3) by lia);
    (assert (Hi' : i = 0%nat \/ i = 1%nat \/ i = 2%nat \/ i = 3%nat) by lia);
    destruct Hp as [-> | [-> | [-> | ->]]]; destruct Hi' as [-> | [-> | [-> | ->]]]; try reflexivity; lia.
Qed.

Lemma poly_lib_fk20_proofs : @Fk20ProofLaws poly_lib.
Proof.
  intros ks p c l k fk prs evals i pr chunk x Hc _ Hprs Hf Hl Hpr Hch Hx.
  assert (Hla : exists a, l = (2 ^ a)%nat).
  { simpl in Hf. apply dft_Ok_length in Hf as [_ Hlen]. rewrite length_app, length_replicate in Hlen.
    destruct k as [|[|[|k]]]; simpl in Hl; [..|nia];
      destruct Hlen as [Hlen|[Hlen|Hlen]]; try lia;
      first [exists 0%nat; simpl; lia|exists 1%nat; simpl; lia|exists 2%nat; simpl; lia]. }
  destruct Hla as [a ->].
  apply (@chunk_opening poly_lib poly_lib_bit_order poly_lib_fft poly_lib_bit_index poly_lib_fft_eval a k
    (poly_lib_multi _) ks p c evals i chunk x pr Hc Hf Hl Hch Hx).
  simpl in Hprs. injection Hprs as <-. apply lookup_replicate in Hpr as [-> _]. done.
Qed.
