(* ===== verification/DasPrimitives.v ===== *)
(** * Primitive types ([crates/das-primitives/src])

    [Crypto] holds the transparent wrappers around the KZG library's types with
    their byte conversions and the [KZG] handle, [Polynomial], [Segment] and [Blob]
    the modules of the same names.  A [#[repr(transparent)]] wrapper is the wrapped
    type itself, so the [ReprConvert] casts are identities on slices. *)

From S2P Require Import Prelude Codec KzgLib KzgIndex.

(** ** [config.rs] *)
Definition BYTES_PER_FIELD_ELEMENT : Z := 32.
Definition FIELD_ELEMENTS_PER_BLOB : Z := 2048.
Definition BYTES_PER_BLOB : Z := FIELD_ELEMENTS_PER_BLOB * BYTES_PER_FIELD_ELEMENT.

(** ** [crypto/mod.rs] *)
Module Crypto.

Definition SCALAR_SAFE_BYTES : nat := 31.
Definition NUM_G1_POWERS : Z := 4096.
Definition NUM_G2_POWERS : Z := 65.

Record Position := mkPosition { x : Z; y : Z }.

#[export] Instance Position_eq_dec : EqDecision Position.
Proof. solve_decision. Defined.

#[export] Instance Position_wf : Wf Position := fun p => in_u 32 (x p) /\ in_u 32 (y p).

(** [kzg_type_with_size!] wraps the library's types transparently. *)
Abbreviation KZGCommitment := FsG1.
Abbreviation KZGProof := FsG1.
Abbreviation BlsScalar := FsFr.

Section crypto.
Context `{Platform} `{KzgLib}.

(** [kzg_type_with_size!]: the [Encode] and [Decode] implementations.  [Decode] for
    [[u8; N]] reads [N] bytes. *)
Definition g1_encode (c : FsG1) : bytes := g1_to_bytes c.
Definition g1_decode (input : bytes) : option (FsG1 * bytes) :=
  if (length input <? BYTES_PER_G1)%nat then None
  else match g1_from_bytes (take BYTES_PER_G1 input) with
       | Ok g => Some (g, drop BYTES_PER_G1 input)
       | _ => None
       end.

Definition scalar_encode (c : BlsScalar) : bytes := fr_to_bytes c.
Definition scalar_decode (input : bytes) : option (BlsScalar * bytes) :=
  if Z.of_nat (length input) <? BYTES_PER_FIELD_ELEMENT then None
  else match fr_from_bytes (take (Z.to_nat BYTES_PER_FIELD_ELEMENT) input) with
       | Ok r => Some (r, drop (Z.to_nat BYTES_PER_FIELD_ELEMENT) input)
       | _ => None
       end.

#[export] Instance g1_codec : Codec FsG1 :=
  {| scale_encode := g1_encode; scale_decode := g1_decode |}.
#[export] Instance scalar_codec : Codec FsFr :=
  {| scale_encode := scalar_encode; scale_decode := scalar_decode |}.
#[export] Instance g1_wf : Wf FsG1 := fun _ => True.
#[export] Instance scalar_wf : Wf FsFr := fun _ => True.

(** [SafeScalar for BlsScalar]: a fixed-size array argument has the stated length. *)
Definition try_from_bytes_safe (value : bytes) : res string BlsScalar :=
  fr_from_bytes (take SCALAR_SAFE_BYTES value ++ [0]).
Definition to_bytes_safe (self : BlsScalar) : bytes :=
  take SCALAR_SAFE_BYTES (fr_to_bytes self).
(** [From<&[u8; SCALAR_SAFE_BYTES]>]: the error case panics. *)
Definition scalar_from (value : bytes) : res string BlsScalar :=
  res_unwrap (try_from_bytes_safe value).

Definition bytes_to_kzg_settings (g1_bytes g2_bytes : bytes)
    (num_g1_powers num_g2_powers : Z) : res string FsKZGSettings :=
  let num_g1_points := Z.of_nat (length g1_bytes / BYTES_PER_G1) in
  if negb (num_g1_points =? num_g1_powers)
     || negb (num_g2_powers =? Z.of_nat (length g2_bytes / BYTES_PER_G2))
  then Err "Invalid bytes length"
  else
    g1_values ← mapM g1_from_bytes (chunks_exact BYTES_PER_G1 g1_bytes);
    g2_values ← mapM g2_from_bytes (chunks_exact BYTES_PER_G2 g2_bytes);
    fs ← res_unwrap (fft_settings_new (max_scale usize_bits num_g1_powers));
    Ok (kzg_settings g1_values g2_values fs).

(** The handle shares its settings through an [Arc] and never changes them. *)
Record KZG := mkKZG { ks : FsKZGSettings }.

Definition kzg_new (s : FsKZGSettings) : KZG := mkKZG s.
Definition get_fs (self : KZG) : FsFFTSettings := ks_fs (ks self).
Definition max_width (self : KZG) : Z := fs_max_width (get_fs self).

(** [split_at] panics past the end. *)
Definition embedded_kzg_settings (settings_bytes : bytes) (num_g1_powers num_g2_powers : Z)
    : res string FsKZGSettings :=
  let mid := wrap_usize (Z.of_nat BYTES_PER_G1 * num_g1_powers) in
  if Z.of_nat (length settings_bytes) <? mid then Panic
  else res_unwrap (E := string)
    (bytes_to_kzg_settings (take (Z.to_nat mid) settings_bytes)
       (drop (Z.to_nat mid) settings_bytes) num_g1_powers num_g2_powers).

Definition default_embedded (EMBEDDED_KZG_SETTINGS_BYTES : bytes) : res string KZG :=
  kzg_new <$> embedded_kzg_settings EMBEDDED_KZG_SETTINGS_BYTES NUM_G1_POWERS NUM_G2_POWERS.

Definition get_expanded_roots_of_unity_at (self : KZG) (i : Z) : res string FsFr :=
  ks_get_expanded_roots_of_unity_at (ks self) i.

Definition kzg_index (self : KZG) (chunk_count chunk_index chunk_size : Z) : res string Z :=
  get_kzg_index usize_bits (max_width self) chunk_count chunk_index chunk_size.

(** Polynomials: [Polynomial(FsPoly { coeffs })]. *)
Record Polynomial := mkPolynomial { coeffs : list FsFr }.

Definition all_proofs (self : KZG) (poly : Polynomial) (chunk_size : Z)
    : res string (list KZGProof) :=
  let poly_len := length (coeffs poly) in
  fk ← res_unwrap (E := string) (fk20_new (ks self) (2 * poly_len) (Z.to_nat chunk_size));
  res_unwrap (E := string) (fk20_data_availability fk (coeffs poly)).

Definition compute_proof_multi (self : KZG) (poly : Polynomial)
    (chunk_index count chunk_size : Z) : res string KZGProof :=
  pos ← kzg_index self count chunk_index chunk_size;
  x ← get_expanded_roots_of_unity_at self pos;
  ks_compute_proof_multi (ks self) (coeffs poly) x (Z.to_nat chunk_size).

Definition check_proof_multi (self : KZG) (commitment : KZGCommitment) (i chunk_count : Z)
    (values : list FsFr) (proof : KZGProof) (chunk_size : Z) : res string bool :=
  let ys := reverse_bit_order values in
  pos ← kzg_index self chunk_count i chunk_size;
  x ← get_expanded_roots_of_unity_at self pos;
  ks_check_proof_multi (ks self) commitment proof x ys (Z.to_nat chunk_size).

Definition compute_proof_with_index (self : KZG) (poly : Polynomial) (i : Z)
    : res string KZGProof :=
  x ← get_expanded_roots_of_unity_at self i;
  compute_proof_single (ks self) (coeffs poly) x.

Definition compute_proof (self : KZG) (poly : Polynomial) (x : FsFr) : res string KZGProof :=
  compute_proof_single (ks self) (coeffs poly) x.

Definition commit (self : KZG) (poly : Polynomial) : res string KZGCommitment :=
  commit_to_poly (ks self) (coeffs poly).

Definition verify (self : KZG) (commitment : KZGCommitment) (index : Z)
    (value : BlsScalar) (proof : KZGProof) : res string bool :=
  x ← get_expanded_roots_of_unity_at self index;
  ks_check_proof_single (ks self) commitment proof x value.

Definition check_proof_single (self : KZG) (commitment : KZGCommitment) (proof : KZGProof)
    (x : FsFr) (value : BlsScalar) : res string bool :=
  ks_check_proof_single (ks self) commitment proof x value.
End crypto.

(** ** Loading the embedded settings *)
Section embedded.
Context `{Platform} `{KzgLib}.

Lemma mapM_chunks_exact {A} (f : bytes -> res string A) n (l : bytes) : (0 < n)%nat -> is_bytes l ->
  (forall c, length c = n -> is_bytes c -> exists g, f c = Ok g) ->
  exists k, mapM f (chunks_exact n l) = Ok k.
Proof.
  intros Hn Hb Hf. apply mapM_res_exists. intros c [Hl Hc]%list_elem_of_filter.
  apply Hf; [done|]. apply list_elem_of_lookup in Hc as [i Hi].
  rewrite lookup_chunks in Hi by done. case_bool_decide; [injection Hi as <-|done].
  by apply Forall_take, Forall_drop.
Qed.

(** A file with as many well-formed points as announced loads. *)
Lemma embedded_kzg_settings_total (E : bytes) (n1 n2 : nat) : is_bytes E ->
  wrap_usize (Z.of_nat BYTES_PER_G1 * Z.of_nat n1) = Z.of_nat (n1 * BYTES_PER_G1) ->
  length E = (n1 * BYTES_PER_G1 + n2 * BYTES_PER_G2)%nat ->
  (forall c, length c = BYTES_PER_G1 -> is_bytes c -> exists g, g1_from_bytes c = Ok g) ->
  (forall c, length c = BYTES_PER_G2 -> is_bytes c -> exists g, g2_from_bytes c = Ok g) ->
  (forall n, exists fs, fft_settings_new n = Ok fs) ->
  exists s, embedded_kzg_settings E (Z.of_nat n1) (Z.of_nat n2) = Ok s.
Proof.
  intros Hb Hw Hl Hg1 Hg2 Hfs. unfold embedded_kzg_settings. rewrite Hw.
  rewrite (proj2 (Z.ltb_ge _ _)) by lia. rewrite Nat2Z.id.
  set (l1 := take _ E). set (l2 := drop _ E). unfold bytes_to_kzg_settings.
  assert (length l1 / BYTES_PER_G1 = n1)%nat as ->.
  { unfold l1. rewrite length_take_le by lia. by apply Nat.div_mul. }
  assert (length l2 / BYTES_PER_G2 = n2)%nat as ->.
  { unfold l2. rewrite length_drop, Hl, Nat.add_comm, Nat.add_sub. by apply Nat.div_mul. }
  rewrite !Z.eqb_refl. cbn [negb orb].
  destruct (mapM_chunks_exact g1_from_bytes BYTES_PER_G1 l1) as [k1 ->];
    [unfold BYTES_PER_G1; lia|by apply Forall_take|done|]. bind_simpl.
  destruct (mapM_chunks_exact g2_from_bytes BYTES_PER_G2 l2) as [k2 ->];
    [unfold BYTES_PER_G2; lia|by apply Forall_drop|done|]. bind_simpl.
  destruct (Hfs (max_scale usize_bits (Z.of_nat n1))) as [fs ->]. bind_simpl. by eexists.
Qed.

Lemma default_embedded_total (E : bytes) (n1 n2 : nat) : (32 <= usize_bits)%nat -> is_bytes E ->
  Z.of_nat n1 = NUM_G1_POWERS -> Z.of_nat n2 = NUM_G2_POWERS ->
  length E = (n1 * BYTES_PER_G1 + n2 * BYTES_PER_G2)%nat ->
  (forall c, length c = BYTES_PER_G1 -> is_bytes c -> exists g, g1_from_bytes c = Ok g) ->
  (forall c, length c = BYTES_PER_G2 -> is_bytes c -> exists g, g2_from_bytes c = Ok g) ->
  (forall n, exists fs, fft_settings_new n = Ok fs) ->
  exists kzg, default_embedded E = Ok kzg.
Proof.
  intros Hw Hb H1 H2 Hl Hg1 Hg2 Hfs. unfold default_embedded. rewrite <- H1, <- H2.
  destruct (embedded_kzg_settings_total E n1 n2) as [s ->]; [done| |done..|by eexists].
  rewrite Nat2Z.inj_mul, Z.mul_comm. apply wrap_small. unfold in_u. rewrite H1.
  split; [done|]. apply Z.lt_le_trans with (2 ^ 32); [done|]. apply Z.pow_le_mono_r; lia.
Qed.
End embedded.

(** Embedded settings of the right size, all zeros. *)
Definition zero_settings (n1 n2 : nat) : bytes :=
  replicate (n1 * BYTES_PER_G1 + n2 * BYTES_PER_G2) 0.
Lemma zero_settings_spec n1 n2 : is_bytes (zero_settings n1 n2) /\
  length (zero_settings n1 n2) = (n1 * BYTES_PER_G1 + n2 * BYTES_PER_G2)%nat.
Proof.
  split; [by apply Forall_replicate|apply length_replicate].
Qed.
#[global] Opaque zero_settings.
End Crypto.
Export (hints) Crypto.
Abbreviation Position := Crypto.Position.
Abbreviation KZGCommitment := FsG1.
Abbreviation KZGProof := FsG1.
Abbreviation BlsScalar := FsFr.
Abbreviation KZG := Crypto.KZG.

(** ** [polynomial.rs] *)
Module Polynomial.
Section polynomial.
Context `{KzgLib}.

Definition t : Type := Crypto.Polynomial.

Definition new (size : Z) : res string t := Crypto.mkPolynomial <$> poly_new size.

Definition is_valid (self : t) : bool :=
  is_power_of_two (Z.of_nat (length (Crypto.coeffs self))).

Definition checked (self : t) : res string t :=
  if negb (is_valid self) then Err "Polynomial size must be a power of two" else Ok self.

Definition from_coeffs (coeffs : list FsFr) : t := Crypto.mkPolynomial coeffs.

(** In place: the coefficients are truncated to the left half. *)
Definition left (self : t) : t :=
  let half := (length (Crypto.coeffs self) / 2)%nat in
  Crypto.mkPolynomial (take half (Crypto.coeffs self)).

Definition to_bls_scalars (self : t) : list BlsScalar := Crypto.coeffs self.

Definition eval_all (self : t) (fs : FsFFTSettings) : res string (list BlsScalar) :=
  reconstructed_data ← fft_fr fs (Crypto.coeffs self) false;
  Ok (reverse_bit_order reconstructed_data).

Definition eval (self : t) (x : BlsScalar) : BlsScalar := poly_eval (Crypto.coeffs self) x.
End polynomial.
End Polynomial.

(** ** [segment.rs] *)
Module Segment.
Section segment.
Context `{Platform} `{KzgLib}.

Record SegmentData := mkData { data : list BlsScalar; proof : KZGProof }.
Record t := mk { position : Position; content : SegmentData }.

#[export] Instance SegmentData_eq_dec : EqDecision SegmentData.
Proof. solve_decision. Defined.
#[export] Instance t_eq_dec : EqDecision t.
Proof. solve_decision. Defined.

Definition data_new (proof : KZGProof) (size : nat) : SegmentData :=
  mkData (replicate size fr_default) proof.

Definition data_size (self : SegmentData) : Z := Z.of_nat (length (data self)).

Definition from_data (positon : Position) (content : list BlsScalar) (kzg : KZG)
    (poly : Polynomial.t) (chunk_count : Z) : res string SegmentData :=
  p ← Crypto.compute_proof_multi kzg poly (Crypto.x positon) chunk_count
        (Z.of_nat (length content));
  Ok (mkData content p).

Definition new (position : Position) (data : list BlsScalar) (proof : KZGProof) : t :=
  mk position (mkData data proof).

Definition size (self : t) : Z := Z.of_nat (length (data (content self))).

Definition checked (self : t) : res string t :=
  if bool_decide (data (content self) = []) then Err "segment data is empty"
  else if negb (is_power_of_two (Z.of_nat (length (data (content self)))))
  then Err "segment data length is not a power of two"
  else Ok self.

Definition verify (self : t) (kzg : KZG) (commitment : KZGCommitment) (count : Z)
    : res string bool :=
  Crypto.check_proof_multi kzg commitment (Crypto.x (position self)) count
    (data (content self)) (proof (content self)) (size self).

(** A vector is encoded with its length as a [Compact<u32>]. *)
#[export] Instance SegmentData_wf : Wf SegmentData := fun d => in_u 32 (Z.of_nat (length (data d))).
#[export] Instance t_wf : Wf t := fun s => wf (position s).
End segment.
End Segment.
Export (hints) Segment.
