(* ===== verification/Blob.v ===== *)
(** * Blobs ([crates/das-primitives/src/blob.rs])

    A blob is a vector of scalars, each carrying 31 bytes of application data.  The
    file models the byte conversions, the Fiat-Shamir transcript, and commitment,
    proof and verification, and proves the byte round trip, the layout of the
    transcript, and that what is committed and proved is accepted. *)

From S2P Require Import Prelude Codec KzgLib KzgIndex KzgToy DasPrimitives.

Module Blob.
Section blob.
Context `{Platform} `{KzgLib}.

Definition t : Type := list BlsScalar.

Definition from_bytes (bs : bytes) : res string (list BlsScalar) :=
  mapM (fun chunk =>
          if bool_decide (length chunk = Crypto.SCALAR_SAFE_BYTES)
          then Crypto.try_from_bytes_safe chunk
          else Err "Chunked into incorrect number of bytes")
       (chunks Crypto.SCALAR_SAFE_BYTES bs).

Definition try_from_bytes (bs : bytes) (bytes_per_blob : nat) : res string t :=
  if negb (bool_decide (length bs = bytes_per_blob))
  then Err ("Invalid byte length. Expected " +:+ pretty bytes_per_blob +:+ " got "
            +:+ pretty (length bs))
  else from_bytes bs.

Definition try_from_bytes_pad (bs : bytes) (bytes_per_blob : nat) : res string t :=
  if bool_decide (bytes_per_blob < length bs)%nat
  then Err ("Invalid byte length. Expected maximum " +:+ pretty bytes_per_blob +:+ " got "
            +:+ pretty (length bs))
  else from_bytes (vec_resize bytes_per_blob 0 bs).

Definition to_bytes (self : t) : bytes := concat (Crypto.to_bytes_safe <$> self).

Definition to_bytes_by_len (self : t) (len : nat) : bytes :=
  let bs := to_bytes self in
  if bool_decide (len < length bs)%nat then vec_resize len 0 bs else bs.

Definition to_fs_fr_vec (self : t) : list FsFr := self.
Definition to_poly (self : t) : Polynomial.t := Crypto.mkPolynomial (to_fs_fr_vec self).

Definition blob_count (bytes_len bytes_per_blob : Z) : res string Z :=
  if bytes_per_blob =? 0 then Panic
  else Ok (wrap_usize (bytes_len + bytes_per_blob - 1) / bytes_per_blob).

Definition check_field_elements_per_blob (field_elements_per_blob : Z) : res string unit :=
  if negb (is_power_of_two field_elements_per_blob)
  then Err "field_elements_per_blob must be powers of two" else Ok tt.

Definition compute_challenge (blob : list FsFr) (commitment : FsG1)
    (bytes_per_blob field_elements_per_blob : Z) : res string FsFr :=
  let bs := replicate CHALLENGE_INPUT_SIZE 0 in
  bs ← (if negb (bool_decide (length FIAT_SHAMIR_PROTOCOL_DOMAIN = 16%nat)) then Panic
        else copy_at 0 FIAT_SHAMIR_PROTOCOL_DOMAIN bs);
  bs ← copy_at 16 (bytes_of_uint64 field_elements_per_blob) bs;
  bs ← copy_at 24 (bytes_of_uint64 0) bs;
  bs ← foldM (fun bs '(i, v) =>
                copy_at (32 + Z.of_nat i * BYTES_PER_FIELD_ELEMENT) (fr_to_bytes v) bs)
             bs (enumerate blob);
  bs ← foldM (fun bs '(i, b) => set_at (wrap_usize (32 + bytes_per_blob + Z.of_nat i)) b bs)
             bs (enumerate (g1_to_bytes commitment));
  Ok (hash_to_bls_field (kzg_hash bs)).

Definition commit (self : t) (kzg : KZG) : res string KZGCommitment :=
  Crypto.commit kzg (to_poly self).

Definition kzg_proof (self : t) (commitment : KZGCommitment) (kzg : KZG)
    (field_elements_per_blob : Z) : res string KZGProof :=
  _ ← check_field_elements_per_blob field_elements_per_blob;
  let bytes_per_blob := wrap_usize (BYTES_PER_FIELD_ELEMENT * field_elements_per_blob) in
  x ← compute_challenge (to_fs_fr_vec self) commitment bytes_per_blob field_elements_per_blob;
  Crypto.compute_proof kzg (to_poly self) x.

Definition commit_and_proof (self : t) (kzg : KZG) (field_elements_per_blob : Z)
    : res string (KZGCommitment * KZGProof) :=
  _ ← check_field_elements_per_blob field_elements_per_blob;
  let bytes_per_blob := wrap_usize (BYTES_PER_FIELD_ELEMENT * field_elements_per_blob) in
  commitment ← Crypto.commit kzg (to_poly self);
  x ← compute_challenge (to_fs_fr_vec self) commitment bytes_per_blob field_elements_per_blob;
  proof ← Crypto.compute_proof kzg (to_poly self) x;
  Ok (commitment, proof).

Definition verify (self : t) (kzg : KZG) (commitment : KZGCommitment) (proof : KZGProof)
    (field_elements_per_blob : Z) : res string bool :=
  _ ← check_field_elements_per_blob field_elements_per_blob;
  let bytes_per_blob := wrap_usize (BYTES_PER_FIELD_ELEMENT * field_elements_per_blob) in
  x ← compute_challenge (to_fs_fr_vec self) commitment bytes_per_blob field_elements_per_blob;
  let y := Polynomial.eval (to_poly self) x in
  Crypto.check_proof_single kzg commitment proof x y.

(** The fold pushes one challenge and one evaluation per blob. *)
Definition compute_challenges_and_evaluate_polynomial (blobs : list t)
    (commitments : list KZGCommitment) (bytes_per_blob field_elements_per_blob : Z)
    : res string (list FsFr * list FsFr) :=
  foldM (fun '(zs, ys) '(blob, commitment) =>
           z ← compute_challenge (to_fs_fr_vec blob) commitment bytes_per_blob
                 field_elements_per_blob;
           let y := Polynomial.eval (to_poly blob) z in
           Ok (zs ++ [z], ys ++ [y]))
        ([], []) (zip blobs commitments).

Definition verify_batch (blobs : list t) (commitments : list KZGCommitment)
    (proofs : list KZGProof) (kzg : KZG) (field_elements_per_blob : Z) : res string bool :=
  if existsb (fun c => negb (g1_is_valid c)) commitments then Err "Invalid commitment"
  else if existsb (fun p => negb (g1_is_valid p)) proofs then Err "Invalid proof"
  else if negb (bool_decide (length blobs = length commitments))
          || negb (bool_decide (length blobs = length proofs))
  then Err ("Invalid input length. Expected " +:+ pretty (length blobs)
            +:+ " got commitments: " +:+ pretty (length commitments)
            +:+ " and proofs: " +:+ pretty (length proofs))
  else
    _ ← check_field_elements_per_blob field_elements_per_blob;
    let bytes_per_blob := wrap_usize (BYTES_PER_FIELD_ELEMENT * field_elements_per_blob) in
    '(zs, ys) ← compute_challenges_and_evaluate_polynomial blobs commitments bytes_per_blob
                  field_elements_per_blob;
    Ok (verify_kzg_proof_batch commitments zs ys proofs (Crypto.ks kzg)).
End blob.

(** ** Byte conversion *)
Section bytes.
Context `{KzgLib} `{!FrBytesLaws}.

Lemma try_from_bytes_safe_Ok bs : length bs = 31%nat -> is_bytes bs ->
  exists r, Crypto.try_from_bytes_safe bs = Ok r /\ Crypto.to_bytes_safe r = bs.
Proof.
  intros Hl Hb. destruct (fr_from_bytes_safe bs Hl Hb) as (r & Hr & Ht).
  exists r. unfold Crypto.try_from_bytes_safe, Crypto.to_bytes_safe, Crypto.SCALAR_SAFE_BYTES.
  rewrite take_ge by lia. split; [done|]. rewrite Ht. by apply take_app_length'.
Qed.

Lemma from_bytes_Ok bs n : length bs = (n * 31)%nat -> is_bytes bs ->
  exists b, from_bytes bs = Ok b /\ to_bytes b = bs /\ length b = n.
Proof.
  intros Hl Hb. destruct (chunks_full 31 bs n) as [Hn Hf]; [lia|done|].
  assert (Hc : Forall is_bytes (chunks 31 bs)).
  { apply Forall_forall. intros c Hin.
    rewrite <- (concat_chunks 31 bs) in Hb by lia. unfold is_bytes in *.
    rewrite Forall_concat, Forall_forall in Hb. by apply Hb. }
  assert (exists k, Forall2 (fun c r => (length c = 31%nat /\
      Crypto.try_from_bytes_safe c = Ok r) /\ Crypto.to_bytes_safe r = c) (chunks 31 bs) k) as [k Hk].
  { clear Hn. induction Hf as [|c cs Hc' _ IH]; [by exists []|].
    inversion Hc; subst. destruct IH as [k Hk]; [done|].
    destruct (try_from_bytes_safe_Ok c) as [r Hr]; [done..|]. exists (r :: k).
    constructor; naive_solver. }
  exists k. split_and!.
  - apply mapM_res_Ok. eapply Forall2_impl; [exact Hk|]. simpl.
    intros c r [[? ?] _]. by rewrite bool_decide_true.
  - unfold to_bytes. rewrite (Forall2_fmap_inv _ _ (chunks 31 bs)).
    + apply concat_chunks. lia.
    + eapply Forall2_impl; [exact Hk|]. simpl. naive_solver.
  - rewrite <- Hn. symmetry. by eapply Forall2_length.
Qed.

Lemma from_bytes_Err bs : ~ (31 | Z.of_nat (length bs)) -> is_ok (from_bytes bs) = false.
Proof.
  intros Hd. destruct (from_bytes bs) as [b| |] eqn:Hb; [|done..]. exfalso. apply Hd.
  apply mapM_res_Ok in Hb.
  assert (Hl : Forall (fun c => length c = 31%nat) (chunks 31 bs)).
  { apply Forall_forall. intros c Hin. apply list_elem_of_lookup in Hin as [i Hi].
    eapply Forall2_lookup_l in Hb as (r & _ & Hr); [|exact Hi]. by case_bool_decide. }
  rewrite <- (concat_chunks 31 bs) by lia. clear -Hl. induction Hl as [|c cs Hc _ IH]; simpl.
  - by exists 0.
  - rewrite length_app, Hc. destruct IH as [q Hq]. exists (q + 1). lia.
Qed.

Lemma try_from_bytes_pad_complete bs bytes_per_blob n : is_bytes bs ->
  (length bs <= bytes_per_blob)%nat -> Z.of_nat bytes_per_blob = 31 * n ->
  exists b, try_from_bytes_pad bs bytes_per_blob = Ok b /\ Z.of_nat (length b) = n /\
    to_bytes b = bs ++ replicate (bytes_per_blob - length bs) 0.
Proof.
  intros Hb Hle Hn. unfold try_from_bytes_pad, vec_resize.
  rewrite bool_decide_false, resize_ge by lia.
  destruct (from_bytes_Ok (bs ++ replicate (bytes_per_blob - length bs) 0) (Z.to_nat n))
    as (b & Hok & Ht & Hl).
  - rewrite length_app, length_replicate. lia.
  - apply Forall_app. split; [done|]. by apply Forall_replicate.
  - exists b. split_and!; [done|lia|done].
Qed.

(** Application bytes survive the blob conversion: a payload of at most
    [bytes_per_blob] bytes, where [bytes_per_blob] is a multiple of 31, converts to a
    blob of [bytes_per_blob / 31] scalars, and cutting the blob's bytes at the payload
    length gives the payload back; the rest is zero padding.  Any other length is
    refused with an error, never with a panic or a truncated blob. *)
Theorem try_from_bytes_pad_roundtrip bs bytes_per_blob : is_bytes bs ->
  if decide ((length bs <= bytes_per_blob)%nat /\ Z.of_nat bytes_per_blob mod 31 = 0)
  then exists b, try_from_bytes_pad bs bytes_per_blob = Ok b /\
         Z.of_nat (length b) = Z.of_nat bytes_per_blob / 31 /\
         to_bytes_by_len b (length bs) = bs /\
         to_bytes b = bs ++ replicate (bytes_per_blob - length bs) 0
  else is_ok (try_from_bytes_pad bs bytes_per_blob) = false.
Proof.
  intros Hb. case_decide as Hd.
  - destruct Hd as [Hle [q Hq]%Z.mod_divide]; [|done].
    destruct (try_from_bytes_pad_complete bs bytes_per_blob q) as (b & Hok & Hl & Ht);
      [done..|lia|].
    exists b. split_and!; [done|by rewrite Hq, Z.div_mul| |done].
    unfold to_bytes_by_len, vec_resize. rewrite Ht. case_bool_decide as Hc.
    + by rewrite resize_app_le, resize_all by lia.
    + rewrite length_app, length_replicate in Hc.
      replace (bytes_per_blob - length bs)%nat with 0%nat by lia. apply app_nil_r.
  - unfold try_from_bytes_pad, vec_resize. case_bool_decide as Hlt; [done|].
    apply from_bytes_Err. rewrite length_resize. intros Hx. apply Hd. split; [lia|].
    by apply Z.mod_divide.
Qed.
End bytes.

Section roundtrip_witness.
#[local] Existing Instances bytes_lib bytes_lib_fr.

Lemma try_from_bytes_pad_roundtrip_witness :
  exists b, try_from_bytes_pad [1; 2; 3] 62 = Ok b /\ Z.of_nat (length b) = Z.of_nat 62 / 31 /\
    to_bytes_by_len b 3 = [1; 2; 3] /\ to_bytes b = [1; 2; 3] ++ replicate 59 0.
Proof.
  assert (Hb : is_bytes [1; 2; 3]) by (unfold is_bytes; by_decision).
  exact (try_from_bytes_pad_roundtrip [1; 2; 3] 62 Hb).
Defined.
End roundtrip_witness.

(** ** The Fiat-Shamir transcript *)
Section transcript.
Context `{Platform} `{KzgLib} `{!FrBytesLaws} `{!G1BytesLaws} `{!TranscriptLaws}.

Lemma length_concat_fr (blob : list FsFr) :
  length (concat (fr_to_bytes <$> blob)) = (32 * length blob)%nat.
Proof.
  induction blob as [|r b IH]; [done|].
  rewrite fmap_cons. cbn [concat]. rewrite length_app, IH, length_fr_to_bytes. simpl. lia.
Qed.

Lemma copy_blob_loop blob : forall k (pre post : bytes),
  length pre = (32 + 32 * k)%nat ->
  foldM (E := string) (fun bs '(i, v) =>
      copy_at (32 + Z.of_nat i * BYTES_PER_FIELD_ELEMENT) (fr_to_bytes v) bs)
    (pre ++ replicate (32 * length blob) 0 ++ post) (imap (fun i v => (k + i, v)%nat) blob)
  = Ok (pre ++ concat (fr_to_bytes <$> blob) ++ post).
Proof.
  induction blob as [|v blob IH]; intros k pre post Hp; [done|].
  replace (32 * length (v :: blob))%nat with (32 + 32 * length blob)%nat by (simpl; lia).
  rewrite replicate_add, <- app_assoc. cbn [imap foldM].
  rewrite copy_at_app by
    (rewrite ?length_replicate, ?length_fr_to_bytes; unfold BYTES_PER_FIELD_ELEMENT; lia).
  cbn [mbind res_bind]. rewrite (app_assoc pre).
  rewrite fmap_cons. cbn [concat]. rewrite <- (app_assoc (fr_to_bytes v)), (app_assoc pre).
  rewrite <- (IH (S k)) by (rewrite length_app, length_fr_to_bytes; lia).
  f_equal. apply imap_ext. intros i x _. simpl. f_equal. lia.
Qed.

Lemma set_commitment_loop (v : bytes) : forall off k (pre post : bytes),
  Z.of_nat (length pre) = off + Z.of_nat k ->
  off + Z.of_nat k + Z.of_nat (length v) < 2 ^ Z.of_nat usize_bits -> 0 <= off ->
  foldM (E := string) (fun bs '(i, b) => set_at (wrap_usize (off + Z.of_nat i)) b bs)
    (pre ++ replicate (length v) 0 ++ post) (imap (fun i b => (k + i, b)%nat) v)
  = Ok (pre ++ v ++ post).
Proof.
  induction v as [|b v IH]; intros off k pre post Hp Hw Ho; [done|].
  simpl length in *. cbn [imap foldM replicate]. cbn [app].
  assert (wrap_usize (off + Z.of_nat (k + 0)) = Z.of_nat (length pre)) as ->
    by (unfold wrap_usize; rewrite wrap_small; unfold in_u; lia).
  rewrite set_at_app by lia. cbn [mbind res_bind].
  rewrite !(cons_middle b pre), !(app_assoc pre [b]).
  rewrite <- (IH off (S k)) by (rewrite ?length_app; simpl; lia).
  f_equal. apply imap_ext. intros i x _. simpl. f_equal. lia.
Qed.

Lemma compute_challenge_layout blob commitment n :
  length blob = n ->
  (80 + 32 * n <= CHALLENGE_INPUT_SIZE)%nat ->
  Z.of_nat CHALLENGE_INPUT_SIZE < 2 ^ Z.of_nat usize_bits ->
  compute_challenge blob commitment
    (wrap_usize (BYTES_PER_FIELD_ELEMENT * Z.of_nat n)) (Z.of_nat n)
  = Ok (hash_to_bls_field (kzg_hash
      (FIAT_SHAMIR_PROTOCOL_DOMAIN ++ bytes_of_uint64 (Z.of_nat n) ++ bytes_of_uint64 0
       ++ concat (fr_to_bytes <$> blob) ++ g1_to_bytes commitment
       ++ replicate (CHALLENGE_INPUT_SIZE - (80 + 32 * n)) 0))).
Proof.
  intros Hn Hsz Hus. unfold BYTES_PER_FIELD_ELEMENT.
  unfold wrap_usize at 1. rewrite wrap_small by (unfold in_u; lia).
  unfold compute_challenge. rewrite bool_decide_true by apply length_FIAT_SHAMIR. simpl negb.
  remember (CHALLENGE_INPUT_SIZE - (80 + 32 * n))%nat as m.
  replace CHALLENGE_INPUT_SIZE with (16 + (8 + (8 + (32 * n + (48 + m)))))%nat by lia.
  rewrite !(replicate_add 16), !(replicate_add 8), (replicate_add (32 * n)), (replicate_add 48).
  change (copy_at 0 FIAT_SHAMIR_PROTOCOL_DOMAIN ?b) with
    (copy_at (E := string) 0 FIAT_SHAMIR_PROTOCOL_DOMAIN ([] ++ b)).
  pose proof length_FIAT_SHAMIR as Hd. pose proof length_bytes_of_uint64 as Hu.
  pose proof (length_g1_to_bytes commitment) as Hg.
  rewrite copy_at_app by (rewrite ?length_replicate; simpl; lia). cbn [mbind res_bind app].
  rewrite copy_at_app by (rewrite ?length_replicate, ?Hu; lia). cbn [mbind res_bind].
  rewrite app_assoc, copy_at_app by (rewrite ?length_app, ?length_replicate, ?Hu; lia).
  cbn [mbind res_bind]. rewrite app_assoc.
  unfold enumerate. rewrite <- Hn.
  rewrite (copy_blob_loop blob 0) by (rewrite !length_app, !Hu; lia). cbn [mbind res_bind].
  replace 48%nat with (length (g1_to_bytes commitment)) by done.
  rewrite app_assoc.
  assert (Hlen : length (concat (fr_to_bytes <$> blob)) = (32 * n)%nat).
  { rewrite <- Hn. apply length_concat_fr. }
  rewrite (set_commitment_loop _ _ 0)
    by (rewrite ?length_app, ?Hlen, ?Hu, ?Hg; unfold BYTES_PER_G1; lia).
  cbn [mbind res_bind]. by rewrite <- !app_assoc.
Qed.

(** The challenge hashes exactly the transcript: domain separator, the blob size
    and zero as 8-byte integers, the scalars in order, the commitment, and zeros up to
    [CHALLENGE_INPUT_SIZE].  In particular the buffer writes never go out of range
    when the buffer has room for the blob and the commitment. *)
Theorem compute_challenge_transcript blob commitment n :
  length blob = n ->
  (80 + 32 * n <= CHALLENGE_INPUT_SIZE)%nat ->
  Z.of_nat CHALLENGE_INPUT_SIZE < 2 ^ Z.of_nat usize_bits ->
  compute_challenge blob commitment
    (wrap_usize (BYTES_PER_FIELD_ELEMENT * Z.of_nat n)) (Z.of_nat n)
  = Ok (hash_to_bls_field (kzg_hash
      (FIAT_SHAMIR_PROTOCOL_DOMAIN ++ bytes_of_uint64 (Z.of_nat n) ++ bytes_of_uint64 0
       ++ concat (fr_to_bytes <$> blob) ++ g1_to_bytes commitment
       ++ replicate (CHALLENGE_INPUT_SIZE - (80 + 32 * n)) 0))).
Proof. apply compute_challenge_layout. Qed.
End transcript.

Section transcript_witness.
#[local] Existing Instances host64 bytes_lib bytes_lib_fr bytes_lib_g1 bytes_lib_transcript.

Lemma compute_challenge_transcript_witness :
  compute_challenge [fr_zero; fr_zero] g1_identity
    (wrap_usize (BYTES_PER_FIELD_ELEMENT * Z.of_nat 2)) (Z.of_nat 2)
  = Ok (hash_to_bls_field (kzg_hash
      (FIAT_SHAMIR_PROTOCOL_DOMAIN ++ bytes_of_uint64 (Z.of_nat 2) ++ bytes_of_uint64 0
       ++ concat (fr_to_bytes <$> [fr_zero; fr_zero]) ++ g1_to_bytes g1_identity
       ++ replicate (CHALLENGE_INPUT_SIZE - (80 + 32 * 2)) 0))).
Proof.
  apply (compute_challenge_transcript [fr_zero; fr_zero] g1_identity 2);
    [reflexivity | apply Nat.leb_le; vm_compute; reflexivity | vm_compute; reflexivity].
Defined.
End transcript_witness.

(** ** Completeness *)
Section complete.
Context `{Platform} `{KzgLib} `{!KzgSingleLaws} `{!KzgBatchLaws}.

Lemma commit_and_proof_opening b kzg n c p : commit_and_proof b kzg n = Ok (c, p) ->
  is_power_of_two n = true /\ g1_is_valid c = true /\ g1_is_valid p = true /\
  exists z, compute_challenge b c (wrap_usize (BYTES_PER_FIELD_ELEMENT * n)) n = Ok z /\
    ks_check_proof_single (Crypto.ks kzg) c p z (poly_eval b z) = Ok true.
Proof.
  unfold commit_and_proof, check_field_elements_per_blob, Crypto.commit, Crypto.compute_proof.
  destruct (is_power_of_two n) eqn:Hp; [|done]. simpl. intros Hc. res_inv.
  split_and!; [done|by eapply commit_to_poly_valid|by eapply compute_proof_single_valid|].
  eexists. split; [done|]. by eapply check_proof_single_complete.
Qed.

(** What [commit_and_proof] returns is accepted by [verify] on the same blob:
    prover and verifier derive the same challenge and evaluate the same polynomial. *)
Theorem verify_commit_and_proof b kzg n c p :
  commit_and_proof b kzg n = Ok (c, p) -> verify b kzg c p n = Ok true.
Proof.
  intros Hc. apply commit_and_proof_opening in Hc as (Hp & _ & _ & z & Hz & Hok).
  unfold verify, check_field_elements_per_blob. rewrite Hp. simpl.
  unfold to_fs_fr_vec. rewrite Hz. simpl. exact Hok.
Qed.

Lemma openings_exist kzg n (os : list (t * KZGCommitment * KZGProof)) :
  Forall (fun '(b, c, p) => commit_and_proof b kzg n = Ok (c, p)) os ->
  exists ez : list (t * FsG1 * FsFr * FsG1),
    os = (fun '(b, c, z, p) => (b, c, p)) <$> ez /\
    Forall (fun '(b, c, z, p) => g1_is_valid c = true /\ g1_is_valid p = true /\
      compute_challenge b c (wrap_usize (BYTES_PER_FIELD_ELEMENT * n)) n = Ok z /\
      ks_check_proof_single (Crypto.ks kzg) c p z (poly_eval b z) = Ok true) ez.
Proof.
  induction 1 as [|[[b c] p] os Ho _ (ez & -> & IH)]; [by exists []|].
  apply commit_and_proof_opening in Ho as (_ & ? & ? & z & ? & ?).
  exists ((b, c, z, p) :: ez). split; [done|by constructor].
Qed.

Lemma challenges_spec n w (ez : list (t * FsG1 * FsFr * FsG1)) : forall zs ys,
  Forall (fun '(b, c, z, p) => compute_challenge b c w n = Ok z) ez ->
  foldM (fun '(zs, ys) '(blob, commitment) =>
           z ← compute_challenge (to_fs_fr_vec blob) commitment w n;
           Ok (zs ++ [z], ys ++ [Polynomial.eval (to_poly blob) z])) (zs, ys)
    (zip ((fun '(b, _, _, _) => b) <$> ez) ((fun '(_, c, _, _) => c) <$> ez))
  = Ok (zs ++ ((fun '(_, _, z, _) => z) <$> ez),
        ys ++ ((fun '(b, _, z, _) => poly_eval b z) <$> ez)).
Proof.
  induction ez as [|[[[b c] z] p] ez IH]; intros zs ys Hos; simpl.
  - by rewrite !app_nil_r.
  - inversion Hos as [|? ? Hz Hos']; subst. unfold to_fs_fr_vec in *. rewrite Hz. simpl.
    rewrite IH by done. by rewrite <- !app_assoc.
Qed.

Lemma verify_batch_honest kzg n (os : list (t * KZGCommitment * KZGProof)) :
  is_power_of_two n = true ->
  Forall (fun '(b, c, p) => commit_and_proof b kzg n = Ok (c, p)) os ->
  verify_batch ((fun '(b, _, _) => b) <$> os) ((fun '(_, c, _) => c) <$> os)
    ((fun '(_, _, p) => p) <$> os) kzg n = Ok true.
Proof.
  intros Hp Hos.
  destruct (openings_exist kzg n os Hos) as (ez & -> & Hez). clear Hos.
  rewrite <- !list_fmap_compose.
  rewrite (list_fmap_ext _ (fun '(b, _, _, _) => b) ez), (list_fmap_ext _ (fun '(_, c, _, _) => c) ez),
    (list_fmap_ext (_ ∘ _) (fun '(_, _, _, p) => p) ez) by (intros ? [[[? ?] ?] ?] _; reflexivity).
  unfold verify_batch.
  rewrite !existsb_negb_false by (apply Forall_fmap; eapply Forall_impl; [exact Hez|];
    intros [[[? ?] ?] ?]; simpl; tauto).
  rewrite !bool_decide_true by (by rewrite !length_fmap). simpl.
  unfold check_field_elements_per_blob. rewrite Hp. simpl.
  unfold compute_challenges_and_evaluate_polynomial. rewrite challenges_spec
    by (eapply Forall_impl; [exact Hez|]; intros [[[? ?] ?] ?]; tauto).
  simpl. f_equal.
  pose proof (verify_kzg_proof_batch_complete (Crypto.ks kzg)
    ((fun '(b, c, z, p) => (c, z, poly_eval b z, p)) <$> ez)) as Hb.
  rewrite <- !list_fmap_compose in Hb. rewrite <- Hb.
  - f_equal; apply list_fmap_ext; intros ? [[[? ?] ?] ?] _; reflexivity.
  - apply Forall_fmap. eapply Forall_impl; [exact Hez|]. intros [[[? ?] ?] ?]. simpl. tauto.
Qed.

(** A batch of honestly committed and proved blobs is accepted by
    [verify_batch], whatever its length (the empty batch included), provided the blob
    size is a power of two. *)
Theorem verify_batch_complete kzg n (os : list (t * KZGCommitment * KZGProof)) :
  is_power_of_two n = true ->
  Forall (fun '(b, c, p) => commit_and_proof b kzg n = Ok (c, p)) os ->
  verify_batch ((fun '(b, _, _) => b) <$> os) ((fun '(_, c, _) => c) <$> os)
    ((fun '(_, _, p) => p) <$> os) kzg n = Ok true.
Proof. apply verify_batch_honest. Qed.
End complete.

Section complete_witness.
#[local] Existing Instances host64 poly_lib poly_lib_single poly_lib_batch.

#[local] Definition toy_kzg : KZG := Crypto.kzg_new tt.
#[local] Definition b1 : t := [e1; e2].
#[local] Definition b2 : t := [e3; e0].

Lemma verify_commit_and_proof_witness : verify b1 toy_kzg b1 b1 2 = Ok true.
Proof. apply (verify_commit_and_proof b1 toy_kzg 2 b1 b1). vm_compute. reflexivity. Defined.

Lemma verify_batch_complete_witness :
  verify_batch [b1; b2] [b1; b2] [b1; b2] toy_kzg 2 = Ok true.
Proof.
  apply (verify_batch_complete toy_kzg 2 [(b1, b1, b1); (b2, b2, b2)]).
  - reflexivity.
  - repeat constructor; vm_compute; reflexivity.
Defined.
End complete_witness.
End Blob.
