(* ===== verification/KzgTypes.v ===== *)
(** * Representations of the KZG types ([crates/das-primitives/src/crypto])

    The macro [kzg_type_with_size!] gives commitments, proofs and scalars their byte arrays,
    their SCALE encoding and, for commitments and proofs, their JSON form ([serde.rs]); the
    macro [repr_convertible!] moves slices and vectors between a type and what it wraps.
    [header/mod.rs] has the JSON form of block numbers. *)

From S2P Require Import Prelude Codec Hex KzgLib KzgIndex KzgToy DasPrimitives Blob.

(** ** [kzg_type_with_size!]: [inner] is the wrapped type with its own conversions *)
Class KzgInner (T : Type) := {
  SIZE : nat;
  inner_to_bytes : T -> bytes;
  inner_from_bytes : bytes -> res string T
}.
Class KzgInnerLaws (T : Type) `{KzgInner T} : Prop := {
  inner_length : forall x, length (inner_to_bytes x) = SIZE;
  inner_is_bytes : forall x, is_bytes (inner_to_bytes x);
  inner_from_to : forall x, inner_from_bytes (inner_to_bytes x) = Ok x
}.

Module KzgType.
Section kzg_type.
Context {T : Type} `{KzgInner T}.

Definition to_bytes (self : T) : bytes := inner_to_bytes self.
Definition try_from_bytes (bs : bytes) : res string T := x ← inner_from_bytes bs; Ok x.
Definition size : nat := SIZE.
Definition size_of (self : T) : nat := SIZE.
(** [From<$name> for [u8; $size]] and [TryFrom<[u8; $size]>] *)
Definition into_array (kzd_data : T) : bytes := to_bytes kzd_data.
Definition try_from (bs : bytes) : res string T := try_from_bytes bs.
(** What is fed to the [Hasher]. *)
Definition hash_input (self : T) : bytes := to_bytes self.

(** [Encode], with [encoded_fixed_size] of [Decode]. *)
Definition size_hint (self : T) : nat := SIZE.
Definition using_encoded {R} (self : T) (f : bytes -> R) : R := f (to_bytes self).
Definition encoded_size (self : T) : nat := SIZE.
Definition encoded_fixed_size : option nat := Some SIZE.
Definition max_encoded_len : nat := SIZE.
(** The provided method [encode]. *)
Definition encode (self : T) : bytes := using_encoded self id.
(** [<[u8; $size]>::decode] reads exactly that many bytes. *)
Definition decode (input : bytes) : option (T * bytes) :=
  if (length input <? SIZE)%nat then None
  else match try_from_bytes (take SIZE input) with
       | Ok x => Some (x, drop SIZE input)
       | _ => None
       end.

(** [serde.rs]: the array as a hexadecimal string. *)
Definition serialize (self : T) : string := hex_encode (to_bytes self).
Definition deserialize (s : string) : res string T :=
  bs ← ok_or (hex_decode_array SIZE s) "invalid hexadecimal array"%string;
  match try_from_bytes bs with Ok x => Ok x | Err error => Err error | Panic => Panic end.

Context `{!KzgInnerLaws T}.

(** The SCALE form is canonical in length, is read back, and leaves what follows it. *)
Lemma decode_encode x rest : decode (encode x ++ rest) = Some (x, rest).
Proof.
  unfold decode, encode, using_encoded, id, to_bytes, try_from_bytes.
  rewrite length_app, inner_length, (proj2 (Nat.ltb_ge _ _)) by lia.
  rewrite take_app_length' by (by rewrite inner_length). rewrite inner_from_to. simpl.
  by rewrite drop_app_length' by (by rewrite inner_length).
Qed.

Lemma deserialize_serialize x : deserialize (serialize x) = Ok x.
Proof.
  unfold deserialize, serialize, to_bytes.
  rewrite <- (inner_length x), hex_decode_array_encode by apply inner_is_bytes. simpl.
  unfold try_from_bytes. by rewrite inner_from_to.
Qed.

Lemma decode_short input : (length input < SIZE)%nat -> decode input = None.
Proof. intros Hl. unfold decode. by rewrite (proj2 (Nat.ltb_lt _ _) Hl). Qed.

Lemma hex_decode_length s bs : hex_decode s = Some bs -> String.length s = (2 * length bs)%nat.
Proof.
  revert s bs. fix IH 1. intros [|a [|b s]] bs; cbn [hex_decode]; [by intros [= <-]|done|].
  destruct (hex_value a); [|done]. destruct (hex_value b); [|done]. simpl.
  destruct (hex_decode s) as [bs'|] eqn:Hs; [|done]. simpl. intros [= <-].
  apply IH in Hs. simpl. lia.
Qed.

Lemma deserialize_length s x : deserialize s = Ok x -> String.length s = (2 * SIZE)%nat.
Proof.
  unfold deserialize, hex_decode_array. destruct (hex_decode s) as [bs|] eqn:Hs; [|done]. simpl.
  destruct (Nat.eqb_spec (length bs) SIZE) as [<-|]; [|done]. intros _. by apply hex_decode_length.
Qed.
End kzg_type.
End KzgType.

(** ** The three types *)
Class G1IsBytes `{KzgLib} : Prop := g1_to_bytes_is_bytes : forall g, is_bytes (g1_to_bytes g).
Class FrIsBytes `{KzgLib} : Prop := fr_to_bytes_is_bytes : forall r, is_bytes (fr_to_bytes r).

(** [KZGCommitment] and [KZGProof] *)
#[export] Instance g1_inner `{KzgLib} : KzgInner FsG1 :=
  {| SIZE := BYTES_PER_G1; inner_to_bytes := g1_to_bytes; inner_from_bytes := g1_from_bytes |}.
(** [BlsScalar] *)
#[export] Instance scalar_inner `{KzgLib} : KzgInner FsFr :=
  {| SIZE := Z.to_nat BYTES_PER_FIELD_ELEMENT; inner_to_bytes := fr_to_bytes;
     inner_from_bytes := fr_from_bytes |}.
#[export] Instance g1_inner_laws `{KzgLib} `{!G1BytesLaws} `{!G1IsBytes} : KzgInnerLaws FsG1.
Proof. split; [apply length_g1_to_bytes|apply g1_to_bytes_is_bytes|apply g1_from_to_bytes]. Qed.
#[export] Instance scalar_inner_laws `{KzgLib} `{!FrBytesLaws} `{!FrIsBytes} : KzgInnerLaws FsFr.
Proof. split; [apply length_fr_to_bytes|apply fr_to_bytes_is_bytes|apply fr_from_to_bytes]. Qed.

(** The codecs of the two types are the ones the macro generates. *)
Lemma g1_decode_macro `{Platform} `{KzgLib} input : Crypto.g1_decode input = KzgType.decode input.
Proof.
  unfold Crypto.g1_decode, KzgType.decode, KzgType.try_from_bytes. simpl.
  destruct (length input <? _)%nat; [done|]. by destruct (g1_from_bytes _).
Qed.
Lemma scalar_decode_macro `{Platform} `{KzgLib} input : Crypto.scalar_decode input = KzgType.decode input.
Proof.
  unfold Crypto.scalar_decode, KzgType.decode, KzgType.try_from_bytes. cbn [SIZE inner_from_bytes scalar_inner].
  change (Z.to_nat BYTES_PER_FIELD_ELEMENT) with 32%nat. change BYTES_PER_FIELD_ELEMENT with 32.
  destruct (Nat.ltb_spec (length input) 32), (Z.ltb_spec (Z.of_nat (length input)) 32); try done; try lia.
  by destruct (fr_from_bytes _).
Qed.

#[export] Instance g1_codec_laws `{Platform} `{KzgLib} `{!G1BytesLaws} : CodecLaws FsG1.
Proof.
  intros g rest _. simpl. unfold Crypto.g1_decode, Crypto.g1_encode.
  rewrite length_app, length_g1_to_bytes, (proj2 (Nat.ltb_ge _ _)) by lia.
  rewrite take_app_length' by (by rewrite length_g1_to_bytes). rewrite g1_from_to_bytes.
  by rewrite drop_app_length' by (by rewrite length_g1_to_bytes).
Qed.
#[export] Instance scalar_codec_laws `{Platform} `{KzgLib} `{!FrBytesLaws} : CodecLaws FsFr.
Proof.
  intros r rest _. simpl. unfold Crypto.scalar_decode, Crypto.scalar_encode.
  rewrite length_app, length_fr_to_bytes, (proj2 (Z.ltb_ge _ _)) by (change BYTES_PER_FIELD_ELEMENT with 32; lia).
  rewrite take_app_length' by (by rewrite length_fr_to_bytes). rewrite fr_from_to_bytes.
  by rewrite drop_app_length' by (by rewrite length_fr_to_bytes).
Qed.

(** ** Commitments, proofs and scalars are read back *)
Section roundtrip.
Context {T : Type} `{KzgInner T} `{!KzgInnerLaws T}.

(** The byte forms of commitments, proofs and scalars: the SCALE encoding has the fixed
    size announced for it, is read back with exactly what follows it left over, and shorter
    inputs are refused; the JSON form is read back; and a JSON string that is accepted has
    two digits for each byte. *)
Theorem kzg_type_roundtrip (x : T) rest s y :
  KzgType.decode (KzgType.encode x ++ rest) = Some (x, rest) /\
  KzgType.encoded_fixed_size (T := T) = Some (length (KzgType.encode x)) /\
  length (KzgType.encode x) = KzgType.max_encoded_len (T := T) /\
  (forall input, (length input < KzgType.size (T := T))%nat -> KzgType.decode (T := T) input = None) /\
  KzgType.deserialize (KzgType.serialize x) = Ok x /\
  (KzgType.deserialize s = Ok y -> String.length s = (2 * KzgType.size (T := T))%nat).
Proof.
  assert (Hl : length (KzgType.encode x) = SIZE) by apply inner_length.
  split_and!; [apply KzgType.decode_encode|by rewrite Hl|exact Hl|apply KzgType.decode_short
    |apply KzgType.deserialize_serialize|apply KzgType.deserialize_length].
Qed.
End roundtrip.

Section roundtrip_witness.
#[local] Existing Instances bytes_lib bytes_lib_g1.
#[local] Instance enc_is_bytes : G1IsBytes.
Proof. intros g. exact (proj2 (proj2_dsig g)). Qed.

Lemma kzg_type_roundtrip_witness :
  KzgType.deserialize (KzgType.serialize (g1_identity)) = Ok g1_identity /\
  String.length (KzgType.serialize g1_identity) = 96%nat.
Proof.
  destruct (kzg_type_roundtrip g1_identity [] (KzgType.serialize g1_identity) g1_identity)
    as (_ & _ & _ & _ & Hs & Hl).
  split; [exact Hs|exact (Hl Hs)].
Defined.
End roundtrip_witness.

(** ** Block numbers in JSON ([header/mod.rs])

    [U256] has its own JSON form in its crate. *)
Class U256Serde := {
  u256_serialize : Z -> string;
  u256_deserialize : string -> res string Z
}.
Class U256SerdeLaws `{U256Serde} : Prop := {
  u256_read_back : forall n, in_u 256 n -> u256_deserialize (u256_serialize n) = Ok n;
  u256_is_u256 : forall s n, u256_deserialize s = Ok n -> in_u 256 n
}.

Section number.
Context `{U256Serde}.

(** For a number type of [w] bits. *)
Definition serialize_number (w : Z) (val : Z) : string := u256_serialize val.
Definition deserialize_number (w : Z) (s : string) : res string Z :=
  u256 ← u256_deserialize s;
  if bool_decide (in_u w u256) then Ok u256 else Err "Try from failed"%string.

(** A header's number is read back, and a number too large for the type is an error rather
    than cut off. *)
Lemma number_roundtrip `{!U256SerdeLaws} w n : 0 <= w <= 256 -> in_u w n ->
  deserialize_number w (serialize_number w n) = Ok n /\
  forall s m, u256_deserialize s = Ok m -> 2 ^ w <= m -> deserialize_number w s = Err "Try from failed"%string.
Proof.
  intros Hw Hn. unfold deserialize_number, serialize_number. split.
  - rewrite u256_read_back; [simpl; by rewrite bool_decide_true|].
    unfold in_u in *. pose proof (Z.pow_le_mono_r 2 w 256). lia.
  - intros s m -> Hm. simpl. rewrite bool_decide_false; [done|]. unfold in_u. lia.
Qed.
End number.
