(* ===== verification/ErasureCoding.v ===== *)
(** * Erasure coding ([crates/melo-erasure-coding/src])

    The sections follow the crate's modules: bytes to blobs ([lib.rs]), extension and
    recovery of scalar rows ([erasure_coding.rs]), ordering and building of segments
    ([segment.rs]), column extension ([extend_col.rs]) and row recovery
    ([recovery.rs]). *)

From S2P Require Import Prelude Codec KzgLib KzgIndex KzgToy DasPrimitives Blob.

Section erasure_coding.
Context `{Platform} `{KzgLib}.
Implicit Types fs : FsFFTSettings.

(** ** [erasure_coding.rs] *)
Definition extend fs (source : list BlsScalar) : res string (list BlsScalar) :=
  das_fft_extension fs source.

Definition extend_poly fs (poly : Polynomial.t) : res string (list BlsScalar) :=
  let coeffs := Crypto.coeffs poly in
  let coeffs := vec_resize (length coeffs * 2) fr_zero coeffs in
  extended_coeffs_fft ← fft_fr fs coeffs false;
  Ok (reverse_bit_order extended_coeffs_fft).

Definition extend_fs_g1 fs (source : list FsG1) : res string (list FsG1) :=
  coeffs ← fft_g1 fs source true;
  fft_g1 fs (vec_resize (length coeffs * 2) g1_identity coeffs) false.

(** [partition(|&(i, _)| i % 2 == 0)], then the indices are dropped. *)
Definition extend_and_reorder_elements fs (elements : list FsG1) : res string (list FsG1) :=
  extended ← extend_fs_g1 fs elements;
  let originals := filter (fun p : nat * FsG1 => Nat.even p.1 = true) (enumerate extended) in
  let extensions := filter (fun p : nat * FsG1 => Nat.even p.1 = false) (enumerate extended) in
  Ok (originals.*2 ++ extensions.*2).

(** [shards.contains(&None)]. *)
Definition contains_none {A} (shards : list (option A)) : bool :=
  existsb (fun s => match s with None => true | Some _ => false end) shards.

Definition recover fs (shards : list (option BlsScalar)) : res string (list BlsScalar) :=
  if contains_none shards then
    let shards_mut := reverse_bit_order shards in
    coeffs ← recover_poly_from_samples shards_mut fs;
    Ok (reverse_bit_order coeffs)
  else mapM unwrap shards.

Definition recover_poly fs (shards : list (option BlsScalar)) : res string Polynomial.t :=
  let shards_mut := reverse_bit_order shards in
  poly ← (if contains_none shards then
            coeffs ← recover_poly_coeffs_from_samples shards_mut fs;
            Ok (Crypto.mkPolynomial coeffs)
          else
            data ← mapM unwrap shards_mut;
            coeffs ← res_unwrap (E := string) (fft_fr fs data true);
            Ok (Polynomial.from_coeffs coeffs));
  Ok (Polynomial.left poly).

(** ** [segment.rs] *)
Definition order_segments_row (segments : list Segment.t) (chunk_count : nat)
    : res string (list (option Segment.SegmentData)) :=
  if (chunk_count * 2 <? length segments)%nat || bool_decide (segments = [])
  then Err "segments x not equal"
  else
    first ← unwrap (segments !! 0%nat);
    let y := Crypto.y (Segment.position first) in
    foldM (fun ordered_segments segment =>
             if negb (Crypto.y (Segment.position segment) =? y)
             then Err "segments y not equal"
             else set_at (Crypto.x (Segment.position segment))
                    (Some (Segment.content segment)) ordered_segments)
          (replicate (chunk_count * 2) None) segments.

Definition order_segments_col (segments : list Segment.t) (k : nat)
    : res string (list (option Segment.SegmentData)) :=
  if (k * 2 <? length segments)%nat || bool_decide (segments = [])
  then Err "segments x not equal"
  else
    first ← unwrap (segments !! 0%nat);
    let x := Crypto.x (Segment.position first) in
    foldM (fun ordered_segments segment =>
             if negb (Crypto.x (Segment.position segment) =? x)
             then Err "segments x not equal"
             else set_at (Crypto.y (Segment.position segment))
                    (Some (Segment.content segment)) ordered_segments)
          (replicate (k * 2) None) segments.

Definition segment_datas_to_row (segments : list (option Segment.SegmentData))
    (chunk_size : nat) : list (option BlsScalar) :=
  concat ((fun segment_data_option =>
             match segment_data_option with
             | Some segment_data => Some <$> Segment.data segment_data
             | None => replicate chunk_size None
             end) <$> segments).

(** [slice::chunks] panics on a zero size, which the power-of-two test excludes. *)
Definition poly_to_segment_vec (poly : Polynomial.t) (kzg : KZG) (y chunk_size : Z)
    : res string (list Segment.t) :=
  poly' ← Polynomial.checked poly;
  let poly_len := length (Crypto.coeffs poly') in
  if negb (is_power_of_two chunk_size) then Err "chunk_size must be a power of two"
  else
    fk ← fk20_new (Crypto.ks kzg) (2 * poly_len) (Z.to_nat chunk_size);
    all_proofs ← fk20_data_availability fk (Crypto.coeffs poly);
    extended_poly ← extend_poly (ks_fs (fk20_kzg_settings fk)) poly;
    mapM (fun '(i, chunk) =>
            let position := Crypto.mkPosition (wrap 32 (Z.of_nat i)) (wrap 32 y) in
            proof ← unwrap (all_proofs !! i);
            Ok (Segment.new position chunk proof))
         (enumerate (chunks (Z.to_nat chunk_size) extended_poly)).

(** ** [lib.rs] *)
Definition get_bytes_per_blob (field_elements_per_blob : Z) : res string Z :=
  let bytes_per_blob := wrap_usize (Z.of_nat Crypto.SCALAR_SAFE_BYTES * field_elements_per_blob) in
  if negb (is_power_of_two field_elements_per_blob)
  then Err "field_elements_per_blob should be a power of 2; qed"
  else if field_elements_per_blob =? 0
  then Err "field_elements_per_blob should be greater than 0; qed"
  else Ok bytes_per_blob.

(** The chunks of one payload, each converted with [expect].  [slice::chunks] panics
    when its argument is zero. *)
Definition chunks_to_blobs (bs : bytes) (bytes_per_blob : Z) : res string (list Blob.t) :=
  if bytes_per_blob =? 0 then Panic
  else mapM (fun chunk => res_unwrap (E := string)
               (Blob.try_from_bytes_pad chunk (Z.to_nat bytes_per_blob)))
            (chunks (Z.to_nat bytes_per_blob) bs).

Definition bytes_vec_to_blobs (bytes_vec : list bytes) (field_elements_per_blob : Z)
    : res string (list Blob.t) :=
  if existsb (fun bs : bytes => bool_decide (bs = [])) bytes_vec
  then Err "bytes_vec should not contain empty bytes; qed"
  else
    bytes_per_blob ← get_bytes_per_blob field_elements_per_blob;
    blobs ← mapM (fun bs => chunks_to_blobs bs bytes_per_blob) bytes_vec;
    Ok (concat blobs).

Definition bytes_to_blobs (bs : bytes) (field_elements_per_blob : Z) : res string (list Blob.t) :=
  if bool_decide (bs = []) then Err "bytes should not contain empty bytes; qed"
  else
    bytes_per_blob ← get_bytes_per_blob field_elements_per_blob;
    chunks_to_blobs bs bytes_per_blob.

Definition bytes_to_segments (bs : bytes)
    (field_elements_per_blob field_elements_per_segment : Z) (kzg : KZG)
    : res string (list Segment.t) :=
  if bool_decide (bs = []) then Err "bytes should not contain empty bytes; qed"
  else
    bytes_per_blob ← get_bytes_per_blob field_elements_per_blob;
    if bytes_per_blob =? 0 then Panic
    else
      segments ← mapM (fun '(y, chunk) =>
        blob ← res_unwrap (E := string)
                 (Blob.try_from_bytes_pad chunk (Z.to_nat bytes_per_blob));
        res_unwrap (E := string)
          (poly_to_segment_vec (Blob.to_poly blob) kzg (Z.of_nat y) field_elements_per_segment))
        (enumerate (chunks (Z.to_nat bytes_per_blob) bs));
      Ok (concat segments).

(** ** [extend_col.rs] *)

(** [sort_unstable_by_key(|s| s.position.y)]: a sorting permutation; the filter that
    follows rejects rows with equal keys, so their order does not matter. *)
Definition y_le (a b : Segment.t) : Prop :=
  Crypto.y (Segment.position a) <= Crypto.y (Segment.position b).
#[export] Instance y_le_dec : RelDecision y_le.
Proof. intros a b. unfold y_le. apply _. Defined.

Definition extend_segments_col fs (segments : list Segment.t) : res string (list Segment.t) :=
  let k := length segments in
  match segments with
  | [] => Ok []
  | first :: _ =>
      let x := Crypto.x (Segment.position first) in
      let segment_size := Segment.size first in
      if existsb (fun s => negb (Crypto.x (Segment.position s) =? x)) segments
      then Err "segments are not from the same column"
      else if negb (is_power_of_two (Z.of_nat k)) || negb (is_power_of_two segment_size)
      then Err "number of segments and segment size must be powers of two"
      else
        let mut_segments := merge_sort y_le segments in
        let kept := filter (fun '(i, s) =>
            (Crypto.x (Segment.position s) = x /\
             Z.of_nat i = Crypto.y (Segment.position s)) /\
            Segment.size s = segment_size) (enumerate mut_segments) in
        let proofs := (fun p => Segment.proof (Segment.content p.2)) <$> kept in
        let sorted_rows := concat ((fun p => Segment.data (Segment.content p.2)) <$> kept) in
        if negb (Z.of_nat (length sorted_rows) =? Z.of_nat k * segment_size)
        then Err "mismatch in the number of elements after sorting"
        else
          extended_proofs ← extend_fs_g1 fs proofs;
          extended_cols ← mapM (fun i =>
              extend fs (step_by (Z.to_nat segment_size) (drop i sorted_rows)))
            (seq 0 (Z.to_nat segment_size));
          mapM (fun '(i, proof) =>
              let position := Crypto.mkPosition x (wrap 32 (Z.of_nat i + Z.of_nat k)) in
              data ← mapM (fun col : list BlsScalar => unwrap (col !! i)) extended_cols;
              Ok (Segment.mk position (Segment.mkData data proof)))
            (enumerate (step_by 2 (drop 1 extended_proofs)))
  end.

(** ** [recovery.rs] *)
Definition recover_segment_datas (segment_datas : list (option Segment.SegmentData))
    (kzg : KZG) (chunk_count : Z) (y : Z) (segments_size : nat) : res string (list Segment.t) :=
  let row := segment_datas_to_row segment_datas segments_size in
  poly ← recover_poly (Crypto.get_fs kzg) row;
  recovery_row ← extend_poly (Crypto.get_fs kzg) poly;
  mapM (fun '(i, segment_data) =>
          let position := Crypto.mkPosition (wrap 32 (Z.of_nat i)) y in
          match segment_data with
          | Some segment_data => Ok (Segment.mk position segment_data)
          | None =>
              let index := (i * segments_size)%nat in
              if (length recovery_row <? index + segments_size)%nat then Panic
              else
                let data := take segments_size (drop index recovery_row) in
                segment_data ← Segment.from_data position data kzg poly chunk_count;
                Ok (Segment.mk position segment_data)
          end)
       (enumerate segment_datas).

Definition recovery_row_from_segments (segments : list Segment.t) (kzg : KZG)
    (chunk_count : nat) : res string (list Segment.t) :=
  first ← unwrap (segments !! 0%nat);
  let y := Crypto.y (Segment.position first) in
  let segments_size := Segment.size first in
  if existsb (fun s => negb (Crypto.y (Segment.position s) =? y)) segments
  then Err "segments are not from the same row"
  else if negb (is_power_of_two segments_size)
          || negb (is_power_of_two (Z.of_nat chunk_count))
  then Err "segment size and chunk_count must be a power of two"
  else if existsb (fun s => negb (Segment.size s =? segments_size)) segments
  then Err "segments are not of the same size"
  else
    order_segments ← order_segments_row segments chunk_count;
    recover_segment_datas order_segments kzg (Z.of_nat chunk_count) y (Z.to_nat segments_size).

Definition recovery_order_row_from_segments (order_segments : list (option Segment.t))
    (kzg : KZG) : res string (list Segment.t) :=
  let chunk_count := Z.of_nat (length order_segments) in
  if negb (is_power_of_two chunk_count)
  then Err "segment size and chunk_count must be a power of two"
  else
    match omap (M := list) id order_segments with
    | first_segment :: iter =>
        let y := Crypto.y (Segment.position first_segment) in
        let size := Segment.size first_segment in
        if forallb (fun segment => (Crypto.y (Segment.position segment) =? y)
                                   && (Segment.size segment =? size)) iter
        then
          let segment_datas := fmap (M := list) (fmap (M := option) Segment.content) order_segments in
          recover_segment_datas segment_datas kzg chunk_count y (Z.to_nat size)
        else Err "segments are not from the same row or not of the same size"
    | [] => Err "no segments provided"
    end.
End erasure_coding.

(** ** Bytes to blobs *)
Section bytes_to_blobs.
Context `{Platform} `{KzgLib} `{!FrBytesLaws}.

Lemma chunk_length_le {A} n (l c : list A) : (0 < n)%nat -> c ∈ chunks n l -> (length c <= n)%nat.
Proof.
  intros Hn [i Hi]%list_elem_of_lookup. rewrite lookup_chunks in Hi by done.
  case_bool_decide; simplify_eq. rewrite length_take. lia.
Qed.

Lemma chunks_is_bytes n l : (0 < n)%nat -> is_bytes l -> Forall is_bytes (chunks n l).
Proof.
  intros Hn Hl. apply Forall_forall. intros c Hc. unfold is_bytes in *.
  rewrite <- (concat_chunks n l) in Hl by done.
  rewrite Forall_concat, Forall_forall in Hl. by apply Hl.
Qed.

Lemma get_bytes_per_blob_Ok n : is_power_of_two n = true ->
  31 * n < 2 ^ Z.of_nat usize_bits -> get_bytes_per_blob n = Ok (31 * n) /\ 0 < n.
Proof.
  intros Hp Hw. apply is_power_of_two_spec in Hp as Hk. destruct Hk as (k & Hk & ->).
  pose proof (Z.pow_pos_nonneg 2 k ltac:(lia) Hk).
  unfold get_bytes_per_blob. rewrite Hp. simpl negb. rewrite (proj2 (Z.eqb_neq _ _)) by lia.
  unfold wrap_usize. change (Z.of_nat Crypto.SCALAR_SAFE_BYTES) with 31.
  rewrite wrap_small by (unfold in_u; lia). done.
Qed.

Lemma get_bytes_per_blob_nonneg n b : get_bytes_per_blob n = Ok b -> 0 <= b.
Proof.
  unfold get_bytes_per_blob. destruct (is_power_of_two n); [|done].
  destruct (n =? 0); [done|]. intros [= <-]. apply wrap_in_u. lia.
Qed.

(** Padding only follows the last chunk. *)
Lemma take_concat_padded (cs : list bytes) (bs : list Blob.t) n :
  Forall2 (fun c b => exists z, Blob.to_bytes b = c ++ replicate z 0) cs bs ->
  (forall i c, cs !! i = Some c -> (S i < length cs)%nat -> length c = n) ->
  Forall (fun b => length (Blob.to_bytes b) = n) bs ->
  take (length (concat cs)) (concat (Blob.to_bytes <$> bs)) = concat cs.
Proof.
  intros Hf. induction Hf as [|c b cs bs [z Hz] Hf IH]; intros Hfull Hl; [done|].
  inversion Hl as [|? ? Hb Hbs]; subst. rewrite fmap_cons. cbn [concat]. rewrite Hz.
  destruct cs as [|c' cs].
  - inversion Hf; subst. cbn [concat fmap list_fmap]. rewrite !app_nil_r. apply take_app_length.
  - assert (z = 0%nat) as ->.
    { assert (length c = length (Blob.to_bytes b)) as Hc by (apply (Hfull 0%nat); simpl; [done|lia]).
      rewrite Hz, length_app, length_replicate in Hc. lia. }
    cbn [replicate]. rewrite app_nil_r, length_app, take_app_add.
    rewrite IH; [done| |done]. intros i c'' Hi Hlt. apply (Hfull (S i)); simpl in *; [done|lia].
Qed.

Lemma bytes_to_blobs_complete bs n :
  is_bytes bs -> bs <> [] -> is_power_of_two n = true ->
  31 * n < 2 ^ Z.of_nat usize_bits ->
  exists blobs, bytes_to_blobs bs n = Ok blobs /\
    Z.of_nat (length blobs) = (Z.of_nat (length bs) + 31 * n - 1) / (31 * n) /\
    Forall (fun b => Z.of_nat (length b) = n) blobs /\
    take (length bs) (concat (Blob.to_bytes <$> blobs)) = bs.
Proof.
  intros Hb Hne Hp Hw. destruct (get_bytes_per_blob_Ok n Hp Hw) as [Hg Hn].
  unfold bytes_to_blobs. rewrite bool_decide_false by done. rewrite Hg. bind_simpl.
  unfold chunks_to_blobs. rewrite (proj2 (Z.eqb_neq _ _)) by lia.
  set (m := Z.to_nat (31 * n)). assert (Hm : (0 < m)%nat) by lia.
  assert (Hconv : forall c, c ∈ chunks m bs -> exists b,
    Blob.try_from_bytes_pad c m = Ok b /\ Z.of_nat (length b) = n /\
    Blob.to_bytes b = c ++ replicate (m - length c) 0).
  { intros c Hc. pose proof (chunk_length_le m bs c Hm Hc) as Hcl.
    pose proof (chunks_is_bytes m bs Hm Hb) as Hcb. rewrite Forall_forall in Hcb.
    destruct (Blob.try_from_bytes_pad_complete c m n) as (b & Hok & Hlb & Hbb); [by apply Hcb|done|lia|].
    eauto. }
  destruct (mapM_res_exists (E := string) (fun chunk => res_unwrap (E := string)
      (Blob.try_from_bytes_pad chunk m)) (chunks m bs)) as [blobs Hblobs].
  { intros c Hc. destruct (Hconv c Hc) as (b & -> & _). by eexists. }
  exists blobs. split; [done|]. apply mapM_res_length in Hblobs as Hlen.
  apply mapM_res_Ok in Hblobs.
  assert (Hall : Forall2 (fun c b => Z.of_nat (length b) = n /\
      Blob.to_bytes b = c ++ replicate (m - length c) 0 /\ (length c <= m)%nat) (chunks m bs) blobs).
  { apply Forall2_same_length_lookup. split; [done|]. intros i c b Hi Hbi.
    assert (Hc : c ∈ chunks m bs) by (by eapply list_elem_of_lookup_2).
    destruct (Hconv c Hc) as (b' & Hok & Hl & Ht).
    pose proof (Forall2_lookup_lr _ _ _ _ _ _ Hblobs Hi Hbi) as Hu. simpl in Hu.
    rewrite Hok in Hu. injection Hu as ->. split_and!; [done..|by eapply chunk_length_le]. }
  split_and!.
  - rewrite Hlen, length_chunks by done. rewrite Nat2Z.inj_div. f_equal; lia.
  - eapply Forall2_Forall_r; [exact Hall|]. apply Forall_forall. naive_solver.
  - pose proof (concat_chunks m bs Hm) as Hcc.
    replace (length bs) with (length (concat (chunks m bs))) by (by rewrite Hcc).
    rewrite <- Hcc at 2. apply (take_concat_padded _ _ m).
    + eapply Forall2_impl; [exact Hall|]. naive_solver.
    + intros i c Hi Hlt. rewrite length_chunks in Hlt by done.
      rewrite lookup_chunks in Hi by done. case_bool_decide; simplify_eq.
      rewrite length_take, length_drop. 
      assert (S i * m <= length bs - 1)%nat; [|lia].
      assert (S i <= (length bs - 1) / m)%nat; [|pose proof (Nat.Div0.mul_div_le (length bs - 1) m); nia].
      destruct bs; [done|]. simpl length in *.
      replace (S (length bs) + m - 1)%nat with (length bs + 1 * m)%nat in Hlt by lia.
      rewrite Nat.div_add in Hlt by lia. replace (S (length bs) - 1)%nat with (length bs) by lia. lia.
    + eapply Forall2_Forall_r; [exact Hall|]. apply Forall_forall.
      intros c _ b (_ & -> & Hle). rewrite length_app, length_replicate. lia.
Qed.

(** C12: A payload survives the blob conversion: for a power-of-two blob size a
    non-empty payload becomes [ceil(len / (31 * n))] blobs of [n] scalars, without a
    panic, and the concatenated blob bytes cut at the payload's length are the
    payload. *)
Theorem bytes_to_blobs_roundtrip bs n :
  is_bytes bs -> bs <> [] -> is_power_of_two n = true ->
  31 * n < 2 ^ Z.of_nat usize_bits ->
  exists blobs, bytes_to_blobs bs n = Ok blobs /\
    Z.of_nat (length blobs) = (Z.of_nat (length bs) + 31 * n - 1) / (31 * n) /\
    Forall (fun b => Z.of_nat (length b) = n) blobs /\
    take (length bs) (concat (Blob.to_bytes <$> blobs)) = bs.
Proof. apply bytes_to_blobs_complete. Qed.
End bytes_to_blobs.

Section bytes_to_blobs_witness.
#[local] Existing Instances wasm32 bytes_lib bytes_lib_fr.

Lemma bytes_to_blobs_roundtrip_witness :
  exists blobs, bytes_to_blobs [7; 8; 9] 2 = Ok blobs /\
    Z.of_nat (length blobs) = (3 + 31 * 2 - 1) / (31 * 2) /\
    Forall (fun b => Z.of_nat (length b) = 2) blobs /\
    take 3 (concat (Blob.to_bytes <$> blobs)) = [7; 8; 9].
Proof.
  apply (bytes_to_blobs_roundtrip [7; 8; 9] 2);
    [unfold is_bytes; by_decision | discriminate | reflexivity | reflexivity].
Defined.
End bytes_to_blobs_witness.
