(* ===== verification/RowRecovery.v ===== *)
(** * Row recovery ([crates/melo-erasure-coding/src], functional correctness)

    From the laws of the FFT and of Reed-Solomon recovery: half of the segments of a
    row, in any order, give the whole row back. *)

From S2P Require Import Prelude Codec KzgLib KzgIndex KzgToy KzgDomain DasPrimitives Blob ErasureCoding.

(** ** Missing samples *)
Lemma contains_none_spec {A} (l : list (option A)) : contains_none l = true <-> None ∈ l.
Proof.
  unfold contains_none. rewrite existsb_exists. split.
  - intros ([a|] & Hin & Ha); [done|]. by apply list_elem_of_In.
  - intros Hin. exists None. split; [by apply list_elem_of_In|done].
Qed.

Lemma agrees_all_some {A} (l : list (option A)) (v : list A) :
  Forall2 agrees l v -> None ∉ l -> l = Some <$> v.
Proof.
  induction 1 as [|s a l v Hs _ IH]; intros Hn; [done|]. apply not_elem_of_cons in Hn as [Hn Hn2].
  rewrite fmap_cons. f_equal; [|by apply IH]. destruct Hs as [-> | ->]; done.
Qed.

Lemma count_some_perm {A} (l k : list (option A)) : l ≡ₚ k -> count_some l = count_some k.
Proof. unfold count_some. intros Hp. by rewrite Hp. Qed.

Lemma count_some_app {A} (l k : list (option A)) :
  count_some (l ++ k) = (count_some l + count_some k)%nat.
Proof. unfold count_some. rewrite omap_app. apply length_app. Qed.

Lemma count_some_fmap {A} (l : list A) : count_some (Some <$> l) = length l.
Proof. unfold count_some. induction l as [|x l IH]; simpl; [done|]. by f_equal. Qed.

Lemma count_some_none {A} n : count_some (replicate n (@None A)) = 0%nat.
Proof. unfold count_some. induction n; simpl; done. Qed.

Lemma count_some_insert {A} (l : list (option A)) i a :
  l !! i = Some None -> count_some (<[i := Some a]> l) = S (count_some l).
Proof.
  intros Hi. rewrite <- (take_drop_middle l i None Hi) at 2.
  rewrite insert_take_drop by (by eapply lookup_lt_Some).
  rewrite !count_some_app. unfold count_some. simpl. lia.
Qed.

Section rows.
Context `{Platform} `{KzgLib}.

Lemma Forall2_reverse_bit_order `{!BitOrderLaws} {A B} (R : A -> B -> Prop) l k :
  Forall2 R l k -> Forall2 R (reverse_bit_order l) (reverse_bit_order k).
Proof.
  intros Hr. assert (Hlk : exists z, l = z.*1 /\ k = z.*2 /\ Forall (fun p => R p.1 p.2) z).
  { exists (zip l k). apply Forall2_length in Hr as Hl.
    rewrite fst_zip, snd_zip by lia. split_and!; [done..|].
    clear Hl. induction Hr; simpl; by constructor. }
  destruct Hlk as (z & -> & -> & Hz). rewrite !reverse_bit_order_fmap.
  apply Forall2_fmap, Forall_Forall2_diag. by rewrite reverse_bit_order_perm.
Qed.

Section recover.
Context `{!BitOrderLaws} `{!FftLaws} `{!RecoverLaws}.
Implicit Types fs : FsFFTSettings.

Lemma extend_poly_spec fs coeffs evals :
  fft_fr fs (coeffs ++ replicate (length coeffs) fr_zero) false = Ok evals ->
  extend_poly fs (Crypto.mkPolynomial coeffs) = Ok (reverse_bit_order evals).
Proof.
  intros Hf. unfold extend_poly, vec_resize. simpl. rewrite resize_ge by lia.
  replace (length coeffs * 2 - length coeffs)%nat with (length coeffs) by lia.
  by rewrite Hf.
Qed.

(** Samples of an extended row determine its polynomial. *)
Lemma recover_poly_spec fs coeffs evals (shards : list (option BlsScalar)) :
  fft_fr fs (coeffs ++ replicate (length coeffs) fr_zero) false = Ok evals ->
  Forall2 agrees shards (reverse_bit_order evals) ->
  (length coeffs <= count_some shards)%nat ->
  recover_poly fs shards = Ok (Crypto.mkPolynomial coeffs).
Proof.
  intros Hf Ha Hc. apply Forall2_reverse_bit_order in Ha.
  rewrite reverse_bit_order_involutive in Ha.
  assert (Hl : Polynomial.left (Crypto.mkPolynomial
      (coeffs ++ replicate (length coeffs) fr_zero)) = Crypto.mkPolynomial coeffs).
  { unfold Polynomial.left. cbn [Crypto.coeffs]. rewrite length_app, length_replicate.
    replace (length coeffs + length coeffs)%nat with (length coeffs * 2)%nat by lia.
    by rewrite Nat.div_mul, take_app_length. }
  unfold recover_poly. destruct (contains_none shards) eqn:Hn.
  - rewrite (recover_coeffs_complete _ coeffs evals); [bind_simpl; by rewrite Hl|done|done| |].
    + by rewrite (count_some_perm _ shards) by apply reverse_bit_order_perm.
    + apply contains_none_spec in Hn. by rewrite reverse_bit_order_perm.
  - rewrite (agrees_all_some (reverse_bit_order shards) evals); [|done|].
    + rewrite (mapM_res_Ok_total _ (default fr_zero)).
      * bind_simpl. rewrite <- list_fmap_compose.
        rewrite (list_fmap_ext _ id), list_fmap_id by done.
        rewrite (fft_fr_inverse _ _ _ Hf). bind_simpl. unfold Polynomial.from_coeffs. by rewrite Hl.
      * intros s (r & -> & _)%list_elem_of_fmap. done.
    + rewrite reverse_bit_order_perm. intros Hin. apply contains_none_spec in Hin. congruence.
Qed.

(** The same for the values: at least half of an extended row restores it. *)
Lemma recover_spec fs coeffs evals (shards : list (option BlsScalar)) :
  fft_fr fs (coeffs ++ replicate (length coeffs) fr_zero) false = Ok evals ->
  Forall2 agrees shards (reverse_bit_order evals) ->
  (length coeffs <= count_some shards)%nat ->
  recover fs shards = Ok (reverse_bit_order evals).
Proof.
  intros Hf Ha Hc. unfold recover. destruct (contains_none shards) eqn:Hn.
  - apply Forall2_reverse_bit_order in Ha. rewrite reverse_bit_order_involutive in Ha.
    rewrite (recover_samples_complete _ coeffs evals); [done|done|done| |].
    + by rewrite (count_some_perm _ shards) by apply reverse_bit_order_perm.
    + apply contains_none_spec in Hn. by rewrite reverse_bit_order_perm.
  - rewrite (agrees_all_some _ _ Ha).
    + rewrite (mapM_res_Ok_total _ (default fr_zero)).
      * rewrite <- list_fmap_compose. by rewrite (list_fmap_ext _ id), list_fmap_id by done.
      * intros s (r & -> & _)%list_elem_of_fmap. done.
    + intros Hin. apply contains_none_spec in Hin. congruence.
Qed.
End recover.

(** ** Segments *)
Lemma agrees_some_list {A} (l : list A) : Forall2 agrees (Some <$> l) l.
Proof. induction l as [|x l IH]; constructor; [by right|done]. Qed.

Lemma agrees_none_list {A} (l : list A) n : length l = n ->
  Forall2 agrees (replicate n None) l.
Proof. intros <-. induction l as [|x l IH]; constructor; [by left|done]. Qed.

(** The scalars of a row in which some segments are missing. *)
Lemma segment_datas_to_row_agrees datas (cs : list (list BlsScalar)) sz :
  Forall (fun c => length c = sz) cs ->
  Forall2 (fun d c => d = None \/ exists p, d = Some (Segment.mkData c p)) datas cs ->
  Forall2 agrees (segment_datas_to_row datas sz) (concat cs) /\
  count_some (segment_datas_to_row datas sz) = (count_some datas * sz)%nat.
Proof.
  intros Hl Hd. induction Hd as [|d c datas cs Hd _ IH]; [by split|].
  inversion Hl as [|? ? Hc Hcs]; subst. destruct (IH Hcs) as [IHa IHc].
  unfold segment_datas_to_row in *. rewrite fmap_cons. cbn [concat]. split.
  - apply Forall2_app; [|done]. destruct Hd as [-> | [p ->]]; simpl;
      [by apply agrees_none_list|apply agrees_some_list].
  - rewrite count_some_app, IHc. destruct Hd as [-> | [p ->]]; simpl.
    + by rewrite count_some_none.
    + rewrite count_some_fmap. done.
Qed.

Section segments.
Context `{!BitOrderLaws} `{!FftLaws} `{!RecoverLaws} `{!Fk20Laws}.

Lemma poly_to_segment_vec_Ok poly kzg y cs segs :
  poly_to_segment_vec poly kzg y cs = Ok segs ->
  is_power_of_two cs = true /\
  exists evals, fft_fr (Crypto.get_fs kzg)
      (Crypto.coeffs poly ++ replicate (length (Crypto.coeffs poly)) fr_zero) false = Ok evals /\
    length (reverse_bit_order evals) = (length (Crypto.coeffs poly) * 2)%nat /\
    Forall2 (fun '(i, c) s => Segment.position s = Crypto.mkPosition (wrap 32 (Z.of_nat i)) (wrap 32 y)
               /\ Segment.data (Segment.content s) = c)
      (enumerate (chunks (Z.to_nat cs) (reverse_bit_order evals))) segs.
Proof.
  unfold poly_to_segment_vec, Polynomial.checked, extend_poly, vec_resize. intros Hs.
  destruct (Polynomial.is_valid poly); [|done]. cbn [negb mbind res_bind] in Hs.
  destruct (is_power_of_two cs); [|done]. cbn [negb] in Hs.
  apply res_bind_Ok in Hs as (fk & Hfk & Hs). apply res_bind_Ok in Hs as (prs & _ & Hs).
  rewrite resize_ge in Hs by lia.
  replace (length (Crypto.coeffs poly) * 2 - length (Crypto.coeffs poly))%nat
    with (length (Crypto.coeffs poly)) in Hs by lia.
  rewrite (fk20_new_settings _ _ _ _ Hfk) in Hs.
  apply res_bind_Ok in Hs as (row & Hrow & Hs). apply res_bind_Ok in Hrow as (evals & He & [= <-]).
  split; [done|]. exists evals. split; [exact He|]. split.
  - rewrite reverse_bit_order_perm, (fft_fr_length _ _ _ _ He), length_app, length_replicate. lia.
  - apply mapM_res_Ok in Hs. eapply Forall2_impl; [exact Hs|].
    intros [i c] s Hp. cbn in Hp. res_inv. done.
Qed.

(** What recovery returns for one position of the row. *)
Definition recovered (kzg : KZG) (poly : Polynomial.t) (chunk_count : Z)
    (d : option Segment.SegmentData) (s s' : Segment.t) : Prop :=
  Segment.position s' = Segment.position s /\
  Segment.data (Segment.content s') = Segment.data (Segment.content s) /\
  match d with
  | Some c => Segment.content s' = c
  | None => Crypto.compute_proof_multi kzg poly (Crypto.x (Segment.position s)) chunk_count
              (Segment.size s) = Ok (Segment.proof (Segment.content s'))
  end.

Lemma recover_segment_datas_spec poly kzg y sz segs datas chunk_count (cc : Z) :
  poly_to_segment_vec poly kzg y (Z.of_nat sz) = Ok segs ->
  length (Crypto.coeffs poly) = (chunk_count * sz)%nat ->
  Forall2 (fun d s => agrees d (Segment.content s)) datas segs ->
  (chunk_count <= count_some datas)%nat ->
  (forall s, s ∈ segs -> is_ok (Crypto.compute_proof_multi kzg poly
      (Crypto.x (Segment.position s)) cc (Segment.size s)) = true) ->
  exists segs', recover_segment_datas datas kzg cc (wrap 32 y) sz = Ok segs' /\
    length segs' = length segs /\
    forall i d s s', datas !! i = Some d -> segs !! i = Some s -> segs' !! i = Some s' ->
      recovered kzg poly cc d s s'.
Proof.
  intros Hs Hlen Hag Hcnt Hpr.
  apply poly_to_segment_vec_Ok in Hs as (Hsz & evals & Hf & Hl & Hsegs).
  rewrite Nat2Z.id in Hsegs.
  assert (Hpos : (0 < sz)%nat).
  { apply is_power_of_two_spec in Hsz as (k & Hk & Hz).
    pose proof (Z.pow_pos_nonneg 2 k). lia. }
  destruct (chunks_full sz (reverse_bit_order evals) (chunk_count * 2)) as [Hcl Hfull];
    [done|rewrite Hl, Hlen; lia|].
  set (row := reverse_bit_order evals) in *.
  assert (Hseg : forall i s, segs !! i = Some s ->
    Segment.position s = Crypto.mkPosition (wrap 32 (Z.of_nat i)) (wrap 32 y) /\
    Segment.data (Segment.content s) = take sz (drop (i * sz) row) /\
    Segment.size s = Z.of_nat sz /\ (i * sz + sz <= length row)%nat).
  { intros i s Hi. eapply Forall2_lookup_r in Hsegs as ([i' c] & Hc & Hp & Hdt); [|exact Hi].
    rewrite lookup_enumerate in Hc. apply fmap_Some in Hc as (c' & Hc & [= -> ->]).
    pose proof (Forall_lookup_1 _ _ _ _ Hfull Hc) as Hcl'. cbv beta in Hcl'. apply lookup_lt_Some in Hc as Hlt.
    rewrite lookup_chunks in Hc by done. case_bool_decide; [injection Hc as Hc|done].
    split_and!; [done|congruence|unfold Segment.size; rewrite Hdt; lia|]. rewrite Hl, Hlen. nia. }
  assert (Hd : Forall2 (fun d c => d = None \/ exists p, d = Some (Segment.mkData c p))
      datas (chunks sz row)).
  { apply Forall2_same_length_lookup. split.
    - apply Forall2_length in Hag, Hsegs. rewrite length_enumerate in Hsegs. lia.
    - intros i d c Hi Hc. eapply Forall2_lookup_l in Hag as (s & Hs & Ha); [|exact Hi].
      destruct (Hseg _ _ Hs) as (_ & Hdt & _). rewrite lookup_chunks in Hc by done.
      case_bool_decide; [injection Hc as Hc|done].
      destruct Ha as [-> | ->]; [by left|right].
      exists (Segment.proof (Segment.content s)). rewrite <- Hc, <- Hdt. by destruct (Segment.content s). }
  destruct (segment_datas_to_row_agrees datas _ sz Hfull Hd) as [Hra Hrc].
  rewrite concat_chunks in Hra by done.
  assert (Hrec : recover_poly (Crypto.get_fs kzg) (segment_datas_to_row datas sz) = Ok poly).
  { destruct poly as [coeffs]. eapply recover_poly_spec; [exact Hf|exact Hra|].
    simpl in Hlen. nia. }
  assert (Hext : extend_poly (Crypto.get_fs kzg) poly = Ok row)
    by (destruct poly as [coeffs]; by apply extend_poly_spec).
  unfold recover_segment_datas. rewrite Hrec. bind_simpl. rewrite Hext. bind_simpl.
  apply Forall2_length in Hag as Hdl.
  match goal with |- context [mapM ?f ?l] => destruct (mapM_res_exists f l) as [segs' Hs'] end.
  - intros [i d] Hin. apply list_elem_of_lookup in Hin as [j Hj].
    rewrite lookup_enumerate in Hj. apply fmap_Some in Hj as (d' & Hj & [= -> ->]).
    destruct d' as [c|]; [by eexists|].
    eapply Forall2_lookup_l in Hag as (s & Hs & _); [|exact Hj].
    destruct (Hseg _ _ Hs) as (Hp & Hdt & Hss & Hle).
    rewrite (proj2 (Nat.ltb_ge _ _)) by lia. unfold Segment.from_data.
    rewrite <- Hdt, <- Hp. fold (Segment.size s).
    specialize (Hpr s ltac:(by eapply list_elem_of_lookup_2)).
    destruct (Crypto.compute_proof_multi _ _ _ _ _); [|done..]. by eexists.
  - exists segs'. split; [done|]. split.
    { apply mapM_res_length in Hs'. rewrite length_enumerate in Hs'. lia. }
    intros i d s s' Hi Hs Hs1. destruct (Hseg _ _ Hs) as (Hp & Hdt & Hss & Hle).
    eapply mapM_res_lookup in Hs'; [|rewrite lookup_enumerate, Hi; done|exact Hs1].
    simpl in Hs'. unfold recovered. rewrite <- Hp in Hs'. destruct d as [c|].
    + assert (agrees (Some c) (Segment.content s)) as [?|Hc]
        by exact (Forall2_lookup_lr _ _ _ _ _ _ Hag Hi Hs); [done|].
      by simplify_eq/=.
    + rewrite (proj2 (Nat.ltb_ge _ _)) in Hs' by lia. unfold Segment.from_data in Hs'.
      rewrite <- Hdt in Hs'. fold (Segment.size s) in Hs'.
      destruct (Crypto.compute_proof_multi _ _ _ _ _) as [p| |]; [|done..]. simpl in Hs'.
      by simplify_eq.
Qed.

(** ** Ordering *)
Lemma order_loop segs y : (forall i s, segs !! i = Some s ->
    Segment.position s = Crypto.mkPosition (Z.of_nat i) y) ->
  forall sub acc, NoDup sub -> (forall s, s ∈ sub -> s ∈ segs) ->
  Forall2 (fun d s => agrees d (Segment.content s)) acc segs ->
  (forall s i, s ∈ sub -> segs !! i = Some s -> acc !! i = Some None) ->
  exists datas,
    foldM (E := string) (fun ordered_segments segment =>
      if negb (Crypto.y (Segment.position segment) =? y) then Err "segments y not equal"
      else set_at (Crypto.x (Segment.position segment))
             (Some (Segment.content segment)) ordered_segments) acc sub = Ok datas /\
    Forall2 (fun d s => agrees d (Segment.content s)) datas segs /\
    count_some datas = (count_some acc + length sub)%nat /\
    forall i s, segs !! i = Some s ->
      (s ∈ sub -> datas !! i = Some (Some (Segment.content s))) /\
      (s ∉ sub -> datas !! i = acc !! i).
Proof.
  intros Hpos. induction sub as [|s sub IH]; intros acc Hnd Hin Hag Hnone; simpl.
  - exists acc. split_and!; [done|done|lia|]. intros i s _. by split; [intros []%not_elem_of_nil|].
  - apply NoDup_cons in Hnd as [Hns Hnd].
    destruct (proj1 (list_elem_of_lookup _ _) (Hin s ltac:(left))) as [i Hi].
    rewrite (Hpos _ _ Hi). simpl. rewrite Z.eqb_refl. simpl.
    assert (Hai : acc !! i = Some None) by (eapply Hnone; [left|done]).
    apply lookup_lt_Some in Hai as Hlt. unfold set_at.
    rewrite (proj2 (Z.leb_le _ _)), (proj2 (Z.ltb_lt _ _)), Nat2Z.id by lia. simpl.
    destruct (IH (<[i := Some (Segment.content s)]> acc)) as (datas & Hd & Ha & Hc & Hl).
    + done.
    + intros t Ht. apply Hin. by right.
    + rewrite <- (list_insert_id segs i s Hi). apply Forall2_insert; [done|by right].
    + intros t j Ht Hj. rewrite list_lookup_insert_ne; [eapply Hnone; [by right|done]|].
      intros ->. by simplify_eq.
    + exists datas. split_and!; [done|done|rewrite Hc, count_some_insert by done; lia|].
      intros j t Hj. destruct (Hl j t Hj) as [Hl1 Hl2]. rewrite elem_of_cons.
      destruct (decide (i = j)) as [->|Hij].
      * simplify_eq. rewrite list_lookup_insert_eq in Hl2 by done. naive_solver.
      * rewrite list_lookup_insert_ne in Hl2 by done. split; [|tauto].
        intros [->|?]; [|by apply Hl1]. destruct Hij.
        apply Hpos in Hi, Hj. rewrite Hi in Hj. injection Hj. lia.
Qed.

Lemma order_segments_row_spec segs sub chunk_count y :
  (forall i s, segs !! i = Some s -> Segment.position s = Crypto.mkPosition (Z.of_nat i) y) ->
  length segs = (chunk_count * 2)%nat -> sub <> [] -> NoDup sub ->
  (forall s, s ∈ sub -> s ∈ segs) ->
  exists datas, order_segments_row sub chunk_count = Ok datas /\
    Forall2 (fun d s => agrees d (Segment.content s)) datas segs /\
    count_some datas = length sub /\
    forall i s, segs !! i = Some s ->
      (s ∈ sub -> datas !! i = Some (Some (Segment.content s))) /\
      (s ∉ sub -> datas !! i = Some None).
Proof.
  intros Hpos Hlen Hne Hnd Hin. unfold order_segments_row.
  assert (length sub <= length segs)%nat
    by (apply submseteq_length, NoDup_submseteq; [done|exact Hin]).
  rewrite (proj2 (Nat.ltb_ge _ _)), bool_decide_false by (done || lia). simpl.
  destruct sub as [|s0 sub]; [done|]. change ((s0 :: sub) !! 0%nat) with (Some s0). bind_simpl.
  destruct (proj1 (list_elem_of_lookup _ _) (Hin s0 ltac:(left))) as [i0 Hi0].
  rewrite (Hpos _ _ Hi0). cbn [Crypto.y].
  destruct (order_loop segs y Hpos (s0 :: sub) (replicate (chunk_count * 2) None))
    as (datas & Hd & Ha & Hc & Hl); [done|done| | |].
  - rewrite <- Hlen. clear. induction segs; constructor; [by left|done].
  - intros s i Hs Hi. apply lookup_replicate_2. apply lookup_lt_Some in Hi. lia.
  - exists datas. split_and!; [exact Hd|done|by rewrite Hc, count_some_none|].
    intros i s Hi. destruct (Hl i s Hi) as [Hl1 Hl2]. split; [done|]. intros Hs.
    rewrite Hl2 by done. apply lookup_replicate_2. apply lookup_lt_Some in Hi. lia.
Qed.

Lemma poly_segments_shape poly kzg y sz segs chunk_count :
  poly_to_segment_vec poly kzg y (Z.of_nat sz) = Ok segs ->
  length (Crypto.coeffs poly) = (chunk_count * sz)%nat ->
  Z.of_nat (length segs) <= 2 ^ 32 ->
  length segs = (chunk_count * 2)%nat /\ is_power_of_two (Z.of_nat sz) = true /\
  forall i s, segs !! i = Some s ->
    Segment.position s = Crypto.mkPosition (Z.of_nat i) (wrap 32 y) /\
    Segment.size s = Z.of_nat sz.
Proof.
  intros Hs Hlen Hu.
  apply poly_to_segment_vec_Ok in Hs as (Hsz & evals & Hf & Hl & Hsegs).
  rewrite Nat2Z.id in Hsegs.
  assert (Hpos : (0 < sz)%nat).
  { apply is_power_of_two_spec in Hsz as (k & Hk & Hz).
    pose proof (Z.pow_pos_nonneg 2 k). lia. }
  destruct (chunks_full sz (reverse_bit_order evals) (chunk_count * 2)) as [Hcl Hfull];
    [done|rewrite Hl, Hlen; lia|].
  apply Forall2_length in Hsegs as Hsl. rewrite length_enumerate in Hsl.
  split_and!; [lia|done|]. intros i s Hi.
  eapply Forall2_lookup_r in Hsegs as ([i' c] & Hc & Hp & Hdt); [|exact Hi].
  rewrite lookup_enumerate in Hc. apply fmap_Some in Hc as (c' & Hc & [= -> ->]).
  pose proof (Forall_lookup_1 _ _ _ _ Hfull Hc) as Hcl'. cbv beta in Hcl'.
  apply lookup_lt_Some in Hi. rewrite wrap_small in Hp by (unfold in_u; lia).
  split; [done|]. unfold Segment.size. by rewrite Hdt, Hcl'.
Qed.

(** Recovery of a row whose proofs can be computed. *)
Lemma recovery_row_spec poly kzg y sz segs sub chunk_count :
  poly_to_segment_vec poly kzg y (Z.of_nat sz) = Ok segs ->
  length (Crypto.coeffs poly) = (chunk_count * sz)%nat ->
  is_power_of_two (Z.of_nat chunk_count) = true ->
  Z.of_nat (length segs) <= 2 ^ 32 ->
  NoDup sub -> (forall s, s ∈ sub -> s ∈ segs) -> (chunk_count <= length sub)%nat ->
  (forall s, s ∈ segs -> is_ok (Crypto.compute_proof_multi kzg poly
      (Crypto.x (Segment.position s)) (Z.of_nat chunk_count) (Segment.size s)) = true) ->
  exists segs', recovery_row_from_segments sub kzg chunk_count = Ok segs' /\
    Forall2 (fun s s' => Segment.position s' = Segment.position s /\
      Segment.data (Segment.content s') = Segment.data (Segment.content s) /\
      (s ∈ sub -> s' = s) /\
      (s ∉ sub -> Crypto.compute_proof_multi kzg poly (Crypto.x (Segment.position s))
         (Z.of_nat chunk_count) (Segment.size s) = Ok (Segment.proof (Segment.content s'))))
      segs segs'.
Proof.
  intros Hs Hlen Hcc Hu32 Hnd Hin Hcnt Hpr.
  destruct (poly_segments_shape _ _ _ _ _ _ Hs Hlen Hu32) as (Hsl & Hsz & Hshape).
  apply is_power_of_two_spec in Hcc as Hccp. destruct Hccp as (kc & Hkc & Hcc2).
  pose proof (Z.pow_pos_nonneg 2 kc ltac:(lia) Hkc) as Hcpos.
  assert (Hne : sub <> []) by (intros ->; simpl in Hcnt; lia).
  destruct (order_segments_row_spec segs sub chunk_count (wrap 32 y)) as (datas & Hd & Ha & Hc & Hl);
    [intros i s Hi; apply (Hshape i s Hi)|done..|].
  destruct (recover_segment_datas_spec poly kzg y sz segs datas chunk_count (Z.of_nat chunk_count))
    as (segs' & Hr & Hl' & Hrec); [done..|lia|done|].
  exists segs'. split.
  - destruct sub as [|s0 sub]; [done|]. unfold recovery_row_from_segments.
    change ((s0 :: sub) !! 0%nat) with (Some s0). bind_simpl.
    assert (Hall : forall s, s ∈ s0 :: sub -> Crypto.y (Segment.position s) = wrap 32 y /\
        Segment.size s = Z.of_nat sz).
    { intros s [i Hi]%Hin%list_elem_of_lookup. destruct (Hshape _ _ Hi) as [-> ->]. done. }
    destruct (Hall s0) as [Hy0 Hs0]; [left|]. rewrite Hy0, Hs0, Hsz, Hcc. simpl negb.
    rewrite !existsb_negb_false; [| apply Forall_forall; intros s Hss; apply Z.eqb_eq; by apply Hall..].
    simpl orb. cbv iota. rewrite Hd. bind_simpl. by rewrite Nat2Z.id.
  - apply Forall2_same_length_lookup. split; [done|]. intros i s s' Hi Hi'.
    destruct (Hl i s Hi) as [Hl1 Hl2]. destruct (decide (s ∈ sub)) as [Hss|Hss].
    + destruct (Hrec i _ s s' (Hl1 Hss) Hi Hi') as (Hp & Hdt & Hct).
      split_and!; [done..| |done]. intros _. destruct s, s'. simpl in *. congruence.
    + destruct (Hrec i _ s s' (Hl2 Hss) Hi Hi') as (Hp & Hdt & Hct). done.
Qed.

(** The segments of a row with the proofs they were given. *)
Lemma segment_vec_parts poly kzg y cs segs :
  poly_to_segment_vec poly kzg y cs = Ok segs ->
  exists fk proofs evals,
    fk20_new (Crypto.ks kzg) (2 * length (Crypto.coeffs poly)) (Z.to_nat cs) = Ok fk /\
    fk20_data_availability fk (Crypto.coeffs poly) = Ok proofs /\
    fft_fr (Crypto.get_fs kzg)
      (Crypto.coeffs poly ++ replicate (length (Crypto.coeffs poly)) fr_zero) false = Ok evals /\
    forall i s, segs !! i = Some s -> exists chunk pr,
      chunks (Z.to_nat cs) (reverse_bit_order evals) !! i = Some chunk /\ proofs !! i = Some pr /\
      s = Segment.new (Crypto.mkPosition (wrap 32 (Z.of_nat i)) (wrap 32 y)) chunk pr.
Proof.
  unfold poly_to_segment_vec, extend_poly, vec_resize. intros Hs.
  unfold Polynomial.checked in Hs. destruct (Polynomial.is_valid poly); [|done].
  cbn [negb mbind res_bind] in Hs. destruct (is_power_of_two cs); [|done]. cbn [negb] in Hs.
  apply res_bind_Ok in Hs as (fk & Hfk & Hs). apply res_bind_Ok in Hs as (prs & Hprs & Hs).
  rewrite resize_ge in Hs by lia.
  replace (length (Crypto.coeffs poly) * 2 - length (Crypto.coeffs poly))%nat
    with (length (Crypto.coeffs poly)) in Hs by lia.
  rewrite (fk20_new_settings _ _ _ _ Hfk) in Hs.
  apply res_bind_Ok in Hs as (row & Hrow & Hs). apply res_bind_Ok in Hrow as (evals & He & [= <-]).
  exists fk, prs, evals. split_and!; [done..|]. intros i s Hi.
  destruct (lookup_lt_is_Some_2 (chunks (Z.to_nat cs) (reverse_bit_order evals)) i) as [chunk Hc].
  { apply mapM_res_length in Hs. rewrite length_enumerate in Hs. apply lookup_lt_Some in Hi. lia. }
  eapply mapM_res_lookup in Hs; [|rewrite lookup_enumerate, Hc; done|exact Hi].
  simpl in Hs. apply res_bind_Ok in Hs as (pr & Hpr%unwrap_Ok & [= <-]). eauto.
Qed.

(** ** Proofs *)
Section proofs.
Context `{!RootsLaws}.

(** The extended row divides the domain. *)
Definition fits (kzg : KZG) (n : nat) : Prop :=
  0 < Crypto.max_width kzg < 2 ^ Z.of_nat usize_bits /\ (2 * Z.of_nat n | Crypto.max_width kzg).

(** Where position [i] of a row of [2^k] segments of [2^a] scalars lies in the domain. *)
Lemma row_index kzg a k n i : n = (2 ^ k * 2 ^ a)%nat -> fits kzg n -> 0 <= i < 2 ^ Z.of_nat (S k) ->
  let pos := reverse_bits (S k) i * (Crypto.max_width kzg / (2 * Z.of_nat n)) in
  Crypto.kzg_index kzg (Z.of_nat (2 ^ k)) i (Z.of_nat (2 ^ a)) = Ok pos /\
  exists x, ks_get_expanded_roots_of_unity_at (Crypto.ks kzg) pos = Ok x.
Proof.
  intros -> [[HW Hw] [q Hq]] Hi. rewrite Nat2Z.inj_mul, !pow2_inj in *.
  pose proof (Z.pow_pos_nonneg 2 (Z.of_nat k) ltac:(lia) ltac:(lia)).
  pose proof (Z.pow_pos_nonneg 2 (Z.of_nat a) ltac:(lia) ltac:(lia)).
  assert (Hq0 : 0 < q) by nia.
  assert (Hk : (k < usize_bits)%nat).
  { apply Nat2Z.inj_lt. apply (Z.pow_lt_mono_r_iff 2); [lia..|]. eapply Z.le_lt_trans; [|exact Hw].
    rewrite Hq. assert (1 <= q * 2 ^ Z.of_nat a * 2) by nia. nia. }
  intros pos. assert (Hpos : pos = reverse_bits (S k) i * q) by (unfold pos; rewrite Hq, Z.div_mul by nia; done).
  clearbody pos. subst pos.
  pose proof (reverse_bits_bound (S k) i) as Hb. rewrite Nat2Z.inj_succ, Z.pow_succ_r in Hb by lia.
  split.
  - unfold Crypto.kzg_index. apply get_kzg_index_val; [done|lia|lia| |done|done]. rewrite Hq. ring.
  - apply expanded_roots_at. change (fs_max_width (ks_fs (Crypto.ks kzg))) with (Crypto.max_width kzg).
    split; [nia|]. rewrite Hq.
    replace (q * (2 * (2 ^ Z.of_nat k * 2 ^ Z.of_nat a))) with (2 * 2 ^ Z.of_nat k * q * 2 ^ Z.of_nat a) by ring.
    apply Z.lt_le_trans with (2 * 2 ^ Z.of_nat k * q); [apply Z.mul_lt_mono_pos_r; lia|].
    rewrite <- Z.le_mul_diag_r by nia. lia.
Qed.

(** A segment whose proof is accepted at its place in the domain verifies. *)
Lemma verify_accepted kzg c s pos x count :
  Crypto.kzg_index kzg count (Crypto.x (Segment.position s)) (Segment.size s) = Ok pos ->
  ks_get_expanded_roots_of_unity_at (Crypto.ks kzg) pos = Ok x ->
  ks_check_proof_multi (Crypto.ks kzg) c (Segment.proof (Segment.content s)) x
    (reverse_bit_order (Segment.data (Segment.content s))) (Z.to_nat (Segment.size s)) = Ok true ->
  Segment.verify s kzg c count = Ok true.
Proof.
  intros Hp Hx Hc. unfold Segment.verify, Crypto.check_proof_multi. rewrite Hp. bind_simpl.
  unfold Crypto.get_expanded_roots_of_unity_at. by rewrite Hx.
Qed.

Section row.
Context (poly : Polynomial.t) (kzg : KZG) (y : Z) (a k : nat) (segs : list Segment.t) (c : KZGCommitment).
Context (Hl : length (Crypto.coeffs poly) = (2 ^ k * 2 ^ a)%nat)
  (Hfit : fits kzg (length (Crypto.coeffs poly))) (Hu : Z.of_nat (length segs) <= 2 ^ 32)
  (Hc : Crypto.commit kzg poly = Ok c)
  (Hs : poly_to_segment_vec poly kzg y (Z.of_nat (2 ^ a)) = Ok segs).

(** Position, scalars and place of a segment of the row. *)
Lemma row_segment i s : segs !! i = Some s ->
  exists fk proofs evals chunk x,
    fk20_new (Crypto.ks kzg) (2 * length (Crypto.coeffs poly)) (2 ^ a) = Ok fk /\
    fk20_data_availability fk (Crypto.coeffs poly) = Ok proofs /\
    fft_fr (Crypto.get_fs kzg)
      (Crypto.coeffs poly ++ replicate (length (Crypto.coeffs poly)) fr_zero) false = Ok evals /\
    chunks (2 ^ a) (reverse_bit_order evals) !! i = Some chunk /\
    proofs !! i = Some (Segment.proof (Segment.content s)) /\
    Segment.data (Segment.content s) = chunk /\ Segment.size s = Z.of_nat (2 ^ a) /\
    let pos := reverse_bits (S k) (Z.of_nat i)
      * (Crypto.max_width kzg / (2 * Z.of_nat (length (Crypto.coeffs poly)))) in
    Crypto.kzg_index kzg (Z.of_nat (2 ^ k)) (Crypto.x (Segment.position s)) (Z.of_nat (2 ^ a)) = Ok pos /\
    ks_get_expanded_roots_of_unity_at (Crypto.ks kzg) pos = Ok x.
Proof.
  intros Hi. destruct (poly_segments_shape _ _ _ _ _ _ Hs Hl Hu) as (Hsl & _ & Hshape).
  destruct (Hshape i s Hi) as [Hpos Hsz]. apply lookup_lt_Some in Hi as Hil. rewrite Hsl in Hil.
  destruct (segment_vec_parts _ _ _ _ _ Hs) as (fk & proofs & evals & Hfk & Hpr & Hf & Hparts).
  destruct (Hparts i s Hi) as (chunk & pr & Hch & Hpri & Heq). rewrite Nat2Z.id in Hch, Hfk.
  assert (Hib : 0 <= Z.of_nat i < 2 ^ Z.of_nat (S k)) by (rewrite <- pow2_inj; simpl; lia).
  destruct (row_index kzg a k _ (Z.of_nat i) Hl Hfit Hib) as (Hidx & x & Hx).
  exists fk, proofs, evals, chunk, x. rewrite Hpos. subst s. by split_and!.
Qed.

Lemma row_double : (2 * length (Crypto.coeffs poly) = 2 ^ S k * 2 ^ a)%nat.
Proof. simpl. lia. Qed.

(** Every segment built from a committed polynomial verifies. *)
Lemma row_segments_verify `{!Fk20ProofLaws} i s : segs !! i = Some s ->
  Segment.verify s kzg c (Z.of_nat (2 ^ k)) = Ok true.
Proof.
  intros Hi. destruct (row_segment i s Hi)
    as (fk & proofs & evals & chunk & x & Hfk & Hpr & Hf & Hch & Hpri & Hd & Hsz & Hidx & Hx).
  eapply verify_accepted; [rewrite Hsz; exact Hidx|exact Hx|]. rewrite Hsz, Nat2Z.id, Hd.
  apply (fk20_proof_check (Crypto.ks kzg) (Crypto.coeffs poly) c _ (S k) fk proofs evals i); try done.
  exact row_double.
Qed.

(** So does a segment with its scalars and the proof computed for its position. *)
Lemma computed_proof_verifies `{!FftEvalLaws} `{!BitIndexLaws} `{!MultiProofLaws (2 ^ a)} i s :
  segs !! i = Some s ->
  is_ok (Crypto.compute_proof_multi kzg poly (Crypto.x (Segment.position s)) (Z.of_nat (2 ^ k)) (Segment.size s))
    = true /\
  forall s', Segment.position s' = Segment.position s ->
    Segment.data (Segment.content s') = Segment.data (Segment.content s) ->
    Crypto.compute_proof_multi kzg poly (Crypto.x (Segment.position s)) (Z.of_nat (2 ^ k)) (Segment.size s)
      = Ok (Segment.proof (Segment.content s')) ->
    Segment.verify s' kzg c (Z.of_nat (2 ^ k)) = Ok true.
Proof.
  intros Hi. destruct (row_segment i s Hi)
    as (fk & proofs & evals & chunk & x & Hfk & Hpr & Hf & Hch & Hpri & Hd & Hsz & Hidx & Hx).
  unfold Crypto.compute_proof_multi. rewrite Hsz, Hidx. bind_simpl.
  unfold Crypto.get_expanded_roots_of_unity_at. rewrite Hx. bind_simpl. rewrite Nat2Z.id.
  destruct (compute_proof_multi_total (Crypto.ks kzg) (Crypto.coeffs poly) c _ x Hc Hx) as [pr' Hpr'].
  rewrite Hpr'. split; [done|]. intros s' Hp' Hd' [= Hpr2].
  assert (Hsz' : Segment.size s' = Z.of_nat (2 ^ a)) by (unfold Segment.size in *; by rewrite Hd').
  eapply verify_accepted; [rewrite Hp', Hsz'; exact Hidx|exact Hx|]. rewrite Hsz', Nat2Z.id, <- Hpr2, Hd', Hd.
  apply (chunk_opening a (S k) (Crypto.ks kzg) (Crypto.coeffs poly) c evals i chunk x pr'); try done.
  exact row_double.
Qed.
End row.
End proofs.

(** C2: Half of a row restores the row: from any [chunk_count] or more distinct
    segments of the [2 * chunk_count] segments built from a committed polynomial, in any
    order, [recovery_row_from_segments] returns the complete row, with the original
    positions and data, and every segment it returns verifies against the commitment.
    A segment that was supplied is returned unchanged; a missing one has the proof
    [compute_proof_multi] gives for its position.  The laws assumed are those of the FFT, of
    Reed-Solomon recovery and of openings on cosets of as many points as a segment has. *)
Theorem recovery_row_from_segments_complete `{!RootsLaws} `{!FftEvalLaws} `{!Fk20ProofLaws} `{!BitIndexLaws}
    poly kzg y sz `{!MultiProofLaws sz} c segs sub chunk_count :
  Crypto.commit kzg poly = Ok c ->
  poly_to_segment_vec poly kzg y (Z.of_nat sz) = Ok segs ->
  length (Crypto.coeffs poly) = (chunk_count * sz)%nat ->
  is_power_of_two (Z.of_nat chunk_count) = true ->
  Crypto.max_width kzg < 2 ^ Z.of_nat usize_bits -> Z.of_nat (length segs) <= 2 ^ 32 ->
  NoDup sub -> (forall s, s ∈ sub -> s ∈ segs) -> (chunk_count <= length sub)%nat ->
  exists segs', recovery_row_from_segments sub kzg chunk_count = Ok segs' /\
    Forall2 (fun s s' => Segment.position s' = Segment.position s /\
      Segment.data (Segment.content s') = Segment.data (Segment.content s) /\
      Segment.verify s' kzg c (Z.of_nat chunk_count) = Ok true /\
      (s ∈ sub -> s' = s) /\
      (s ∉ sub -> Crypto.compute_proof_multi kzg poly (Crypto.x (Segment.position s))
         (Z.of_nat chunk_count) (Segment.size s) = Ok (Segment.proof (Segment.content s'))))
      segs segs'.
Proof.
  intros Hc Hs Hlen Hcc Hw Hu32 Hnd Hin Hcnt.
  destruct (poly_segments_shape _ _ _ _ _ _ Hs Hlen Hu32) as (_ & Hsz & _).
  destruct (is_power_of_two_nat _ Hcc) as [k ->]. destruct (is_power_of_two_nat _ Hsz) as [a ->].
  assert (Hfit : fits kzg (length (Crypto.coeffs poly))).
  { apply poly_to_segment_vec_Ok in Hs as (_ & evals & Hf & _). destruct (fft_fr_fits _ _ _ Hf) as [Hpos Hd].
    rewrite length_app, length_replicate in Hd. split; [done|]. by replace (2 * Z.of_nat (length (Crypto.coeffs poly)))
      with (Z.of_nat (length (Crypto.coeffs poly) + length (Crypto.coeffs poly))) by lia. }
  pose proof (row_segments_verify poly kzg y a k segs c Hlen Hfit Hu32 Hc Hs) as Hvs.
  pose proof (computed_proof_verifies poly kzg y a k segs c Hlen Hfit Hu32 Hc Hs) as Hvm.
  destruct (recovery_row_spec poly kzg y (2 ^ a) segs sub (2 ^ k)) as (segs' & Hr & Hf); [done..| |].
  { intros s [i Hi]%list_elem_of_lookup. by apply (Hvm i s). }
  exists segs'. split; [done|]. apply Forall2_same_length_lookup. split; [by eapply Forall2_length|].
  intros i s s' Hi Hi'. destruct (Forall2_lookup_lr _ _ _ _ _ _ Hf Hi Hi') as (Hp & Hd & Hsup & Hmis).
  split_and!; [done..| |done|done]. destruct (decide (s ∈ sub)) as [Hss|Hss].
  - rewrite Hsup by done. by apply (Hvs i).
  - apply (Hvm i s Hi); [done..|]. by apply Hmis.
Qed.
End segments.
End rows.

(** A row of two segments of two scalars, restored from its parity segment. *)
Section row_witness.
#[local] Existing Instances host64 poly_lib poly_lib_bit_order poly_lib_fft poly_lib_recover
  poly_lib_fk20 poly_lib_roots poly_lib_bit_index poly_lib_fft_eval poly_lib_multi poly_lib_fk20_proofs.
#[local] Definition toy_kzg : KZG := Crypto.kzg_new tt.
#[local] Definition toy_poly : Polynomial.t := Crypto.mkPolynomial [e3; e1].
#[local] Definition toy_segs : list Segment.t :=
  match poly_to_segment_vec toy_poly toy_kzg 5 2 with Ok s => s | _ => [] end.
#[local] Definition toy_sub : list Segment.t := drop 1 toy_segs.

Lemma recovery_row_from_segments_complete_witness :
  exists segs', recovery_row_from_segments toy_sub toy_kzg 1 = Ok segs' /\
    Forall2 (fun s s' => Segment.position s' = Segment.position s /\
      Segment.data (Segment.content s') = Segment.data (Segment.content s) /\
      Segment.verify s' toy_kzg [e3; e1] 1 = Ok true /\
      (s ∈ toy_sub -> s' = s) /\
      (s ∉ toy_sub -> Crypto.compute_proof_multi toy_kzg toy_poly (Crypto.x (Segment.position s))
         1 (Segment.size s) = Ok (Segment.proof (Segment.content s'))))
      toy_segs segs'.
Proof.
  apply (recovery_row_from_segments_complete toy_poly toy_kzg 5 2 [e3; e1] toy_segs toy_sub 1).
  - reflexivity.
  - reflexivity.
  - reflexivity.
  - reflexivity.
  - reflexivity.
  - change (length toy_segs) with 2%nat. lia.
  - exact (NoDup_singleton _).
  - intros s Hs. change toy_segs with (take 1 toy_segs ++ toy_sub). apply elem_of_app. by right.
  - change (length toy_sub) with 1%nat. lia.
Defined.
End row_witness.
