(* ===== verification/ColumnExtension.v ===== *)
(** * Column extension ([crates/melo-erasure-coding/src/extend_col.rs])

    What [extend_segments_col] accepts and what it returns: a column is extended the
    same way in whatever order its segments arrive. *)

From S2P Require Import Prelude Codec KzgLib KzgIndex KzgToy DasPrimitives Blob ErasureCoding.

Lemma filter_length_all {A} (P : A -> Prop) `{!forall x, Decision (P x)} (l : list A) :
  length (filter P l) = length l -> filter P l = l /\ Forall P l.
Proof.
  induction l as [|x l IH]; [done|]. rewrite filter_cons. case_decide as Hx; simpl; intros Hl.
  - destruct IH as [-> ?]; [lia|]. by split; [|constructor].
  - pose proof (length_filter P l). lia.
Qed.

Lemma filter_all {A} (P : A -> Prop) `{!forall x, Decision (P x)} (l : list A) :
  Forall P l -> filter P l = l.
Proof. induction 1 as [|x l Hx _ IH]; [done|]. rewrite filter_cons, decide_True by done. by f_equal. Qed.

Lemma snd_enumerate {A} (l : list A) : (enumerate l).*2 = l.
Proof.
  apply list_eq. intros i. rewrite list_lookup_fmap, lookup_enumerate.
  by destruct (l !! i).
Qed.

Lemma fmap_enumerate_snd {A B} (f : A -> B) (l : list A) :
  (fun p : nat * A => f p.2) <$> enumerate l = f <$> l.
Proof. rewrite <- (snd_enumerate l) at 2. by rewrite <- list_fmap_compose. Qed.

Section column.
Context `{Platform} `{KzgLib}.
Implicit Types s : Segment.t.

Abbreviation row_of s := (Crypto.y (Segment.position s)).
Abbreviation col_of s := (Crypto.x (Segment.position s)).

#[local] Instance y_le_total : Total y_le.
Proof. intros a b. unfold y_le. lia. Qed.
#[local] Instance y_le_trans : Transitive y_le.
Proof. intros a b c. unfold y_le. lia. Qed.

(** A column ready for extension: consecutive rows from zero and equal sizes. *)
Definition full_column (x size : Z) (l : list Segment.t) : Prop :=
  forall i s, l !! i = Some s -> col_of s = x /\ row_of s = Z.of_nat i /\ Segment.size s = size.

(** The second half of the function, on the sorted column. *)
Definition extend_sorted (fs : FsFFTSettings) (x size : Z) (l : list Segment.t)
    : res string (list Segment.t) :=
  let sorted_rows := concat ((fun s => Segment.data (Segment.content s)) <$> l) in
  extended_proofs ← extend_fs_g1 fs ((fun s => Segment.proof (Segment.content s)) <$> l);
  extended_cols ← mapM (fun i => extend fs (step_by (Z.to_nat size) (drop i sorted_rows)))
    (seq 0 (Z.to_nat size));
  mapM (fun '(i, proof) =>
      data ← mapM (fun col : list BlsScalar => unwrap (col !! i)) extended_cols;
      Ok (Segment.mk (Crypto.mkPosition x (wrap 32 (Z.of_nat i + Z.of_nat (length l))))
            (Segment.mkData data proof)))
    (enumerate (step_by 2 (drop 1 extended_proofs))).

Lemma length_concat_const {A} (ls : list (list A)) n :
  Forall (fun l => length l = n) ls -> length (concat ls) = (length ls * n)%nat.
Proof. induction 1 as [|l ls Hl _ IH]; [done|]. cbn [concat]. rewrite length_app, IH, Hl. simpl. lia. Qed.

(** The function is the extension of the sorted column when that is full. *)
Lemma extend_segments_col_full fs s0 segs : 
  is_power_of_two (Z.of_nat (length (s0 :: segs))) = true ->
  is_power_of_two (Segment.size s0) = true ->
  full_column (col_of s0) (Segment.size s0) (merge_sort y_le (s0 :: segs)) ->
  extend_segments_col fs (s0 :: segs)
  = extend_sorted fs (col_of s0) (Segment.size s0) (merge_sort y_le (s0 :: segs)).
Proof.
  intros Hk Hsz Hfull. unfold extend_segments_col, extend_sorted. rewrite Hk, Hsz. cbn [negb orb].
  pose proof (merge_sort_Permutation y_le (s0 :: segs)) as Hp.
  set (l := merge_sort y_le (s0 :: segs)) in *.
  rewrite existsb_negb_false.
  2: { apply Forall_forall. intros s Hs. apply Z.eqb_eq. rewrite <- Hp in Hs.
       apply list_elem_of_lookup in Hs as [i Hi]. by apply (Hfull i s). }
  assert (Hf : filter (fun '(i, s) => (col_of s = col_of s0 /\ Z.of_nat i = row_of s) /\
      Segment.size s = Segment.size s0) (enumerate l) = enumerate l).
  { apply filter_all. apply Forall_forall. intros [i s] [j Hj]%list_elem_of_lookup.
    rewrite lookup_enumerate in Hj. apply fmap_Some in Hj as (s' & Hj & [= -> ->]).
    destruct (Hfull _ _ Hj) as (? & ? & ?). done. }
  rewrite Hf, (fmap_enumerate_snd (fun s => Segment.proof (Segment.content s))),
    (fmap_enumerate_snd (fun s => Segment.data (Segment.content s))).
  rewrite (length_concat_const _ (Z.to_nat (Segment.size s0))).
  - apply Permutation_length in Hp as Hpl. rewrite length_fmap, Hpl.
    assert (0 <= Segment.size s0) by (unfold Segment.size; lia).
    rewrite (proj2 (Z.eqb_eq _ _)) by lia. done.
  - apply Forall_fmap, Forall_forall. intros s [i Hi]%list_elem_of_lookup.
    destruct (Hfull _ _ Hi) as (_ & _ & Hs). unfold Segment.size in *. simpl. lia.
Qed.

Lemma extend_segments_col_Ok fs s0 segs r :
  extend_segments_col fs (s0 :: segs) = Ok r ->
  is_power_of_two (Z.of_nat (length (s0 :: segs))) = true /\
  is_power_of_two (Segment.size s0) = true /\
  full_column (col_of s0) (Segment.size s0) (merge_sort y_le (s0 :: segs)).
Proof.
  unfold extend_segments_col. destruct (existsb _ _); [done|].
  destruct (is_power_of_two (Z.of_nat _)); [|done].
  destruct (is_power_of_two (Segment.size s0)) eqn:Hsz; [|done]. cbn [negb orb].
  pose proof (merge_sort_Permutation y_le (s0 :: segs)) as Hp.
  set (l := merge_sort y_le (s0 :: segs)) in *.
  destruct (Z.eqb_spec (Z.of_nat (length (concat ((fun p : nat * Segment.t =>
    Segment.data (Segment.content p.2)) <$> filter (fun '(i, s) =>
      (col_of s = col_of s0 /\ Z.of_nat i = row_of s) /\ Segment.size s = Segment.size s0)
      (enumerate l))))) (Z.of_nat (length (s0 :: segs)) * Segment.size s0)) as [Hl|Hl]; [|done].
  intros _. split_and!; [done..|].
  rewrite (length_concat_const _ (Z.to_nat (Segment.size s0))) in Hl.
  - rewrite length_fmap in Hl.
    assert (Hpos : 0 < Segment.size s0).
    { apply is_power_of_two_spec in Hsz as (k & Hk & ->). by apply Z.pow_pos_nonneg. }
    apply Permutation_length in Hp.
    match type of Hl with context [length (filter ?P ?l0)] =>
      destruct (filter_length_all P l0) as [_ Hall] end.
    { rewrite length_enumerate. nia. }
    intros i s Hi. rewrite Forall_forall in Hall.
    destruct (Hall (i, s)) as [[? ?] ?]; [|done].
    eapply list_elem_of_lookup_2 with (i := i). rewrite lookup_enumerate, Hi. done.
  - apply Forall_fmap, Forall_forall. intros [i s] [[[_ _] Hs] _]%list_elem_of_filter.
    unfold Segment.size in *. simpl. lia.
Qed.

(** A full column is determined by its set of segments. *)
Lemma full_column_unique x size l l' :
  full_column x size l -> Sorted y_le l' -> l ≡ₚ l' -> l = l'.
Proof.
  intros Hf Hs Hp.
  assert (Hk : (fun s => row_of s) <$> l' = Z.of_nat <$> seq 0 (length l)).
  { apply (Sorted_unique Z.le).
    - clear -Hs. induction Hs as [|s l Hs IH Hhd]; simpl; constructor; [done|].
      destruct Hhd; simpl; by constructor.
    - clear. apply StronglySorted_Sorted. generalize 0%nat. generalize (length l).
      intros n. induction n as [|n IH]; intros m; simpl; constructor; [apply IH|].
      apply Forall_fmap, Forall_forall. intros i Hi%elem_of_seq. simpl. lia.
    - rewrite <- Hp. apply reflexive_eq. apply list_eq. intros i. rewrite !list_lookup_fmap.
      destruct (l !! i) as [s|] eqn:Hi; simpl.
      + destruct (Hf _ _ Hi) as (_ & -> & _).
        rewrite lookup_seq_lt by (by eapply lookup_lt_Some). done.
      + apply lookup_ge_None in Hi. rewrite lookup_seq_ge by done. done. }
  apply list_eq. intros i. destruct (l' !! i) as [s|] eqn:Hi.
  - assert (Hr : row_of s = Z.of_nat i).
    { assert (Hlt : (i < length l)%nat)
        by (rewrite (Permutation_length Hp); by eapply lookup_lt_Some).
      pose proof (f_equal (fun k => k !! i) Hk) as Hki. cbv beta in Hki.
      rewrite !list_lookup_fmap, Hi, lookup_seq_lt in Hki by done. by injection Hki. }
    assert (Hin : s ∈ l) by (rewrite Hp; by eapply list_elem_of_lookup_2).
    apply list_elem_of_lookup in Hin as [j Hj]. destruct (Hf _ _ Hj) as (_ & Hrj & _).
    by replace i with j by lia.
  - apply lookup_ge_None in Hi. apply lookup_ge_None. by rewrite (Permutation_length Hp).
Qed.

(** The [j]-th scalars of a column, top to bottom. *)
Definition column (j : nat) (l : list Segment.t) : list BlsScalar :=
  omap (fun s => Segment.data (Segment.content s) !! j) l.

Lemma lookup_concat_uniform {A} (ls : list (list A)) n i j :
  Forall (fun l => length l = n) ls -> (j < n)%nat ->
  concat ls !! (i * n + j)%nat = ls !! i ≫= fun l => l !! j.
Proof.
  intros Hl Hj. revert i. induction Hl as [|l ls Hl _ IH]; intros i; [by destruct i|].
  cbn [concat]. destruct i as [|i]; simpl.
  - by rewrite lookup_app_l by lia.
  - rewrite lookup_app_r by lia. rewrite <- IH. f_equal. lia.
Qed.

Lemma step_by_column x size l j : full_column x size l -> (j < Z.to_nat size)%nat ->
  step_by (Z.to_nat size) (drop j (concat ((fun s => Segment.data (Segment.content s)) <$> l)))
  = column j l.
Proof.
  intros Hf Hj.
  assert (Hu : Forall (fun d => length d = Z.to_nat size)
      ((fun s => Segment.data (Segment.content s)) <$> l)).
  { apply Forall_fmap, Forall_forall. intros s [i Hi]%list_elem_of_lookup.
    destruct (Hf _ _ Hi) as (_ & _ & Hs). unfold Segment.size in Hs. simpl. lia. }
  apply list_eq. intros i. rewrite lookup_step_by, lookup_drop by lia.
  rewrite Nat.add_comm, (lookup_concat_uniform _ (Z.to_nat size)) by done.
  unfold column. rewrite list_lookup_fmap, lookup_omap_all.
  - by destruct (l !! i).
  - rewrite Forall_fmap in Hu. eapply Forall_impl; [exact Hu|]. simpl. intros s Hs.
    apply lookup_lt_is_Some. lia.
Qed.

Lemma extend_fs_g1_length `{!FftG1Laws} fs l r : extend_fs_g1 fs l = Ok r -> length r = (length l * 2)%nat.
Proof.
  unfold extend_fs_g1. intros (co & Hco & Hr)%res_bind_Ok. apply fft_g1_length in Hco, Hr.
  unfold vec_resize in Hr. rewrite length_resize in Hr. lia.
Qed.

(** The elements at odd places of a list of even length. *)
Lemma odd_places {A} (l : list A) k : length l = (k * 2)%nat ->
  length (step_by 2 (drop 1 l)) = k /\ forall i, step_by 2 (drop 1 l) !! i = l !! (2 * i + 1)%nat.
Proof.
  intros Hl. assert (Hi : forall i, step_by 2 (drop 1 l) !! i = l !! (2 * i + 1)%nat).
  { intros i. rewrite lookup_step_by, lookup_drop by lia. f_equal. lia. }
  split; [|done]. destruct (Nat.lt_trichotomy (length (step_by 2 (drop 1 l))) k) as [Hlt|[Heq|Hgt]]; [|done|].
  - destruct (lookup_lt_is_Some_2 l (2 * length (step_by 2 (drop 1 l)) + 1)) as [v Hv]; [lia|].
    rewrite <- Hi in Hv. apply lookup_lt_Some in Hv. lia.
  - destruct (lookup_lt_is_Some_2 (step_by 2 (drop 1 l)) k) as [v Hv]; [lia|].
    rewrite Hi in Hv. apply lookup_lt_Some in Hv. lia.
Qed.

(** C9: Extending a column of [k] segments does not depend on the order in which they
    arrive and yields [k] parity segments.  Parity segment [i] sits at row [k + i] of the same
    column; its [j]-th scalar is the [i]-th parity scalar of the column of [j]-th scalars,
    and its proof is the element at the odd place [2 i + 1] of the extension of the
    column of proofs, both columns taken top to bottom. *)
Theorem extend_segments_col_spec `{!FftG1Laws} fs segs segs' r :
  segs ≡ₚ segs' -> extend_segments_col fs segs = Ok r ->
  extend_segments_col fs segs' = Ok r /\ length r = length segs /\
  forall i s, r !! i = Some s ->
    (forall s0, s0 ∈ segs -> col_of s = col_of s0 /\
       length (Segment.data (Segment.content s)) = length (Segment.data (Segment.content s0))) /\
    row_of s = wrap 32 (Z.of_nat i + Z.of_nat (length segs)) /\
    (forall j v, Segment.data (Segment.content s) !! j = Some v ->
      exists e, extend fs (column j (merge_sort y_le segs)) = Ok e /\ e !! i = Some v) /\
    exists e, extend_fs_g1 fs ((fun s => Segment.proof (Segment.content s)) <$> merge_sort y_le segs) = Ok e /\
      e !! (2 * i + 1)%nat = Some (Segment.proof (Segment.content s)).
Proof.
  intros Hp Hr. destruct segs as [|s0 segs].
  { apply Permutation_nil_l in Hp as <-. injection Hr as <-. by split. }
  destruct segs' as [|s1 segs']; [by apply Permutation_nil_r in Hp|].
  destruct (extend_segments_col_Ok _ _ _ _ Hr) as (Hk & Hsz & Hf).
  assert (Hms : merge_sort y_le (s0 :: segs) = merge_sort y_le (s1 :: segs')).
  { eapply full_column_unique; [exact Hf|apply Sorted_merge_sort, _|].
    by rewrite !merge_sort_Permutation. }
  assert (Hmem : forall s, s ∈ s0 :: segs -> col_of s = col_of s0 /\ Segment.size s = Segment.size s0).
  { intros s Hs. rewrite <- (merge_sort_Permutation y_le) in Hs.
    apply list_elem_of_lookup in Hs as [i Hi]. destruct (Hf _ _ Hi) as (? & ? & ?). done. }
  destruct (Hmem s1) as [Hx1 Hs1]; [rewrite Hp; left|].
  pose proof (merge_sort_Permutation y_le (s0 :: segs)) as Hpm.
  rewrite extend_segments_col_full in Hr by done. split.
  - rewrite extend_segments_col_full; rewrite <- ?Hms, ?Hx1, ?Hs1, <- ?(Permutation_length Hp); done.
  - unfold extend_sorted in Hr. set (l := merge_sort y_le (s0 :: segs)) in *.
    apply res_bind_Ok in Hr as (eps & Hep & Hr). apply res_bind_Ok in Hr as (cols & Hcols & Hr).
    destruct (odd_places eps (length (s0 :: segs))) as [Hol Hodd].
    { apply extend_fs_g1_length in Hep. by rewrite Hep, length_fmap, (Permutation_length Hpm). }
    split; [apply mapM_res_length in Hr; rewrite length_enumerate in Hr; congruence|].
    intros i s Hi. assert (exists p, (enumerate (step_by 2 (drop 1 eps))) !! i = Some p) as [[i' p] Hpi].
    { apply lookup_lt_is_Some. rewrite <- (mapM_res_length _ _ _ Hr). by eapply lookup_lt_Some. }
    pose proof (mapM_res_lookup _ _ _ _ _ _ Hr Hpi Hi) as Hs. cbv beta iota in Hs.
    rewrite lookup_enumerate in Hpi. apply fmap_Some in Hpi as (p' & Hp' & [= -> ->]).
    rewrite Hodd in Hp'.
    apply res_bind_Ok in Hs as (data & Hdata & [= <-]).
    cbn [Segment.position Segment.content Segment.data Segment.proof Crypto.x Crypto.y].
    apply mapM_res_length in Hdata as Hdl. apply mapM_res_length in Hcols as Hcl.
    rewrite length_seq in Hcl. split_and!.
    + intros t Ht. destruct (Hmem t Ht) as [-> Hst]. split; [done|].
      unfold Segment.size in Hst, Hcl. lia.
    + by rewrite (Permutation_length Hpm).
    + intros j v Hj. assert (Hlt : (j < length cols)%nat)
        by (rewrite <- Hdl; by eapply lookup_lt_Some).
      destruct (lookup_lt_is_Some_2 cols j Hlt) as [e He].
      pose proof (mapM_res_lookup _ _ _ _ _ _ Hdata He Hj) as Hv. apply unwrap_Ok in Hv.
      exists e. split; [|done].
      assert (Hsj : seq 0 (Z.to_nat (Segment.size s0)) !! j = Some j)
        by (rewrite lookup_seq_lt; [done|lia]).
      pose proof (mapM_res_lookup _ _ _ _ _ _ Hcols Hsj He) as Hex. cbv beta in Hex.
      by rewrite (step_by_column _ _ _ _ Hf) in Hex by lia.
    + by exists eps.
Qed.
End column.

Section column_witness.
#[local] Existing Instances poly_lib poly_lib_fft_g1.
#[local] Definition toy_fs : FsFFTSettings := tt.
#[local] Definition toy_col : list Segment.t :=
  [Segment.new (Crypto.mkPosition 3 1) [e1; e2] [e4]; Segment.new (Crypto.mkPosition 3 0) [e0; e3] [e1]].
#[local] Definition toy_ext : list Segment.t :=
  match extend_segments_col toy_fs toy_col with Ok r => r | _ => [] end.

Lemma extend_segments_col_spec_witness :
  extend_segments_col toy_fs (reverse toy_col) = Ok toy_ext /\ length toy_ext = 2%nat.
Proof.
  destruct (extend_segments_col_spec toy_fs toy_col (reverse toy_col) toy_ext) as (Hr & Hl & _).
  - symmetry. apply reverse_Permutation.
  - reflexivity.
  - split; [exact Hr|exact Hl].
Defined.
End column_witness.
