(* ===== verification/CorePrimitives.v ===== *)
(** * Core primitives ([crates/core-primitives/src])

    The constants of [config.rs], the extended block header with its application
    lookup table ([header/]), the traits of [traits.rs] as classes, and the
    parameters of a data submission ([lib.rs]). *)

From S2P Require Import Prelude Codec KzgLib KzgIndex KzgToy DasPrimitives.

(** ** [config.rs] *)
Definition BLOCK_SAMPLE_LIMIT : Z := 3.
Definition MAX_UNAVAILABLE_BLOCK_INTERVAL : Z := 3.
Definition FIELD_ELEMENTS_PER_SEGMENT : Z := 2 ^ 4.
Definition SEGMENTS_PER_BLOB : Z := FIELD_ELEMENTS_PER_BLOB / FIELD_ELEMENTS_PER_SEGMENT.
Definition EXTENDED_SEGMENTS_PER_BLOB : Z := SEGMENTS_PER_BLOB * 2.
Definition BLOCK_AVAILABILITY_THRESHOLD : Z := 5.
Definition SAMPLES_PER_BLOCK : Z := 8.
Definition PRE_CELL_LEADING_ZEROS : Z := 0.

(** ** [header/extension.rs] *)
Module AppLookup.
Record t := mk { app_id : Z; nonce : Z; count : Z }.

#[export] Instance t_eq_dec : EqDecision t.
Proof. solve_decision. Defined.
#[export] Instance t_wf : Wf t :=
  fun l => in_u 32 (app_id l) /\ in_u 32 (nonce l) /\ in_u 16 (count l).

(** The loop of [get_lookup], with [prev_sum] as its state. *)
Fixpoint get_lookup_go (lookups : list t) (at_ prev_sum : Z) : option (t * Z) :=
  match lookups with
  | [] => None
  | lookup :: lookups =>
      let next_sum := wrap 32 (prev_sum + count lookup) in
      if at_ <? next_sum then Some (lookup, wrap 32 (at_ - prev_sum))
      else get_lookup_go lookups at_ next_sum
  end.
Definition get_lookup (lookups : list t) (at_ : Z) : option (t * Z) :=
  get_lookup_go lookups at_ 0.
End AppLookup.
Export (hints) AppLookup.

Module HeaderExtension.
Record t := mk { commitments_bytes : bytes; app_lookup : list AppLookup.t }.

#[export] Instance t_eq_dec : EqDecision t.
Proof. solve_decision. Defined.

Definition new (commitments_bytes : bytes) (app_lookup : list AppLookup.t) : t :=
  mk commitments_bytes app_lookup.
Definition default : t := mk [] [].

Fixpoint start_at_go (lookups : list AppLookup.t) (app_id nonce sum : Z) : option Z :=
  match lookups with
  | [] => None
  | lookup :: lookups =>
      if (AppLookup.app_id lookup =? app_id) && (AppLookup.nonce lookup =? nonce)
      then Some sum
      else start_at_go lookups app_id nonce (wrap 32 (sum + AppLookup.count lookup))
  end.
Definition start_at (self : t) (app_id nonce : Z) : option Z :=
  start_at_go (app_lookup self) app_id nonce 0.

Definition get_lookup (self : t) (at_ : Z) : option (AppLookup.t * Z) :=
  AppLookup.get_lookup (app_lookup self) at_.
End HeaderExtension.
Export (hints) HeaderExtension.

(** ** [traits.rs] *)
Class ExtendedHeader `{KzgLib} (Number Hash Digest Header : Type) := {
  eh_new_ext : Number -> Hash -> Hash -> Hash -> Digest -> HeaderExtension.t -> Header;
  eh_extension : Header -> HeaderExtension.t;
  eh_set_extension : list KZGCommitment * list AppLookup.t -> Header -> Header;
  eh_commitments : Header -> option (list KZGCommitment);
  eh_commitments_bytes : Header -> bytes;
  eh_col_num : Header -> option Z
}.

Class HeaderWithCommitment `{KzgLib} (Number Hash Header : Type) := {
  hwc_extension : Header -> HeaderExtension.t;
  hwc_commitments : Header -> option (list KZGCommitment);
  hwc_commitments_bytes : Header -> bytes;
  hwc_col_num : Header -> option Z;
  hwc_number : Header -> Number;
  hwc_hash : Header -> Hash
}.

(** [HeaderCommitList::last] and [CommitmentFromPosition::commitments] read the
    runtime's storage [S]. *)
Class HeaderCommitList `{KzgLib} (S : Type) :=
  hcl_last : S -> list KZGCommitment * list AppLookup.t.

(** ** [header/mod.rs] *)
Module Header.
Section header.
Context {Number Hash Digest : Type}.

Record t := mk {
  parent_hash : Hash;
  number : Number;
  state_root : Hash;
  extrinsics_root : Hash;
  digest : Digest;
  extension : HeaderExtension.t
}.

#[export] Instance t_eq_dec `{EqDecision Number} `{EqDecision Hash} `{EqDecision Digest} :
  EqDecision t.
Proof. solve_decision. Defined.

Definition new (number : Number) (extrinsics_root state_root parent_hash : Hash)
    (digest : Digest) : t :=
  mk parent_hash number state_root extrinsics_root digest HeaderExtension.default.

Definition set_number (num : Number) (self : t) : t :=
  mk (parent_hash self) num (state_root self) (extrinsics_root self) (digest self) (extension self).
Definition set_extrinsics_root (root : Hash) (self : t) : t :=
  mk (parent_hash self) (number self) (state_root self) root (digest self) (extension self).
Definition set_state_root (root : Hash) (self : t) : t :=
  mk (parent_hash self) (number self) root (extrinsics_root self) (digest self) (extension self).
Definition set_parent_hash (hash : Hash) (self : t) : t :=
  mk hash (number self) (state_root self) (extrinsics_root self) (digest self) (extension self).

Definition new_ext (number : Number) (extrinsics state parent : Hash) (digest : Digest)
    (extension : HeaderExtension.t) : t :=
  mk parent number state extrinsics digest extension.

Section commitments.
Context `{KzgLib}.

Definition set_extension (extension_data : list KZGCommitment * list AppLookup.t) (self : t) : t :=
  let '(commitments, app_lookups) := extension_data in
  let ext := HeaderExtension.mk (concat (g1_to_bytes <$> commitments)) app_lookups in
  mk (parent_hash self) (number self) (state_root self) (extrinsics_root self) (digest self) ext.

Definition commitments_bytes (self : t) : bytes :=
  HeaderExtension.commitments_bytes (extension self).

(** A chunk that does not decode makes the whole result [None]. *)
Definition commitments (self : t) : option (list KZGCommitment) :=
  mapM (M := option) (decode_all (A := FsG1)) (chunks BYTES_PER_G1 (commitments_bytes self)).

(** [try_into] to [u32]. *)
Definition col_num (self : t) : option Z :=
  let n := Z.of_nat (length (commitments_bytes self) / BYTES_PER_G1) in
  if n <? 2 ^ 32 then Some n else None.

#[export] Instance extended_header : ExtendedHeader Number Hash Digest t := {|
  eh_new_ext := new_ext; eh_extension := extension; eh_set_extension := set_extension;
  eh_commitments := commitments; eh_commitments_bytes := commitments_bytes;
  eh_col_num := col_num
|}.

(** [hash] is [Hash::hash_of], the hash of the encoding. *)
Definition hash `{Codec t} (hash_fn : bytes -> Hash) (self : t) : Hash :=
  hash_fn (scale_encode self).

Definition header_with_commitment `{Codec t} (hash_fn : bytes -> Hash)
    : HeaderWithCommitment Number Hash t := {|
  hwc_extension := extension; hwc_commitments := commitments;
  hwc_commitments_bytes := commitments_bytes; hwc_col_num := col_num;
  hwc_number := number; hwc_hash := hash hash_fn
|}.
End commitments.
End header.
Arguments t : clear implicits.
End Header.
Export (hints) Header.

(** ** [lib.rs] *)
Module SubmitDataParams.
Section params.
Context `{KzgLib}.

Record t := mk {
  app_id : Z;
  bytes_len : Z;
  nonce : Z;
  commitments : list KZGCommitment;
  proofs : list KZGProof
}.

#[export] Instance t_eq_dec : EqDecision t.
Proof. solve_decision. Defined.

Definition new := mk.

Definition check (self : t) : bool :=
  bool_decide (length (commitments self) = length (proofs self))
  && negb (bool_decide (commitments self = []))
  && (0 <? bytes_len self).
End params.
End SubmitDataParams.
Export (hints) SubmitDataParams.

(** ** Lookup table *)
Section lookup.
Abbreviation lk_key l := (AppLookup.app_id l, AppLookup.nonce l).
Abbreviation total ls := (sum_Z (AppLookup.count <$> ls)).

Lemma total_nonneg (ls : list AppLookup.t) : Forall wf ls -> 0 <= total ls.
Proof.
  intros Hw. apply sum_Z_nonneg, Forall_fmap. eapply Forall_impl; [exact Hw|].
  intros l (_ & _ & [? _]). done.
Qed.

(** One step of either loop does not wrap while the running total fits. *)
Lemma wrap_sum l ls s : Forall wf (l :: ls) -> 0 <= s -> s + total (l :: ls) < 2 ^ 32 ->
  wrap 32 (s + AppLookup.count l) = s + AppLookup.count l /\
  0 <= AppLookup.count l /\ 0 <= s + AppLookup.count l /\
  s + AppLookup.count l + total ls < 2 ^ 32.
Proof.
  intros Hw Hs Ht. pose proof (total_nonneg _ (Forall_inv_tail Hw)).
  destruct (Forall_inv Hw) as (_ & _ & [? _]).
  change (total (l :: ls)) with (AppLookup.count l + total ls) in Ht.
  rewrite wrap_small by (unfold in_u; lia). lia.
Qed.

Lemma start_at_go_bound ls a n : forall s v, Forall wf ls -> 0 <= s -> s + total ls < 2 ^ 32 ->
  HeaderExtension.start_at_go ls a n s = Some v -> s <= v < 2 ^ 32.
Proof.
  induction ls as [|l ls IH]; intros s v Hw Hs Ht; simpl; [done|].
  destruct (wrap_sum l ls s Hw Hs Ht) as (-> & ? & ? & ?).
  pose proof (total_nonneg _ (Forall_inv_tail Hw)).
  destruct (_ && _); [intros [= <-]; lia|]. intros Hv.
  apply IH in Hv; [lia|by eapply Forall_inv_tail|done..].
Qed.

Lemma get_lookup_go_spec ls : forall s at_ l r,
  Forall wf ls -> NoDup ((fun l => lk_key l) <$> ls) -> 0 <= s -> s + total ls < 2 ^ 32 ->
  s <= at_ ->
  AppLookup.get_lookup_go ls at_ s = Some (l, r) <->
  l ∈ ls /\ 0 <= r < AppLookup.count l /\
  HeaderExtension.start_at_go ls (AppLookup.app_id l) (AppLookup.nonce l) s = Some (at_ - r).
Proof.
  induction ls as [|l0 ls IH]; intros s at_ l r Hw Hnd Hs Ht Hat; simpl.
  { split; [done|]. by intros [[]%not_elem_of_nil _]. }
  destruct (wrap_sum l0 ls s Hw Hs Ht) as (-> & Hc & Hs' & Ht').
  apply NoDup_cons in Hnd as [Hn0 Hnd]. pose proof (Forall_inv_tail Hw) as Hw'.
  pose proof (total_nonneg _ Hw').
  assert (Hkey : forall l, l ∈ ls -> (AppLookup.app_id l0 =? AppLookup.app_id l) &&
      (AppLookup.nonce l0 =? AppLookup.nonce l) = false).
  { intros l' Hl'. apply not_true_iff_false. rewrite andb_true_iff, !Z.eqb_eq. intros [Ha Hb].
    apply Hn0, list_elem_of_fmap. exists l'. by rewrite Ha, Hb. }
  rewrite elem_of_cons. destruct (Z.ltb_spec at_ (s + AppLookup.count l0)) as [Hlt|Hge].
  - rewrite wrap_small by (unfold in_u; lia). split.
    + intros [= <- <-]. rewrite !Z.eqb_refl. simpl. split_and!; [by left|lia|lia|f_equal; lia].
    + intros ([->|Hl] & Hr & Hst).
      * rewrite !Z.eqb_refl in Hst. injection Hst as Hst. do 2 f_equal. lia.
      * rewrite (Hkey l Hl) in Hst. apply start_at_go_bound in Hst; [lia|done..].
  - rewrite IH by done. split.
    + intros (Hl & Hr & Hst). split_and!; [by right|lia|lia|]. by rewrite (Hkey l Hl).
    + intros ([->|Hl] & Hr & Hst).
      * rewrite !Z.eqb_refl in Hst. injection Hst as Hst. lia.
      * rewrite (Hkey l Hl) in Hst. done.
Qed.

(** The lookup table is consistent: with distinct (application, nonce) pairs and
    fewer than [2^32] blobs in total, [get_lookup] at row [at] finds entry [l] with
    relative row [r] exactly when [l] is an entry, [r] is one of its [count] rows and
    [start_at] places the entry at row [at - r]. *)
Theorem get_lookup_start_at (ext : HeaderExtension.t) at_ l r :
  Forall wf (HeaderExtension.app_lookup ext) ->
  NoDup ((fun l => lk_key l) <$> HeaderExtension.app_lookup ext) ->
  total (HeaderExtension.app_lookup ext) < 2 ^ 32 -> 0 <= at_ ->
  HeaderExtension.get_lookup ext at_ = Some (l, r) <->
  l ∈ HeaderExtension.app_lookup ext /\ 0 <= r < AppLookup.count l /\
  HeaderExtension.start_at ext (AppLookup.app_id l) (AppLookup.nonce l) = Some (at_ - r).
Proof. intros Hw Hnd Ht Hat. by apply get_lookup_go_spec. Qed.
End lookup.

Lemma get_lookup_start_at_witness :
  let ext := HeaderExtension.mk [] [AppLookup.mk 1 1 10; AppLookup.mk 2 1 20] in
  HeaderExtension.get_lookup ext 15 = Some (AppLookup.mk 2 1 20, 5) <->
  AppLookup.mk 2 1 20 ∈ HeaderExtension.app_lookup ext /\ 0 <= 5 < 20 /\
  HeaderExtension.start_at ext 2 1 = Some (15 - 5).
Proof.
  intros ext. apply (get_lookup_start_at ext 15 (AppLookup.mk 2 1 20) 5).
  - apply Forall_cons_2; [|apply Forall_cons_2; [|apply Forall_nil_2]];
      vm_compute; intuition congruence.
  - by_decision.
  - reflexivity.
  - lia.
Defined.

(** ** Commitments in the header *)
Section header_commitments.
Context `{KzgLib} `{!G1BytesLaws} {Number Hash Digest : Type}.

Lemma decode_g1_bytes (g : FsG1) : decode_all (A := FsG1) (g1_to_bytes g) = Some g.
Proof.
  unfold decode_all. simpl. unfold Crypto.g1_decode.
  pose proof (length_g1_to_bytes g) as Hl. rewrite Hl, Nat.ltb_irrefl.
  rewrite <- Hl, take_ge by done. by rewrite g1_from_to_bytes.
Qed.

Lemma set_extension_read (h : Header.t Number Hash Digest) cs ls :
  Z.of_nat (length cs) < 2 ^ 32 ->
  let h' := Header.set_extension (cs, ls) h in
  Header.commitments h' = Some cs /\ Header.col_num h' = Some (Z.of_nat (length cs)) /\
  HeaderExtension.app_lookup (Header.extension h') = ls /\
  Header.new_ext (Header.number h') (Header.extrinsics_root h') (Header.state_root h')
    (Header.parent_hash h') (Header.digest h') (Header.extension h) = h.
Proof.
  intros Hl h'.
  assert (Hf : Forall (fun c => length c = BYTES_PER_G1) (g1_to_bytes <$> cs)).
  { apply Forall_fmap, Forall_forall. intros g _. apply length_g1_to_bytes. }
  split_and!; [| |done|by destruct h].
  - unfold Header.commitments, Header.commitments_bytes. simpl.
    rewrite chunks_concat by (done || unfold BYTES_PER_G1; lia).
    apply mapM_Some_2, Forall2_fmap_l, Forall_Forall2_diag, Forall_forall.
    intros g _. apply decode_g1_bytes.
  - unfold Header.col_num.
    change (Header.commitments_bytes h') with (concat (g1_to_bytes <$> cs)).
    assert (length (concat (g1_to_bytes <$> cs)) = length cs * BYTES_PER_G1)%nat as ->.
    { rewrite <- (length_fmap g1_to_bytes). clear Hl h'.
      induction Hf as [|c l Hc _ IH]; cbn [concat]; [done|]. rewrite length_app, IH, Hc. simpl. lia. }
    rewrite Nat.div_mul by done. by rewrite (proj2 (Z.ltb_lt _ _)).
Qed.

(** The commitments written into a header are read back: after
    [set_extension (cs, ls)] the header's [commitments] are [cs], [col_num] is their
    number, the lookup table is [ls], and no other field changes. *)
Theorem set_extension_commitments (h : Header.t Number Hash Digest) cs ls :
  Z.of_nat (length cs) < 2 ^ 32 ->
  let h' := Header.set_extension (cs, ls) h in
  Header.commitments h' = Some cs /\ Header.col_num h' = Some (Z.of_nat (length cs)) /\
  HeaderExtension.app_lookup (Header.extension h') = ls /\
  Header.new_ext (Header.number h') (Header.extrinsics_root h') (Header.state_root h')
    (Header.parent_hash h') (Header.digest h') (Header.extension h) = h.
Proof. apply set_extension_read. Qed.
End header_commitments.

Section header_witness.
#[local] Existing Instances bytes_lib bytes_lib_g1.

Lemma set_extension_commitments_witness :
  Header.commitments (Header.set_extension ([g1_identity; g1_identity], [AppLookup.mk 1 0 2])
    (Header.new 7 tt tt tt tt)) = Some [g1_identity; g1_identity].
Proof.
  apply (set_extension_commitments (Header.new 7 tt tt tt tt) [g1_identity; g1_identity]
    [AppLookup.mk 1 0 2]). reflexivity.
Defined.
End header_witness.
