(* ===== verification/Reliability.v ===== *)
(** * Reliability records ([crates/core-primitives/src/reliability.rs])

    A reliability record lists the samples drawn for an application submission or for
    a block and says which of them succeeded.  The light client writes the records
    ([set_sample], [set_sample_success], [save]) and the runtime's off-chain worker
    reads them ([get_confidence], [is_availability]).  [Permill] arithmetic, the SCALE
    codec and the random number generator are interfaces; [thread_rng] is a source
    whose [i]-th draw below [b] is [rng_draw i b]. *)

From S2P Require Import Prelude Codec DasDb KzgLib KzgIndex KzgToy DasPrimitives CorePrimitives.

(** ** [sp_arithmetic::Permill] *)
Class PermillLib := {
  Permill : Type;
  permill_from_parts : Z -> Permill;
  permill_from_percent : Z -> Permill;
  permill_one : Permill;
  permill_mul_floor : Permill -> Z -> Z;
  permill_saturating_pow : Permill -> Z -> Permill;
  permill_saturating_sub : Permill -> Permill -> Permill;
  permill_deconstruct : Permill -> Z
}.

(** Parts per million, rounded down. *)
Class PermillLaws `{PermillLib} : Prop := {
  permill_mul_floor_parts : forall p n, 0 <= p <= 1000000 -> in_u 32 n ->
    permill_mul_floor (permill_from_parts p) n = n * p / 1000000;
  permill_from_percent_parts : forall p, 0 <= p <= 100 ->
    permill_from_percent p = permill_from_parts (p * 10000);
  permill_deconstruct_parts : forall p, 0 <= p <= 1000000 ->
    permill_deconstruct (permill_from_parts p) = p;
  permill_deconstruct_one : permill_deconstruct permill_one = 1000000;
  permill_deconstruct_sub : forall a b,
    permill_deconstruct (permill_saturating_sub a b)
    = Z.max 0 (permill_deconstruct a - permill_deconstruct b);
  permill_pow_antitone : forall a n m, 0 <= n <= m ->
    permill_deconstruct (permill_saturating_pow a m)
    <= permill_deconstruct (permill_saturating_pow a n)
}.

(** ** The random number generator *)
Class RngLib := rng_draw : nat -> Z -> Z.
Class RngLaws `{RngLib} : Prop :=
  rng_draw_range : forall i b, 0 < b -> 0 <= rng_draw i b < b.

(** The contents of the file embedded by [include_bytes!]. *)
Class EmbeddedSettings := EMBEDDED_KZG_SETTINGS_BYTES : bytes.

(** ** Keys *)
Section keys.
Context `{Codec Position}.

Definition sample_key (app_id nonce : Z) (position : Position) : bytes :=
  to_be_bytes 4 app_id ++ to_be_bytes 4 nonce ++ scale_encode position.

Definition sample_key_from_block (block_hash : bytes) (position : Position) : bytes :=
  block_hash ++ scale_encode position.
End keys.

Definition LATEST_PROCESSED_BLOCK_KEY : bytes :=
  (* b"latestprocessedblock" *)
  [108; 97; 116; 101; 115; 116; 112; 114; 111; 99; 101; 115; 115; 101; 100; 98; 108; 111; 99; 107].

(** [LastProcessedBlock<u32>]. *)
Record LastProcessedBlock := mkLast { block_num : Z; block_hash : bytes }.

(** ** Samples *)
Record Sample := mkSample { sample_id : bytes; position : Position; sample_available : bool }.

#[export] Instance Sample_eq_dec : EqDecision Sample.
Proof. solve_decision. Defined.

Definition sample_set_success (self : Sample) : Sample :=
  mkSample (sample_id self) (position self) true.

Definition sample_key_of `{Codec Position} (self : Sample) (app_id nonce : Z) : bytes :=
  sample_key app_id nonce (position self).

Inductive ReliabilityType := App | Block.
#[export] Instance ReliabilityType_eq_dec : EqDecision ReliabilityType.
Proof. solve_decision. Defined.

Section types.
Context `{PermillLib}.

Definition APP_AVAILABILITY_THRESHOLD_PERMILL : Permill := permill_from_parts 900000.
Definition APP_FAILURE_PROBABILITY : Permill := permill_from_parts 500000.
Definition BLOCK_FAILURE_PROBABILITY : Permill := permill_from_parts 250000.

Definition failure_probability (self : ReliabilityType) : Permill :=
  match self with
  | App => APP_FAILURE_PROBABILITY
  | Block => BLOCK_FAILURE_PROBABILITY
  end.

Definition type_is_availability (self : ReliabilityType) (total_count success_count : Z) : bool :=
  match self with
  | App => permill_mul_floor APP_AVAILABILITY_THRESHOLD_PERMILL total_count <? success_count
  | Block => BLOCK_AVAILABILITY_THRESHOLD <=? success_count
  end.

Definition calculate_confidence (samples : Z) (failure_probability : Permill) : Z :=
  let base_power_sample := permill_saturating_pow failure_probability samples in
  permill_deconstruct (permill_saturating_sub permill_one base_power_sample).
End types.

Module Reliability.
Section reliability.
Context `{KzgLib} `{PermillLib}.

Record t := mk {
  samples : list Sample;
  commitments : list KZGCommitment;
  confidence_type : ReliabilityType
}.

#[export] Instance t_eq_dec : EqDecision t.
Proof. solve_decision. Defined.
(** Positions are machine integers; everything else is unconstrained. *)
#[export] Instance t_wf : Wf t := fun r => Forall (fun s => wf (position s)) (samples r).

Definition new (confidence_type : ReliabilityType) (commitments : list KZGCommitment) : t :=
  mk [] commitments confidence_type.

(** The fold over (longest run, current run). *)
Definition success_step (acc : nat * nat) (sample : Sample) : nat * nat :=
  let '(max_count, curr_count) := acc in
  if sample_available sample
  then (max_count `max` S curr_count, S curr_count)%nat
  else (max_count, 0%nat).
Definition success_count (self : t) : nat :=
  (fold_left success_step (samples self) (0, 0)%nat).1.

Definition value (self : t) : option Z :=
  match confidence_type self with
  | App => None
  | Block =>
      match length (samples self) with
      | O => None
      | _ =>
          let failure_probability := failure_probability (confidence_type self) in
          let success_count :=
            length (filter (fun s => sample_available s = true) (samples self)) in
          Some (calculate_confidence (wrap 32 (Z.of_nat success_count)) failure_probability)
      end
  end.

Definition is_availability (self : t) : bool :=
  type_is_availability (confidence_type self) (wrap 32 (Z.of_nat (length (samples self))))
    (wrap 32 (Z.of_nat (success_count self))).

(** [iter_mut().find(..)]: the first sample with the position. *)
Fixpoint mark_first (position' : Position) (l : list Sample) : list Sample :=
  match l with
  | [] => []
  | s :: l =>
      if bool_decide (position s = position') then sample_set_success s :: l
      else s :: mark_first position' l
  end.
Definition set_sample_success (position : Position) (self : t) : t :=
  mk (mark_first position (samples self)) (commitments self) (confidence_type self).

Section db.
Context `{Codec t} {DB : Type} `{DasKv DB}.

Definition save (self : t) (id : bytes) (db : DB) : DB := kv_set id (scale_encode self) db.
Definition get (id : bytes) (db : DB) : option t :=
  kv_get id db ≫= fun encoded_data => decode_all encoded_data.
Definition remove (self : t) (id : bytes) (db : DB) : DB := kv_remove id db.
End db.

Definition verify_sample `{Platform} `{EmbeddedSettings} (self : t) (position : Position)
    (segment : Segment.t) : res string bool :=
  kzg ← Crypto.default_embedded EMBEDDED_KZG_SETTINGS_BYTES;
  if wrap 32 (Z.of_nat (length (commitments self))) <=? Crypto.y position then Ok false
  else
    commitment ← unwrap (commitments self !! Z.to_nat (Crypto.y position));
    checked ← Segment.checked segment;
    Segment.verify checked kzg commitment FIELD_ELEMENTS_PER_SEGMENT.

(** ** [ReliabilitySample] *)

(** [while positions.len() < n]: two draws per turn.  [None] is a loop that is still
    running when the fuel is used up. *)
Fixpoint draw_positions `{RngLib} (fuel : nat) (n : nat) (cs : list KZGCommitment)
    (i : nat) (positions : list Position) (acc : list KZGCommitment)
    : option (res string (list Position * list KZGCommitment)) :=
  if (length positions <? n)%nat then
    match fuel with
    | O => None
    | S fuel =>
        let x := wrap 32 (rng_draw i EXTENDED_SEGMENTS_PER_BLOB) in
        let y := rng_draw (S i) (wrap 32 (Z.of_nat (length cs))) in
        let pos := Crypto.mkPosition x y in
        if bool_decide (pos ∈ positions)
        then draw_positions fuel n cs (S (S i)) positions acc
        else match cs !! Z.to_nat y with
             | Some c => draw_positions fuel n cs (S (S i)) (positions ++ [pos]) (acc ++ [c])
             | None => Some Panic
             end
    end
  else Some (Ok (positions, acc)).

Definition block_sample `{Codec Position} (app_lookups : list AppLookup.t) (block_hash : bytes)
    (column_count : Z) (pos : Position) : res string Sample :=
  if Crypto.y pos <? column_count / 2 then
    '(lookup, relative_y) ← ok_or (AppLookup.get_lookup app_lookups (Crypto.y pos))
                              "AppLookup not found for position";
    let relative_pos := Crypto.mkPosition (Crypto.x pos) relative_y in
    let key := sample_key (AppLookup.app_id lookup) (AppLookup.nonce lookup) relative_pos in
    Ok (mkSample key pos false)
  else Ok (mkSample (sample_key_from_block block_hash pos) pos false).

Definition make_samples `{Codec Position} (ty : ReliabilityType) (app_lookups : list AppLookup.t)
    (block_hash : option bytes) (column_count : Z) (positions : list Position)
    : res string (list Sample) :=
  match ty with
  | App =>
      app_lookup ← ok_or (head app_lookups) "No app lookups available";
      mapM (fun pos => Ok (mkSample
              (sample_key (AppLookup.app_id app_lookup) (AppLookup.nonce app_lookup) pos) pos false))
           positions
  | Block =>
      block_hash ← ok_or block_hash "Block hash not provided";
      mapM (block_sample app_lookups block_hash column_count) positions
  end.

Definition set_sample `{Codec Position} `{RngLib} (fuel : nat) (n : nat)
    (app_lookups : list AppLookup.t) (block_hash : option bytes) (self : t)
    : option (res string (t * list KZGCommitment)) :=
  let column_count := wrap 32 (Z.of_nat (length (commitments self))) in
  if column_count =? 0 then Some (Ok (self, []))
  else
    out ← draw_positions fuel n (commitments self) 0 [] [];
    Some ('(positions, cs) ← out;
          samples ← make_samples (confidence_type self) app_lookups block_hash column_count
                      positions;
          Ok (mk samples (commitments self) (confidence_type self), cs)).
End reliability.
End Reliability.
Export (hints) Reliability.

(** ** [ReliabilityId], [ReliabilityManager] *)
Section ids.
Context `{KzgLib} `{Codec Reliability.t} `{Codec LastProcessedBlock} {DB : Type} `{DasKv DB}.

Definition block_confidence (block_hash : bytes) : bytes := block_hash.
Definition app_confidence (app_id nonce : Z) : bytes := to_be_bytes 4 app_id ++ to_be_bytes 4 nonce.

Definition get_confidence (self : bytes) (db : DB) : option Reliability.t := Reliability.get self db.

(** An undecodable record panics. *)
Definition get_last (db : DB) : res string (option LastProcessedBlock) :=
  match kv_get LATEST_PROCESSED_BLOCK_KEY db with
  | None => Ok None
  | Some data => b ← unwrap (decode_all data); Ok (Some b)
  end.

Definition set_last_processed_block (db : DB) (block_num : Z) (block_hash : bytes) : DB :=
  kv_set LATEST_PROCESSED_BLOCK_KEY (scale_encode (mkLast block_num block_hash)) db.

Definition get_last_processed_block (db : DB) : res string (option Z) :=
  match kv_get LATEST_PROCESSED_BLOCK_KEY db with
  | None => Ok None
  | Some data => b ← unwrap (decode_all data); Ok (Some (block_num b))
  end.
End ids.

(** ** The longest run of successes *)
Section success.
Context `{KzgLib}.

Abbreviation av s := (sample_available s = true).

Definition run_in (l run : list Sample) : Prop :=
  Forall (fun s => av s) run /\ exists pre post, l = pre ++ run ++ post.
Definition run_ends (l run : list Sample) : Prop :=
  Forall (fun s => av s) run /\ exists pre, l = pre ++ run.

Lemma run_ends_snoc l s run : run_ends (l ++ [s]) run ->
  run = [] \/ (av s /\ exists run', run = run' ++ [s] /\ run_ends l run').
Proof.
  intros [Ha [pre Hp]]. destruct run as [|x run _] using rev_ind; [by left|right].
  rewrite app_assoc in Hp. apply app_inj_tail in Hp as [-> ->].
  apply Forall_app in Ha as [Ha Hs]. split; [by inversion Hs|].
  exists run. split; [done|]. split; [done|]. by exists pre.
Qed.

Lemma run_in_snoc l s run : run_in (l ++ [s]) run -> run_in l run \/ run_ends (l ++ [s]) run.
Proof.
  intros [Ha (pre & post & Hp)]. destruct post as [|x post _] using rev_ind.
  - right. split; [done|]. exists pre. by rewrite Hp, app_nil_r.
  - left. split; [done|]. exists pre, post. rewrite !app_assoc in Hp.
    apply app_inj_tail in Hp as [-> _]. by rewrite app_assoc.
Qed.

(** The state of the fold: the longest run so far and the run that is still open. *)
Lemma success_fold l :
  let '(m, c) := fold_left Reliability.success_step l (0, 0)%nat in
  (forall run, run_in l run -> (length run <= m)%nat) /\
  (exists run, run_in l run /\ length run = m) /\
  (forall run, run_ends l run -> (length run <= c)%nat) /\
  (exists run, run_ends l run /\ length run = c).
Proof.
  induction l as [|s l IH] using rev_ind; simpl.
  - assert (Hnil : run_in [] [] /\ run_ends [] [])
      by (split; (split; [constructor|]); [exists [], []|exists []]; done).
    destruct Hnil as [Hi He]. split_and!; [|by exists []| |by exists []].
    + intros run [_ (pre & post & Hp)]. destruct pre; [|done]. by destruct run.
    + intros run [_ (pre & Hp)]. destruct pre; [|done]. by destruct run.
  - rewrite fold_left_app. destruct (fold_left _ l _) as [m c].
    destruct IH as (Hm & (rm & Hrm & Hlm) & Hc & (rc & Hrc & Hlc)). simpl.
    assert (Hext : run_in (l ++ [s]) rm).
    { destruct Hrm as [Ha (pre & post & ->)]. split; [done|]. exists pre, (post ++ [s]).
      by rewrite <- !app_assoc. }
    destruct (sample_available s) eqn:Hs.
    + assert (Hends : run_ends (l ++ [s]) (rc ++ [s])).
      { destruct Hrc as [Ha [pre ->]]. split; [apply Forall_app; auto|].
        exists pre. by rewrite app_assoc. }
      assert (Hcs : forall run, run_ends (l ++ [s]) run -> (length run <= S c)%nat).
      { intros run [-> | (_ & r' & -> & Hr')]%run_ends_snoc; [simpl; lia|].
        rewrite length_app. apply Hc in Hr'. simpl. lia. }
      split_and!; [| |done|exists (rc ++ [s]); split; [done|rewrite length_app; simpl; lia]].
      * intros run [Hr|Hr]%run_in_snoc; [apply Hm in Hr; lia|apply Hcs in Hr; lia].
      * destruct (Nat.max_spec m (S c)) as [[_ ->]|[_ ->]]; [|by exists rm].
        exists (rc ++ [s]). split; [|rewrite length_app; simpl; lia].
        destruct Hends as [Ha [pre Hp]]. split; [done|]. exists pre, []. by rewrite app_nil_r.
    + assert (Hno : forall run, run_ends (l ++ [s]) run -> run = []).
      { intros run [-> | [? _]]%run_ends_snoc; [done|congruence]. }
      split_and!; [|by exists rm|by intros run ->%Hno|exists []; split; [|done]].
      * intros run [Hr|Hr]%run_in_snoc; [by apply Hm|by rewrite (Hno _ Hr); simpl; lia].
      * split; [constructor|]. exists (l ++ [s]). by rewrite app_nil_r.
Qed.

(** C31: [success_count] is the length of the longest block of consecutive
    successful samples: every such block is at most that long, and one has exactly
    that length. *)
Theorem success_count_longest_run (r : Reliability.t) :
  (forall pre run post, Reliability.samples r = pre ++ run ++ post ->
     Forall (fun s => av s) run -> (length run <= Reliability.success_count r)%nat) /\
  exists pre run post, Reliability.samples r = pre ++ run ++ post /\
    Forall (fun s => av s) run /\ length run = Reliability.success_count r.
Proof.
  pose proof (success_fold (Reliability.samples r)) as Hf. unfold Reliability.success_count.
  destruct (fold_left _ _ _) as [m c]. destruct Hf as (Hm & (rm & [Ha (pre & post & Hp)] & Hl) & _).
  simpl. split.
  - intros pre' run post' Hp' Ha'. apply Hm. split; [done|]. by exists pre', post'.
  - exists pre, rm, post. done.
Qed.
End success.

(** ** Drawing samples *)
Section sampling.
Context `{KzgLib} `{RngLib} `{!RngLaws}.

(** The extended matrix a sample can fall in. *)
Definition in_matrix (cols : Z) (p : Position) : Prop :=
  0 <= Crypto.x p < EXTENDED_SEGMENTS_PER_BLOB /\ 0 <= Crypto.y p < cols.

Definition grid (w h : nat) : list Position :=
  x ← seq 0 w; y ← seq 0 h; [Crypto.mkPosition (Z.of_nat x) (Z.of_nat y)].

Lemma elem_of_grid w h p : p ∈ grid w h <->
  0 <= Crypto.x p < Z.of_nat w /\ 0 <= Crypto.y p < Z.of_nat h.
Proof.
  unfold grid. rewrite list_elem_of_bind. split.
  - intros (x & Hp & Hx%elem_of_seq). apply list_elem_of_bind in Hp as (y & Hp & Hy%elem_of_seq).
    apply list_elem_of_singleton in Hp as ->. simpl. lia.
  - destruct p as [x y]. simpl. intros [Hx Hy]. exists (Z.to_nat x). split; [|apply elem_of_seq; lia].
    apply list_elem_of_bind. exists (Z.to_nat y). split; [|apply elem_of_seq; lia].
    apply list_elem_of_singleton. by rewrite !Z2Nat.id by lia.
Qed.

Lemma length_bind_const {A B} (f : A -> list B) n l :
  (forall x, length (f x) = n) -> length (l ≫= f) = (length l * n)%nat.
Proof. intros Hf. induction l; simpl; [done|]. rewrite length_app, Hf. by f_equal. Qed.

Lemma length_grid w h : length (grid w h) = (w * h)%nat.
Proof.
  unfold grid. rewrite (length_bind_const _ h), length_seq; [done|].
  intros x. rewrite (length_bind_const _ 1), length_seq; [lia|done].
Qed.

Lemma NoDup_grid w h : NoDup (grid w h).
Proof.
  unfold grid. apply NoDup_bind; [| |apply NoDup_seq].
  - intros x1 x2 p _ _ (y1 & Hp1 & _)%list_elem_of_bind (y2 & Hp2 & _)%list_elem_of_bind.
    apply list_elem_of_singleton in Hp1, Hp2. simplify_eq. lia.
  - intros x _. apply NoDup_bind; [| |apply NoDup_seq].
    + intros y1 y2 p _ _ Hp1%list_elem_of_singleton Hp2%list_elem_of_singleton. simplify_eq. lia.
    + intros. apply NoDup_singleton.
Qed.

(** What one turn of the loop draws. *)
Definition drawn (cols : Z) (i : nat) : Position :=
  Crypto.mkPosition (wrap 32 (rng_draw i EXTENDED_SEGMENTS_PER_BLOB)) (rng_draw (S i) cols).

Lemma drawn_in_matrix cols i : 0 < cols -> in_matrix cols (drawn cols i).
Proof.
  intros Hc. unfold in_matrix, drawn. simpl.
  pose proof (rng_draw_range i EXTENDED_SEGMENTS_PER_BLOB eq_refl) as Hx.
  rewrite wrap_small by (unfold in_u; change EXTENDED_SEGMENTS_PER_BLOB with 256 in *; lia).
  split; [done|by apply rng_draw_range].
Qed.

Definition sampled (cs : list KZGCommitment) (positions : list Position)
    (acc : list KZGCommitment) : Prop :=
  NoDup positions /\ Forall (in_matrix (Z.of_nat (length cs))) positions /\
  Forall2 (fun p c => cs !! Z.to_nat (Crypto.y p) = Some c) positions acc.

Section loop.
Context (cs : list KZGCommitment) (n : nat).
Context (Hcs : 0 < Z.of_nat (length cs) < 2 ^ 32).
Let cols := Z.of_nat (length cs).

(** One turn: a position that was seen is skipped, a new one is recorded. *)
Lemma draw_step i positions acc : sampled cs positions acc -> (length positions < n)%nat ->
  exists positions' acc',
    (forall fuel, Reliability.draw_positions (S fuel) n cs i positions acc
      = Reliability.draw_positions fuel n cs (S (S i)) positions' acc') /\
    sampled cs positions' acc' /\
    (positions' = positions /\ acc' = acc /\ drawn cols i ∈ positions \/
     positions' = positions ++ [drawn cols i] /\ drawn cols i ∉ positions).
Proof.
  intros (Hnd & Hin & Hf) Hlt.
  pose proof (drawn_in_matrix cols i ltac:(lia)) as [Hx Hy].
  destruct (lookup_lt_is_Some_2 cs (Z.to_nat (rng_draw (S i) cols))) as [c Hc];
    [simpl in Hy; lia|].
  assert (Hstep : forall fuel, Reliability.draw_positions (S fuel) n cs i positions acc
      = if bool_decide (drawn cols i ∈ positions)
        then Reliability.draw_positions fuel n cs (S (S i)) positions acc
        else Reliability.draw_positions fuel n cs (S (S i)) (positions ++ [drawn cols i]) (acc ++ [c])).
  { intros fuel. simpl. rewrite (proj2 (Nat.ltb_lt _ _)) by done.
    rewrite (wrap_small 32 (Z.of_nat (length cs))) by (unfold in_u; lia). fold cols.
    fold (drawn cols i). by rewrite Hc. }
  case_bool_decide as Hseen.
  - exists positions, acc. split; [done|]. split; [done|]. by left.
  - exists (positions ++ [drawn cols i]), (acc ++ [c]). split; [done|].
    split; [|by right]. split_and!.
    + apply NoDup_app. split; [done|]. split; [|apply NoDup_singleton].
      by intros p Hp ->%list_elem_of_singleton.
    + apply Forall_app. split; [done|]. apply Forall_singleton. done.
    + apply Forall2_app; [done|]. by constructor.
Qed.

Lemma draw_positions_done fuel i positions acc :
  (n <= length positions)%nat ->
  Reliability.draw_positions fuel n cs i positions acc = Some (Ok (positions, acc)).
Proof. intros Hle. destruct fuel; simpl; by rewrite (proj2 (Nat.ltb_ge _ _)). Qed.

(** Whatever the loop returns has [n] distinct positions of the matrix. *)
Lemma draw_positions_sound fuel : forall i positions acc out,
  sampled cs positions acc -> (length positions <= n)%nat ->
  Reliability.draw_positions fuel n cs i positions acc = Some out ->
  exists positions' acc', out = Ok (positions', acc') /\ sampled cs positions' acc' /\
    length positions' = n.
Proof.
  induction fuel as [|fuel IH]; intros i positions acc out Hs Hle Hout;
    (destruct (decide (length positions < n)%nat) as [Hlt|Hge];
      [|rewrite draw_positions_done in Hout by lia; injection Hout as <-;
        exists positions, acc; split_and!; [done|done|lia]]).
  - simpl in Hout. by rewrite (proj2 (Nat.ltb_lt _ _)) in Hout.
  - destruct (draw_step i positions acc Hs Hlt) as (p' & a' & Heq & Hs' & Hcase).
    rewrite Heq in Hout. eapply IH; [exact Hs'| |exact Hout].
    destruct Hcase as [(-> & _ & _)|[-> _]]; [lia|]. rewrite length_app. simpl. lia.
Qed.

(** There is always a position left to draw. *)
Lemma fresh_position positions acc : sampled cs positions acc -> (length positions < n)%nat ->
  Z.of_nat n <= EXTENDED_SEGMENTS_PER_BLOB * cols ->
  exists p, in_matrix cols p /\ p ∉ positions.
Proof.
  intros (Hnd & Hin & _) Hlt Hn.
  set (g := grid (Z.to_nat EXTENDED_SEGMENTS_PER_BLOB) (length cs)).
  assert (Hg : forall p, p ∈ g <-> in_matrix cols p)
    by (intros p; unfold g, in_matrix; rewrite elem_of_grid; done).
  destruct (decide (Forall (fun p => p ∈ positions) g)) as [Ha|Ha].
  - exfalso. assert (length g <= length positions)%nat.
    { apply submseteq_length, NoDup_submseteq; [apply NoDup_grid|by apply Forall_forall]. }
    unfold g in *. rewrite length_grid in *. change EXTENDED_SEGMENTS_PER_BLOB with 256 in *. lia.
  - apply not_Forall_Exists in Ha; [|apply _].
    apply Exists_exists in Ha as (p & Hp & Hn'). exists p. by rewrite <- Hg.
Qed.

(** A source that keeps producing every position. *)
Definition fair : Prop := forall m p, in_matrix cols p -> exists k, drawn cols (2 * (m + k)) = p.

(** Each turn brings a fair source closer to an unseen position. *)
Lemma draw_positions_live : fair -> Z.of_nat n <= EXTENDED_SEGMENTS_PER_BLOB * cols ->
  forall r m positions acc, sampled cs positions acc -> (length positions <= n)%nat ->
  (n - length positions <= r)%nat ->
  exists fuel out, Reliability.draw_positions fuel n cs (2 * m) positions acc = Some out.
Proof.
  intros Hfair Hn. induction r as [|r IH]; intros m positions acc Hs Hle Hr.
  { exists 0%nat, (Ok (positions, acc)). apply draw_positions_done. lia. }
  destruct (decide (length positions < n)%nat) as [Hlt|Hge].
  2: { exists 0%nat, (Ok (positions, acc)). apply draw_positions_done. lia. }
  destruct (fresh_position positions acc Hs Hlt Hn) as (p & Hp & Hfresh).
  destruct (Hfair m p Hp) as [k Hk]. rewrite <- Hk in Hfresh. clear p Hp Hk.
  revert m Hfresh. induction k as [|k IHk]; intros m Hfresh;
    destruct (draw_step (2 * m) positions acc Hs Hlt) as (p' & a' & Heq & Hs' & Hc);
    replace (S (S (2 * m))) with (2 * (m + 1))%nat in Heq by lia.
  - rewrite Nat.add_0_r in Hfresh. destruct Hc as [(_ & _ & ?)|[-> _]]; [done|].
    destruct (IH (m + 1)%nat _ _ Hs') as (fuel & out & Hout);
      [rewrite length_app; simpl; lia..|]. exists (S fuel), out. by rewrite Heq.
  - destruct Hc as [(-> & -> & _)|[-> _]].
    + destruct (IHk (m + 1)%nat) as (fuel & out & Hout).
      { by replace (m + 1 + k)%nat with (m + S k)%nat by lia. }
      exists (S fuel), out. by rewrite Heq.
    + destruct (IH (m + 1)%nat _ _ Hs') as (fuel & out & Hout);
        [rewrite length_app; simpl; lia..|]. exists (S fuel), out. by rewrite Heq.
Qed.

(** More samples than positions: the loop never ends. *)
Lemma draw_positions_stuck fuel : EXTENDED_SEGMENTS_PER_BLOB * cols < Z.of_nat n ->
  forall i positions acc, sampled cs positions acc ->
  Reliability.draw_positions fuel n cs i positions acc = None.
Proof.
  intros Hn. induction fuel as [|fuel IH]; intros i positions acc Hs.
  all: assert (Hlt : (length positions < n)%nat).
  1, 3: destruct Hs as (Hnd & Hin & _);
    assert (length positions <= length (grid (Z.to_nat EXTENDED_SEGMENTS_PER_BLOB) (length cs)))%nat as Hl
    by (apply submseteq_length, NoDup_submseteq; [done|]; intros p Hp; apply elem_of_grid;
        rewrite Forall_forall in Hin; apply (Hin p Hp));
    rewrite length_grid in Hl; change EXTENDED_SEGMENTS_PER_BLOB with 256 in *; lia.
  - simpl. by rewrite (proj2 (Nat.ltb_lt _ _)).
  - destruct (draw_step i positions acc Hs Hlt) as (p' & a' & -> & Hs' & _). by apply IH.
Qed.
End loop.

Section set_sample.
Context `{Codec Position}.

(** The key a sample is requested under. *)
Definition sample_id_spec (ty : ReliabilityType) (app_lookups : list AppLookup.t)
    (block_hash : option bytes) (cols : Z) (s : Sample) : Prop :=
  match ty with
  | App => exists l, head app_lookups = Some l /\
      sample_id s = sample_key (AppLookup.app_id l) (AppLookup.nonce l) (position s)
  | Block => exists h, block_hash = Some h /\
      if Crypto.y (position s) <? cols / 2
      then exists l ry, AppLookup.get_lookup app_lookups (Crypto.y (position s)) = Some (l, ry) /\
        sample_id s = sample_key (AppLookup.app_id l) (AppLookup.nonce l)
                        (Crypto.mkPosition (Crypto.x (position s)) ry)
      else sample_id s = sample_key_from_block h (position s)
  end.

Lemma make_samples_spec ty app_lookups block_hash cols positions samples :
  Reliability.make_samples ty app_lookups block_hash cols positions = Ok samples ->
  position <$> samples = positions /\
  Forall (fun s => sample_available s = false /\
    sample_id_spec ty app_lookups block_hash cols s) samples.
Proof.
  intros Hm. destruct ty; simpl in Hm; apply res_bind_Ok in Hm as (v & Hv%ok_or_Ok & Hm%mapM_res_Ok).
  all: assert (Hp : Forall2 (fun p s => position s = p) positions samples)
    by (eapply Forall2_impl; [exact Hm|]; unfold Reliability.block_sample;
        intros p s Hs; simpl in Hs; repeat case_match; res_inv; repeat case_match; res_inv; done).
  all: split; [by apply Forall2_fmap_inv|].
  all: apply Forall_forall; intros s [i Hi]%list_elem_of_lookup.
  all: eapply Forall2_lookup_r in Hm as (p & _ & Hs); [|exact Hi].
  - res_inv. split; [done|]. by exists v.
  - unfold Reliability.block_sample in Hs.
    destruct (Crypto.y p <? cols / 2) eqn:Hlt; [|res_inv; split; [done|]; exists v; split; [done|];
      simpl; by rewrite Hlt].
    apply res_bind_Ok in Hs as ([l ry] & Hl%ok_or_Ok & [= <-]). split; [done|].
    exists v. split; [done|]. simpl. rewrite Hlt. by exists l, ry.
Qed.

Lemma mapM_no_panic {E A B} (f : A -> res E B) l :
  (forall x, f x <> Panic) -> mapM (M := res E) f l <> Panic.
Proof.
  intros Hf. induction l as [|x l IH]; [done|]. simpl. specialize (Hf x).
  destruct (f x); [|done|done]. simpl. by destruct (mapM f l).
Qed.

Lemma make_samples_no_panic ty app_lookups block_hash cols positions
    (k : list Sample -> res string (Reliability.t * list KZGCommitment)) :
  (forall s, k s <> Panic) ->
  Reliability.make_samples ty app_lookups block_hash cols positions ≫= k <> Panic.
Proof.
  intros Hk. unfold Reliability.make_samples.
  destruct ty; [destruct (head app_lookups)|destruct block_hash as [h|]]; simpl; try done.
  - pose proof (mapM_no_panic (E := string) (fun pos => Ok (mkSample (sample_key (AppLookup.app_id t)
      (AppLookup.nonce t) pos) pos false)) positions ltac:(done)) as Hm.
    destruct (mapM _ _); [apply Hk|done|done].
  - pose proof (mapM_no_panic (E := string) (Reliability.block_sample app_lookups h cols) positions) as Hm.
    destruct (mapM _ _); [apply Hk|done|]. intros _. apply Hm; [|done]. intros x.
    unfold Reliability.block_sample. destruct (_ <? _); [|done].
    destruct (AppLookup.get_lookup _ _) as [[? ?]|]; done.
Qed.

(** What [set_sample] returns, for any outcome of the drawing loop. *)
Lemma set_sample_spec fuel n app_lookups block_hash (r r' : Reliability.t) cs :
  0 < Z.of_nat (length (Reliability.commitments r)) < 2 ^ 32 ->
  Reliability.set_sample fuel n app_lookups block_hash r = Some (Ok (r', cs)) ->
  let cols := Z.of_nat (length (Reliability.commitments r)) in
  length (Reliability.samples r') = n /\
  NoDup (position <$> Reliability.samples r') /\
  Forall (fun s => in_matrix cols (position s) /\ sample_available s = false /\
    sample_id_spec (Reliability.confidence_type r) app_lookups block_hash cols s)
    (Reliability.samples r') /\
  Forall2 (fun s c => Reliability.commitments r !! Z.to_nat (Crypto.y (position s)) = Some c)
    (Reliability.samples r') cs /\
  Reliability.commitments r' = Reliability.commitments r /\
  Reliability.confidence_type r' = Reliability.confidence_type r.
Proof.
  intros Hcs Hset cols. unfold Reliability.set_sample in Hset.
  rewrite wrap_small in Hset by (unfold in_u; lia). rewrite (proj2 (Z.eqb_neq _ _)) in Hset by lia.
  apply bind_Some in Hset as (out & Hdraw & [= Hset]).
  apply draw_positions_sound in Hdraw as (ps & acc & -> & (Hnd & Hin & Hf) & Hn);
    [|done|by split_and!; [apply NoDup_nil_2|apply Forall_nil_2|constructor]|simpl; lia].
  bind_simpl. simpl in Hset. apply res_bind_Ok in Hset as (samples & Hm & [= <- <-]).
  apply make_samples_spec in Hm as [Hps Hall]. subst ps. simpl.
  split_and!; [by rewrite <- Hn, length_fmap|done| | |done|done].
  - rewrite Forall_fmap in Hin. apply Forall_and. by split.
  - by rewrite Forall2_fmap_l in Hf.
Qed.

(** Sampling draws what it should: if [set_sample] returns, it recorded exactly
    [n] pairwise different positions of the extended matrix, all marked as not yet
    available and requested under the key of their application row or of the block,
    and it returned the row commitments of those positions in the same order. *)
Theorem set_sample_sound fuel n app_lookups block_hash (r r' : Reliability.t) cs :
  0 < Z.of_nat (length (Reliability.commitments r)) < 2 ^ 32 ->
  Reliability.set_sample fuel n app_lookups block_hash r = Some (Ok (r', cs)) ->
  let cols := Z.of_nat (length (Reliability.commitments r)) in
  length (Reliability.samples r') = n /\
  NoDup (position <$> Reliability.samples r') /\
  Forall (fun s => in_matrix cols (position s) /\ sample_available s = false /\
    sample_id_spec (Reliability.confidence_type r) app_lookups block_hash cols s)
    (Reliability.samples r') /\
  Forall2 (fun s c => Reliability.commitments r !! Z.to_nat (Crypto.y (position s)) = Some c)
    (Reliability.samples r') cs /\
  Reliability.commitments r' = Reliability.commitments r /\
  Reliability.confidence_type r' = Reliability.confidence_type r.
Proof. apply set_sample_spec. Qed.

(** A fair source lets the loop end when there are enough positions. *)
Lemma set_sample_live n app_lookups block_hash (r : Reliability.t) :
  0 < Z.of_nat (length (Reliability.commitments r)) < 2 ^ 32 ->
  fair (Reliability.commitments r) ->
  Z.of_nat n <= EXTENDED_SEGMENTS_PER_BLOB * Z.of_nat (length (Reliability.commitments r)) ->
  exists fuel out, Reliability.set_sample fuel n app_lookups block_hash r = Some out /\ out <> Panic.
Proof.
  intros Hcs Hfair Hn. unfold Reliability.set_sample.
  rewrite wrap_small by (unfold in_u; lia). rewrite (proj2 (Z.eqb_neq _ _)) by lia.
  assert (Hnil : sampled (Reliability.commitments r) [] [])
    by (split_and!; [apply NoDup_nil_2|apply Forall_nil_2|constructor]).
  destruct (draw_positions_live _ n Hcs Hfair Hn n 0 [] []) as (fuel & out & Hd);
    [done|simpl; lia..|]. change (2 * 0)%nat with 0%nat in Hd. exists fuel. rewrite Hd.
  destruct (draw_positions_sound _ n Hcs _ _ _ _ _ Hnil ltac:(simpl; lia) Hd) as (ps & acc & -> & _).
  eexists. split; [done|]. simpl. by apply make_samples_no_panic.
Qed.

(** C29: Sampling ends exactly when it can: for at least one commitment and with a source
    that keeps producing every position, asking for at most as many samples as the extended matrix has positions
    terminates with a value or an error, never a panic; asking for more loops
    forever. *)
Theorem set_sample_terminates n app_lookups block_hash (r : Reliability.t) :
  0 < Z.of_nat (length (Reliability.commitments r)) < 2 ^ 32 ->
  let cols := Z.of_nat (length (Reliability.commitments r)) in
  (fair (Reliability.commitments r) -> Z.of_nat n <= EXTENDED_SEGMENTS_PER_BLOB * cols ->
     exists fuel out, Reliability.set_sample fuel n app_lookups block_hash r = Some out /\
       out <> Panic) /\
  (EXTENDED_SEGMENTS_PER_BLOB * cols < Z.of_nat n -> forall fuel,
     Reliability.set_sample fuel n app_lookups block_hash r = None).
Proof.
  intros Hcs cols. split; [intros; by apply set_sample_live|].
  intros Hn fuel. unfold Reliability.set_sample.
  rewrite wrap_small by (unfold in_u; lia). rewrite (proj2 (Z.eqb_neq _ _)) by lia.
  rewrite (draw_positions_stuck _ n Hcs); [done|done|].
  split_and!; [apply NoDup_nil_2|apply Forall_nil_2|constructor].
Qed.
End set_sample.
End sampling.

(** ** A concrete source and concrete [Permill] arithmetic *)

(** Row by row through the matrix. *)
Definition ref_rng : RngLib := fun i b =>
  if Nat.even i then Z.of_nat (i / 2) mod b
  else Z.of_nat (i / 2) / EXTENDED_SEGMENTS_PER_BLOB mod b.
Lemma ref_rng_laws : @RngLaws ref_rng.
Proof.
  intros i b Hb. unfold rng_draw, ref_rng. destruct (Nat.even i); by apply Z.mod_pos_bound.
Qed.

(** Every position comes up again after any turn. *)
Lemma ref_rng_is_fair `{KzgLib} (cs : list KZGCommitment) : (0 < length cs)%nat ->
  @fair _ ref_rng cs.
Proof.
  intros Hcs m [x y] [Hx Hy]. simpl in Hx, Hy. change EXTENDED_SEGMENTS_PER_BLOB with 256 in Hx.
  set (cols := Z.of_nat (length cs)) in *.
  set (j := Z.to_nat ((cols * Z.of_nat m + y) * 256 + x)).
  assert (Hj : Z.of_nat j = (cols * Z.of_nat m + y) * 256 + x) by (unfold j; nia).
  exists (j - m)%nat. replace (m + (j - m))%nat with j by nia.
  assert (He : Nat.even (2 * j) = true) by (apply Nat.even_spec; by exists j).
  assert (Ho : Nat.even (S (2 * j)) = false) by (rewrite Nat.even_succ, <- Nat.negb_even, He; done).
  assert (Hd : (2 * j / 2 = j)%nat) by (rewrite Nat.mul_comm, Nat.div_mul; lia).
  assert (Hd' : (S (2 * j) / 2 = j)%nat).
  { replace (S (2 * j)) with (1 + j * 2)%nat by lia. rewrite Nat.div_add by lia. done. }
  unfold drawn, rng_draw, ref_rng. rewrite He, Ho, Hd, Hd'.
  change EXTENDED_SEGMENTS_PER_BLOB with 256. rewrite Hj. f_equal.
  - rewrite Z.add_comm, Z.mod_add, Z.mod_small by lia. apply wrap_small. unfold in_u. lia.
  - rewrite Z.div_add_l, (Z.div_small x) by lia.
    rewrite Z.add_0_r, Z.add_comm, Z.mul_comm, Z.mod_add, Z.mod_small by lia. done.
Qed.

Definition permill_clamp (a : Z) : Z := Z.max 0 (Z.min a 1000000).
Definition permill_pow_ref (a : Z) (n : nat) : Z :=
  Nat.iter n (fun acc => acc * permill_clamp a / 1000000) 1000000.
Definition ref_permill : PermillLib := {|
  Permill := Z;
  permill_from_parts p := p;
  permill_from_percent p := p * 10000;
  permill_one := 1000000;
  permill_mul_floor p n := n * p / 1000000;
  permill_saturating_pow a n := permill_pow_ref a (Z.to_nat n);
  permill_saturating_sub a b := Z.max 0 (a - b);
  permill_deconstruct a := a
|}.
Lemma permill_pow_ref_step a n : 0 <= permill_pow_ref a (S n) <= permill_pow_ref a n.
Proof.
  assert (Hp : 0 <= permill_pow_ref a n).
  { induction n as [|n IH]; simpl; [lia|]. apply Z.div_pos; [|lia].
    apply Z.mul_nonneg_nonneg; [done|]. unfold permill_clamp. lia. }
  simpl. change (Nat.iter n _ _) with (permill_pow_ref a n).
  assert (0 <= permill_clamp a <= 1000000) by (unfold permill_clamp; lia). split.
  - apply Z.div_pos; nia.
  - apply Z.div_le_upper_bound; nia.
Qed.
Lemma ref_permill_laws : @PermillLaws ref_permill.
Proof.
  split; simpl; [done..|]. intros a n m Hnm.
  replace (Z.to_nat m) with (Z.to_nat n + Z.to_nat (m - n))%nat by lia.
  induction (Z.to_nat (m - n)) as [|k IH]; [by rewrite Nat.add_0_r|].
  rewrite Nat.add_succ_r. etransitivity; [apply permill_pow_ref_step|done].
Qed.

(** ** Recording a success *)
Section success_monotone.
Context `{KzgLib} `{PermillLib} `{!PermillLaws}.
Implicit Types r : Reliability.t.

(** Pointwise: nothing changes but availability, and that only upwards. *)
Definition better (s s' : Sample) : Prop :=
  sample_id s' = sample_id s /\ position s' = position s /\
  (sample_available s = true -> sample_available s' = true).

Lemma mark_first_better p l : Forall2 better l (Reliability.mark_first p l).
Proof.
  assert (Hrefl : forall l, Forall2 better l l)
    by (intros k; apply Forall_Forall2_diag, Forall_forall; done).
  induction l as [|s l IH]; simpl; [constructor|].
  case_bool_decide; constructor; [done|apply Hrefl|done|apply IH].
Qed.

Lemma success_count_mono r r' :
  Forall2 better (Reliability.samples r) (Reliability.samples r') ->
  (Reliability.success_count r <= Reliability.success_count r')%nat.
Proof.
  intros Hb. pose proof (success_fold (Reliability.samples r)) as Hf.
  pose proof (success_fold (Reliability.samples r')) as Hf'. unfold Reliability.success_count.
  destruct (fold_left _ (Reliability.samples r) _) as [m c].
  destruct (fold_left _ (Reliability.samples r') _) as [m' c']. simpl.
  destruct Hf as (_ & (run & [Ha (pre & post & Hp)] & <-) & _). destruct Hf' as (Hm & _).
  rewrite Hp in Hb. apply Forall2_app_inv_l in Hb as (pre' & rest & _ & Hb & Hr').
  apply Forall2_app_inv_l in Hb as (run' & post' & Hb & _ & ->).
  rewrite (Forall2_length _ _ _ Hb). apply Hm. split; [|by exists pre', post'].
  clear -Hb Ha. induction Hb as [|s s' l l' Hs _ IH]; constructor; inversion Ha; subst; [|auto].
  by apply Hs.
Qed.

Lemma count_available_mono l l' : Forall2 better l l' ->
  (length (filter (fun s => sample_available s = true) l)
   <= length (filter (fun s => sample_available s = true) l'))%nat.
Proof.
  induction 1 as [|s s' l l' (_ & _ & Hs) _ IH]; [done|]. rewrite !filter_cons.
  repeat case_decide; simpl; try lia. naive_solver.
Qed.

Lemma success_count_le r : (Reliability.success_count r <= length (Reliability.samples r))%nat.
Proof.
  pose proof (success_fold (Reliability.samples r)) as Hf. unfold Reliability.success_count.
  destruct (fold_left _ _ _) as [m c]. destruct Hf as (_ & (run & [_ (pre & post & ->)] & <-) & _).
  simpl. rewrite !length_app. lia.
Qed.

(** Recording a successful sample never lowers the assessment: an available
    record stays available and the confidence value of a block does not decrease.
    The number of samples, their keys and positions stay the same. *)
Theorem set_sample_success_monotone p r :
  Z.of_nat (length (Reliability.samples r)) < 2 ^ 32 ->
  let r' := Reliability.set_sample_success p r in
  (Reliability.is_availability r = true -> Reliability.is_availability r' = true) /\
  (forall v, Reliability.value r = Some v ->
     exists v', Reliability.value r' = Some v' /\ v <= v') /\
  (fun s => (sample_id s, position s)) <$> Reliability.samples r'
  = (fun s => (sample_id s, position s)) <$> Reliability.samples r.
Proof.
  intros Hlen r'. pose proof (mark_first_better p (Reliability.samples r)) as Hb.
  change (Reliability.mark_first p _) with (Reliability.samples r') in Hb.
  apply Forall2_length in Hb as Hl.
  pose proof (success_count_mono r r' Hb) as Hsc. pose proof (count_available_mono _ _ Hb) as Hca.
  pose proof (success_count_le r). pose proof (success_count_le r').
  pose proof (length_filter (fun s => sample_available s = true) (Reliability.samples r')).
  split_and!.
  - unfold Reliability.is_availability. change (Reliability.confidence_type r')
      with (Reliability.confidence_type r). rewrite <- Hl.
    rewrite !(wrap_small 32) by (unfold in_u; lia).
    destruct (Reliability.confidence_type r); simpl; rewrite ?Z.ltb_lt, ?Z.leb_le; lia.
  - unfold Reliability.value. change (Reliability.confidence_type r')
      with (Reliability.confidence_type r). rewrite <- Hl.
    destruct (Reliability.confidence_type r); [done|].
    destruct (length (Reliability.samples r)) eqn:Hn; [done|]. intros v [= <-].
    eexists. split; [done|]. unfold calculate_confidence. rewrite !permill_deconstruct_sub.
    rewrite !(wrap_small 32) by (unfold in_u; lia).
    pose proof (permill_pow_antitone BLOCK_FAILURE_PROBABILITY _ _
      (conj (Nat2Z.is_nonneg _) (inj_le _ _ Hca))) as Hpow.
    apply Z.max_le_compat_l, Z.sub_le_mono_l. exact Hpow.
  - clear -Hb. induction Hb as [|s s' l l' (Hi & Hp & _) _ IH]; [done|].
    rewrite !fmap_cons, IH, Hi, Hp. done.
Qed.
End success_monotone.

(** ** Storing records *)
Section store.
Context `{KzgLib} `{Codec Reliability.t} `{!CodecLaws Reliability.t} {DB : Type} `{DasKvLaws DB}.

Lemma app_confidence_inj a n a' n' : in_u 32 a -> in_u 32 n -> in_u 32 a' -> in_u 32 n' ->
  app_confidence a n = app_confidence a' n' -> a = a' /\ n = n'.
Proof.
  intros Ha Hn Ha' Hn' Heq. apply app_inj_1 in Heq as [Hq1 Hq2]; [|by rewrite !length_to_be_bytes].
  split; by eapply (to_be_bytes_inj 4).
Qed.

(** A saved record is read back, and only under its own key: saving the record
    of one submission leaves the records of every other (application, nonce) pair and
    of every block (32-byte hash) as they were. *)
Theorem save_get_confidence (r : Reliability.t) a n (db : DB) :
  wf r -> in_u 32 a -> in_u 32 n ->
  let db' := Reliability.save r (app_confidence a n) db in
  get_confidence (app_confidence a n) db' = Some r /\
  (forall a' n', in_u 32 a' -> in_u 32 n' -> (a', n') <> (a, n) ->
     get_confidence (app_confidence a' n') db' = get_confidence (app_confidence a' n') db) /\
  (forall h : bytes, length h = 32%nat ->
     get_confidence (block_confidence h) db' = get_confidence (block_confidence h) db).
Proof.
  intros Hr Ha Hn db'. unfold get_confidence, Reliability.get, db', Reliability.save. split_and!.
  - rewrite kv_get_set_eq. by apply decode_all_encode.
  - intros a' n' Ha' Hn' Hne. rewrite kv_get_set_ne; [done|]. intros Heq. apply Hne.
    by destruct (app_confidence_inj a n a' n') as [-> ->].
  - intros h Hh. rewrite kv_get_set_ne; [done|]. intros Heq. apply (f_equal length) in Heq.
    unfold app_confidence, block_confidence in Heq.
    rewrite length_app, !length_to_be_bytes, Hh in Heq. done.
Qed.
End store.

(** ** Concrete records *)
Section reliability_witness.
#[local] Existing Instances poly_lib ref_rng ref_rng_laws ref_permill ref_permill_laws.
#[local] Instance toy_position_codec : Codec Position := {|
  scale_encode p := to_be_bytes 4 (Crypto.x p) ++ to_be_bytes 4 (Crypto.y p);
  scale_decode _ := None
|}.
#[local] Definition toy_record : Reliability.t := Reliability.new Block [[e1]; [e2]].
#[local] Definition toy_lookups : list AppLookup.t := [AppLookup.mk 1 0 1].
#[local] Definition toy_result : Reliability.t * list KZGCommitment :=
  match Reliability.set_sample 3 2 toy_lookups (Some [9]) toy_record with
  | Some (Ok r) => r
  | _ => (toy_record, [])
  end.

Lemma set_sample_sound_witness :
  length (Reliability.samples toy_result.1) = 2%nat /\
  NoDup (position <$> Reliability.samples toy_result.1).
Proof.
  destruct (set_sample_sound 3 2 toy_lookups (Some [9]) toy_record toy_result.1 toy_result.2)
    as (Hn & Hd & _); [split; reflexivity | reflexivity |]. by split.
Defined.

Lemma ref_rng_fair : fair (Reliability.commitments toy_record).
Proof. apply ref_rng_is_fair. simpl. lia. Qed.

Lemma set_sample_terminates_witness :
  (exists fuel out, Reliability.set_sample fuel 8 toy_lookups (Some [9]) toy_record = Some out /\
     out <> Panic) /\
  (forall fuel, Reliability.set_sample fuel 513 toy_lookups (Some [9]) toy_record = None).
Proof.
  split.
  - apply (set_sample_terminates 8 toy_lookups (Some [9]) toy_record);
      [split; reflexivity | exact ref_rng_fair | vm_compute; congruence].
  - apply (set_sample_terminates 513 toy_lookups (Some [9]) toy_record);
      [split; reflexivity | vm_compute; congruence].
Defined.

Lemma set_sample_success_monotone_witness :
  let r := toy_result.1 in
  let r' := Reliability.set_sample_success (Crypto.mkPosition 0 0) r in
  (Reliability.is_availability r = true -> Reliability.is_availability r' = true) /\
  (forall v, Reliability.value r = Some v -> exists v', Reliability.value r' = Some v' /\ v <= v').
Proof.
  intros r r'. destruct (set_sample_success_monotone (Crypto.mkPosition 0 0) r) as (Ha & Hv & _);
    [reflexivity|]. by split.
Defined.

End reliability_witness.

(** A reference codec for records over the small field. *)
Section store_witness.
#[local] Existing Instances poly_lib.
#[local] Instance F5_countable : Countable F5.
Proof.
  apply (inj_countable' F5_Z Z_F5). by intros [].
Defined.
#[local] Instance Position_countable : Countable Position.
Proof.
  apply (inj_countable' (fun p => (Crypto.x p, Crypto.y p)) (fun '(x, y) => Crypto.mkPosition x y)).
  by intros [].
Defined.
#[local] Instance Sample_countable : Countable Sample.
Proof.
  apply (inj_countable' (fun s => (sample_id s, position s, sample_available s))
    (fun '(i, p, a) => mkSample i p a)). by intros [].
Defined.
#[local] Instance Record_countable : Countable Reliability.t.
Proof.
  apply (inj_countable' (A := list Sample * list (list F5) * bool)
    (fun r : @Reliability.t poly_lib => (Reliability.samples r, Reliability.commitments r,
       bool_decide (Reliability.confidence_type r = App)))
    (fun '(s, c, b) => @Reliability.mk poly_lib s c (if b : bool then App else Block))).
  by intros [? ? []].
Defined.
#[local] Instance Record_codec : Codec Reliability.t := RefCodec.ref_codec Reliability.t.
#[local] Instance Record_codec_laws : CodecLaws Reliability.t :=
  RefCodec.ref_codec_laws Reliability.t Reliability.t_wf.

#[local] Definition toy_app_record : Reliability.t := Reliability.new App [[e1]].

Lemma save_get_confidence_witness :
  get_confidence (app_confidence 1 2)
    (Reliability.save toy_app_record (app_confidence 1 2) MockDb.new)
  = Some toy_app_record.
Proof.
  apply (save_get_confidence toy_app_record 1 2 MockDb.new);
    [apply Forall_nil_2 | split; [discriminate | reflexivity]..].
Defined.
End store_witness.
