(* ===== verification/Sidecar.v ===== *)
(** * Sidecars ([crates/core-primitives/src/sidecar.rs])

    The metadata a client attaches to a submission, how it is computed from the
    application data and how data is checked against it. *)

From S2P Require Import Prelude Codec KzgLib KzgIndex KzgToy DasPrimitives Blob ErasureCoding.
From S2P Require Import CorePrimitives Reliability.

Inductive SidecarStatus := NotFound | ProofError | Success.
#[export] Instance SidecarStatus_eq_dec : EqDecision SidecarStatus.
Proof. solve_decision. Defined.

Module SidecarMetadata.
Section metadata.
Context `{Platform} `{KzgLib} `{EmbeddedSettings}.

Record t := mk {
  app_id : Z;
  bytes_len : Z;
  nonce : Z;
  commitments : list KZGCommitment;
  proofs : list KZGProof
}.

#[export] Instance t_eq_dec : EqDecision t.
Proof. solve_decision. Defined.
#[export] Instance t_wf : Wf t :=
  fun m => in_u 32 (app_id m) /\ in_u 32 (bytes_len m) /\ in_u 32 (nonce m).

Definition new := mk.

Definition check (self : t) : bool :=
  bool_decide (length (commitments self) = length (proofs self))
  && negb (bool_decide (commitments self = []))
  && (0 <? bytes_len self).

Definition confidence_id (self : t) : bytes := app_confidence (app_id self) (nonce self).

Definition id `{HashLib} `{Codec t} (self : t) : bytes := blake2_256 (scale_encode self).

Definition verify_bytes (self : t) (bs : bytes) : res string bool :=
  kzg ← Crypto.default_embedded EMBEDDED_KZG_SETTINGS_BYTES;
  blobs ← bytes_to_blobs bs FIELD_ELEMENTS_PER_BLOB;
  Blob.verify_batch blobs (commitments self) (proofs self) kzg FIELD_ELEMENTS_PER_BLOB.

(** The parallel and the sequential version collect the same results. *)
Definition try_from_app_data (bs : bytes) (app_id nonce : Z) : res string t :=
  kzg ← Crypto.default_embedded EMBEDDED_KZG_SETTINGS_BYTES;
  let data_len := wrap 32 (Z.of_nat (length bs)) in
  blobs ← bytes_to_blobs bs FIELD_ELEMENTS_PER_BLOB;
  results ← res_map_err (fun e => "Failed to commit and proof: " +:+ e)
              (mapM (fun blob => Blob.commit_and_proof blob kzg FIELD_ELEMENTS_PER_BLOB) blobs);
  Ok (mk app_id data_len nonce (results.*1) (results.*2)).
End metadata.
End SidecarMetadata.
Export (hints) SidecarMetadata.

Module Sidecar.
Section sidecar.
Context `{KzgLib}.

Record t := mk { metadata : SidecarMetadata.t; status : option SidecarStatus }.

Definition new (metadata : SidecarMetadata.t) : t := mk metadata None.

Definition id `{HashLib} `{Codec SidecarMetadata.t} (self : t) : bytes :=
  SidecarMetadata.id (metadata self).

Definition calculate_id `{HashLib} (blob : bytes) : bytes := blake2_256 blob.

Definition is_unavailability (self : t) : bool :=
  negb (bool_decide (status self = Some Success)) && bool_decide (is_Some (status self)).

Definition set_not_found (self : t) : t := mk (metadata self) (Some NotFound).
End sidecar.
End Sidecar.

Section sidecar_props.
Context `{Platform} `{KzgLib} `{EmbeddedSettings} `{!KzgSingleLaws} `{!KzgBatchLaws}.

(** What [try_from_app_data] computes verifies. *)
Lemma app_data_metadata bs app_id nonce m :
  Z.of_nat (length bs) < 2 ^ 32 ->
  SidecarMetadata.try_from_app_data bs app_id nonce = Ok m ->
  SidecarMetadata.verify_bytes m bs = Ok true /\ SidecarMetadata.check m = true /\
  SidecarMetadata.bytes_len m = Z.of_nat (length bs).
Proof.
  intros Hlen Hm. unfold SidecarMetadata.try_from_app_data in Hm.
  apply res_bind_Ok in Hm as (kzg & Hkzg & Hm). apply res_bind_Ok in Hm as (blobs & Hb & Hm).
  apply res_bind_Ok in Hm as (results & Hr & [= <-]).
  assert (Hr' : mapM (fun blob => Blob.commit_and_proof blob kzg FIELD_ELEMENTS_PER_BLOB) blobs
      = Ok results) by (destruct (mapM _ _); simpl in Hr; congruence).
  apply mapM_res_Ok in Hr'. apply Forall2_length in Hr' as Hl.
  rewrite wrap_small by (unfold in_u; lia). split_and!.
  - unfold SidecarMetadata.verify_bytes. rewrite Hkzg. bind_simpl. rewrite Hb. bind_simpl. simpl.
    assert (Hos : exists os, (fun '(b, _, _) => b) <$> os = blobs /\
        (fun '(_, c, _) => c) <$> os = results.*1 /\ (fun '(_, _, p) => p) <$> os = results.*2 /\
        Forall (fun '(b, c, p) => Blob.commit_and_proof b kzg FIELD_ELEMENTS_PER_BLOB = Ok (c, p)) os).
    { clear -Hr'. induction Hr' as [|b [c p] bl rs Hbc _ (os & <- & Hc & Hp & Hf)]; [by exists []|].
      exists ((b, c, p) :: os). rewrite !fmap_cons, Hc, Hp. split_and!; [done..|by constructor]. }
    destruct Hos as (os & <- & <- & <- & Hf). apply Blob.verify_batch_honest; [reflexivity|done].
  - unfold bytes_to_blobs in Hb. case_bool_decide as Hne; [done|].
    apply res_bind_Ok in Hb as (bpb & Hbpb & Hb). unfold chunks_to_blobs in Hb.
    destruct (bpb =? 0) eqn:Hz; [done|]. apply mapM_res_length in Hb.
    assert (Hpos : (0 < Z.to_nat bpb)%nat).
    { apply get_bytes_per_blob_nonneg in Hbpb. lia. }
    rewrite chunks_unfold in Hb by done. simpl in Hb.
    unfold SidecarMetadata.check. cbn [SidecarMetadata.commitments SidecarMetadata.proofs
      SidecarMetadata.bytes_len]. rewrite bool_decide_true by (by rewrite !length_fmap).
    rewrite bool_decide_false by (destruct results; [simpl in Hl; lia|done]).
    simpl. apply Z.ltb_lt. destruct bs; [done|simpl; lia].
  - reflexivity.
Qed.

(** Honest metadata is accepted: metadata computed from application data by
    [try_from_app_data] passes the pallet's structural [check] and [verify_bytes]
    accepts the data against it (for data shorter than [2^32] bytes). *)
Theorem try_from_app_data_verifies bs app_id nonce m :
  Z.of_nat (length bs) < 2 ^ 32 ->
  SidecarMetadata.try_from_app_data bs app_id nonce = Ok m ->
  SidecarMetadata.verify_bytes m bs = Ok true /\ SidecarMetadata.check m = true /\
  SidecarMetadata.bytes_len m = Z.of_nat (length bs).
Proof. apply app_data_metadata. Qed.
End sidecar_props.

(** ** Concrete metadata *)
Section sidecar_witness.
#[local] Existing Instances host64 bytes_lib bytes_lib_fr bytes_lib_g1 bytes_lib_transcript
  bytes_lib_single bytes_lib_batch.
#[local] Instance toy_embedded : EmbeddedSettings := Crypto.zero_settings (Z.to_nat 4096) 65.

Lemma toy_default_embedded :
  exists kzg, Crypto.default_embedded EMBEDDED_KZG_SETTINGS_BYTES = Ok kzg.
Proof.
  destruct (Crypto.zero_settings_spec (Z.to_nat 4096) 65) as [Hb Hl].
  apply (Crypto.default_embedded_total _ (Z.to_nat 4096) 65).
  - simpl. lia.
  - exact Hb.
  - exact (Z2Nat.id 4096 ltac:(lia)).
  - reflexivity.
  - exact Hl.
  - intros c Hc Hcb. destruct (enc_of_Ok 48 c (conj Hc Hcb)) as (e & He & _). exists e. exact He.
  - intros c _ _. exists c. reflexivity.
  - intros n. exists (2 ^ n). reflexivity.
Qed.

Lemma toy_metadata_exists : exists m, SidecarMetadata.try_from_app_data [1; 2; 3] 4 5 = Ok m.
Proof.
  unfold SidecarMetadata.try_from_app_data. destruct toy_default_embedded as [kzg ->]. bind_simpl.
  destruct (bytes_to_blobs_complete [1; 2; 3] FIELD_ELEMENTS_PER_BLOB) as (blobs & -> & _ & Hl & _);
    [unfold is_bytes; by_decision|discriminate|reflexivity|vm_compute; reflexivity|]. bind_simpl.
  destruct (mapM_res_exists (E := string)
    (fun blob => Blob.commit_and_proof blob kzg FIELD_ELEMENTS_PER_BLOB) blobs) as [rs ->];
    [|by eexists].
  intros b Hb. rewrite Forall_forall in Hl. specialize (Hl b Hb).
  unfold Blob.commit_and_proof, Blob.check_field_elements_per_blob, Crypto.commit.
  assert (Hp : is_power_of_two FIELD_ELEMENTS_PER_BLOB = true) by reflexivity.
  rewrite Hp. cbn [negb]. bind_simpl. cbn [commit_to_poly bytes_lib]. bind_simpl.
  assert (HF : FIELD_ELEMENTS_PER_BLOB = Z.of_nat 2048) by reflexivity. rewrite HF in *.
  rewrite Blob.compute_challenge_layout.
  - bind_simpl. unfold Crypto.compute_proof. cbn [compute_proof_single bytes_lib].
    bind_simpl. eexists. reflexivity.
  - unfold Blob.to_fs_fr_vec. lia.
  - apply Nat.leb_le. vm_compute. reflexivity.
  - vm_compute. reflexivity.
Qed.

Lemma try_from_app_data_verifies_witness :
  exists m, SidecarMetadata.try_from_app_data [1; 2; 3] 4 5 = Ok m /\
    SidecarMetadata.verify_bytes m [1; 2; 3] = Ok true.
Proof.
  destruct toy_metadata_exists as [m Hm]. exists m. split; [exact Hm|].
  apply (try_from_app_data_verifies [1; 2; 3] 4 5 m); [reflexivity | exact Hm].
Defined.
End sidecar_witness.
