(* ===== verification/PosUtils.v ===== *)
(** * Bit utilities of the proof of space ([crates/proof-of-space/src/utils.rs])

    Folding of hashes, index selection and its check, leading zeros.  [bit_vec::BitVec]
    is an interface: [from_bytes] puts the most significant bit of each byte first. *)

From S2P Require Import Prelude Codec KzgLib KzgIndex.

Class BitVecLib := bitvec_from_bytes : bytes -> list bool.
Class BitVecLaws `{BitVecLib} : Prop := {
  length_bitvec : forall bs, length (bitvec_from_bytes bs) = (8 * length bs)%nat;
  lookup_bitvec : forall bs i b, bs !! (i / 8)%nat = Some b ->
    bitvec_from_bytes bs !! i = Some (Z.testbit b (7 - Z.of_nat (i mod 8)))
}.

(** [u32::from_be_bytes(l[4 * i..4 * i + 4].try_into().unwrap())] *)
Definition be_u32_at (l : bytes) (i : nat) : res string Z :=
  if (length l <? 4 * i + 4)%nat then Panic
  else Ok (from_be_bytes (take 4 (drop (4 * i) l))).

Definition fold_hash (hash : bytes) : res string Z :=
  if (length hash <? 16)%nat then Panic
  else
    let first_half := take 16 hash in
    let second_half := drop 16 hash in
    foldM (fun folded i =>
        first_half_chunk ← be_u32_at first_half i;
        second_half_chunk ← be_u32_at second_half i;
        Ok (Z.lxor folded (Z.lxor first_half_chunk second_half_chunk)))
      0 (seq 0 4).

Definition hash_to_u16_xor (hash : bytes) : Z :=
  fold_left (fun acc chunk =>
      Z.lxor acc (from_be_bytes [default 0 (chunk !! 0%nat); default 0 (chunk !! 1%nat)]))
    (chunks 2 hash) 0.

(** The inner loop of [select_indices]: [n] set bits from [i] on, around the end. *)
Definition all_ones (bits : list bool) (i n : nat) : bool :=
  forallb (fun j => default false (bits !! ((i + j) mod length bits)%nat)) (seq 0 n).

Definition select_indices `{BitVecLib} (hash : bytes) (start end_ n : nat) : list Z :=
  let bits := bitvec_from_bytes hash in
  let bit_len := length bits in
  if (n =? 0)%nat || (bit_len <? n)%nat || (end_ <=? start)%nat || (bit_len <? end_)%nat then []
  else (fun i => wrap 32 (Z.of_nat i))
         <$> filter (fun i => all_ones bits i n = true) (seq start (end_ - start)).

Definition is_index_valid `{Platform} (hash : bytes) (index max_index n : Z) : bool :=
  if (length hash <? 32)%nat || (wrap_usize (max_index * 8) <=? index) then false
  else if wrap_usize (max_index * 8) <? wrap_usize (index + n) then false
  else
    let byte_index := index / 8 in
    let bit_index := index mod 8 in
    forallb (fun offset =>
        let next_bit_index := (bit_index + Z.of_nat offset) mod 8 in
        let next_byte_index := byte_index + (bit_index + Z.of_nat offset) / 8 in
        match hash !! Z.to_nat next_byte_index with
        | None => false
        | Some byte => negb (Z.land byte (Z.shiftl 1 next_bit_index) =? 0)
        end) (seq 0 (Z.to_nat n)).

(** [u8::leading_zeros] *)
Definition leading_zeros (b : Z) : Z := if b =? 0 then 8 else 7 - Z.log2 b.

Definition validate_leading_zeros (data : bytes) (zeros : Z) : bool :=
  if bool_decide (data = []) then false
  else
    let zero_bytes := zeros / 8 in
    let zero_bits := zeros mod 8 in
    if negb (forallb (fun b => b =? 0) (take (Z.to_nat zero_bytes) data)) then false
    else if 0 <? zero_bits
         then match data !! Z.to_nat zero_bytes with
              | None => false
              | Some b => zero_bits <=? leading_zeros b
              end
         else true.

Definition xor_byte_slices (a b : bytes) : bytes :=
  let '(shorter, longer) := if (length b <? length a)%nat then (b, a) else (a, b) in
  zip_with Z.lxor shorter longer ++ drop (length shorter) longer.

(** ** Lengths and ranges *)
Lemma length_xor_byte_slices a b :
  length (xor_byte_slices a b) = Nat.max (length a) (length b).
Proof.
  unfold xor_byte_slices. destruct (Nat.ltb_spec (length b) (length a));
    rewrite length_app, length_zip_with, length_drop; lia.
Qed.

Lemma lxor_u n a b : 0 <= n -> in_u n a -> in_u n b -> in_u n (Z.lxor a b).
Proof.
  unfold in_u. intros Hn [Ha Ha'] [Hb Hb'].
  assert (H0 : 0 <= Z.lxor a b) by (by apply Z.lxor_nonneg; split). split; [done|].
  destruct (decide (Z.lxor a b = 0)) as [->|Hne]; [by apply Z.pow_pos_nonneg; lia|].
  assert (Hlog : forall z, 0 < z -> z < 2 ^ n -> Z.log2 z < n)
    by (intros z Hz Hz'; apply Z.log2_lt_pow2; lia).
  apply Z.log2_lt_pow2; [lia|].
  destruct (decide (a = 0)) as [->|]; [rewrite Z.lxor_0_l in *; apply Hlog; lia|].
  destruct (decide (b = 0)) as [->|]; [rewrite Z.lxor_0_r in *; apply Hlog; lia|].
  pose proof (Z.log2_lxor a b ltac:(lia) ltac:(lia)).
  pose proof (Hlog a). pose proof (Hlog b). lia.
Qed.

Lemma from_be_bytes_bound l : is_bytes l -> in_u (8 * Z.of_nat (length l)) (from_be_bytes l).
Proof.
  unfold is_bytes. induction 1 as [|b l Hb _ IH]; [done|].
  unfold from_be_bytes. simpl fold_left. rewrite from_be_bytes_acc.
  unfold in_u in *. replace (8 * Z.of_nat (length (b :: l))) with (8 + 8 * Z.of_nat (length l))
    by (simpl; lia).
  rewrite Z.pow_add_r by lia. nia.
Qed.

(** A 32-byte hash folds to a 32-bit value. *)
Lemma fold_hash_Ok hash : length hash = 32%nat -> is_bytes hash ->
  exists y, fold_hash hash = Ok y /\ in_u 32 y.
Proof.
  intros Hl Hb. unfold fold_hash. rewrite (proj2 (Nat.ltb_ge _ _)) by lia.
  assert (Hat : forall l i, length l = 16%nat -> is_bytes l -> (i < 4)%nat ->
      exists y, be_u32_at l i = Ok y /\ in_u 32 y).
  { intros l i Hll Hlb Hi. unfold be_u32_at. rewrite (proj2 (Nat.ltb_ge _ _)) by lia.
    eexists. split; [done|]. pose proof (from_be_bytes_bound (take 4 (drop (4 * i) l))
      (Forall_take _ _ _ (Forall_drop _ _ _ Hlb))) as Hf.
    rewrite length_take, length_drop in Hf. replace (4 `min` (length l - 4 * i))%nat with 4%nat in Hf by lia.
    done. }
  assert (Hgen : forall ix acc, Forall (fun i => (i < 4)%nat) ix -> in_u 32 acc ->
      exists y, foldM (fun folded i =>
        first_half_chunk ← be_u32_at (take 16 hash) i;
        second_half_chunk ← be_u32_at (drop 16 hash) i;
        Ok (Z.lxor folded (Z.lxor first_half_chunk second_half_chunk))) acc ix = Ok (E := string) y /\ in_u 32 y).
  { induction ix as [|i ix IH]; intros acc His Hacc; [by exists acc|].
    apply Forall_cons in His as [Hi His].
    destruct (Hat (take 16 hash) i) as (a & Ha & Hau);
      [rewrite length_take; lia|by apply Forall_take|done|].
    destruct (Hat (drop 16 hash) i) as (b & Hb' & Hbu);
      [rewrite length_drop; lia|by apply Forall_drop|done|].
    simpl. rewrite Ha. bind_simpl. rewrite Hb'. bind_simpl. apply IH; [done|].
    apply lxor_u; [lia|done|]. by apply lxor_u. }
  apply Hgen; [|done]. repeat (constructor; [lia|]). constructor.
Qed.

(** ** Leading zeros *)
Lemma from_be_bytes_app l k :
  from_be_bytes (l ++ k) = from_be_bytes l * 2 ^ (8 * Z.of_nat (length k)) + from_be_bytes k.
Proof. unfold from_be_bytes at 1 2. rewrite fold_left_app. apply from_be_bytes_acc. Qed.

Lemma from_be_bytes_zero l : is_bytes l ->
  forallb (fun b => b =? 0) l = (from_be_bytes l =? 0).
Proof.
  unfold is_bytes. induction 1 as [|b l Hb Hl IH]; [done|].
  change (b :: l) with ([b] ++ l). rewrite from_be_bytes_app. simpl forallb. rewrite IH.
  change (from_be_bytes [b]) with (0 * 256 + b).
  pose proof (from_be_bytes_bound l Hl) as [Hlo _].
  assert (Hp : 0 < 2 ^ (8 * Z.of_nat (length l))) by (apply Z.pow_pos_nonneg; lia).
  set (T := 2 ^ (8 * Z.of_nat (length l))) in *. unfold in_u in *. simpl in Hb.
  destruct (Z.eqb_spec b 0) as [->|Hb0], (Z.eqb_spec (from_be_bytes l) 0) as [->|Hl0]; simpl; symmetry;
    [done|apply Z.eqb_neq; nia..].
Qed.

Lemma leading_zeros_spec b k : 0 <= b < 256 -> 0 <= k <= 8 ->
  (k <=? leading_zeros b) = (b <? 2 ^ (8 - k)).
Proof.
  intros Hb Hk. unfold leading_zeros. destruct (Z.eqb_spec b 0) as [->|Hne].
  - rewrite (proj2 (Z.leb_le k 8)) by lia. symmetry. apply Z.ltb_lt. apply Z.pow_pos_nonneg; lia.
  - destruct (Z.leb_spec k (7 - Z.log2 b)); symmetry.
    + apply Z.ltb_lt, Z.log2_lt_pow2; lia.
    + apply Z.ltb_ge. apply Z.log2_le_pow2; lia.
Qed.

(** The leading-zero test is the numeric test: for a requirement that fits the data,
    [validate_leading_zeros] accepts exactly the byte strings whose big-endian value is
    below [2^(8 * len - zeros)]. *)
Theorem validate_leading_zeros_spec data zeros :
  is_bytes data -> data <> [] -> 0 <= zeros <= 8 * Z.of_nat (length data) ->
  validate_leading_zeros data zeros
  = (from_be_bytes data <? 2 ^ (8 * Z.of_nat (length data) - zeros)).
Proof.
  intros Hd Hne Hz. unfold validate_leading_zeros. rewrite bool_decide_false by done.
  pose proof (Z.div_mod zeros 8 ltac:(lia)) as Hdm. pose proof (Z.mod_pos_bound zeros 8 ltac:(lia)).
  set (zb := Z.to_nat (zeros / 8)). assert (Hzb : Z.of_nat zb = zeros / 8) by (unfold zb; lia).
  assert (Hdt : is_bytes (take zb data)) by (by apply Forall_take).
  assert (Hdd : is_bytes (drop zb data)) by (by apply Forall_drop).
  pose proof (from_be_bytes_app (take zb data) (drop zb data)) as Hv. rewrite take_drop in Hv.
  rewrite from_be_bytes_zero, Hv by done. rewrite length_drop.
  pose proof (from_be_bytes_bound _ Hdt) as [Ht0 _]. pose proof (from_be_bytes_bound _ Hdd) as [Hr0 Hr1].
  rewrite length_drop in Hr1.
  set (L := 8 * Z.of_nat (length data - zb)) in *.
  assert (HL : 8 * Z.of_nat (length data) - zeros = L - zeros mod 8) by lia. rewrite HL.
  destruct (Z.eqb_spec (from_be_bytes (take zb data)) 0) as [Ht|Ht]; simpl.
  2: { symmetry. apply Z.ltb_ge. transitivity (2 ^ L); [apply Z.pow_le_mono_r; lia|].
       assert (0 < 2 ^ L) by (apply Z.pow_pos_nonneg; lia). nia. }
  rewrite Ht, Z.mul_0_l, Z.add_0_l. destruct (Z.ltb_spec 0 (zeros mod 8)) as [Hbits|Hbits].
  - destruct (drop zb data) as [|b r] eqn:Hdr.
    { apply (f_equal length) in Hdr. rewrite length_drop in Hdr. simpl in Hdr. lia. }
    assert (Hb : data !! zb = Some b)
      by (by rewrite <- (Nat.add_0_r zb), <- lookup_drop, Hdr). rewrite Hb.
    apply Forall_cons in Hdd as [Hb256 Hdr']. rewrite leading_zeros_spec by (unfold in_u in *; lia).
    change (b :: r) with ([b] ++ r). rewrite from_be_bytes_app.
    change (from_be_bytes [b]) with (0 * 256 + b).
    pose proof (from_be_bytes_bound r Hdr') as [Hr0' Hr1'].
    assert (Hlr : 8 * Z.of_nat (length r) = L - 8).
    { apply (f_equal length) in Hdr. rewrite length_drop in Hdr. simpl in Hdr. unfold L. lia. }
    rewrite Hlr in *. replace (L - zeros mod 8) with ((8 - zeros mod 8) + (L - 8)) by lia.
    rewrite Z.pow_add_r by lia. set (q := 2 ^ (8 - zeros mod 8)). set (t := 2 ^ (L - 8)) in *.
    destruct (Z.ltb_spec b q); symmetry; [apply Z.ltb_lt; nia|apply Z.ltb_ge; nia].
  - symmetry. apply Z.ltb_lt. by replace (L - zeros mod 8) with L by lia.
Qed.

Lemma validate_leading_zeros_spec_witness :
  validate_leading_zeros [0; 1; 255] 15 = true /\ validate_leading_zeros [0; 1; 255] 16 = false.
Proof.
  split.
  - rewrite (validate_leading_zeros_spec [0; 1; 255] 15);
      [reflexivity | unfold is_bytes; by_decision | discriminate | simpl; lia].
  - rewrite (validate_leading_zeros_spec [0; 1; 255] 16);
      [reflexivity | unfold is_bytes; by_decision | discriminate | simpl; lia].
Defined.

(** ** Index selection *)

(** Bit [k] of a byte string, counting from the least significant bit of each byte. *)
Definition lsb_bit (hash : bytes) (k : nat) : bool :=
  match hash !! (k / 8)%nat with Some b => Z.testbit b (Z.of_nat (k mod 8)) | None => false end.

Lemma land_bit b i : 0 <= i -> negb (Z.land b (Z.shiftl 1 i) =? 0) = Z.testbit b i.
Proof.
  intros Hi. rewrite Z.shiftl_1_l. destruct (Z.testbit b i) eqn:Hb.
  - apply negb_true_iff, Z.eqb_neq. intros Hz.
    assert (Hb' : Z.testbit (Z.land b (2 ^ i)) i = true)
      by (rewrite Z.land_spec, Hb, Z.pow2_bits_true by done; done).
    rewrite Hz, Z.bits_0 in Hb'. done.
  - apply negb_false_iff, Z.eqb_eq, Z.bits_inj'. intros j Hj.
    rewrite Z.land_spec, Z.bits_0, Z.pow2_bits_eqb by done.
    destruct (Z.eqb_spec i j) as [<-|]; [by rewrite Hb|by rewrite andb_false_r].
Qed.

Lemma forallb_ext {A} (f g : A -> bool) l : (forall x, f x = g x) -> forallb f l = forallb g l.
Proof. intros Hfg. induction l as [|x l IH]; simpl; [done|]. by rewrite Hfg, IH. Qed.

Lemma is_index_valid_bits `{Platform} hash (index n : nat) :
  (10 <= usize_bits)%nat -> length hash = 32%nat -> (index < 256)%nat -> (n <= 256)%nat ->
  is_index_valid hash (Z.of_nat index) 32 (Z.of_nat n)
  = (index + n <=? 256)%nat && forallb (fun o => lsb_bit hash (index + o)) (seq 0 n).
Proof.
  intros Hu Hl Hi Hn. unfold is_index_valid, wrap_usize.
  assert (Hp : 1024 <= 2 ^ Z.of_nat usize_bits)
    by (change 1024 with (2 ^ 10); apply Z.pow_le_mono_r; lia).
  rewrite Hl. change (32 <? 32)%nat with false. rewrite !wrap_small by (unfold in_u; lia).
  change (32 * 8) with 256. rewrite (proj2 (Z.leb_gt 256 (Z.of_nat index))) by lia. simpl orb. cbv iota.
  destruct (Z.ltb_spec 256 (Z.of_nat index + Z.of_nat n)) as [Hg|Hle].
  { by rewrite (proj2 (Nat.leb_gt _ _)) by lia. }
  rewrite (proj2 (Nat.leb_le _ _)) by lia. rewrite Nat2Z.id. simpl andb.
  apply forallb_ext. intros o.
  assert (Hm : (Z.of_nat index mod 8 + Z.of_nat o) mod 8 = Z.of_nat ((index + o) mod 8))
    by (rewrite Zplus_mod_idemp_l, <- Nat2Z.inj_add, Nat2Z.inj_mod; done).
  assert (Hd : Z.of_nat index / 8 + (Z.of_nat index mod 8 + Z.of_nat o) / 8
      = Z.of_nat ((index + o) / 8)).
  { rewrite Nat2Z.inj_div, Nat2Z.inj_add. change (Z.of_nat 8) with 8.
    rewrite (Z.div_mod (Z.of_nat index) 8) at 3 by lia.
    rewrite <- Z.add_assoc, (Z.mul_comm 8), Z.div_add_l by lia. done. }
  rewrite Hd, Nat2Z.id. unfold lsb_bit. destruct (hash !! _) as [b|]; [|done].
  rewrite Hm. apply land_bit. lia.
Qed.

Lemma select_indices_bits `{BitVecLaws} hash (i n : nat) :
  length hash = 32%nat -> (1 <= n)%nat -> (i + n <= 256)%nat ->
  Z.of_nat i ∈ select_indices hash 0 256 n <->
  forall o, (o < n)%nat -> exists b, hash !! ((i + o) / 8)%nat = Some b /\
    Z.testbit b (7 - Z.of_nat ((i + o) mod 8)) = true.
Proof.
  intros Hl Hn Hin. unfold select_indices. rewrite length_bitvec, Hl. change (8 * 32)%nat with 256%nat.
  rewrite (proj2 (Nat.eqb_neq n 0)), (proj2 (Nat.ltb_ge 256 n)) by lia. simpl orb. cbv iota.
  change (256 <? 256)%nat with false. cbv iota. rewrite list_elem_of_fmap. unfold all_ones. rewrite length_bitvec, Hl. change (8 * 32)%nat with 256%nat.
  assert (Hbit : forall o, (o < n)%nat ->
      exists b, hash !! ((i + o) / 8)%nat = Some b /\
      bitvec_from_bytes hash !! ((i + o) mod 256)%nat = Some (Z.testbit b (7 - Z.of_nat ((i + o) mod 8)))).
  { intros o Ho. rewrite Nat.mod_small by lia.
    destruct (lookup_lt_is_Some_2 hash ((i + o) / 8)) as [b Hb].
    { rewrite Hl. apply Nat.Div0.div_lt_upper_bound; lia. }
    exists b. split; [done|]. by apply lookup_bitvec. }
  split.
  - intros (k & Hk & [Hall Hseq]%list_elem_of_filter). apply elem_of_seq in Hseq.
    rewrite wrap_small in Hk by (unfold in_u; lia). assert (k = i) as -> by lia.
    intros o Ho. destruct (Hbit o Ho) as (b & Hb & Hbv). exists b. split; [done|].
    rewrite forallb_forall in Hall. specialize (Hall o). rewrite Hbv in Hall. apply Hall.
    apply in_seq. lia.
  - intros Hall. exists i. rewrite wrap_small by (unfold in_u; lia). split; [done|].
    apply list_elem_of_filter. split; [|apply elem_of_seq; lia].
    apply forallb_forall. intros o Ho%in_seq. destruct (Hbit o) as (b & Hb & ->); [lia|].
    destruct (Hall o) as (b' & Hb' & Ht); [lia|].
    rewrite Hb in Hb'. injection Hb' as <-. exact Ht.
Qed.

(** C32: Selection and check use opposite bit orders: the check [is_index_valid] accepts an
    index (within 256 bits) exactly when [select_indices] selects it from the hash with
    every byte bit-reversed, and it rejects the runs that [select_indices] lets wrap
    around the end. *)
Theorem is_index_valid_select `{Platform} `{BitVecLaws} hash (index n : nat) :
  (10 <= usize_bits)%nat -> length hash = 32%nat ->
  (index < 256)%nat -> (1 <= n <= 256)%nat ->
  is_index_valid hash (Z.of_nat index) 32 (Z.of_nat n) = true <->
  (index + n <= 256)%nat /\
  Z.of_nat index ∈ select_indices (reverse_bits 8 <$> hash) 0 256 n.
Proof.
  intros Hu Hl Hi Hn. rewrite is_index_valid_bits by lia. rewrite andb_true_iff, Nat.leb_le.
  split; intros [Hin Hb]; (split; [done|]).
  - apply select_indices_bits; [by rewrite length_fmap|lia|done|].
    intros o Ho. rewrite forallb_forall in Hb. specialize (Hb o).
    rewrite in_seq in Hb. specialize (Hb ltac:(lia)).
    unfold lsb_bit in Hb. rewrite list_lookup_fmap. destruct (hash !! _) as [b|]; [|done].
    exists (reverse_bits 8 b). split; [done|]. pose proof (Nat.mod_upper_bound (index + o) 8).
    rewrite reverse_bits_testbit by lia. rewrite <- Hb. f_equal. lia.
  - apply forallb_forall. intros o Ho%in_seq.
    rewrite select_indices_bits in Hb; [|by rewrite length_fmap|lia|done].
    destruct (Hb o) as (b' & Hb' & Ht); [lia|]. rewrite list_lookup_fmap in Hb'. unfold lsb_bit.
    destruct (hash !! _) as [b|]; [|done]. simplify_eq/=.
    pose proof (Nat.mod_upper_bound (index + o) 8). rewrite reverse_bits_testbit in Ht by lia.
    rewrite <- Ht. f_equal. lia.
Qed.

(** ** A concrete bit vector *)
Definition ref_bitvec : BitVecLib := fun bs =>
  b ← bs; (fun i => Z.testbit b (7 - Z.of_nat i)) <$> seq 0 8.
Lemma ref_bitvec_laws : @BitVecLaws ref_bitvec.
Proof.
  split; unfold bitvec_from_bytes, ref_bitvec.
  - induction bs as [|b bs IH]; [done|]. rewrite bind_cons, length_app, IH. simpl. lia.
  - induction bs as [|a bs IH]; intros i b Hb; [done|].
    rewrite bind_cons.
    destruct (decide (i < 8)%nat) as [Hi|Hi].
    + rewrite Nat.div_small in Hb by done. simpl in Hb. injection Hb as <-.
      rewrite lookup_app_l by (rewrite length_fmap, length_seq; done).
      rewrite list_lookup_fmap, lookup_seq_lt, Nat.mod_small by done. done.
    + rewrite lookup_app_r by (rewrite length_fmap, length_seq; lia).
      rewrite length_fmap, length_seq. replace i with ((i - 8) + 1 * 8)%nat in Hb |- * by lia.
      rewrite Nat.div_add in Hb by lia. rewrite Nat.Div0.mod_add.
      rewrite Nat.add_1_r in Hb. replace (i - 8 + 1 * 8 - 8)%nat with (i - 8)%nat by lia. by apply IH.
Qed.

Section select_witness.
#[local] Existing Instances host64 ref_bitvec ref_bitvec_laws.

Lemma is_index_valid_select_witness :
  is_index_valid (1 :: replicate 31 0) 0 32 1 = true /\
  0 ∉ select_indices (1 :: replicate 31 0) 0 256 1.
Proof.
  split.
  - apply (is_index_valid_select (1 :: replicate 31 0) 0 1);
      [simpl; lia | reflexivity | lia | lia | split; [lia|]].
    apply (bool_decide_unpack _). vm_compute. exact I.
  - apply (bool_decide_unpack (0 ∉ select_indices (1 :: replicate 31 0) 0 256 1)).
    vm_compute. exact I.
Defined.
End select_witness.
