(* ===== verification/ProofOfSpace.v ===== *)
(** * Proof of space ([crates/proof-of-space/src])

    Farmers store rows and columns of the extended matrix as pieces.  Saving a piece
    indexes every cell by its Y value, pairs it with the cells of the neighbouring offset
    that have the same Y value, and indexes the pairs by their Z value; solutions for a
    challenge are looked up by Z.  The three indices and the pieces share one key-value
    store.  Block numbers are [u32]; SCALE is an interface ([Codec], [ScaleInts]); a
    [FarmerId] is its 32 bytes, which encode as themselves. *)

From S2P Require Import Prelude Codec DasDb KzgLib KzgIndex KzgToy DasPrimitives CorePrimitives.
From S2P Require Import Reliability PosUtils.

(** Fixed-width integers of SCALE: little-endian. *)
Class ScaleInts := { encode_u16 : Z -> bytes; encode_u32 : Z -> bytes }.
Class ScaleIntsLaws `{ScaleInts} : Prop := {
  encode_u16_le : forall v, encode_u16 v = rev (to_be_bytes 2 v);
  encode_u32_le : forall v, encode_u32 v = rev (to_be_bytes 4 v)
}.

(** ** [y_value_manager.rs]: positions *)
Module YPos.
Inductive t := Left (pos : Z) | Right (pos : Z).
#[export] Instance t_eq_dec : EqDecision t.
Proof. solve_decision. Defined.

Definition to_u32 (self : t) : Z := match self with Left pos => pos | Right pos => pos end.

Definition from_u32 (pos : Z) : t := if pos mod 2 =? 0 then Left pos else Right pos.

Definition match_x_pos (self : t) : t :=
  match self with
  | Left pos => Right (wrap 32 (pos + 1))
  | Right pos => Left (wrap 32 (pos - 1))
  end.

Definition is_pair (self other : t) : bool :=
  match self with
  | Left pos => match other with Right other_pos => wrap 32 (pos + 1) =? other_pos | _ => false end
  | Right pos => match other with Left other_pos => wrap 32 (pos - 1) =? other_pos | _ => false end
  end.
End YPos.
Export (hints) YPos.

(** ** [piece.rs]: metadata *)
Module PiecePosition.
Inductive t := Row (row : Z) | Column (column : Z).
#[export] Instance t_eq_dec : EqDecision t.
Proof. solve_decision. Defined.

Definition to_u32 (self : t) : Z := match self with Row row => row | Column column => column end.
Definition from_row (position : Position) : t := Row (Crypto.x position).
Definition from_column (position : Position) : t := Column (Crypto.y position).
Definition default : t := Row 0.
#[export] Instance t_wf : Wf t := fun p => in_u 32 (to_u32 p).
End PiecePosition.
Export (hints) PiecePosition.

Module PieceMetadata.
Record t := mk { block_num : Z; pos : PiecePosition.t }.
#[export] Instance t_eq_dec : EqDecision t.
Proof. solve_decision. Defined.
#[export] Instance t_wf : Wf t := fun m => in_u 32 (block_num m) /\ wf (pos m).

Definition new (block_num : Z) (pos : PiecePosition.t) : t := mk block_num pos.
Definition key `{Codec t} (self : t) : bytes := scale_encode self.
End PieceMetadata.
Export (hints) PieceMetadata.

(** ** [cell.rs] *)
Module CellMetadata.
Record t := mk { piece_metadata : PieceMetadata.t; offset : Z }.
#[export] Instance t_eq_dec : EqDecision t.
Proof. solve_decision. Defined.
#[export] Instance t_wf : Wf t := fun m => wf (piece_metadata m) /\ in_u 32 (offset m).

Definition new (piece_metadata : PieceMetadata.t) (offset : Z) : t := mk piece_metadata offset.

Definition is_pair (self other : t) : bool :=
  let x_pos := YPos.from_u32 (offset self) in
  let other_x_pos := YPos.from_u32 (offset other) in
  YPos.is_pair x_pos other_x_pos.

Definition block_number (self : t) : Z := PieceMetadata.block_num (piece_metadata self).
End CellMetadata.
Export (hints) CellMetadata.

#[export] Instance list_wf {A} `{Wf A} : Wf (list A) := Forall wf.
#[export] Instance prod_wf {A B} `{Wf A} `{Wf B} : Wf (A * B) := fun p => wf p.1 /\ wf p.2.

(** [Result<bool, _>::unwrap_or(false)] *)
Definition unwrap_or_false (r : res string bool) : res string bool :=
  match r with Ok b => Ok b | Err _ => Ok false | Panic => Panic end.

(** [a && b], which evaluates [b] only if [a] holds. *)
Definition and_then (a b : res string bool) : res string bool := x ← a; if (x : bool) then b else Ok false.

Section cells.
Context `{Platform} `{KzgLib}.

Record Cell := mkCell { cell_metadata : CellMetadata.t; cell_seg : Segment.t }.
Definition cell_new (metadata : CellMetadata.t) (seg : Segment.t) : Cell := mkCell metadata seg.
Definition cell_piece_index (self : Cell) : Z :=
  PiecePosition.to_u32 (PieceMetadata.pos (CellMetadata.piece_metadata (cell_metadata self))).
Definition cell_verify_kzg_proof (self : Cell) (kzg : KZG) (commitment : KZGCommitment)
    : res string bool :=
  unwrap_or_false (Segment.verify (cell_seg self) kzg commitment SEGMENTS_PER_BLOB).

Record PreCell := mkPreCell { pre_seg : Segment.t; pre_position : PiecePosition.t }.
Definition pre_cell_new (position : PiecePosition.t) (seg : Segment.t) : PreCell :=
  mkPreCell seg position.
Definition pre_cell_piece_index (self : PreCell) : Z := PiecePosition.to_u32 (pre_position self).
Definition pre_cell_verify_kzg_proof (self : PreCell) (kzg : KZG) (commitment : KZGCommitment)
    : res string bool :=
  unwrap_or_false (Segment.verify (pre_seg self) kzg commitment EXTENDED_SEGMENTS_PER_BLOB).
End cells.

(** ** [lib.rs] *)
Module FarmerId.
Record t := mk { inner : bytes }.
Definition default : t := mk (replicate 32 0).
(** Of the encoding of a value. *)
Definition new `{HashLib} (encoded : bytes) : t :=
  if forallb (fun byte => byte =? 0) encoded then default else mk (blake2_256 encoded).
End FarmerId.

(** ** [y_value_manager.rs] *)
Module YValueManager.
Record t := mk { y : Z; cell_metadata : CellMetadata.t; pos : YPos.t }.

Section manager.
Context `{KzgLib} `{HashLib} `{ScaleInts} `{Codec YPos.t} `{Codec (list CellMetadata.t)}.
Context {DB : Type} `{DasKv DB}.

(** [GenericArray::from_slice] panics on any other length. *)
Definition calculate_y (farmer_id : FarmerId.t) (seg : Segment.t) : res string Z :=
  match Segment.data (Segment.content seg) with
  | [] => Ok 0
  | first :: _ =>
      let bs := xor_byte_slices (FarmerId.inner farmer_id) (Crypto.scalar_encode first) in
      if negb (length bs =? 32)%nat then Panic
      else fold_hash (chacha8_keystream bs)
  end.

Definition new (piece_metadata : PieceMetadata.t) (index y : Z) : t :=
  mk y (CellMetadata.mk piece_metadata index) (YPos.from_u32 index).

Definition key_by_x_pos (y_pos : YPos.t) (y : Z) : bytes := encode_u32 y ++ scale_encode y_pos.

Definition key (self : t) : bytes := key_by_x_pos (pos self) (y self).

Definition match_cells (self : t) (db : DB) : res string (list CellMetadata.t) :=
  let match_pos := YPos.match_x_pos (pos self) in
  match kv_get (key_by_x_pos match_pos (y self)) db with
  | None => Ok []
  | Some data =>
      ok_or (decode_all data) "Failed to decode CellMetadata vector from database"
  end.

Definition save (self : t) (db : DB) : res string DB :=
  if y self =? 0 then Ok db
  else
    let k := key self in
    match kv_get k db with
    | Some data =>
        cell_metadatas ← unwrap (decode_all data);
        Ok (kv_set k (scale_encode (cell_metadatas ++ [cell_metadata self])) db)
    | None => Ok (kv_set k (scale_encode [cell_metadata self]) db)
    end.
End manager.
End YValueManager.

(** ** [z_value_manager.rs] *)
Module ZValueManager.
Record t := mk { z : Z; left : CellMetadata.t; right : CellMetadata.t }.

Section manager.
Context `{KzgLib} `{HashLib} `{ScaleInts} `{Codec Segment.t}
  `{Codec (list (CellMetadata.t * CellMetadata.t))}.
Context {DB : Type} `{DasKv DB}.

Definition calculate_z (left_cell right_cell : Segment.t) : Z :=
  let combined := scale_encode left_cell ++ scale_encode right_cell in
  hash_to_u16_xor (blake2_256 combined).

Definition get_challenge (data : bytes) : Z := hash_to_u16_xor data.

Definition new (left right : CellMetadata.t) (left_cell right_cell : Segment.t) : t :=
  mk (calculate_z left_cell right_cell) left right.

Definition save (self : t) (db : DB) : DB :=
  let key := encode_u16 (z self) in
  let pairs := default [] (kv_get key db ≫= decode_all) in
  let pair := (left self, right self) in
  if bool_decide (pair ∈ pairs) then db
  else kv_set key (scale_encode (pairs ++ [pair])) db.

Definition get (db : DB) (z : Z) : res string (list (CellMetadata.t * CellMetadata.t)) :=
  match kv_get (encode_u16 z) db with
  | None => Ok []
  | Some data => ok_or (decode_all data) "Failed to decode CellMetadata Vec from database"
  end.

Definition verify (z : Z) (farmer_id : FarmerId.t) (left_cell right_cell : Segment.t)
    (left_cell_metadata right_cell_metadata : CellMetadata.t) : res string bool :=
  let calculated_z := calculate_z left_cell right_cell in
  let is_pair := CellMetadata.is_pair left_cell_metadata right_cell_metadata in
  left_y ← YValueManager.calculate_y farmer_id left_cell;
  right_y ← YValueManager.calculate_y farmer_id right_cell;
  Ok ((z =? calculated_z) && is_pair && (left_y =? right_y)).
End manager.
End ZValueManager.

(** ** [piece.rs] *)
Module Piece.
Section piece.
Context `{KzgLib} `{HashLib} `{ScaleInts}.

Record t := mk { metadata : PieceMetadata.t; segments : list Segment.t }.
#[export] Instance t_wf : Wf t := fun p => wf (metadata p) /\ Forall wf (segments p).

Context `{Codec YPos.t} `{Codec PieceMetadata.t} `{Codec t} `{Codec Segment.t}
  `{Codec (list CellMetadata.t)} `{Codec (list (CellMetadata.t * CellMetadata.t))}.
Context {DB : Type} `{DasKv DB}.

Definition key (self : t) : bytes := scale_encode (metadata self).

Definition new (blcok_num : Z) (pos : PiecePosition.t) (segments : list Segment.t) : t :=
  mk (PieceMetadata.mk blcok_num pos) segments.

Definition cell (self : t) (pos : Z) : option Segment.t :=
  if wrap 32 (Z.of_nat (length (segments self))) <=? pos then None
  else segments self !! Z.to_nat pos.

Definition get_cell (metadata : CellMetadata.t) (db : DB) : res string (option Segment.t) :=
  match kv_get (PieceMetadata.key (CellMetadata.piece_metadata metadata)) db with
  | None => Ok None
  | Some data =>
      match decode_all data with
      | None => Err "Failed to decode Piece from database"
      | Some piece => Ok (cell piece (CellMetadata.offset metadata))
      end
  end.

(** The loop over the matching cells. *)
Fixpoint save_pairs (x_pos : YPos.t) (cell_metadata : CellMetadata.t) (bls_scalar_ref : Segment.t)
    (match_cells : list CellMetadata.t) : stM string DB unit :=
  match match_cells with
  | [] => mret tt
  | mc :: match_cells =>
      maybe_seg ← (fun db => (get_cell mc db, db));
      _ ← match maybe_seg with
          | None => mret tt
          | Some seg =>
              let z_value_manager :=
                match x_pos with
                | YPos.Left _ => ZValueManager.new cell_metadata mc bls_scalar_ref seg
                | YPos.Right _ => ZValueManager.new cell_metadata mc seg bls_scalar_ref
                end in
              modify (ZValueManager.save z_value_manager)
          end;
      save_pairs x_pos cell_metadata bls_scalar_ref match_cells
  end.

(** The loop over the cells. *)
Fixpoint save_cells (metadata : PieceMetadata.t) (farmer_id : FarmerId.t)
    (cells : list (nat * Segment.t)) : stM string DB unit :=
  match cells with
  | [] => mret tt
  | (index, seg) :: cells =>
      x ← lift_res (YValueManager.calculate_y farmer_id seg);
      let index := wrap 32 (Z.of_nat index) in
      let cell_metadata := CellMetadata.mk metadata index in
      let x_value_manager := YValueManager.new metadata index x in
      let x_pos := YPos.from_u32 index in
      _ ← (fun db => match YValueManager.save x_value_manager db with
                     | Ok db' => (Ok tt, db') | Err e => (Err e, db) | Panic => (Panic, db) end);
      match_cells ← (fun db => (YValueManager.match_cells x_value_manager db, db));
      _ ← save_pairs x_pos cell_metadata seg match_cells;
      save_cells metadata farmer_id cells
  end.

Definition save (self : t) (farmer_id : FarmerId.t) : stM string DB unit :=
  _ ← modify (kv_set (key self) (scale_encode self));
  save_cells (metadata self) farmer_id (enumerate (segments self)).
End piece.
End Piece.
Export (hints) Piece.

(** ** [solution.rs] *)
Module Solution.
Section solution.
Context `{Platform} `{KzgLib} `{HashLib} `{ScaleInts} `{EmbeddedSettings} `{BitVecLib}.
Context `{Codec PieceMetadata.t} `{Codec Piece.t} `{Codec Segment.t}
  `{Codec (list (CellMetadata.t * CellMetadata.t))}.

Record t := mk {
  block_hash : bytes;
  farmer_id : FarmerId.t;
  pre_cell : PreCell;
  win_cell_left : Cell;
  win_cell_right : Cell
}.

Definition new := mk.

Definition check_pre_cell (seg : Segment.t) (farmer_id : FarmerId.t) (pre_cell_leading_zero : Z)
    : bool :=
  let pre_cell_hash := blake2_256 (scale_encode seg) in
  let xored_hash := xor_byte_slices (FarmerId.inner farmer_id) pre_cell_hash in
  validate_leading_zeros xored_hash pre_cell_leading_zero.

Definition is_index_valid (farmer_id : FarmerId.t) (block_hash : bytes) (index max_index n : Z)
    : bool :=
  let xored_hash := xor_byte_slices (FarmerId.inner farmer_id) block_hash in
  PosUtils.is_index_valid xored_hash index max_index n.

(** [try_into().expect("Expected a 32-byte array")] *)
Definition select_indices (farmer_id : FarmerId.t) (block_hash : bytes) (end_ n : nat)
    : res string (list Z) :=
  let xored := xor_byte_slices (FarmerId.inner farmer_id) block_hash in
  if negb (length xored =? 32)%nat then Panic else Ok (PosUtils.select_indices xored 0 end_ n).

Definition validate_win_cell (self : t) (win_left_block_hash win_right_block_hash : bytes)
    (n z : Z) : res string bool :=
  and_then (Ok (PosUtils.is_index_valid win_left_block_hash
                  (cell_piece_index (win_cell_left self)) 32 n))
    (and_then (Ok (PosUtils.is_index_valid win_right_block_hash
                     (cell_piece_index (win_cell_right self)) 32 n))
      (ZValueManager.verify z (farmer_id self) (cell_seg (win_cell_left self))
         (cell_seg (win_cell_right self)) (cell_metadata (win_cell_left self))
         (cell_metadata (win_cell_right self)))).

Definition validate_win_cell_with_kzg (self : t) (kzg : KZG)
    (win_left_commit win_right_commit : KZGCommitment)
    (win_left_block_hash win_right_block_hash : bytes) (n z : Z) : res string bool :=
  and_then (validate_win_cell self win_left_block_hash win_right_block_hash n z)
    (and_then (cell_verify_kzg_proof (win_cell_left self) kzg win_left_commit)
      (cell_verify_kzg_proof (win_cell_right self) kzg win_right_commit)).

Definition verify (self : t) (pre_commit win_left_commit win_right_commit : KZGCommitment)
    (win_left_block_hash win_right_block_hash : bytes) (pre_cell_leading_zero n : Z)
    : res string bool :=
  kzg ← Crypto.default_embedded EMBEDDED_KZG_SETTINGS_BYTES;
  let z := ZValueManager.get_challenge (block_hash self) in
  and_then (Ok (check_pre_cell (pre_seg (pre_cell self)) (farmer_id self) pre_cell_leading_zero))
    (and_then (Ok (is_index_valid (farmer_id self) (block_hash self)
                     (pre_cell_piece_index (pre_cell self)) 32 n))
      (and_then (pre_cell_verify_kzg_proof (pre_cell self) kzg pre_commit)
        (validate_win_cell_with_kzg self kzg win_left_commit win_right_commit
           win_left_block_hash win_right_block_hash n z))).

Context {DB : Type} `{DasKv DB}.

(** The closure of [filter_map]: a pair whose lookup fails is skipped. *)
Definition solution_of (db : DB) (farmer_id : FarmerId.t) (pre_cell : PreCell)
    (block_hash : bytes) (pair : CellMetadata.t * CellMetadata.t) : option t :=
  match Piece.get_cell pair.1 db, Piece.get_cell pair.2 db with
  | Ok (Some left_cell_data), Ok (Some right_cell_data) =>
      Some (new block_hash farmer_id pre_cell (cell_new pair.1 left_cell_data)
              (cell_new pair.2 right_cell_data))
  | _, _ => None
  end.

Definition find_solutions_with_z (db : DB) (farmer_id : FarmerId.t) (pre_cell : PreCell)
    (block_hash : bytes) (z : Z) : res string (list t) :=
  cells ← ZValueManager.get db z;
  Ok (omap (M := list) (solution_of db farmer_id pre_cell block_hash) cells).

Definition find_solutions (db : DB) (farmer_id : FarmerId.t) (pre_cell : PreCell)
    (block_hash : bytes) : res string (list t) :=
  find_solutions_with_z db farmer_id pre_cell block_hash (ZValueManager.get_challenge block_hash).
End solution.
End Solution.
