(* ===== verification/PosIndex.v ===== *)
(** * The index of the proof of space

    What the key-value store holds after saving pieces, as a refinement: the store
    represents the list of saved pieces, the list of cells in the order they were
    indexed, and the set of recorded pairs. *)

From S2P Require Import Prelude Codec DasDb KzgLib KzgIndex KzgToy DasPrimitives CorePrimitives.
From S2P Require Import Reliability PosUtils ProofOfSpace.

#[export] Instance YPos_wf : Wf YPos.t := fun p => in_u 32 (YPos.to_u32 p).

(** Structs encode field by field. *)
Class PieceKeyLayout `{ScaleInts} `{Codec PiecePosition.t} `{Codec PieceMetadata.t} : Prop :=
  encode_piece_metadata : forall m,
    scale_encode m = encode_u32 (PieceMetadata.block_num m) ++ scale_encode (PieceMetadata.pos m).

Lemma hash_to_u16_xor_bound hash : is_bytes hash -> in_u 16 (hash_to_u16_xor hash).
Proof.
  intros Hb. unfold hash_to_u16_xor.
  assert (Hch : Forall is_bytes (chunks 2 hash)).
  { apply Forall_forall. intros c Hc. apply Forall_forall. intros b Hbc.
    unfold is_bytes in Hb. rewrite Forall_forall in Hb. apply Hb.
    rewrite <- (concat_chunks 2 hash) by lia. apply list_elem_of_In, in_concat.
    exists c. split; by apply list_elem_of_In. }
  match goal with |- context [fold_left ?g _ 0] => set (f := g) end.
  assert (H0 : in_u 16 0) by done. revert H0. generalize 0.
  induction Hch as [|c cs Hc _ IH]; intros acc Hacc; simpl; [done|].
  apply IH. apply lxor_u; [lia|done|].
  assert (Hd : forall i, in_u 8 (default 0 (c !! i))).
  { intros i. destruct (c !! i) as [b|] eqn:Hi; [|done]. by eapply Forall_lookup_1 in Hc. }
  apply (from_be_bytes_bound [default 0 (c !! 0%nat); default 0 (c !! 1%nat)]).
  repeat (constructor; [apply Hd|]). constructor.
Qed.

(** ** Neighbouring offsets *)
Definition partner (i : Z) : Z := if i mod 2 =? 0 then i + 1 else i - 1.

Lemma partner_spec i : in_u 32 i ->
  YPos.match_x_pos (YPos.from_u32 i) = YPos.from_u32 (partner i) /\ in_u 32 (partner i).
Proof.
  unfold in_u, YPos.from_u32, partner. intros Hi.
  pose proof (Z.div_mod i 2 ltac:(lia)) as Hdm. pose proof (Z.mod_pos_bound i 2 ltac:(lia)).
  destruct (Z.eqb_spec (i mod 2) 0) as [He|He]; simpl.
  - rewrite wrap_small by (unfold in_u; lia).
    replace ((i + 1) mod 2) with 1; [split; [done|lia]|].
    rewrite Hdm, He. apply (Z.mod_unique_pos _ _ (i / 2)); lia.
  - rewrite wrap_small by (unfold in_u; lia).
    replace ((i - 1) mod 2) with 0; [split; [done|lia]|].
    apply (Z.mod_unique_pos _ _ (i / 2)); lia.
Qed.

Lemma from_u32_to_u32 i : YPos.to_u32 (YPos.from_u32 i) = i.
Proof. unfold YPos.from_u32. by destruct (_ =? _). Qed.

Lemma from_u32_inj i j : YPos.from_u32 i = YPos.from_u32 j -> i = j.
Proof. intros Heq. by rewrite <- (from_u32_to_u32 i), Heq, from_u32_to_u32. Qed.

Section index.
Context `{KzgLib} `{!FrBytesLaws} `{HashLib} `{!HashLaws} `{ScaleInts} `{!ScaleIntsLaws}.
Context `{Codec YPos.t} `{!CodecLaws YPos.t} `{Codec PiecePosition.t}
  `{Codec PieceMetadata.t} `{!CodecLaws PieceMetadata.t} `{!PieceKeyLayout}
  `{Codec Piece.t} `{!CodecLaws Piece.t} `{Codec Segment.t}
  `{Codec (list CellMetadata.t)} `{!CodecLaws (list CellMetadata.t)}
  `{Codec (list (CellMetadata.t * CellMetadata.t))}
  `{!CodecLaws (list (CellMetadata.t * CellMetadata.t))}.
Context {DB : Type} `{DasKv DB} `{!DasKvLaws DB}.
Context (farmer_id : FarmerId.t) (Hfarmer : length (FarmerId.inner farmer_id) = 32%nat).
Implicit Types db : DB.

(** A cell as the index sees it. *)
Abbreviation icell := (CellMetadata.t * Segment.t)%type.

Definition y_of (seg : Segment.t) : Z :=
  match YValueManager.calculate_y farmer_id seg with Ok y => y | _ => 0 end.

Lemma calculate_y_Ok seg :
  YValueManager.calculate_y farmer_id seg = Ok (y_of seg) /\ in_u 32 (y_of seg).
Proof.
  unfold y_of, YValueManager.calculate_y. destruct (Segment.data _) as [|b bs]; [done|].
  unfold Crypto.scalar_encode. rewrite length_xor_byte_slices, Hfarmer, length_fr_to_bytes. simpl.
  destruct (fold_hash_Ok (chacha8_keystream (xor_byte_slices (FarmerId.inner farmer_id) (fr_to_bytes b))))
    as (y & -> & Hy); [apply length_chacha8_keystream|apply chacha8_keystream_is_bytes|done].
Qed.

Lemma calculate_z_bound l r : in_u 16 (ZValueManager.calculate_z l r).
Proof. apply hash_to_u16_xor_bound, blake2_256_is_bytes. Qed.

(** ** Keys *)
Definition ykey (i y : Z) : bytes := YValueManager.key_by_x_pos (YPos.from_u32 i) y.

Lemma length_encode_u32 v : length (encode_u32 v) = 4%nat.
Proof. by rewrite encode_u32_le, length_rev, length_to_be_bytes. Qed.
Lemma length_encode_u16 v : length (encode_u16 v) = 2%nat.
Proof. by rewrite encode_u16_le, length_rev, length_to_be_bytes. Qed.
Lemma encode_u32_inj v w : in_u 32 v -> in_u 32 w -> encode_u32 v = encode_u32 w -> v = w.
Proof.
  rewrite !encode_u32_le. intros Hv Hw Heq%(f_equal (@rev Z)). rewrite !rev_involutive in Heq.
  by apply to_be_bytes_inj in Heq.
Qed.
Lemma encode_u16_inj v w : in_u 16 v -> in_u 16 w -> encode_u16 v = encode_u16 w -> v = w.
Proof.
  rewrite !encode_u16_le. intros Hv Hw Heq%(f_equal (@rev Z)). rewrite !rev_involutive in Heq.
  by apply to_be_bytes_inj in Heq.
Qed.

Lemma ykey_inj i i' y y' : in_u 32 i -> in_u 32 i' -> in_u 32 y -> in_u 32 y' ->
  ykey i y = ykey i' y' -> i = i' /\ y = y'.
Proof.
  intros Hi Hi' Hy Hy' Heq. unfold ykey, YValueManager.key_by_x_pos in Heq.
  apply app_inj_1 in Heq as [Hye Hpe]; [|by rewrite !length_encode_u32].
  apply encode_u32_inj in Hye; [|done..].
  apply scale_encode_inj in Hpe; [|unfold wf, YPos_wf; by rewrite from_u32_to_u32..].
  by rewrite <- (from_u32_to_u32 i), Hpe, from_u32_to_u32.
Qed.

Lemma ykey_zkey i y z : ykey i y <> encode_u16 z.
Proof.
  intros Heq%(f_equal length). unfold ykey, YValueManager.key_by_x_pos in Heq.
  rewrite length_app, length_encode_u32, length_encode_u16 in Heq. lia.
Qed.
Lemma pkey_zkey m z : PieceMetadata.key m <> encode_u16 z.
Proof.
  intros Heq%(f_equal length). unfold PieceMetadata.key in Heq.
  rewrite encode_piece_metadata, length_app, length_encode_u32, length_encode_u16 in Heq. lia.
Qed.
Lemma pkey_ykey m i y : wf m -> in_u 32 y -> PieceMetadata.block_num m <> y ->
  PieceMetadata.key m <> ykey i y.
Proof.
  intros [Hm _] Hy Hne Heq. unfold ykey, YValueManager.key_by_x_pos, PieceMetadata.key in Heq.
  rewrite encode_piece_metadata in Heq.
  apply app_inj_1 in Heq as [Hb _]; [|by rewrite !length_encode_u32].
  by apply encode_u32_inj in Hb.
Qed.

(** ** What the store represents *)
Definition cells_of (p : Piece.t) : list icell :=
  (fun '(i, seg) => (CellMetadata.mk (Piece.metadata p) (Z.of_nat i), seg))
    <$> enumerate (Piece.segments p).

(** [a] and [b] are neighbours with the same Y value. *)
Definition matched (a b : icell) : Prop :=
  YPos.match_x_pos (YPos.from_u32 (CellMetadata.offset a.1))
  = YPos.from_u32 (CellMetadata.offset b.1) /\
  y_of a.2 = y_of b.2 /\ y_of a.2 <> 0.

#[export] Instance matched_dec a b : Decision (matched a b).
Proof. unfold matched. apply _. Defined.

(** The Z value of the pair puts the even offset first. *)
Definition pair_z (a b : icell) : Z :=
  if CellMetadata.offset a.1 mod 2 =? 0 then ZValueManager.calculate_z a.2 b.2
  else ZValueManager.calculate_z b.2 a.2.

(** The pair of a cell and an earlier cell it matches. *)
Definition recorded (cs : list icell) (z : Z) (l r : CellMetadata.t) : Prop :=
  exists j k a b, (j < k)%nat /\ cs !! j = Some b /\ cs !! k = Some a /\ matched a b /\
    pair_z a b = z /\ l = a.1 /\ r = b.1.

Definition y_cells (cs : list icell) (i y : Z) : list CellMetadata.t :=
  (filter (fun c : icell => CellMetadata.offset c.1 = i /\ y_of c.2 = y /\ y <> 0) cs).*1.

Definition enc_opt {A} `{Codec (list A)} (l : list A) : option bytes :=
  match l with [] => None | _ => Some (scale_encode l) end.

(** Block numbers in use; the Y values in use avoid them, so that no key of the Y index
    is the key of a piece. *)
Context (blocks : Z -> Prop).

Record indexed (ps : list Piece.t) (cs : list icell) (R : Z -> CellMetadata.t -> CellMetadata.t -> Prop)
    db : Prop := {
  ix_piece : forall p, p ∈ ps -> kv_get (Piece.key p) db = Some (scale_encode p);
  ix_y : forall i y, in_u 32 i -> in_u 32 y -> ~ blocks y ->
    kv_get (ykey i y) db = enc_opt (y_cells cs i y);
  ix_z : forall z, in_u 16 z -> exists l, kv_get (encode_u16 z) db = enc_opt l /\ NoDup l /\
    forall a b, (a, b) ∈ l <-> R z a b
}.

Definition piece_ok (p : Piece.t) : Prop :=
  wf p /\ blocks (PieceMetadata.block_num (Piece.metadata p)) /\
  Z.of_nat (length (Piece.segments p)) < 2 ^ 32 /\
  Forall (fun seg => ~ blocks (y_of seg)) (Piece.segments p).

(** Every indexed cell belongs to a saved piece. *)
Definition stored (ps : list Piece.t) (cs : list icell) : Prop :=
  Forall (fun c => exists p, p ∈ ps /\ c ∈ cells_of p) cs.

Lemma decode_enc_opt {A} `{Wf A} `{Codec (list A)} `{!CodecLaws (list A)} (l : list A) :
  Forall wf l ->
  match enc_opt l with None => Some [] | Some data => decode_all data end = Some l.
Proof. intros Hl. destruct l; [done|]. simpl. by apply decode_all_encode. Qed.

Lemma elem_of_cells_of p c : c ∈ cells_of p <->
  CellMetadata.piece_metadata c.1 = Piece.metadata p /\ 0 <= CellMetadata.offset c.1 /\
  Piece.segments p !! Z.to_nat (CellMetadata.offset c.1) = Some c.2.
Proof.
  unfold cells_of. rewrite list_elem_of_fmap. split.
  - intros ([i seg] & -> & [k Hk]%list_elem_of_lookup). rewrite lookup_enumerate in Hk.
    destruct (_ !! k) eqn:Hs; simplify_eq/=. rewrite Nat2Z.id. split_and!; [done|lia|done].
  - destruct c as [[md off] seg]. simpl. intros (-> & Ho & Hs). exists (Z.to_nat off, seg). split.
    + by rewrite Z2Nat.id.
    + apply list_elem_of_lookup. exists (Z.to_nat off). by rewrite lookup_enumerate, Hs.
Qed.

Lemma indexed_equiv ps cs R R' db :
  (forall z a b, in_u 16 z -> R z a b <-> R' z a b) -> indexed ps cs R db -> indexed ps cs R' db.
Proof.
  intros Heq [Hp Hy Hz]. split; [done|done|]. intros z Hu. destruct (Hz z Hu) as (l & Hl & Hnd & Hin).
  exists l. split_and!; [done|done|]. intros a b. by rewrite Hin, Heq.
Qed.

(** *** Writing a piece *)
Lemma set_piece ps cs R db p :
  indexed ps cs R db -> Forall piece_ok ps -> piece_ok p ->
  Piece.metadata p ∉ Piece.metadata <$> ps ->
  indexed (ps ++ [p]) cs R (kv_set (Piece.key p) (scale_encode p) db).
Proof.
  intros [Hp Hy Hz] Hps (Hwf & Hblk & _) Hnew. split.
  - intros q [Hq|Hq%list_elem_of_singleton]%elem_of_app.
    + rewrite kv_get_set_ne; [by apply Hp|]. intros Heq. apply Hnew.
      rewrite Forall_forall in Hps. destruct (Hps q Hq) as ([Hwq _] & _). destruct Hwf as [Hwp _].
      apply scale_encode_inj in Heq; [|done..]. rewrite Heq. by apply list_elem_of_fmap_2.
    + subst q. by rewrite kv_get_set_eq.
  - intros i y Hi Hy' Hb. rewrite kv_get_set_ne; [by apply Hy|].
    apply pkey_ykey; [apply Hwf|done|]. intros Heq. apply Hb. by rewrite <- Heq.
  - intros z Hu. rewrite kv_get_set_ne by apply pkey_zkey. by apply Hz.
Qed.

(** *** The Y index *)
Lemma y_cells_snoc cs c i y : y_cells (cs ++ [c]) i y = y_cells cs i y ++
  (if decide (CellMetadata.offset c.1 = i /\ y_of c.2 = y /\ y <> 0) then [c.1] else []).
Proof.
  unfold y_cells. rewrite filter_app, fmap_app. f_equal. rewrite filter_cons, filter_nil.
  by destruct (decide _).
Qed.

Lemma y_cells_wf cs i y : Forall (fun c : icell => wf c.1) cs -> Forall wf (y_cells cs i y).
Proof.
  intros Hcs. unfold y_cells. apply Forall_fmap, Forall_forall.
  intros c [_ Hc]%list_elem_of_filter. rewrite Forall_forall in Hcs. by apply Hcs.
Qed.

Lemma y_save ps cs R db md i seg :
  indexed ps cs R db -> Forall (fun c : icell => wf c.1) cs ->
  in_u 32 i -> ~ blocks (y_of seg) ->
  (forall p, p ∈ ps -> blocks (PieceMetadata.block_num (Piece.metadata p)) /\ wf (Piece.metadata p)) ->
  exists db', YValueManager.save (YValueManager.new md i (y_of seg)) db = Ok db' /\
    indexed ps (cs ++ [(CellMetadata.mk md i, seg)]) R db'.
Proof.
  intros [Hp Hy Hz] Hcs Hi Hb Hps. destruct (calculate_y_Ok seg) as [_ Hyu].
  unfold YValueManager.save. cbn [YValueManager.y YValueManager.new].
  destruct (Z.eqb_spec (y_of seg) 0) as [Hz0|Hz0].
  { exists db. split; [done|]. split; [done| |done]. intros i' y' Hi' Hy' Hb'.
    rewrite y_cells_snoc, decide_False, app_nil_r by (simpl; intros (_ & ? & ?); congruence).
    by apply Hy. }
  set (y := y_of seg) in *. change (YValueManager.key _) with (ykey i y).
  set (db' := kv_set (ykey i y) (scale_encode (y_cells cs i y ++ [CellMetadata.mk md i])) db).
  exists db'. split.
  - rewrite Hy by done. pose proof (decode_enc_opt _ (y_cells_wf cs i y Hcs)) as Hdec.
    destruct (enc_opt (y_cells cs i y)) as [data|] eqn:He.
    + by rewrite Hdec.
    + unfold db'. destruct (y_cells cs i y); done.
  - unfold db'. split.
    + intros p Hin. rewrite kv_get_set_ne; [by apply Hp|]. intros Heq. symmetry in Heq. revert Heq.
      destruct (Hps p Hin) as [Hblk Hwf]. apply pkey_ykey; [done|done|]. intros Heq. apply Hb.
      by rewrite <- Heq.
    + intros i' y' Hi' Hy' Hb'. rewrite kv_get_set, y_cells_snoc. simpl. case_decide as Hk.
      * apply ykey_inj in Hk as [<- <-]; [|done..]. rewrite decide_True by done.
        by destruct (y_cells cs i y).
      * rewrite decide_False, app_nil_r; [by apply Hy|]. intros (-> & <- & _). by apply Hk.
    + intros z Hu. rewrite kv_get_set_ne by apply ykey_zkey. by apply Hz.
Qed.

(** The cells found under the partner's key are the matching ones. *)
Lemma y_cells_matched cs md i seg : in_u 32 i ->
  y_cells cs (partner i) (y_of seg)
  = (filter (matched (CellMetadata.mk md i, seg)) cs).*1.
Proof.
  intros Hi. destruct (partner_spec i Hi) as [Hm _]. unfold y_cells. f_equal.
  apply list_filter_iff. intros c. unfold matched. simpl. rewrite Hm. split.
  - intros (<- & -> & ?). done.
  - intros (->%from_u32_inj & <- & ?). done.
Qed.

Lemma match_cells_spec ps cs R db md i seg :
  indexed ps cs R db -> Forall (fun c : icell => wf c.1) cs -> in_u 32 i -> ~ blocks (y_of seg) ->
  YValueManager.match_cells (YValueManager.new md i (y_of seg)) db
  = Ok (filter (matched (CellMetadata.mk md i, seg)) cs).*1.
Proof.
  intros [Hp Hy Hz] Hcs Hi Hb. destruct (calculate_y_Ok seg) as [_ Hyu].
  destruct (partner_spec i Hi) as [Hm Hpi]. rewrite <- y_cells_matched by done.
  unfold YValueManager.match_cells. cbn [YValueManager.pos YValueManager.y YValueManager.new].
  rewrite Hm. change (YValueManager.key_by_x_pos _ _) with (ykey (partner i) (y_of seg)).
  rewrite Hy by done.
  pose proof (decode_enc_opt _ (y_cells_wf cs (partner i) (y_of seg) Hcs)) as Hdec.
  destruct (enc_opt _) as [data|]; [by rewrite Hdec|]. by injection Hdec as <-.
Qed.

(** *** The Z index *)
Definition rel_wf (R : Z -> CellMetadata.t -> CellMetadata.t -> Prop) : Prop :=
  forall z a b, R z a b -> wf a /\ wf b.

Lemma z_save ps cs R db z0 l r :
  indexed ps cs R db -> rel_wf R -> in_u 16 z0 ->
  (forall p, p ∈ ps -> wf (Piece.metadata p)) ->
  indexed ps cs (fun z a b => R z a b \/ z = z0 /\ a = l /\ b = r)
    (ZValueManager.save (ZValueManager.mk z0 l r) db).
Proof.
  intros Hix HR Hz0 Hps. destruct (ix_z _ _ _ _ Hix z0 Hz0) as (pairs & Hget & Hnd & Hin).
  assert (Hpairs : default [] (kv_get (encode_u16 z0) db ≫= decode_all) = pairs).
  { rewrite Hget. assert (Hwf : Forall wf pairs).
    { apply Forall_forall. intros [a b] Hab%Hin. by apply HR in Hab. }
    pose proof (decode_enc_opt pairs Hwf) as Hdec. destruct (enc_opt pairs); simpl.
    - by rewrite Hdec.
    - by injection Hdec. }
  unfold ZValueManager.save. cbn [ZValueManager.z ZValueManager.left ZValueManager.right].
  rewrite Hpairs. case_bool_decide as Hmem.
  { eapply indexed_equiv; [|exact Hix]. intros z a b _. split; [by left|].
    intros [?|(-> & -> & ->)]; [done|by apply Hin]. }
  destruct Hix as [Hp Hy Hz]. split.
  - intros p Hpin. rewrite kv_get_set_ne; [by apply Hp|]. intros Heq. symmetry in Heq.
    by apply pkey_zkey in Heq.
  - intros i y Hi Hy' Hb. rewrite kv_get_set_ne; [by apply Hy|]. intros Heq. symmetry in Heq.
    by apply ykey_zkey in Heq.
  - intros z Hu. rewrite kv_get_set. case_decide as Hk.
    + apply encode_u16_inj in Hk as <-; [|done..]. exists (pairs ++ [(l, r)]). split_and!.
      * by destruct pairs.
      * apply NoDup_app. split_and!; [done| |apply NoDup_singleton]. set_solver.
      * intros a b. rewrite elem_of_app, list_elem_of_singleton, Hin. naive_solver.
    + destruct (Hz z Hu) as (pairs' & Hg & Hn & Hi'). exists pairs'. split_and!; [done|done|].
      intros a b. rewrite Hi'. split; [by left|]. intros [?|(-> & _)]; done.
Qed.

(** *** Reading a cell back *)
Lemma get_cell_spec ps cs R db p c :
  indexed ps cs R db -> p ∈ ps -> piece_ok p -> c ∈ cells_of p ->
  Piece.get_cell c.1 db = Ok (Some c.2).
Proof.
  intros [Hp _ _] Hin ([Hm Hs] & _ & Hlen & _) (Hmd & Hoff & Hseg)%elem_of_cells_of.
  unfold Piece.get_cell, PieceMetadata.key. rewrite Hmd.
  change (scale_encode (Piece.metadata p)) with (Piece.key p). rewrite Hp by done.
  rewrite decode_all_encode by done. unfold Piece.cell.
  apply lookup_lt_Some in Hseg as Hlt. rewrite wrap_small by (unfold in_u; lia).
  rewrite (proj2 (Z.leb_gt _ _)) by lia. by rewrite Hseg.
Qed.

Lemma pair_z_bound a b : in_u 16 (pair_z a b).
Proof. unfold pair_z. destruct (_ =? _); apply calculate_z_bound. Qed.

Lemma save_pairs_spec ps cs db c bs : forall R,
  indexed ps cs R db -> rel_wf R -> Forall piece_ok ps -> wf c.1 ->
  Forall (fun b : icell => wf b.1 /\ exists p, p ∈ ps /\ b ∈ cells_of p) bs ->
  exists db', Piece.save_pairs (YPos.from_u32 (CellMetadata.offset c.1)) c.1 c.2 bs.*1 db
      = (Ok tt, db') /\
    indexed ps cs (fun z l r => R z l r \/
      exists b, b ∈ bs /\ z = pair_z c b /\ l = c.1 /\ r = b.1) db'.
Proof.
  revert db. induction bs as [|b bs IH]; intros db R Hix HR Hps Hc Hbs.
  - exists db. split; [done|]. eapply indexed_equiv; [|exact Hix].
    intros z a b _. split; [by left|]. intros [?|(b' & Hb' & _)]; [done|]. set_solver.
  - apply Forall_cons in Hbs as [(Hwb & p & Hpin & Hbp) Hbs]. simpl.
    unfold mbind at 1, stM_bind at 1. rewrite (get_cell_spec ps cs R db p b); [|done|done| |done].
    2: { rewrite Forall_forall in Hps. by apply Hps. }
    unfold mbind at 1, stM_bind at 1, modify at 1.
    assert (Hnew : match YPos.from_u32 (CellMetadata.offset c.1) with
        | YPos.Left _ => ZValueManager.new c.1 b.1 c.2 b.2
        | YPos.Right _ => ZValueManager.new c.1 b.1 b.2 c.2 end
        = ZValueManager.mk (pair_z c b) c.1 b.1).
    { unfold YPos.from_u32, pair_z. by destruct (_ =? 0). }
    rewrite Hnew.
    destruct (IH (ZValueManager.save (ZValueManager.mk (pair_z c b) c.1 b.1) db)
      (fun z l r => R z l r \/ z = pair_z c b /\ l = c.1 /\ r = b.1)) as (db' & Hs & Hix').
    + apply z_save; [done|done|apply pair_z_bound|]. intros q Hq.
      rewrite Forall_forall in Hps. apply (Hps q Hq).
    + intros z l r [?|(_ & -> & ->)]; [by eapply HR|done].
    + done.
    + done.
    + done.
    + exists db'. split; [exact Hs|]. eapply indexed_equiv; [|exact Hix'].
      intros z l r _. split.
      * intros [[?|(-> & -> & ->)]|(b' & ? & ?)]; [by left| |]; right; [exists b|exists b']; set_solver.
      * intros [?|(b' & [->|Hb']%elem_of_cons & ? & ? & ?)]; [by left; left|by left; right|].
        right. by exists b'.
Qed.

(** *** Saving pieces *)
Lemma matched_irrefl c : ~ matched c c.
Proof. intros [Hm _]. unfold YPos.from_u32 in Hm. by destruct (_ =? 0). Qed.

Lemma recorded_snoc cs c z l r : recorded (cs ++ [c]) z l r <->
  recorded cs z l r \/ exists b, b ∈ filter (matched c) cs /\ z = pair_z c b /\ l = c.1 /\ r = b.1.
Proof.
  split.
  - intros (j & k & a & b & Hjk & Hj & Hk & Hm & Hz & Hl & Hr).
    apply lookup_lt_Some in Hk as Hlt. rewrite length_app in Hlt. simpl in Hlt.
    rewrite lookup_app_l in Hj by lia. destruct (decide (k < length cs)%nat) as [Hkl|Hkl].
    + left. rewrite lookup_app_l in Hk by done. by exists j, k, a, b.
    + right. rewrite list_lookup_middle in Hk by lia. injection Hk as <-. exists b.
      split_and!; [|done..]. apply list_elem_of_filter. split; [done|]. by eapply list_elem_of_lookup_2.
  - intros [(j & k & a & b & Hjk & Hj & Hk & Hrest)|(b & [Hm [j Hj]%list_elem_of_lookup]%list_elem_of_filter & -> & -> & ->)].
    + exists j, k, a, b. split; [done|]. rewrite !lookup_app_l; [done|by eapply lookup_lt_Some..].
    + exists j, (length cs), c, b. apply lookup_lt_Some in Hj as Hlt. split; [done|].
      rewrite lookup_app_l by done. by rewrite list_lookup_middle.
Qed.

Lemma stored_wf ps cs : Forall piece_ok ps -> stored ps cs ->
  Forall (fun c : icell => wf c.1 /\ exists p, p ∈ ps /\ c ∈ cells_of p) cs.
Proof.
  intros Hps Hst. eapply Forall_impl; [exact Hst|]. intros c (p & Hp & Hc). split; [|by exists p].
  rewrite Forall_forall in Hps. destruct (Hps p Hp) as ([Hm _] & _ & Hlen & _).
  apply elem_of_cells_of in Hc as (Hmd & Hoff & Hseg). apply lookup_lt_Some in Hseg.
  unfold wf, CellMetadata.t_wf. rewrite Hmd. split; [done|]. unfold in_u. lia.
Qed.

Lemma recorded_wf cs : Forall (fun c : icell => wf c.1) cs -> rel_wf (recorded cs).
Proof.
  intros Hcs z l r (j & k & a & b & _ & Hj & Hk & _ & _ & -> & ->).
  split; by eapply (Forall_lookup_1 (fun c : icell => wf c.1)).
Qed.

Lemma save_cells_spec ps p l : forall cs db,
  indexed ps cs (recorded cs) db -> Forall piece_ok ps -> p ∈ ps -> stored ps cs ->
  Forall (fun '(i, seg) => Piece.segments p !! i = Some seg) l ->
  let cs' := cs ++ ((fun '(i, seg) => (CellMetadata.mk (Piece.metadata p) (Z.of_nat i), seg)) <$> l) in
  exists db', Piece.save_cells (Piece.metadata p) farmer_id l db = (Ok tt, db') /\
    indexed ps cs' (recorded cs') db' /\ stored ps cs'.
Proof.
  induction l as [|[i seg] l IH]; intros cs db Hix Hps Hp Hst Hl cs'.
  { exists db. unfold cs'. by rewrite app_nil_r. }
  apply Forall_cons in Hl as [Hi Hl]. pose proof Hps as Hps'. rewrite Forall_forall in Hps'.
  destruct (Hps' p Hp) as ([Hmw _] & _ & Hlen & Hys). apply lookup_lt_Some in Hi as Hlt.
  assert (Hiu : in_u 32 (Z.of_nat i)) by (unfold in_u; lia).
  assert (Hyb : ~ blocks (y_of seg)) by (by eapply (Forall_lookup_1 (fun s => ~ blocks (y_of s))) in Hys).
  destruct (calculate_y_Ok seg) as [Hy _].
  set (c := (CellMetadata.mk (Piece.metadata p) (Z.of_nat i), seg)).
  assert (Hst' : stored ps (cs ++ [c])).
  { apply Forall_app. split; [done|]. apply Forall_singleton. exists p. split; [done|].
    apply elem_of_cells_of. simpl. rewrite Nat2Z.id. split_and!; [done|lia|done]. }
  pose proof (stored_wf ps _ Hps Hst') as Hwf'. pose proof (stored_wf ps _ Hps Hst) as Hwf.
  assert (Hw : Forall (fun c : icell => wf c.1) cs) by (eapply Forall_impl; [exact Hwf|]; naive_solver).
  assert (Hw' : Forall (fun c : icell => wf c.1) (cs ++ [c])) by (eapply Forall_impl; [exact Hwf'|]; naive_solver).
  destruct (y_save ps cs _ db (Piece.metadata p) (Z.of_nat i) seg Hix Hw Hiu Hyb) as (db1 & Hs1 & Hix1).
  { intros q Hq. destruct (Hps' q Hq) as ([? _] & ? & _). done. }
  pose proof (match_cells_spec ps _ _ db1 (Piece.metadata p) (Z.of_nat i) seg Hix1 Hw' Hiu Hyb) as Hmc.
  fold c in Hmc, Hix1. rewrite filter_app, filter_cons_False, filter_nil, app_nil_r in Hmc
    by apply matched_irrefl.
  destruct (save_pairs_spec ps (cs ++ [c]) db1 c (filter (matched c) cs) (recorded cs) Hix1)
    as (db2 & Hs2 & Hix2); [by apply recorded_wf|done| | |].
  { apply Forall_app in Hw' as [_ Hc]. by apply Forall_cons in Hc as [Hc _]. }
  { apply Forall_forall. intros b [_ Hb]%list_elem_of_filter. rewrite Forall_forall in Hwf. by apply Hwf. }
  assert (Hix2' : indexed ps (cs ++ [c]) (recorded (cs ++ [c])) db2).
  { eapply indexed_equiv; [|exact Hix2]. intros z a b _. by rewrite recorded_snoc. }
  destruct (IH (cs ++ [c]) db2 Hix2' Hps Hp Hst' Hl) as (db3 & Hs3 & Hix3 & Hst3).
  exists db3. rewrite <- app_assoc in Hix3, Hst3. split; [|done].
  cbn [Piece.save_cells]. unfold mbind, stM_bind, lift_res. rewrite Hy.
  rewrite wrap_small by done. rewrite Hs1, Hmc.
  change (Z.of_nat i) with (CellMetadata.offset c.1) at 1.
  change (CellMetadata.mk (Piece.metadata p) (Z.of_nat i)) with c.1. change seg with c.2 at 1.
  rewrite Hs2. exact Hs3.
Qed.

Lemma enumerate_lookup_all (p : Piece.t) :
  Forall (fun '(i, seg) => Piece.segments p !! i = Some seg) (enumerate (Piece.segments p)).
Proof.
  apply Forall_forall. intros [i seg] [k Hk]%list_elem_of_lookup. rewrite lookup_enumerate in Hk.
  destruct (_ !! k) eqn:Hs; by simplify_eq/=.
Qed.

Lemma save_spec ps cs db p :
  indexed ps cs (recorded cs) db -> Forall piece_ok ps -> stored ps cs -> piece_ok p ->
  Piece.metadata p ∉ Piece.metadata <$> ps ->
  let cs' := cs ++ cells_of p in
  exists db', Piece.save p farmer_id db = (Ok tt, db') /\
    indexed (ps ++ [p]) cs' (recorded cs') db' /\ stored (ps ++ [p]) cs'.
Proof.
  intros Hix Hps Hst Hp Hnew cs'.
  pose proof (set_piece _ _ _ _ p Hix Hps Hp Hnew) as Hix1.
  destruct (save_cells_spec (ps ++ [p]) p (enumerate (Piece.segments p)) cs _ Hix1)
    as (db' & Hs & Hix' & Hst').
  - apply Forall_app. split; [done|]. by apply Forall_singleton.
  - apply elem_of_app. right. by apply list_elem_of_singleton.
  - eapply Forall_impl; [exact Hst|]. intros c (q & Hq & Hc). exists q. split; [|done].
    apply elem_of_app. by left.
  - apply enumerate_lookup_all.
  - by exists db'.
Qed.

Fixpoint save_all (ps : list Piece.t) : stM string DB unit :=
  match ps with
  | [] => mret tt
  | p :: ps => _ ← Piece.save p farmer_id; save_all ps
  end.

Lemma save_all_spec ps : forall qs cs db,
  indexed qs cs (recorded cs) db -> Forall piece_ok qs -> stored qs cs -> Forall piece_ok ps ->
  NoDup (Piece.metadata <$> qs ++ ps) ->
  let cs' := cs ++ (ps ≫= cells_of) in
  exists db', save_all ps db = (Ok tt, db') /\ indexed (qs ++ ps) cs' (recorded cs') db'.
Proof.
  induction ps as [|p ps IH]; intros qs cs db Hix Hqs Hst Hps Hnd cs'.
  { exists db. unfold cs'. simpl. by rewrite !app_nil_r. }
  apply Forall_cons in Hps as [Hp Hps]. rewrite fmap_app, fmap_cons in Hnd.
  destruct (save_spec qs cs db p Hix Hqs Hst Hp) as (db1 & Hs & Hix1 & Hst1).
  { apply NoDup_app in Hnd as (_ & Hd & _). intros Hin. apply (Hd _ Hin). left. }
  destruct (IH (qs ++ [p]) (cs ++ cells_of p) db1 Hix1) as (db2 & Hs2 & Hix2); [|done|done| |].
  - apply Forall_app. split; [done|]. by apply Forall_singleton.
  - rewrite <- app_assoc, fmap_app. exact Hnd.
  - exists db2. unfold cs'. rewrite <- !app_assoc in Hix2. split; [|by rewrite bind_cons].
    cbn [save_all]. unfold mbind, stM_bind. by rewrite Hs.
Qed.
End index.
