(* ===== verification/PosProps.v ===== *)
(** * What a farmer finds

    Properties of the proof-of-space index and of the solutions found in it, and a
    concrete store. *)

From S2P Require Import Prelude Codec DasDb KzgLib KzgIndex KzgToy DasPrimitives CorePrimitives.
From S2P Require Import Reliability PosUtils ProofOfSpace PosIndex.

Section solutions.
Context `{KzgLib} `{!FrBytesLaws} `{HashLib} `{!HashLaws} `{ScaleInts} `{!ScaleIntsLaws}.
Context `{Codec YPos.t} `{!CodecLaws YPos.t} `{Codec PiecePosition.t}
  `{Codec PieceMetadata.t} `{!CodecLaws PieceMetadata.t} `{!PieceKeyLayout}
  `{Codec Piece.t} `{!CodecLaws Piece.t} `{Codec Segment.t}
  `{Codec (list CellMetadata.t)} `{!CodecLaws (list CellMetadata.t)}
  `{Codec (list (CellMetadata.t * CellMetadata.t))}
  `{!CodecLaws (list (CellMetadata.t * CellMetadata.t))}.
Context {DB : Type} `{DasKv DB} `{!DasKvLaws DB}.
Context (farmer_id : FarmerId.t) (Hfarmer : length (FarmerId.inner farmer_id) = 32%nat).
Implicit Types (db : DB) (ps : list Piece.t).

Definition block_of (p : Piece.t) : Z := PieceMetadata.block_num (Piece.metadata p).

(** Pieces of different rows and columns, within their integer ranges, with no Y value
    equal to a block number. *)
Definition savable ps : Prop :=
  NoDup (Piece.metadata <$> ps) /\ Forall (piece_ok farmer_id (fun b => b ∈ block_of <$> ps)) ps.

Definition empty_db db : Prop := forall k, kv_get k db = None.

Lemma empty_indexed blocks db0 : empty_db db0 ->
  indexed farmer_id blocks [] [] (recorded farmer_id []) db0.
Proof.
  intros He. split; [set_solver| |].
  - intros i y _ _ _. apply He.
  - intros z _. exists []. split_and!; [apply He|constructor|]. intros a b. split; [set_solver|].
    intros (j & k & ? & ? & _ & Hj & _). by rewrite lookup_nil in Hj.
Qed.

Lemma save_all_indexed ps db0 : savable ps -> empty_db db0 ->
  exists db, save_all farmer_id ps db0 = (Ok tt, db) /\
    indexed farmer_id (fun b => b ∈ block_of <$> ps) ps (ps ≫= cells_of)
      (recorded farmer_id (ps ≫= cells_of)) db.
Proof.
  intros [Hnd Hok] He.
  by apply (save_all_spec farmer_id Hfarmer (fun b => b ∈ block_of <$> ps) ps [] [] db0);
    [apply empty_indexed|constructor|constructor|..].
Qed.

Section blocks.
Context (blocks : Z -> Prop).

Lemma recorded_cells_wf ps z a b : Forall (piece_ok farmer_id blocks) ps ->
  recorded farmer_id (ps ≫= cells_of) z a b -> wf a /\ wf b.
Proof.
  intros Hok Hr. assert (Hst : stored ps (ps ≫= cells_of)).
  { apply Forall_forall. intros c (p & Hc & Hp)%list_elem_of_bind. by exists p. }
  eapply recorded_wf; [|exact Hr].
  eapply Forall_impl; [eapply stored_wf; [exact Hfarmer|exact Hok|exact Hst]|]. by intros c [? _].
Qed.

Lemma z_get_indexed ps db z : Forall (piece_ok farmer_id blocks) ps -> in_u 16 z ->
  indexed farmer_id blocks ps (ps ≫= cells_of) (recorded farmer_id (ps ≫= cells_of)) db ->
  exists l, ZValueManager.get db z = Ok l /\ NoDup l /\
    forall a b, (a, b) ∈ l <-> recorded farmer_id (ps ≫= cells_of) z a b.
Proof.
  intros Hs Hz Hix. destruct (ix_z _ _ _ _ _ _ Hix z Hz) as (l & Hl & Hnd & Hin).
  exists l. split_and!; [|done|done]. unfold ZValueManager.get. rewrite Hl.
  assert (Hwf : Forall wf l).
  { apply Forall_forall. intros [a b] Hab%Hin. by apply (recorded_cells_wf ps z). }
  pose proof (decode_enc_opt l Hwf) as Hdec. destruct (enc_opt l); [by rewrite Hdec|].
  by injection Hdec as <-.
Qed.

Lemma get_cell_indexed ps db c : Forall (piece_ok farmer_id blocks) ps -> c ∈ ps ≫= cells_of ->
  indexed farmer_id blocks ps (ps ≫= cells_of) (recorded farmer_id (ps ≫= cells_of)) db ->
  Piece.get_cell c.1 db = Ok (Some c.2).
Proof.
  intros Hok (p & Hc & Hp)%list_elem_of_bind Hix. rewrite Forall_forall in Hok.
  eapply get_cell_spec; [exact Hfarmer|exact Hix|exact Hp|by apply Hok|exact Hc].
Qed.

End blocks.

(** C11: Saving is complete and exact for pieces that do not collide: saving pieces with
    different positions and numbers in range, none of whose cells has a Y value equal to the
    number of a block a piece is saved for (the key of such a Y value can be the key of a
    piece), into an empty store succeeds; every cell can be read back; and for every challenge
    [z] the pairs listed under [z] are, without repetition, exactly the pairs of a cell with
    an earlier saved cell of the neighbouring offset that has the same nonzero Y value and
    whose Z value is [z]. *)
Theorem save_all_index ps db0 : savable ps -> empty_db db0 ->
  exists db, save_all farmer_id ps db0 = (Ok tt, db) /\
    (forall p c, p ∈ ps -> c ∈ cells_of p -> Piece.get_cell c.1 db = Ok (Some c.2)) /\
    forall z, in_u 16 z -> exists l, ZValueManager.get db z = Ok l /\ NoDup l /\
      forall a b, (a, b) ∈ l <-> recorded farmer_id (ps ≫= cells_of) z a b.
Proof.
  intros Hs He. destruct (save_all_indexed ps db0 Hs He) as (db & Hdb & Hix).
  exists db. split_and!; [done| |].
  - intros p c Hp Hc. eapply get_cell_indexed; [apply Hs| |done]. apply list_elem_of_bind. by exists p.
  - intros z Hz. eapply z_get_indexed; [apply Hs|done..].
Qed.

(** *** Solutions *)
Definition accepts (s : Solution.t) (z : Z) : res string bool :=
  ZValueManager.verify z (Solution.farmer_id s) (cell_seg (Solution.win_cell_left s))
    (cell_seg (Solution.win_cell_right s)) (cell_metadata (Solution.win_cell_left s))
    (cell_metadata (Solution.win_cell_right s)).

Definition solution_cells (s : Solution.t) : (CellMetadata.t * Segment.t) * (CellMetadata.t * Segment.t) :=
  ((cell_metadata (Solution.win_cell_left s), cell_seg (Solution.win_cell_left s)),
   (cell_metadata (Solution.win_cell_right s), cell_seg (Solution.win_cell_right s))).

Lemma matched_is_pair a b : matched farmer_id a b -> CellMetadata.is_pair a.1 b.1 = true.
Proof.
  intros [Hm _]. unfold CellMetadata.is_pair. revert Hm. unfold YPos.from_u32.
  destruct (CellMetadata.offset a.1 mod 2 =? 0), (CellMetadata.offset b.1 mod 2 =? 0); simpl;
    intros [= ->]; apply Z.eqb_refl.
Qed.

Lemma accepts_matched a b pre h :
  matched farmer_id a b ->
  accepts (Solution.mk h farmer_id pre (mkCell a.1 a.2) (mkCell b.1 b.2)) (pair_z a b)
  = Ok ((CellMetadata.offset a.1 mod 2 =? 0)
        || (ZValueManager.calculate_z b.2 a.2 =? ZValueManager.calculate_z a.2 b.2)).
Proof.
  intros Hm. unfold accepts, ZValueManager.verify. simpl.
  rewrite (proj1 (calculate_y_Ok farmer_id Hfarmer a.2)). bind_simpl.
  rewrite (proj1 (calculate_y_Ok farmer_id Hfarmer b.2)). bind_simpl.
  rewrite (matched_is_pair a b Hm). destruct Hm as (_ & -> & _). rewrite Z.eqb_refl.
  unfold pair_z. destruct (_ mod 2 =? 0); simpl; by rewrite ?Z.eqb_refl, !andb_true_r.
Qed.

Lemma find_solutions_indexed blocks ps db pre h z : Forall (piece_ok farmer_id blocks) ps -> in_u 16 z ->
  indexed farmer_id blocks ps (ps ≫= cells_of) (recorded farmer_id (ps ≫= cells_of)) db ->
  exists sols, Solution.find_solutions_with_z db farmer_id pre h z = Ok sols /\
    forall s, s ∈ sols <-> exists j k a b, (j < k)%nat /\
      (ps ≫= cells_of) !! j = Some b /\ (ps ≫= cells_of) !! k = Some a /\
      matched farmer_id a b /\ pair_z a b = z /\
      s = Solution.mk h farmer_id pre (mkCell a.1 a.2) (mkCell b.1 b.2).
Proof.
  intros Hs Hz Hix. destruct (z_get_indexed blocks ps db z Hs Hz Hix) as (l & Hl & _ & Hin).
  unfold Solution.find_solutions_with_z. rewrite Hl. bind_simpl. eexists. split; [done|].
  assert (Hsol : forall a b, a ∈ ps ≫= cells_of -> b ∈ ps ≫= cells_of ->
      Solution.solution_of db farmer_id pre h (a.1, b.1)
      = Some (Solution.mk h farmer_id pre (mkCell a.1 a.2) (mkCell b.1 b.2))).
  { intros a b Ha Hb. unfold Solution.solution_of. simpl.
    by rewrite (get_cell_indexed blocks ps db a Hs Ha Hix), (get_cell_indexed blocks ps db b Hs Hb Hix). }
  intros s. rewrite list_elem_of_omap. split.
  - intros ([ma mb] & (j & k & a & b & Hjk & Hj & Hk & Hm & Hz' & -> & ->)%Hin & Hsome).
    rewrite Hsol in Hsome by (by eapply list_elem_of_lookup_2). injection Hsome as <-.
    by exists j, k, a, b.
  - intros (j & k & a & b & Hjk & Hj & Hk & Hm & Hz' & ->). exists (a.1, b.1). split.
    + apply Hin. by exists j, k, a, b.
    + apply Hsol; by eapply list_elem_of_lookup_2.
Qed.

(** Which solutions are found and which of them the chain accepts: the solutions for
    [z] are exactly the matching pairs whose Z value is [z], the later saved cell on the
    left; the Z check accepts such a solution when its left cell has the even offset,
    and otherwise only if the Z value happens to be the same in both orders. *)
Theorem find_solutions_verify ps db0 db pre h z :
  savable ps -> empty_db db0 -> save_all farmer_id ps db0 = (Ok tt, db) -> in_u 16 z ->
  exists sols, Solution.find_solutions_with_z db farmer_id pre h z = Ok sols /\
    (forall j k a b, (j < k)%nat ->
       (ps ≫= cells_of) !! j = Some b -> (ps ≫= cells_of) !! k = Some a ->
       matched farmer_id a b -> pair_z a b = z ->
       Solution.mk h farmer_id pre (mkCell a.1 a.2) (mkCell b.1 b.2) ∈ sols) /\
    forall s, s ∈ sols -> let '(l, r) := solution_cells s in
      matched farmer_id l r /\ pair_z l r = z /\
      accepts s z = Ok ((CellMetadata.offset l.1 mod 2 =? 0)
        || (ZValueManager.calculate_z r.2 l.2 =? ZValueManager.calculate_z l.2 r.2)).
Proof.
  intros Hs He Hsave Hz. destruct (save_all_indexed ps db0 Hs He) as (db' & Hdb & Hix).
  assert (db' = db) as -> by congruence.
  destruct (find_solutions_indexed _ ps db pre h z (proj2 Hs) Hz Hix) as (sols & Hsols & Hin).
  exists sols. split_and!; [done| |].
  - intros j k a b Hjk Hj Hk Hm Hpz. apply Hin. by exists j, k, a, b.
  - intros s (j & k & [ma sa] & [mb sb] & _ & _ & _ & Hm & <- & ->)%Hin.
    split_and!; [exact Hm|done|]. exact (accepts_matched (ma, sa) (mb, sb) pre h Hm).
Qed.

(** Every pair within one piece is recorded the wrong way round: of a single saved
    piece, the chain's Z check accepts a found solution only where the Z value of its two
    cells happens to be the same in both orders. *)
Theorem single_piece_rejected p db0 db pre h z sols s :
  savable [p] -> empty_db db0 -> Piece.save p farmer_id db0 = (Ok tt, db) -> in_u 16 z ->
  Solution.find_solutions_with_z db farmer_id pre h z = Ok sols -> s ∈ sols ->
  let '(l, r) := solution_cells s in
  accepts s z
  = Ok (ZValueManager.calculate_z r.2 l.2 =? ZValueManager.calculate_z l.2 r.2).
Proof.
  intros Hs He Hsave Hz Hf Hin.
  assert (Hsave' : save_all farmer_id [p] db0 = (Ok tt, db))
    by (cbn [save_all]; unfold mbind, stM_bind; by rewrite Hsave).
  destruct (save_all_indexed [p] db0 Hs He) as (db' & Hdb & Hix).
  assert (db' = db) as -> by congruence.
  destruct (find_solutions_indexed _ [p] db pre h z (proj2 Hs) Hz Hix) as (sols' & Hsols & Hmem).
  assert (sols' = sols) as -> by congruence.
  apply Hmem in Hin as (j & k & [ma sa] & [mb sb] & Hjk & Hj & Hk & Hm & <- & ->).
  rewrite (accepts_matched (ma, sa) (mb, sb) pre h Hm). simpl.
  destruct (CellMetadata.offset ma mod 2 =? 0) eqn:Heven; [|done].
  exfalso. simpl in Hj, Hk. rewrite app_nil_r in Hj, Hk.
  unfold cells_of in Hj, Hk. rewrite list_lookup_fmap, lookup_enumerate in Hj, Hk.
  destruct (Piece.segments p !! j), (Piece.segments p !! k) eqn:Ek; simplify_eq/=.
  destruct Hm as [Hm _]. simpl in Hm. destruct Hs as [_ Hok].
  apply Forall_cons in Hok as [(_ & _ & Hlen & _) _].
  destruct (decide (k < length (Piece.segments p))%nat) as [Hlt|Hge].
  - rewrite (proj1 (partner_spec (Z.of_nat k) ltac:(unfold in_u; lia))) in Hm.
    apply from_u32_inj in Hm. unfold partner in Hm. rewrite Heven in Hm. lia.
  - apply Hge. by eapply lookup_lt_Some.
Qed.
End solutions.

(** ** A concrete store *)
Section store_witness.
#[local] Existing Instances bytes_lib bytes_lib_fr MockDb.kv MockDb.kv_laws.

(** The hash weighs bytes by their position; the key stream is constant. *)
#[local] Instance toy_hash : HashLib := {|
  blake2_256 m := (foldl (fun acc b => 3 * acc + b) 1 m) mod 256 :: replicate 31 0;
  chacha8_keystream _ := [0; 0; 0; 5] ++ replicate 28 0
|}.
#[local] Instance toy_hash_laws : HashLaws.
Proof.
  split; simpl; intros.
  - done.
  - constructor; [|by repeat constructor]. apply Z.mod_pos_bound. done.
  - done.
  - by repeat constructor.
Qed.
#[local] Instance toy_ints : ScaleInts := {|
  encode_u16 v := rev (to_be_bytes 2 v); encode_u32 v := rev (to_be_bytes 4 v) |}.
#[local] Instance toy_ints_laws : ScaleIntsLaws.
Proof. by split. Qed.

#[local] Instance YPos_countable : Countable YPos.t :=
  inj_countable' (fun p => match p with YPos.Left v => inl v | YPos.Right v => inr v end)
    (fun s => match s with inl v => YPos.Left v | inr v => YPos.Right v end) ltac:(by intros []).
#[local] Instance PiecePosition_countable : Countable PiecePosition.t :=
  inj_countable' (fun p => match p with PiecePosition.Row v => inl v | PiecePosition.Column v => inr v end)
    (fun s => match s with inl v => PiecePosition.Row v | inr v => PiecePosition.Column v end)
    ltac:(by intros []).
#[local] Instance PieceMetadata_countable : Countable PieceMetadata.t :=
  inj_countable' (fun m => (PieceMetadata.block_num m, PieceMetadata.pos m))
    (fun p => PieceMetadata.mk p.1 p.2) ltac:(by intros []).
#[local] Instance CellMetadata_countable : Countable CellMetadata.t :=
  inj_countable' (fun m => (CellMetadata.piece_metadata m, CellMetadata.offset m))
    (fun p => CellMetadata.mk p.1 p.2) ltac:(by intros []).
#[local] Instance Position_countable' : Countable Position :=
  inj_countable' (fun p => (Crypto.x p, Crypto.y p)) (fun p => Crypto.mkPosition p.1 p.2)
    ltac:(by intros []).
#[local] Instance fr_countable : Countable (@FsFr bytes_lib) := _ : Countable (enc 32).
#[local] Instance g1_countable : Countable (@FsG1 bytes_lib) := _ : Countable (enc 48).
#[local] Instance SegmentData_countable : Countable Segment.SegmentData :=
  inj_countable' (fun d => (Segment.data d, Segment.proof d)) (fun p => Segment.mkData p.1 p.2)
    ltac:(by intros []).
#[local] Instance Segment_countable : Countable Segment.t :=
  inj_countable' (fun d => (Segment.position d, Segment.content d)) (fun p => Segment.mk p.1 p.2)
    ltac:(by intros []).
#[local] Instance Piece_eq_dec : EqDecision Piece.t.
Proof. solve_decision. Defined.
#[local] Instance Piece_countable : Countable Piece.t :=
  inj_countable' (fun d => (Piece.metadata d, Piece.segments d)) (fun p => Piece.mk p.1 p.2)
    ltac:(by intros []).

#[local] Instance ypos_codec : Codec YPos.t := RefCodec.ref_codec _.
#[local] Instance ypos_codec_laws : CodecLaws YPos.t := RefCodec.ref_codec_laws _ _.
#[local] Instance position_codec : Codec PiecePosition.t := RefCodec.ref_codec _.
#[local] Instance position_codec_laws : CodecLaws PiecePosition.t := RefCodec.ref_codec_laws _ _.
#[local] Instance metadata_codec : Codec PieceMetadata.t := {|
  scale_encode m := encode_u32 (PieceMetadata.block_num m) ++ scale_encode (PieceMetadata.pos m);
  scale_decode l := '(p, r) ← scale_decode (drop 4 l);
    Some (PieceMetadata.mk (from_be_bytes (rev (take 4 l))) p, r)
|}.
#[local] Instance metadata_codec_laws : CodecLaws PieceMetadata.t.
Proof.
  intros [b p] r [Hb Hp]. cbn [scale_encode scale_decode metadata_codec PieceMetadata.block_num
    PieceMetadata.pos] in *. rewrite <- app_assoc.
  rewrite drop_app_length' by done. rewrite take_app_length' by done.
  cbn [encode_u32 toy_ints]. rewrite rev_involutive, from_to_be_bytes by exact Hb.
  by rewrite scale_decode_encode.
Qed.
#[local] Instance metadata_layout : PieceKeyLayout.
Proof. by intros []. Qed.
#[local] Instance piece_codec : Codec Piece.t := RefCodec.ref_codec _.
#[local] Instance piece_codec_laws : CodecLaws Piece.t := RefCodec.ref_codec_laws _ _.
#[local] Instance segment_codec : Codec Segment.t := RefCodec.ref_codec _.
#[local] Instance cells_codec : Codec (list CellMetadata.t) := RefCodec.ref_codec _.
#[local] Instance cells_codec_laws : CodecLaws (list CellMetadata.t) := RefCodec.ref_codec_laws _ _.
#[local] Instance pairs_codec : Codec (list (CellMetadata.t * CellMetadata.t)) := RefCodec.ref_codec _.
#[local] Instance pairs_codec_laws : CodecLaws (list (CellMetadata.t * CellMetadata.t)) :=
  RefCodec.ref_codec_laws _ _.

#[local] Definition farmer : FarmerId.t := FarmerId.default.
#[local] Definition seg_at (x : Z) : Segment.t :=
  Segment.mk (Crypto.mkPosition x 0) (Segment.mkData [fr_zero] g1_identity).
#[local] Definition piece1 : Piece.t := Piece.new 1 (PiecePosition.Row 0) [seg_at 0; seg_at 1].
#[local] Definition store0 : MockDb.t := MockDb.new.
#[local] Definition store1 : MockDb.t := (Piece.save piece1 farmer store0).2.
#[local] Definition challenge : Z := ZValueManager.calculate_z (seg_at 0) (seg_at 1).
#[local] Definition pre : PreCell := pre_cell_new (PiecePosition.Row 0) (seg_at 0).

Lemma piece1_savable : savable farmer [piece1].
Proof.
  split; [apply NoDup_singleton|]. apply Forall_singleton. split_and!.
  - split; [done|]. by repeat constructor.
  - by left.
  - done.
  - repeat (constructor; [intros Hin; apply list_elem_of_singleton in Hin; discriminate Hin|]). constructor.
Qed.
Lemma store0_empty : empty_db store0.
Proof. intros k. apply lookup_empty. Qed.
Lemma save_piece1 : Piece.save piece1 farmer store0 = (Ok tt, store1).
Proof. vm_compute. reflexivity. Qed.

Lemma save_all_index_witness : exists db, save_all farmer [piece1] store0 = (Ok tt, db).
Proof.
  destruct (save_all_index farmer eq_refl [piece1] store0 piece1_savable store0_empty)
    as (db & Hdb & _). by exists db.
Defined.

Lemma find_solutions_verify_witness :
  exists sols, Solution.find_solutions_with_z store1 farmer pre [] challenge = Ok sols /\ sols <> [].
Proof.
  destruct (find_solutions_verify farmer eq_refl [piece1] store0 store1 pre [] challenge)
    as (sols & Hsols & Hall & _).
  - exact piece1_savable.
  - exact store0_empty.
  - cbn [save_all]. unfold mbind, stM_bind. by rewrite save_piece1.
  - apply calculate_z_bound.
  - exists sols. split; [exact Hsols|]. intros ->.
    apply (not_elem_of_nil (A := Solution.t) (Solution.mk [] farmer pre
      (mkCell (CellMetadata.mk (Piece.metadata piece1) 1) (seg_at 1))
      (mkCell (CellMetadata.mk (Piece.metadata piece1) 0) (seg_at 0)))).
    apply (Hall 0%nat 1%nat (CellMetadata.mk (Piece.metadata piece1) 1, seg_at 1)
      (CellMetadata.mk (Piece.metadata piece1) 0, seg_at 0)); [lia|reflexivity|reflexivity| |reflexivity].
    split; [reflexivity|]. split; [reflexivity|]. discriminate.
Defined.

#[local] Definition solution1 : Solution.t :=
  Solution.mk [] farmer pre (mkCell (CellMetadata.mk (Piece.metadata piece1) 1) (seg_at 1))
    (mkCell (CellMetadata.mk (Piece.metadata piece1) 0) (seg_at 0)).
Lemma find_piece1 : exists sols,
  Solution.find_solutions_with_z store1 farmer pre [] challenge = Ok sols /\ solution1 ∈ sols.
Proof.
  destruct (save_all_indexed farmer eq_refl [piece1] store0 piece1_savable store0_empty)
    as (db & Hdb & Hix).
  assert (db = store1) as ->.
  { cbn [save_all] in Hdb. unfold mbind, stM_bind in Hdb. rewrite save_piece1 in Hdb.
    exact (eq_sym (f_equal snd Hdb)). }
  destruct (find_solutions_indexed farmer eq_refl _ [piece1] store1 pre [] challenge (proj2 piece1_savable)
    (calculate_z_bound _ _) Hix) as (sols & Hsols & Hin).
  exists sols. split; [exact Hsols|]. apply Hin.
  exists 0%nat, 1%nat, (CellMetadata.mk (Piece.metadata piece1) 1, seg_at 1),
    (CellMetadata.mk (Piece.metadata piece1) 0, seg_at 0).
  split_and!; [lia|reflexivity|reflexivity| |reflexivity|reflexivity].
  split; [reflexivity|]. split; [reflexivity|]. discriminate.
Qed.
Lemma swapped_z : (challenge =? ZValueManager.calculate_z (seg_at 1) (seg_at 0)) = false.
Proof. vm_compute. reflexivity. Qed.

Lemma single_piece_rejected_witness : accepts solution1 challenge = Ok false.
Proof.
  destruct find_piece1 as (sols & Hf & Hin). rewrite <- swapped_z.
  exact (single_piece_rejected farmer eq_refl piece1 store0 store1 pre [] challenge sols
    solution1 piece1_savable store0_empty save_piece1 (calculate_z_bound _ _) Hf Hin).
Defined.
End store_witness.
