(* ===== verification/MeloStore.v ===== *)
(** * The data submission pallet ([crates/pallet-melo-store/src/lib.rs])

    The pallet's storage is the record [Storage]: a FRAME storage map is a finite map,
    a bounded vector a list whose bound is tested where the source converts or pushes,
    and the block number and block hashes of [frame_system] are part of the record.
    Dispatchables are computations in the state monad; [dispatch] is the extrinsic
    dispatcher, which undoes the writes of a call that returns an error.  Signatures,
    the key store, the transaction pool and the prefix deletion of the trie are
    parameters. *)

From S2P Require Import Prelude Codec DasDb KzgLib KzgIndex KzgToy DasPrimitives Blob.
From S2P Require Import ErasureCoding CorePrimitives Reliability Sidecar.

(** ** [Config] and the environment *)
Class MeloConfig := {
  AccountId : Type;
  AuthorityId : Type;
  Signature : Type;
  AccountId_eq_dec :: EqDecision AccountId;
  AuthorityId_eq_dec :: EqDecision AuthorityId;
  Signature_eq_dec :: EqDecision Signature;
  MaxKeys : Z;
  MaxBlobNum : Z;
  MaxExtedLen : Z;
  MeloUnsignedPriority : Z;
  (* RuntimeAppPublic *)
  authority_verify : AuthorityId -> bytes -> Signature -> bool
}.

(** [StorageDoubleMap::clear_prefix(prefix, limit, None)]. *)
Class ClearPrefix := clear_prefix : Z -> Z -> gmap (Z * Z) (list Z) -> gmap (Z * Z) (list Z).
(** Only entries under the prefix go, and all of them when they fit the limit. *)
Class ClearPrefixLaws `{ClearPrefix} : Prop := {
  clear_prefix_other : forall p l m k, k.1 <> p -> clear_prefix p l m !! k = m !! k;
  clear_prefix_subseteq : forall p l m, clear_prefix p l m ⊆ m;
  clear_prefix_all : forall p l m,
    Z.of_nat (size (filter (fun kv => kv.1.1 = p) m)) <= l ->
    forall i, clear_prefix p l m !! (p, i) = None
}.

Inductive Origin `{MeloConfig} := Signed (who : AccountId) | Root | Unsigned.

Definition DELAY_CHECK_THRESHOLD : Z := 1.
Definition INVALID_VALIDATORS_LEN : Z := 10.
(** b"melodot/melo-store/unavailable-data-report" *)
Definition DB_PREFIX : bytes :=
  [109; 101; 108; 111; 100; 111; 116; 47; 109; 101; 108; 111; 45; 115; 116; 111; 114; 101; 47;
   117; 110; 97; 118; 97; 105; 108; 97; 98; 108; 101; 45; 100; 97; 116; 97; 45; 114; 101; 112;
   111; 114; 116].

(** ** Data *)
Record ReportStatus := mkStatus { status_at_block : Z; sent_at : Z }.
#[export] Instance ReportStatus_eq_dec : EqDecision ReportStatus.
Proof. solve_decision. Defined.

Definition is_recent (self : ReportStatus) (at_block now : Z) : bool :=
  (status_at_block self =? at_block)
  && (now <? wrap 32 (sent_at self + DELAY_CHECK_THRESHOLD)).

Inductive OffchainErr :=
| WaitingForInclusion (block : Z)
| FailedSigning
| FailedToAcquireLock
| SubmitTransaction.

Record UnavailableDataReport := mkReport {
  at_block : Z;
  authority_index : Z;
  index_set : list Z;
  validators_len : Z
}.
#[export] Instance UnavailableDataReport_eq_dec : EqDecision UnavailableDataReport.
Proof. solve_decision. Defined.

Inductive Error :=
| ExceedMaxBlobLimit
| AppIdError
| ExceedMaxBlobPerBlock
| ExceedUnavailableDataConfirmTime
| IndexSetIsEmpty
| DataNotExist
| DuplicateReportSubmission
| ExceedMaxTotalVotes
| ReportForFutureBlock
| SubmittedDataIsInvalid
| InvalidKey
| NonceError.

(** [DispatchError]: [ensure_signed] and [ensure_none] fail with [BadOrigin]. *)
Inductive DispatchError := BadOrigin | ModuleError (e : Error).

Section data.
Context `{KzgLib} `{MeloConfig}.

Record BlobMetadata := mkMetadata {
  app_id : Z;
  from : AccountId;
  commitments : list KZGCommitment;
  proofs : list KZGProof;
  bytes_len : Z;
  is_available : bool;
  nonce : Z
}.

Inductive Event :=
| DataReceived (bytes_len : Z) (from : AccountId) (app_id index : Z)
    (commitments : list KZGCommitment) (proofs : list KZGProof)
| ReportReceived (at_block : Z) (from : Z)
| AppIdRegistered (app_id : Z) (from : AccountId).

Record Storage := mkStorage {
  Metadata : gmap Z (list BlobMetadata);
  CommitmentsExt : gmap Z (list KZGCommitment);
  Keys : list AuthorityId;
  AppId : Z;
  Nonces : gmap Z Z;
  UnavailableVote : gmap (Z * Z) (list Z);
  (* frame_system *)
  block_number : Z;
  block_hash : Z -> bytes;
  (* the events deposited so far, the latest first *)
  events : list Event
}.

Definition set_Metadata f s := mkStorage (f (Metadata s)) (CommitmentsExt s) (Keys s) (AppId s)
  (Nonces s) (UnavailableVote s) (block_number s) (block_hash s) (events s).
Definition set_CommitmentsExt f s := mkStorage (Metadata s) (f (CommitmentsExt s)) (Keys s) (AppId s)
  (Nonces s) (UnavailableVote s) (block_number s) (block_hash s) (events s).
Definition set_Keys f s := mkStorage (Metadata s) (CommitmentsExt s) (f (Keys s)) (AppId s)
  (Nonces s) (UnavailableVote s) (block_number s) (block_hash s) (events s).
Definition set_AppId f s := mkStorage (Metadata s) (CommitmentsExt s) (Keys s) (f (AppId s))
  (Nonces s) (UnavailableVote s) (block_number s) (block_hash s) (events s).
Definition set_Nonces f s := mkStorage (Metadata s) (CommitmentsExt s) (Keys s) (AppId s)
  (f (Nonces s)) (UnavailableVote s) (block_number s) (block_hash s) (events s).
Definition set_UnavailableVote f s := mkStorage (Metadata s) (CommitmentsExt s) (Keys s) (AppId s)
  (Nonces s) (f (UnavailableVote s)) (block_number s) (block_hash s) (events s).
Definition set_events f s := mkStorage (Metadata s) (CommitmentsExt s) (Keys s) (AppId s)
  (Nonces s) (UnavailableVote s) (block_number s) (block_hash s) (f (events s)).

(** [ValueQuery] maps return the default for a missing key. *)
Definition get_Metadata (b : Z) (s : Storage) : list BlobMetadata := default [] (Metadata s !! b).
Definition get_Nonces (a : Z) (s : Storage) : Z := default 0 (Nonces s !! a).
End data.

Abbreviation PM A := (stM DispatchError Storage A).

Section pallet.
Context `{Platform} `{KzgLib} `{MeloConfig} `{PermillLib}.

Definition deposit_event (e : Event) : PM unit := modify (set_events (cons e)).

Definition ensure_signed (origin : Origin) : PM AccountId :=
  lift_res match origin with Signed who => Ok who | _ => Err BadOrigin end.
Definition ensure_none (origin : Origin) : PM unit :=
  lift_res match origin with Unsigned => Ok tt | _ => Err BadOrigin end.

(** [BoundedVec::default().try_extend(..)] and [try_into]: the whole sequence or an
    error. *)
Definition bounded {A} (bound : Z) (l : list A) : option (list A) :=
  if Z.of_nat (length l) <=? bound then Some l else None.
(** [WeakBoundedVec::try_push]. *)
Definition try_push {A} (bound : Z) (x : A) (l : list A) : option (list A) :=
  if Z.of_nat (length l) <? bound then Some (l ++ [x]) else None.

(** ** Calls *)
Definition submit_data (origin : Origin) (params : SidecarMetadata.t) : PM unit :=
  who ← ensure_signed origin;
  _ ← ensureM (SidecarMetadata.check params) (ModuleError SubmittedDataIsInvalid);
  blob_num ← lift_res (res_map_err (fun _ : string => BadOrigin)
    (Blob.blob_count (SidecarMetadata.bytes_len params) BYTES_PER_BLOB));
  _ ← ensureM (blob_num <=? MaxBlobNum) (ModuleError ExceedMaxBlobLimit);
  current_app_id ← gets AppId;
  _ ← ensureM (SidecarMetadata.app_id params <=? current_app_id) (ModuleError AppIdError);
  current_nonce ← gets (get_Nonces current_app_id);
  _ ← ensureM (SidecarMetadata.nonce params =? Z.min (current_nonce + 1) (2 ^ 32 - 1))
        (ModuleError NonceError);
  commitment_list ← lift_res (ok_or (bounded MaxBlobNum (SidecarMetadata.commitments params))
                                (ModuleError ExceedMaxBlobPerBlock));
  proof_list ← lift_res (ok_or (bounded MaxBlobNum (SidecarMetadata.proofs params))
                           (ModuleError ExceedMaxBlobPerBlock));
  let metadata := mkMetadata (SidecarMetadata.app_id params) who commitment_list proof_list
                    (SidecarMetadata.bytes_len params) true (SidecarMetadata.nonce params) in
  current_block_number ← gets block_number;
  metadata_vec ← gets (get_Metadata current_block_number);
  let metadata_len := length metadata_vec in
  metadata_vec' ← lift_res (ok_or (try_push MaxKeys metadata metadata_vec)
                              (ModuleError ExceedMaxBlobPerBlock));
  _ ← modify (set_Metadata (insert current_block_number metadata_vec'));
  _ ← modify (set_Nonces (insert current_app_id (SidecarMetadata.nonce params)));
  deposit_event (DataReceived (SidecarMetadata.bytes_len params) who
    (SidecarMetadata.app_id params) (wrap 32 (Z.of_nat metadata_len))
    (SidecarMetadata.commitments params) (SidecarMetadata.proofs params)).

Definition UNAVAILABILITY_THRESHOLD : Permill := permill_from_percent 50.

Definition set_unavailable (m : BlobMetadata) : BlobMetadata :=
  mkMetadata (app_id m) (from m) (commitments m) (proofs m) (bytes_len m) false (nonce m).

(** [&mut BlobMetadata] is returned; [try_mutate] writes the votes when the closure
    succeeds. *)
Definition handle_vote (at_block authority_index metadata_index : Z) (metadata : BlobMetadata)
    : PM BlobMetadata :=
  maybe_unavailable_vote ← gets (fun s => UnavailableVote s !! (at_block, metadata_index));
  unavailable_vote ← (
    match maybe_unavailable_vote with
    | Some unavailable_vote =>
        _ ← ensureM (negb (bool_decide (authority_index ∈ unavailable_vote)))
              (ModuleError DuplicateReportSubmission);
        lift_res (ok_or (try_push MaxBlobNum authority_index unavailable_vote)
                    (ModuleError ExceedMaxTotalVotes))
    | None =>
        lift_res (ok_or (try_push MaxBlobNum authority_index [])
                    (ModuleError ExceedMaxTotalVotes))
    end);
  keys ← gets Keys;
  let vote_num := wrap 32 (Z.of_nat (length unavailable_vote)) in
  let threshold := permill_mul_floor UNAVAILABILITY_THRESHOLD (wrap 32 (Z.of_nat (length keys))) in
  let metadata' := if threshold <? vote_num then set_unavailable metadata else metadata in
  _ ← modify (set_UnavailableVote (insert (at_block, metadata_index) unavailable_vote));
  mret metadata'.

(** The loop over the reported indices inside [Metadata::try_mutate]. *)
Fixpoint report_loop (at_block authority_index : Z) (indices : list Z)
    (metadata_vec : list BlobMetadata) : PM (list BlobMetadata) :=
  match indices with
  | [] => mret metadata_vec
  | index :: indices =>
      metadata ← lift_res (ok_or (metadata_vec !! Z.to_nat index) (ModuleError DataNotExist));
      metadata' ← handle_vote at_block authority_index index metadata;
      report_loop at_block authority_index indices (<[Z.to_nat index := metadata']> metadata_vec)
  end.

Definition report (origin : Origin) (r : UnavailableDataReport) : PM unit :=
  _ ← ensure_none origin;
  current_block_number ← gets block_number;
  _ ← ensureM (at_block r <=? current_block_number) (ModuleError ReportForFutureBlock);
  _ ← ensureM (current_block_number <=? wrap 32 (at_block r + DELAY_CHECK_THRESHOLD))
        (ModuleError ExceedUnavailableDataConfirmTime);
  _ ← ensureM (negb (bool_decide (index_set r = []))) (ModuleError IndexSetIsEmpty);
  keys ← gets Keys;
  _ ← ensureM (bool_decide (is_Some (keys !! Z.to_nat (authority_index r))))
        (ModuleError InvalidKey);
  metadata_vec ← gets (get_Metadata (at_block r));
  metadata_vec' ← report_loop (at_block r) (authority_index r) (index_set r) metadata_vec;
  _ ← modify (set_Metadata (insert (at_block r) metadata_vec'));
  deposit_event (ReportReceived (at_block r) (authority_index r)).

Definition register_app (origin : Origin) : PM unit :=
  who ← ensure_signed origin;
  current ← gets AppId;
  let app_id := wrap 32 (current + 1) in
  _ ← modify (set_AppId (fun _ => app_id));
  deposit_event (AppIdRegistered app_id who).

(** The call enum and its dispatch. *)
Inductive Call :=
| CallSubmitData (params : SidecarMetadata.t)
| CallReport (unavailable_data_report : UnavailableDataReport) (signature : Signature)
| CallRegisterApp.

Definition dispatch (c : Call) (origin : Origin) : PM unit :=
  transactional
    match c with
    | CallSubmitData params => submit_data origin params
    | CallReport r _ => report origin r
    | CallRegisterApp => register_app origin
    end.

(** ** Hooks *)
Definition on_finalize `{ClearPrefix} (now : Z) (s : Storage) : Storage :=
  if now <=? DELAY_CHECK_THRESHOLD + 1 then s
  else set_UnavailableVote
         (clear_prefix (wrap 32 (now - (DELAY_CHECK_THRESHOLD + 1))) MaxBlobNum) s.

(** ** [validate_unsigned] *)
Inductive InvalidTransaction := Stale | Custom (code : Z) | BadProof | InvalidCall.
Record ValidTransaction := mkValid {
  tag_prefix : string; priority : Z; longevity : Z; propagate : bool
}.

Definition validate_unsigned `{Codec UnavailableDataReport} (c : Call) (s : Storage)
    : res InvalidTransaction ValidTransaction :=
  match c with
  | CallReport r signature =>
      match Keys s !! Z.to_nat (authority_index r) with
      | None => Err Stale
      | Some authority_id =>
          if negb (wrap 32 (Z.of_nat (length (Keys s))) =? validators_len r)
          then Err (Custom INVALID_VALIDATORS_LEN)
          else if negb (authority_verify authority_id (scale_encode r) signature)
          then Err BadProof
          else Ok (mkValid "MeloStore" MeloUnsignedPriority DELAY_CHECK_THRESHOLD true)
      end
  | _ => Err InvalidCall
  end.

(** ** Reads *)
Definition iter_metadata (at_block : Z) (s : Storage) : list BlobMetadata :=
  filter (fun m => is_available m = true) (get_Metadata at_block s).

Definition get_commitments_and_app_lookups (at_block : Z) (s : Storage)
    : list KZGCommitment * list AppLookup.t :=
  fold_left (fun '(cs, app_lookups) m =>
      (cs ++ commitments m,
       app_lookups ++ [AppLookup.mk (app_id m) (nonce m)
                         (wrap 16 (Z.of_nat (length (commitments m))))]))
    (iter_metadata at_block s) ([], []).

Definition get_commitments (at_block : Z) (s : Storage) : list KZGCommitment :=
  concat (commitments <$> iter_metadata at_block s).

Definition last (s : Storage) : list KZGCommitment * list AppLookup.t :=
  let now := block_number s in
  if now <=? DELAY_CHECK_THRESHOLD then ([], [])
  else get_commitments_and_app_lookups (wrap 32 (now - DELAY_CHECK_THRESHOLD)) s.

#[export] Instance pallet_header_commit_list : HeaderCommitList Storage := last.

Definition push_commitments_ext (at_block : Z) (cs : list KZGCommitment)
    : stM Error Storage unit :=
  ext ← gets (fun s => default [] (CommitmentsExt s !! at_block));
  _ ← lift_res (ok_or (bounded MaxBlobNum (ext ++ cs)) ExceedMaxBlobPerBlock);
  bounded_extended ← lift_res (ok_or (bounded MaxBlobNum cs) ExceedMaxBlobPerBlock);
  modify (set_CommitmentsExt (insert at_block bounded_extended)).

(** [CommitmentFromPosition::commitments]: a read that caches the extension. *)
Definition commitments_at `{EmbeddedSettings} (block_num : Z) (position : Position)
    : stM string Storage (option KZGCommitment) :=
  now ← gets block_number;
  if wrap 32 (now - DELAY_CHECK_THRESHOLD) <? block_num then mret None
  else
    let y_usize := Z.to_nat (Crypto.y position) in
    commitments_ext ← gets (fun s => CommitmentsExt s !! block_num);
    match commitments_ext with
    | Some ext => mret (ext !! y_usize)
    | None =>
        cs ← gets (get_commitments block_num);
        if (y_usize <? length cs)%nat then mret (cs !! y_usize)
        else
          kzg ← lift_res (Crypto.default_embedded EMBEDDED_KZG_SETTINGS_BYTES);
          extended ← lift_res (res_ok (extend_fs_g1 (Crypto.get_fs kzg) cs));
          match extended with
          | None => mret None
          | Some extended =>
              if (y_usize <? length extended)%nat then
                match bounded MaxBlobNum extended with
                | Some bounded_extended =>
                    _ ← modify (set_CommitmentsExt (insert block_num bounded_extended));
                    mret (extended !! y_usize)
                | None => mret None
                end
              else mret None
          end
    end.

(** ** Session keys *)
Definition initialize_keys (keys : list AuthorityId) (s : Storage) : res string Storage :=
  if bool_decide (keys = []) then Ok s
  else if negb (bool_decide (Keys s = [])) then Panic
  else match bounded MaxKeys keys with
       | Some bounded_keys => Ok (set_Keys (fun _ => bounded_keys) s)
       | None => Panic
       end.

Definition on_genesis_session (validators : list (AccountId * AuthorityId)) (s : Storage)
    : res string Storage :=
  initialize_keys (validators.*2) s.

Definition on_new_session (validators : list (AccountId * AuthorityId)) (s : Storage) : Storage :=
  set_Keys (fun _ => validators.*2) s.

(** [Vec::remove] panics when the index is out of range. *)
Definition on_disabled (i : Z) (s : Storage) : res string Storage :=
  if (Z.to_nat i <? length (Keys s))%nat then Ok (set_Keys (delete (Z.to_nat i)) s) else Panic.
End pallet.
