(* ===== verification/MeloOffchain.v ===== *)
(** * The pallet's off-chain worker ([crates/pallet-melo-store/src/lib.rs])

    Validators read the reliability records the sampling client left in the off-chain
    database, and submit one unsigned report per local authority and block, guarded by
    a lock in the same database.  The worker's state is the host storage and the
    transactions it submitted. *)

From S2P Require Import Prelude Codec DasDb KzgLib KzgIndex KzgToy DasPrimitives Blob.
From S2P Require Import CorePrimitives Reliability Sidecar MeloStore.

(** What the node gives the worker: the key store, the pool's answer to a submission,
    its role, and what other workers do to the host storage between the read and the
    compare-and-set of [StorageValueRef::mutate]. *)
Class OffchainEnv (H : Type) `{KzgLib} `{MeloConfig} := {
  authority_sign : AuthorityId -> bytes -> option Signature;
  local_keys : list AuthorityId;
  pool_accepts : Call -> bool;
  is_validator : bool;
  interference : H -> H
}.

Section worker.
Context `{KzgLib} `{MeloConfig} `{PermillLib} {HT : Type} `{HostStorage HT} `{!OffchainEnv HT}.
Context `{Codec Reliability.t} `{Codec LastProcessedBlock} `{Codec ReportStatus}
  `{Codec UnavailableDataReport} `{Codec Z}.

Record Worker := mkWorker { host : HT; submitted : list Call }.
Abbreviation OM A := (stM OffchainErr Worker A).

(** ** Reading the records *)
Definition get_unavailability_apps (at_block : Z) (s : Storage) (h : HT) : list Z :=
  omap (fun '(i, metadata) =>
      match get_confidence (app_confidence (app_id metadata) (nonce metadata))
              (OffchainKv.new None h) with
      | Some confidence =>
          if negb (Reliability.is_availability confidence) then Some (wrap 32 (Z.of_nat i)) else None
      | None => None
      end) (enumerate (get_Metadata at_block s)).

(** The loop stops at the current block and at the first block without a record. *)
Fixpoint fetch_loop (idx : list nat) (last : Z) (s : Storage) (h : HT) : list Z :=
  match idx with
  | [] => []
  | i :: idx =>
      let process_block := wrap 32 (last + Z.of_nat i) in
      if block_number s <=? process_block then []
      else
        match Reliability.is_availability <$>
                get_confidence (block_confidence (block_hash s process_block))
                  (OffchainKv.new None h) with
        | Some avail =>
            if negb avail then process_block :: fetch_loop idx last s h else fetch_loop idx last s h
        | None => []
        end
  end.

Definition fetch_unavailability_blocks (s : Storage) (h : HT) : res string (list Z) :=
  let now := block_number s in
  last ← get_last_processed_block (OffchainKv.new None h);
  let last := match last with
              | Some block => block
              | None => Z.max 0 (now - MAX_UNAVAILABLE_BLOCK_INTERVAL)
              end in
  Ok (fetch_loop (seq 0 (Z.to_nat BLOCK_SAMPLE_LIMIT)) last s h).

(** [local_keys.sort()] and [binary_search]: a key is found when the store has it. *)
Definition local_authority_keys (s : Storage) : list (Z * AuthorityId) :=
  omap (fun '(index, authority) =>
      if bool_decide (authority ∈ local_keys) then Some (wrap 32 (Z.of_nat index), authority)
      else None) (enumerate (Keys s)).

(** ** The lock *)
Definition lock_key (authority_index : Z) : bytes :=
  DB_PREFIX ++ scale_encode authority_index.

(** [StorageValueRef::mutate]: read, compute, compare-and-set. *)
Definition storage_mutate (key : bytes)
    (f : option ReportStatus -> res OffchainErr ReportStatus)
    : stM (OffchainErr + unit) Worker ReportStatus := fun w =>
  let raw := local_storage_get key (host w) in
  match f (raw ≫= decode_all) with
  | Err e => (Err (inl e), w)
  | Panic => (Panic, w)
  | Ok v =>
      let h := interference (host w) in
      let '(set, h') := local_storage_compare_and_set key raw (scale_encode v) h in
      (if set : bool then Ok v else Err (inr tt), mkWorker h' (submitted w))
  end.

Definition storage_set (key : bytes) (v : ReportStatus) (w : Worker) : Worker :=
  mkWorker (local_storage_set key (scale_encode v) (host w)) (submitted w).

(** An undecodable status counts as none. *)
Definition with_report_lock {R} (authority_index at_block now : Z) (f : OM R) : OM R := fun w =>
  let key := lock_key authority_index in
  match storage_mutate key (fun status =>
          match status with
          | Some status =>
              if is_recent status at_block now then Err (WaitingForInclusion (sent_at status))
              else Ok (mkStatus at_block now)
          | None => Ok (mkStatus at_block now)
          end) w with
  | (Err (inl err), w) => (Err err, w)
  | (Err (inr _), w) => (Err FailedToAcquireLock, w)
  | (Panic, w) => (Panic, w)
  | (Ok new_status, w) =>
      let '(result, w) := f w in
      match result with
      | Err e => (Err e, storage_set key (mkStatus (status_at_block new_status) 0) w)
      | _ => (result, w)
      end
  end.

(** ** Sending *)
Definition submit_unsigned_transaction (call : Call) : OM unit := fun w =>
  if pool_accepts call then (Ok tt, mkWorker (host w) (call :: submitted w))
  else (Err SubmitTransaction, w).

Definition send_single_unavailability_report (s : Storage) (authority_index : Z)
    (key : AuthorityId) (at_block now : Z) (index_set : list Z) : OM unit :=
  let prepare_unavailable_data_report : OM Call :=
    let validators_len := wrap 32 (Z.of_nat (length (Keys s))) in
    let r := mkReport at_block authority_index index_set validators_len in
    signature ← lift_res (ok_or (authority_sign key (scale_encode r)) FailedSigning);
    mret (CallReport r signature) in
  with_report_lock authority_index at_block now
    (call ← prepare_unavailable_data_report; submit_unsigned_transaction call).

(** The reports are sent one after the other; each outcome is kept. *)
Fixpoint send_all (l : list (OM unit)) (w : Worker) : list (res OffchainErr unit) * Worker :=
  match l with
  | [] => ([], w)
  | m :: l =>
      let '(r, w) := m w in
      let '(rs, w) := send_all l w in (r :: rs, w)
  end.

Definition gap_reports (s : Storage) (now gap : Z) (w : Worker)
    : list (res OffchainErr unit) * Worker :=
  if now <? gap then ([], w)
  else
    let at_block := wrap 32 (now - gap) in
    let index_set := get_unavailability_apps at_block s (host w) in
    if bool_decide (index_set = []) then ([], w)
    else send_all ((fun '(authority_index, key) =>
           send_single_unavailability_report s authority_index key at_block now index_set)
         <$> local_authority_keys s) w.

Fixpoint gaps_reports (s : Storage) (now : Z) (gaps : list nat) (w : Worker)
    : list (res OffchainErr unit) * Worker :=
  match gaps with
  | [] => ([], w)
  | gap :: gaps =>
      let '(rs, w) := gap_reports s now (Z.of_nat gap) w in
      let '(rs', w) := gaps_reports s now gaps w in (rs ++ rs', w)
  end.

Definition send_unavailability_report (s : Storage) (now : Z) (w : Worker)
    : list (res OffchainErr unit) * Worker :=
  gaps_reports s now (seq 0 (Z.to_nat DELAY_CHECK_THRESHOLD)) w.

(** Failures are only logged. *)
Definition offchain_worker (s : Storage) (now : Z) (w : Worker) : Worker :=
  if is_validator then (send_unavailability_report s now w).2 else w.
End worker.
