(* ===== verification/MeloStoreProps.v ===== *)
(** * Properties of the data submission pallet

    Functional behaviour of the calls, the storage invariant over every sequence of
    calls, hooks and session changes, and the voting rule. *)

From S2P Require Import Prelude Codec DasDb KzgLib KzgIndex KzgToy DasPrimitives Blob.
From S2P Require Import ErasureCoding CorePrimitives Reliability Sidecar MeloStore.

Ltac st_inv H :=
  repeat first
    [ apply stM_bind_Ok in H; destruct H as (? & ? & ? & H)
    | match goal with
      | H0 : lift_res _ _ = (Ok _, _) |- _ => unfold lift_res in H0; injection H0 as H0 ?
      | H0 : gets _ _ = (Ok _, _) |- _ => unfold gets in H0; injection H0 as ? ?
      | H0 : modify _ _ = (Ok _, _) |- _ => unfold modify in H0; injection H0 as ? ?
      | H0 : ensureM _ _ _ = (Ok _, _) |- _ => unfold ensureM in H0
      | H0 : ensure _ _ = Ok _ |- _ => apply ensure_Ok in H0
      | H0 : ok_or _ _ = Ok _ |- _ => apply ok_or_Ok in H0
      end ]; subst.

Section calls.
Context `{Platform} `{KzgLib} `{MeloConfig} `{PermillLib}.
Implicit Types s : Storage.

Lemma bounded_Some {A} b (l l' : list A) : bounded b l = Some l' <->
  l' = l /\ Z.of_nat (length l) <= b.
Proof. unfold bounded. destruct (Z.leb_spec (Z.of_nat (length l)) b); naive_solver lia. Qed.

Lemma try_push_Some {A} b (x : A) l l' : try_push b x l = Some l' <->
  l' = l ++ [x] /\ Z.of_nat (length l) < b.
Proof. unfold try_push. destruct (Z.ltb_spec (Z.of_nat (length l)) b); naive_solver lia. Qed.

Definition votes_of (b i : Z) (s : Storage) : list Z := default [] (UnavailableVote s !! (b, i)).

Definition threshold (s : Storage) : Z :=
  permill_mul_floor UNAVAILABILITY_THRESHOLD (wrap 32 (Z.of_nat (length (Keys s)))).

(** The verdict on an entry once [votes] are recorded. *)
Definition judged (s : Storage) (votes : list Z) (m : BlobMetadata) : BlobMetadata :=
  if threshold s <? wrap 32 (Z.of_nat (length votes)) then set_unavailable m else m.

Lemma handle_vote_Ok b a i m s m' s' : handle_vote b a i m s = (Ok m', s') ->
  (a ∉ votes_of b i s) /\ Z.of_nat (length (votes_of b i s)) < MaxBlobNum /\
  s' = set_UnavailableVote (insert (b, i) (votes_of b i s ++ [a])) s /\
  m' = judged s (votes_of b i s ++ [a]) m.
Proof.
  unfold handle_vote, votes_of. intros Hh. apply stM_bind_Ok in Hh as (o & s1 & [= <- <-] & Hh).
  apply stM_bind_Ok in Hh as (votes & s1 & Hv & Hh).
  assert (Hv' : votes = default [] (UnavailableVote s !! (b, i)) ++ [a] /\ s1 = s /\
      (a ∉ default [] (UnavailableVote s !! (b, i))) /\
      Z.of_nat (length (default [] (UnavailableVote s !! (b, i)))) < MaxBlobNum).
  { destruct (UnavailableVote s !! (b, i)) as [old|]; simpl.
    - apply stM_bind_Ok in Hv as (u & s2 & Hu & Hv). unfold ensureM, lift_res in *.
      injection Hu as Hu <-. injection Hv as Hv <-. apply ensure_Ok in Hu.
      apply ok_or_Ok, try_push_Some in Hv as [-> ?]. apply negb_true_iff, bool_decide_eq_false in Hu.
      done.
    - unfold lift_res in Hv. injection Hv as Hv <-. apply ok_or_Ok, try_push_Some in Hv as [-> ?].
      split_and!; [done..|set_solver|done]. }
  destruct Hv' as (-> & -> & Hn & Hb).
  apply stM_bind_Ok in Hh as (keys & s2 & [= <- <-] & Hh).
  apply stM_bind_Ok in Hh as (u & s2 & [= _ <-] & Hh). injection Hh as <- <-. done.
Qed.

(** The entries of the reported block after the vote of authority [a]. *)
Definition voted (s : Storage) (b a : Z) (idx : list Z) (mv mv' : list BlobMetadata) : Prop :=
  length mv' = length mv /\
  forall j m, mv !! j = Some m ->
    mv' !! j = Some (if bool_decide (Z.of_nat j ∈ idx)
                     then judged s (votes_of b (Z.of_nat j) s ++ [a]) m else m).

Lemma votes_of_insert_ne b i j v s : i <> j ->
  votes_of b j (set_UnavailableVote (insert (b, i) v) s) = votes_of b j s.
Proof. intros Hne. unfold votes_of. simpl. rewrite lookup_insert_ne; [done|congruence]. Qed.

Lemma judged_set_votes f s votes m : judged (set_UnavailableVote f s) votes m = judged s votes m.
Proof. done. Qed.

Lemma report_loop_Ok b a idx : forall mv s mv' s', Forall (fun i => 0 <= i) idx ->
  report_loop b a idx mv s = (Ok mv', s') ->
  NoDup idx /\ Forall (fun i => (Z.to_nat i < length mv)%nat) idx /\
  (forall i, i ∈ idx -> (a ∉ votes_of b i s) /\ Z.of_nat (length (votes_of b i s)) < MaxBlobNum) /\
  voted s b a idx mv mv' /\
  (exists f, s' = set_UnavailableVote f s) /\
  (forall i, i ∈ idx -> UnavailableVote s' !! (b, i) = Some (votes_of b i s ++ [a])) /\
  (forall k, k.1 <> b \/ k.2 ∉ idx -> UnavailableVote s' !! k = UnavailableVote s !! k).
Proof.
  induction idx as [|i idx IH]; intros mv s mv' s' Hpos Hl; simpl in Hl.
  - injection Hl as <- <-. split_and!; [constructor|constructor|set_solver| | |set_solver|done].
    + split; [done|]. intros j m Hj. by rewrite bool_decide_false by set_solver.
    + exists id. by destruct s.
  - inversion Hpos as [|? ? Hi Hpos']; subst.
    apply stM_bind_Ok in Hl as (m & s1 & Hm & Hl). unfold lift_res in Hm. injection Hm as Hm <-.
    apply ok_or_Ok in Hm. apply stM_bind_Ok in Hl as (m' & s1 & Hv & Hl).
    apply handle_vote_Ok in Hv as (Hna & Hb & -> & ->).
    destruct (IH _ _ _ _ Hpos' Hl) as (Hnd & Hlt & Hvotes & [Hlen Hmv] & [f ->] & Hin & Hout).
    rewrite length_insert in *. apply lookup_lt_Some in Hm as Hml.
    assert (Hni : i ∉ idx).
    { intros Hin'. destruct (Hvotes i Hin') as [Hc _]. unfold votes_of in Hc. simpl in Hc.
      rewrite lookup_insert_eq in Hc. simpl in Hc. set_solver. }
    assert (Hother : forall j, j ∈ idx -> i <> j) by (intros j Hj ->; done).
    split_and!.
    + by constructor.
    + by constructor.
    + intros j [->|Hj]%elem_of_cons; [done|]. specialize (Hvotes j Hj).
      by rewrite votes_of_insert_ne in Hvotes by auto.
    + split; [done|]. intros j m0 Hj. destruct (decide (j = Z.to_nat i)) as [->|Hne].
      * assert (m0 = m) as -> by congruence. rewrite Z2Nat.id by done.
        rewrite bool_decide_true by left. rewrite (Hmv (Z.to_nat i) _ (list_lookup_insert_eq _ _ _ Hml)).
        rewrite Z2Nat.id by done. by rewrite bool_decide_false.
      * rewrite (Hmv j m0) by (by rewrite list_lookup_insert_ne).
        assert (Hz : Z.of_nat j <> i) by lia.
        rewrite judged_set_votes, votes_of_insert_ne by done.
        f_equal. repeat case_bool_decide; set_solver.
    + exists (fun v => f (<[(b, i) := votes_of b i s ++ [a]]> v)). done.
    + intros j [->|Hj]%elem_of_cons.
      * rewrite Hout by (right; done). simpl. by rewrite lookup_insert_eq.
      * rewrite Hin by done. by rewrite votes_of_insert_ne by auto.
    + intros k Hk. rewrite Hout by set_solver. simpl. rewrite lookup_insert_ne; [done|].
      intros <-. simpl in Hk. set_solver.
Qed.

Lemma report_Ok_inv origin r s s' : Forall (fun i => 0 <= i) (index_set r) ->
  report origin r s = (Ok tt, s') ->
  origin = Unsigned /\ at_block r <= block_number s <= wrap 32 (at_block r + 1) /\
  index_set r <> [] /\ is_Some (Keys s !! Z.to_nat (authority_index r)) /\
  exists mv' s1,
    report_loop (at_block r) (authority_index r) (index_set r) (get_Metadata (at_block r) s) s
    = (Ok mv', s1) /\
    s' = set_events (cons (ReportReceived (at_block r) (authority_index r)))
           (set_Metadata (insert (at_block r) mv') s1).
Proof.
  intros Hpos Hr. unfold report, ensure_none, ensureM, lift_res, gets, modify, deposit_event in Hr.
  apply stM_bind_Ok in Hr as (u & s1 & Ho & Hr). destruct origin; try done. injection Ho as _ <-.
  apply stM_bind_Ok in Hr as (now & s1 & [= <- <-] & Hr).
  apply stM_bind_Ok in Hr as (? & s1 & [= G1 <-] & Hr). apply ensure_Ok, Z.leb_le in G1.
  apply stM_bind_Ok in Hr as (? & s1 & [= G2 <-] & Hr). apply ensure_Ok, Z.leb_le in G2.
  apply stM_bind_Ok in Hr as (? & s1 & [= G3 <-] & Hr).
  apply ensure_Ok, negb_true_iff, bool_decide_eq_false in G3.
  apply stM_bind_Ok in Hr as (keys & s1 & [= <- <-] & Hr).
  apply stM_bind_Ok in Hr as (? & s1 & [= G4 <-] & Hr). apply ensure_Ok, bool_decide_eq_true in G4.
  apply stM_bind_Ok in Hr as (mv & s1 & [= <- <-] & Hr).
  apply stM_bind_Ok in Hr as (mv' & s1 & Hl & Hr).
  apply stM_bind_Ok in Hr as (? & s2 & [= _ <-] & [= <-]).
  split_and!; [done|lia|exact G2|done|done|]. by exists mv', s1.
Qed.

(** C3: What an accepted report does.  It can only come unsigned, for the current or
    the previous block, from an existing authority that has not yet voted on any of the
    listed entries, all of which exist and are listed once.  It appends the authority
    to the votes of exactly those entries, marks an entry unavailable exactly when its
    votes then exceed half of the current authorities, and leaves all other votes,
    entries, blocks and the rest of the storage alone.  A rejected report changes
    nothing. *)
Theorem report_effect origin r sig s o s' :
  Forall (fun i => 0 <= i) (index_set r) -> at_block r < 2 ^ 32 - 1 -> 0 <= at_block r ->
  dispatch (CallReport r sig) origin s = (o, s') ->
  match o with
  | Ok _ =>
      let b := at_block r in let a := authority_index r in let idx := index_set r in
      origin = Unsigned /\ b <= block_number s <= b + 1 /\ idx <> [] /\ NoDup idx /\
      is_Some (Keys s !! Z.to_nat a) /\
      (forall i, i ∈ idx -> (Z.to_nat i < length (get_Metadata b s))%nat /\
         (a ∉ votes_of b i s) /\ votes_of b i s' = votes_of b i s ++ [a]) /\
      (forall b' i, b' <> b \/ i ∉ idx -> votes_of b' i s' = votes_of b' i s) /\
      voted s b a idx (get_Metadata b s) (get_Metadata b s') /\
      (forall b', b' <> b -> get_Metadata b' s' = get_Metadata b' s) /\
      Keys s' = Keys s /\ AppId s' = AppId s /\ Nonces s' = Nonces s /\
      CommitmentsExt s' = CommitmentsExt s
  | _ => s' = s
  end.
Proof.
  intros Hpos Hb32 Hb0 Hd. unfold dispatch, transactional in Hd.
  destruct (report origin r s) as [[[]|e|] s1] eqn:Hr; simplify_eq; [|done|done].
  apply report_Ok_inv in Hr as (-> & Hnow & Hne & Hk & mv' & s1 & Hl & ->); [|done].
  rewrite wrap_small in Hnow by (unfold in_u; lia).
  destruct (report_loop_Ok _ _ _ _ _ _ _ Hpos Hl)
    as (Hnd & Hlt & Hvotes & Hvoted & [f ->] & Hin & Hout).
  split_and!; try done; try lia.
  - intros i Hi. rewrite Forall_forall in Hlt. split; [by apply Hlt|].
    split; [by apply Hvotes|]. unfold votes_of at 1. simpl. simpl in Hin. by rewrite Hin.
  - intros b' i Hbi. unfold votes_of. simpl. simpl in Hout. by rewrite (Hout (b', i)).
  - unfold get_Metadata at 2. simpl. by rewrite lookup_insert_eq.
  - intros b' Hb'. unfold get_Metadata. simpl. by rewrite lookup_insert_ne.
Qed.

Lemma submit_data_Ok_inv origin p s u s' : submit_data origin p s = (Ok u, s') ->
  exists who blob_num, origin = Signed who /\ SidecarMetadata.check p = true /\
    Blob.blob_count (SidecarMetadata.bytes_len p) BYTES_PER_BLOB = Ok blob_num /\
    blob_num <= MaxBlobNum /\ SidecarMetadata.app_id p <= AppId s /\
    SidecarMetadata.nonce p = Z.min (get_Nonces (AppId s) s + 1) (2 ^ 32 - 1) /\
    Z.of_nat (length (SidecarMetadata.commitments p)) <= MaxBlobNum /\
    Z.of_nat (length (SidecarMetadata.proofs p)) <= MaxBlobNum /\
    Z.of_nat (length (get_Metadata (block_number s) s)) < MaxKeys /\
    let m := mkMetadata (SidecarMetadata.app_id p) who (SidecarMetadata.commitments p)
               (SidecarMetadata.proofs p) (SidecarMetadata.bytes_len p) true
               (SidecarMetadata.nonce p) in
    s' = set_events (cons (DataReceived (SidecarMetadata.bytes_len p) who
             (SidecarMetadata.app_id p)
             (wrap 32 (Z.of_nat (length (get_Metadata (block_number s) s))))
             (SidecarMetadata.commitments p) (SidecarMetadata.proofs p)))
          (set_Nonces (insert (AppId s) (SidecarMetadata.nonce p))
            (set_Metadata (insert (block_number s) (get_Metadata (block_number s) s ++ [m])) s)).
Proof.
  intros Hr. unfold submit_data, ensure_signed, ensureM, lift_res, gets, modify, deposit_event in Hr.
  apply stM_bind_Ok in Hr as (who & s1 & Ho & Hr). destruct origin as [w| |]; try done.
  injection Ho as -> <-. exists who.
  apply stM_bind_Ok in Hr as (? & s1 & [= G1 <-] & Hr). apply ensure_Ok in G1.
  apply stM_bind_Ok in Hr as (bn & s1 & [= Hbn <-] & Hr).
  exists bn. rewrite <- Hbn in *. clear Hbn bn.
  apply stM_bind_Ok in Hr as (? & s1 & [= G2 <-] & Hr). apply ensure_Ok, Z.leb_le in G2.
  apply stM_bind_Ok in Hr as (app & s1 & [= <- <-] & Hr).
  apply stM_bind_Ok in Hr as (? & s1 & [= G3 <-] & Hr). apply ensure_Ok, Z.leb_le in G3.
  apply stM_bind_Ok in Hr as (n & s1 & [= <- <-] & Hr).
  apply stM_bind_Ok in Hr as (? & s1 & [= G4 <-] & Hr). apply ensure_Ok, Z.eqb_eq in G4.
  apply stM_bind_Ok in Hr as (cl & s1 & [= G5 <-] & Hr). apply ok_or_Ok, bounded_Some in G5 as [-> ?].
  apply stM_bind_Ok in Hr as (pl & s1 & [= G6 <-] & Hr). apply ok_or_Ok, bounded_Some in G6 as [-> ?].
  apply stM_bind_Ok in Hr as (now & s1 & [= <- <-] & Hr).
  apply stM_bind_Ok in Hr as (mv & s1 & [= <- <-] & Hr).
  apply stM_bind_Ok in Hr as (mv' & s1 & [= G7 <-] & Hr). apply ok_or_Ok, try_push_Some in G7 as [-> ?].
  apply stM_bind_Ok in Hr as (? & s1 & [= _ <-] & Hr).
  apply stM_bind_Ok in Hr as (? & s2 & [= _ <-] & [= _ <-]). done.
Qed.
End calls.

(** ** Sequences of calls, hooks and session changes *)
Section reachability.
Context `{Platform} `{KzgLib} `{MeloConfig} `{PermillLib} `{!PermillLaws} `{ClearPrefix}
  `{!ClearPrefixLaws} `{EmbeddedSettings}.
Context (HMax : 0 <= MaxBlobNum < 2 ^ 32).
Implicit Types s : Storage.

(** [frame_system] starts the next block. *)
Definition next_block (h : bytes) (s : Storage) : Storage :=
  mkStorage (Metadata s) (CommitmentsExt s) (Keys s) (AppId s) (Nonces s) (UnavailableVote s)
    (block_number s + 1) (fun n => if n =? block_number s then h else block_hash s n) [].

(** Arguments of calls are machine integers. *)
Definition call_wf (c : Call) : Prop :=
  match c with
  | CallReport r _ => Forall (in_u 32) (index_set r) /\ in_u 32 (at_block r)
  | _ => True
  end.

Inductive step : Storage -> Storage -> Prop :=
| step_call c origin s o s' : call_wf c -> dispatch c origin s = (o, s') -> step s s'
| step_finalize s : step s (on_finalize (block_number s) s)
| step_block s h : step s (next_block h s)
| step_session s v : Z.of_nat (length v) < 2 ^ 32 -> step s (on_new_session v s)
| step_disabled s i s' : on_disabled i s = Ok s' -> step s s'
| step_push s b cs o s' : push_commitments_ext b cs s = (o, s') -> step s s'
| step_commitment s b p o s' : commitments_at b p s = (o, s') -> step s s'.

Definition metadata_ok (m : BlobMetadata) : Prop :=
  length (commitments m) = length (proofs m) /\ commitments m <> [] /\ 0 < bytes_len m /\
  Z.of_nat (length (commitments m)) <= MaxBlobNum.

Record invariant (s : Storage) : Prop := {
  inv_votes : forall k v, UnavailableVote s !! k = Some v ->
    NoDup v /\ v <> [] /\ Z.of_nat (length v) <= MaxBlobNum;
  inv_metadata : forall b mv, Metadata s !! b = Some mv ->
    Z.of_nat (length mv) <= Z.max 0 MaxKeys /\ Forall metadata_ok mv;
  inv_ext : forall b l, CommitmentsExt s !! b = Some l -> Z.of_nat (length l) <= MaxBlobNum;
  inv_keys : Z.of_nat (length (Keys s)) < 2 ^ 32
}.

(** Nothing recorded yet. *)
Definition genesis (s : Storage) : Prop :=
  Metadata s = ∅ /\ CommitmentsExt s = ∅ /\ UnavailableVote s = ∅ /\
  Z.of_nat (length (Keys s)) < 2 ^ 32.

Lemma invariant_genesis s : genesis s -> invariant s.
Proof.
  intros (Hm & Hc & Hv & Hk). split; [rewrite Hv|rewrite Hm|rewrite Hc|done];
    intros ? ? Hx; by rewrite lookup_empty in Hx.
Qed.

Lemma metadata_ok_unavailable m : metadata_ok m -> metadata_ok (set_unavailable m).
Proof. done. Qed.

Lemma inv_metadata_get s b : invariant s ->
  Z.of_nat (length (get_Metadata b s)) <= Z.max 0 MaxKeys /\ Forall metadata_ok (get_Metadata b s).
Proof.
  intros Hi. unfold get_Metadata. destruct (Metadata s !! b) as [mv|] eqn:Hb; simpl.
  - by apply (inv_metadata s Hi b).
  - split; [lia|constructor].
Qed.

Lemma inv_votes_of s b i : invariant s -> NoDup (votes_of b i s) /\
  Z.of_nat (length (votes_of b i s)) <= MaxBlobNum.
Proof.
  intros Hi. unfold votes_of. destruct (UnavailableVote s !! (b, i)) as [v|] eqn:Hv; simpl.
  - destruct (inv_votes s Hi _ _ Hv) as (? & _ & ?). done.
  - split; [constructor|lia].
Qed.

Lemma report_invariant origin r s s' : Forall (in_u 32) (index_set r) -> invariant s ->
  report origin r s = (Ok tt, s') -> invariant s'.
Proof.
  intros Hu Hi Hr. assert (Hpos : Forall (fun i => 0 <= i) (index_set r))
    by (eapply Forall_impl; [exact Hu|]; intros i [? _]; done).
  apply report_Ok_inv in Hr as (_ & _ & _ & _ & mv' & s1 & Hl & ->); [|done].
  destruct (report_loop_Ok _ _ _ _ _ _ _ Hpos Hl)
    as (Hnd & Hlt & Hvotes & [Hlen Hmv] & [f ->] & Hin & Hout).
  destruct (inv_metadata_get s (at_block r) Hi) as [Hml Hmok].
  split; simpl in *.
  - intros [b i] v Hv. destruct (decide (b = at_block r /\ i ∈ index_set r)) as [[-> Hix]|Hno].
    + rewrite (Hin i Hix) in Hv. injection Hv as <-. destruct (Hvotes i Hix) as [Hna Hlt'].
      destruct (inv_votes_of s (at_block r) i Hi) as [Hn _].
      split_and!; [|by destruct (votes_of _ _ _)|rewrite length_app; simpl; lia].
      apply NoDup_app. split; [done|]. split; [|apply NoDup_singleton]. set_solver.
    + apply (inv_votes s Hi (b, i)). rewrite <- Hout; [done|]. simpl.
      destruct (decide (b = at_block r)); [right|left]; naive_solver.
  - intros b mv Hb. destruct (decide (b = at_block r)) as [->|Hne].
    + rewrite lookup_insert_eq in Hb. injection Hb as <-. rewrite Hlen. split; [done|].
      apply Forall_forall. intros m' [j Hj]%list_elem_of_lookup.
      assert (Hjm : (j < length (get_Metadata (at_block r) s))%nat)
        by (rewrite <- Hlen; by eapply lookup_lt_Some).
      apply lookup_lt_is_Some in Hjm as [m Hm]. rewrite (Hmv j m Hm) in Hj. injection Hj as <-.
      pose proof (Forall_lookup_1 _ _ _ _ Hmok Hm) as Hok.
      case_bool_decide; [|done]. unfold judged. by destruct (_ <? _).
    + rewrite lookup_insert_ne in Hb by done. by apply (inv_metadata s Hi b).
  - apply (inv_ext s Hi).
  - apply (inv_keys s Hi).
Qed.

Lemma submit_invariant origin p s u s' : invariant s ->
  submit_data origin p s = (Ok u, s') -> invariant s'.
Proof.
  intros Hi Hr. apply submit_data_Ok_inv in Hr
    as (who & bn & _ & Hck & _ & _ & _ & _ & Hcl & _ & Hmk & ->).
  destruct (inv_metadata_get s (block_number s) Hi) as [_ Hmok].
  split; simpl; [apply (inv_votes s Hi)| |apply (inv_ext s Hi)|apply (inv_keys s Hi)].
  intros b mv Hb. destruct (decide (b = block_number s)) as [->|Hne].
  - rewrite lookup_insert_eq in Hb. injection Hb as <-. split; [rewrite length_app; simpl; lia|].
    apply Forall_app. split; [done|]. apply Forall_singleton. unfold metadata_ok. simpl.
    unfold SidecarMetadata.check in Hck. apply andb_true_iff in Hck as [[H1' H2']%andb_true_iff H3'].
    apply bool_decide_eq_true in H1'. apply negb_true_iff, bool_decide_eq_false in H2'.
    apply Z.ltb_lt in H3'. done.
  - rewrite lookup_insert_ne in Hb by done. by apply (inv_metadata s Hi b).
Qed.

Lemma dispatch_invariant c origin s o s' : call_wf c -> invariant s ->
  dispatch c origin s = (o, s') -> invariant s'.
Proof.
  intros Hwf Hi Hd. unfold dispatch, transactional in Hd. destruct c as [p|r sig|].
  - destruct (submit_data origin p s) as [[[]|e|] s1] eqn:Hr; simplify_eq; [|done|done].
    by eapply submit_invariant.
  - destruct (report origin r s) as [[[]|e|] s1] eqn:Hr; simplify_eq; [|done|done].
    destruct Hwf. by eapply report_invariant.
  - destruct (register_app origin s) as [[[]|e|] s1] eqn:Hr; simplify_eq; [|done|done].
    unfold register_app, ensure_signed, lift_res, gets, modify, deposit_event in Hr.
    apply stM_bind_Ok in Hr as (who & s2 & Ho & Hr). destruct origin; simplify_eq.
    apply stM_bind_Ok in Hr as (app & s3 & [= <- <-] & Hr).
    apply stM_bind_Ok in Hr as (? & s4 & [= _ <-] & [= <-]).
    destruct Hi as [? ? ? ?]. by split.
Qed.

(** Reads and caching only add bounded lists. *)
Lemma ext_invariant s b l : Z.of_nat (length l) <= MaxBlobNum -> invariant s ->
  invariant (set_CommitmentsExt (insert b l) s).
Proof.
  intros Hl [Hv Hm He Hk]. split; simpl; [done..| |done].
  intros b' l' Hb'. destruct (decide (b' = b)) as [->|].
  - rewrite lookup_insert_eq in Hb'. by injection Hb' as <-.
  - rewrite lookup_insert_ne in Hb' by done. by eapply He.
Qed.

Lemma commitments_at_state b p s o s' : commitments_at b p s = (o, s') ->
  s' = s \/ exists l, Z.of_nat (length l) <= MaxBlobNum /\
    s' = set_CommitmentsExt (insert b l) s.
Proof.
  clear HMax. unfold commitments_at, mbind, stM_bind, gets, mret, stM_ret, lift_res, modify. simpl.
  destruct (_ <? b); [naive_solver|]. destruct (CommitmentsExt s !! b); [naive_solver|].
  destruct (_ <? _)%nat; [naive_solver|].
  destruct (Crypto.default_embedded _) as [kzg| |]; [|naive_solver..].
  destruct (extend_fs_g1 _ _) as [ext| |]; simpl; [|naive_solver..].
  destruct (_ <? _)%nat; [|naive_solver].
  destruct (bounded MaxBlobNum ext) as [l|] eqn:Hb; [|naive_solver].
  apply bounded_Some in Hb as [-> Hl]. intros [= <- <-]. right. eauto.
Qed.

Lemma push_state b cs s o s' : push_commitments_ext b cs s = (o, s') ->
  s' = s \/ Z.of_nat (length cs) <= MaxBlobNum /\ s' = set_CommitmentsExt (insert b cs) s.
Proof.
  clear HMax. unfold push_commitments_ext, mbind, stM_bind, gets, lift_res, modify.
  destruct (bounded MaxBlobNum (_ ++ cs)) as [all|]; simpl; [|naive_solver].
  destruct (bounded MaxBlobNum cs) as [l|] eqn:Hb; simpl; [|naive_solver].
  apply bounded_Some in Hb as [-> Hl]. naive_solver.
Qed.

Lemma step_invariant s s' : step s s' -> invariant s -> invariant s'.
Proof.
  intros Hs Hi. destruct Hs as [c origin s o s' Hwf Hd|s|s h|s v Hl|s i s' Hd|s b cs o s' Hp|s b p o s' Hc].
  - by eapply dispatch_invariant.
  - unfold on_finalize. destruct (_ <=? _); [done|]. destruct Hi as [Hv Hm He Hk].
    split; simpl; [|done..]. intros k v Hkv. apply (Hv k).
    by eapply lookup_weaken; [|apply clear_prefix_subseteq].
  - destruct Hi as [? ? ? ?]. by split.
  - destruct Hi as [? ? ? ?]. split; [done..|]. simpl. by rewrite length_fmap.
  - unfold on_disabled in Hd. destruct (_ <? _)%nat eqn:Hlt; simplify_eq.
    destruct Hi as [? ? ? Hk]. split; [done..|]. simpl.
    pose proof (length_delete (Keys s) (Z.to_nat i)). apply Nat.ltb_lt in Hlt.
    rewrite length_delete by (by apply lookup_lt_is_Some). lia.
  - destruct (push_state _ _ _ _ _ Hp) as [->|[Hl ->]]; [done|by apply ext_invariant].
  - destruct (commitments_at_state _ _ _ _ _ Hc) as [->|(l & Hl & ->)]; [done|by apply ext_invariant].
Qed.

Lemma invariant_reachable s0 s : genesis s0 -> rtc step s0 s -> invariant s.
Proof.
  intros Hg Hs. apply invariant_genesis in Hg.
  induction Hs as [s|s1 s2 s3 Hs _ IH]; [done|]. apply IH. by eapply step_invariant.
Qed.

(** C8: The storage invariant holds in every reachable state, whatever sequence of
    calls from any origin, block boundaries, session changes and cached reads led to
    it: no authority index is recorded twice for an entry, vote lists and commitment lists
    stay within their bounds, and every stored entry has at least one commitment, as
    many proofs as commitments, and a positive length. *)
Theorem reachable_invariant s0 s : genesis s0 -> rtc step s0 s -> invariant s.
Proof. apply invariant_reachable. Qed.

Lemma threshold_half s : Z.of_nat (length (Keys s)) < 2 ^ 32 ->
  threshold s = Z.of_nat (length (Keys s)) / 2.
Proof.
  intros Hk. unfold threshold, UNAVAILABILITY_THRESHOLD.
  rewrite wrap_small by (unfold in_u; lia).
  rewrite permill_from_percent_parts, permill_mul_floor_parts by (unfold in_u; lia).
  change (50 * 10000) with 500000.
  change 1000000 with (2 * 500000). rewrite Z.div_mul_cancel_r by lia. done.
Qed.

(** Equal up to availability. *)
Definition same_entry (m m' : BlobMetadata) : Prop :=
  mkMetadata (app_id m) (from m) (commitments m) (proofs m) (bytes_len m) (is_available m') (nonce m)
  = m'.

(** How a step may treat the entry at row [i] of block [b]. *)
Definition entry_step (s s' : Storage) (b : Z) (i : nat) (m m' : BlobMetadata) : Prop :=
  same_entry m m' /\ (is_available m' = true -> is_available m = true) /\
  (is_available m = true -> is_available m' = false ->
     block_number s - 1 <= b <= block_number s /\
     let v := votes_of b (Z.of_nat i) s' in
     NoDup v /\ Z.of_nat (length (Keys s)) / 2 < Z.of_nat (length v)).

Lemma entry_step_same s s' b i m : entry_step s s' b i m m.
Proof. split_and!; [by destruct m|done|congruence]. Qed.

Lemma entry_step_id s s' b i m : Metadata s' = Metadata s ->
  get_Metadata b s !! i = Some m ->
  exists m', get_Metadata b s' !! i = Some m' /\ entry_step s s' b i m m'.
Proof.
  intros He Hm. exists m. split; [|apply entry_step_same]. unfold get_Metadata. by rewrite He.
Qed.

Lemma report_entry origin r s s' b i m :
  Forall (in_u 32) (index_set r) -> in_u 32 (at_block r) -> invariant s ->
  report origin r s = (Ok tt, s') -> get_Metadata b s !! i = Some m ->
  exists m', get_Metadata b s' !! i = Some m' /\ entry_step s s' b i m m'.
Proof.
  intros Hu Hab Hi Hr Hm. assert (Hpos : Forall (fun i => 0 <= i) (index_set r))
    by (eapply Forall_impl; [exact Hu|]; intros ? [? _]; done).
  pose proof (report_invariant _ _ _ _ Hu Hi Hr) as Hi'.
  apply report_Ok_inv in Hr as (_ & Hnow & _ & _ & mv' & s1 & Hl & ->); [|done].
  destruct (report_loop_Ok _ _ _ _ _ _ _ Hpos Hl)
    as (_ & _ & Hvotes & [_ Hmv] & [f ->] & Hin & _).
  unfold get_Metadata at 1. simpl. destruct (decide (b = at_block r)) as [->|Hne].
  2: { rewrite lookup_insert_ne by done. exists m. split; [exact Hm|apply entry_step_same]. }
  rewrite lookup_insert_eq. simpl. exists (if bool_decide (Z.of_nat i ∈ index_set r)
    then judged s (votes_of (at_block r) (Z.of_nat i) s ++ [authority_index r]) m else m).
  split; [by apply Hmv|]. case_bool_decide as Hix; [|apply entry_step_same].
  unfold judged. destruct (Z.ltb_spec (threshold s) (wrap 32 (Z.of_nat (length
    (votes_of (at_block r) (Z.of_nat i) s ++ [authority_index r]))))) as [Hmaj|];
    [|apply entry_step_same].
  split_and!; [done|done|]. intros _ _.
  destruct (Hvotes _ Hix) as [Hna Hlt].
  assert (Hv' : votes_of (at_block r) (Z.of_nat i)
      (set_events (cons (ReportReceived (at_block r) (authority_index r)))
        (set_Metadata (insert (at_block r) mv') (set_UnavailableVote f s)))
      = votes_of (at_block r) (Z.of_nat i) s ++ [authority_index r]).
  { unfold votes_of at 1. simpl. simpl in Hin. by rewrite Hin. }
  split.
  - assert (wrap 32 (at_block r + 1) <= at_block r + 1); [|lia].
    unfold wrap. apply Z.mod_le; destruct Hab; lia.
  - split; [apply (inv_votes_of _ _ _ Hi')|]. rewrite Hv'.
    rewrite <- threshold_half by apply (inv_keys s Hi).
    rewrite wrap_small in Hmaj by (unfold in_u; rewrite length_app; simpl; lia). done.
Qed.

Lemma submit_entry origin p s u s' b i m : submit_data origin p s = (Ok u, s') ->
  get_Metadata b s !! i = Some m ->
  exists m', get_Metadata b s' !! i = Some m' /\ entry_step s s' b i m m'.
Proof.
  intros Hr Hm. apply submit_data_Ok_inv in Hr as (who & bn & _ & _ & _ & _ & _ & _ & _ & _ & _ & ->).
  exists m. split; [|apply entry_step_same]. unfold get_Metadata at 1. simpl.
  destruct (decide (b = block_number s)) as [->|Hne].
  - rewrite lookup_insert_eq. simpl. by apply lookup_app_l_Some.
  - by rewrite lookup_insert_ne.
Qed.

Lemma entry_step_reachable s0 s s' b i m :
  genesis s0 -> rtc step s0 s -> step s s' -> get_Metadata b s !! i = Some m ->
  exists m', get_Metadata b s' !! i = Some m' /\ entry_step s s' b i m m'.
Proof.
  intros Hg Hreach Hs Hm.
  assert (Hi : invariant s) by (by eapply invariant_reachable).
  destruct Hs as [c origin s o s' Hwf Hd|s|s h|s v Hl|s j s' Hd|s b' cs o s' Hp|s b' p o s' Hc].
  - unfold dispatch, transactional in Hd. destruct c as [p|r sig|].
    + destruct (submit_data origin p s) as [[[]|e|] s1] eqn:Hr; simplify_eq;
        [by eapply submit_entry|by apply entry_step_id..].
    + destruct (report origin r s) as [[[]|e|] s1] eqn:Hr; simplify_eq; [|by apply entry_step_id..].
      destruct Hwf. by eapply report_entry.
    + destruct (register_app origin s) as [[[]|e|] s1] eqn:Hr; simplify_eq; [|by apply entry_step_id..].
      apply entry_step_id; [|done]. unfold register_app, ensure_signed, lift_res in Hr.
      apply stM_bind_Ok in Hr as (who & s2 & Ho & Hr). destruct origin; simplify_eq.
      apply stM_bind_Ok in Hr as (app & s3 & [= <- <-] & Hr).
      apply stM_bind_Ok in Hr as (? & s4 & [= _ <-] & [= <-]). done.
  - apply entry_step_id; [|done]. unfold on_finalize. by destruct (_ <=? _).
  - by apply entry_step_id.
  - by apply entry_step_id.
  - apply entry_step_id; [|done]. unfold on_disabled in Hd. by destruct (_ <? _)%nat; simplify_eq.
  - apply entry_step_id; [|done]. by destruct (push_state _ _ _ _ _ Hp) as [->|[_ ->]].
  - apply entry_step_id; [|done]. by destruct (commitments_at_state _ _ _ _ _ Hc) as [->|(l & _ & ->)].
Qed.

(** ** Who voted

    Votes are recorded as indices into the list of keys.  While the keys do not change, an
    index names the same authority. *)
Definition same_keys_step s t : Prop := step s t /\ Keys t = Keys s.

Lemma report_votes origin r s s' b i : Forall (fun i => 0 <= i) (index_set r) ->
  report origin r s = (Ok tt, s') ->
  votes_of b i s' = votes_of b i s \/
  (is_Some (Keys s !! Z.to_nat (authority_index r)) /\
   votes_of b i s' = votes_of b i s ++ [authority_index r]).
Proof.
  intros Hpos Hr. apply report_Ok_inv in Hr as (_ & _ & _ & Hk & mv' & s1 & Hl & ->); [|done].
  destruct (report_loop_Ok _ _ _ _ _ _ _ Hpos Hl) as (_ & _ & _ & _ & [f ->] & Hin & Hout).
  unfold votes_of at 1 3. simpl in *. destruct (decide (b = at_block r)) as [->|Hb].
  - destruct (decide (i ∈ index_set r)) as [Hi|Hi]; [right; by rewrite Hin|].
    left. rewrite Hout; [done|by right].
  - left. rewrite Hout; [done|by left].
Qed.

Lemma step_votes s t b i : step s t ->
  votes_of b i t = votes_of b i s \/ votes_of b i t = [] \/
  exists j, is_Some (Keys s !! Z.to_nat j) /\ votes_of b i t = votes_of b i s ++ [j].
Proof.
  intros Hs. destruct Hs as [c origin s o s' Hwf Hd|s|s h|s v Hl|s j s' Hd|s b' cs o s' Hp|s b' p o s' Hc].
  - unfold dispatch, transactional in Hd. destruct c as [p|r sig|].
    + destruct (submit_data origin p s) as [[[]|e|] s1] eqn:Hr; simplify_eq; [|by left..].
      apply submit_data_Ok_inv in Hr as (who & bn & _ & _ & _ & _ & _ & _ & _ & _ & _ & ->). by left.
    + destruct (report origin r s) as [[[]|e|] s1] eqn:Hr; simplify_eq; [|by left..].
      apply (report_votes _ _ _ _ b i) in Hr as [?|[? ?]]; [by left|by eauto|].
      destruct Hwf as [Hu _]. eapply Forall_impl; [exact Hu|]. by intros ? [? _].
    + destruct (register_app origin s) as [[[]|e|] s1] eqn:Hr; simplify_eq; [|by left..].
      unfold register_app, ensure_signed, lift_res in Hr.
      apply stM_bind_Ok in Hr as (who & s2 & Ho & Hr). destruct origin; simplify_eq.
      apply stM_bind_Ok in Hr as (app & s3 & [= <- <-] & Hr).
      apply stM_bind_Ok in Hr as (? & s4 & [= _ <-] & [= <-]). by left.
  - unfold on_finalize. destruct (_ <=? _); [by left|]. unfold votes_of. simpl.
    match goal with |- context [clear_prefix ?n ?m ?u] => pose proof (clear_prefix_subseteq n m u) as Hsub end.
    destruct (clear_prefix _ _ _ !! (b, i)) as [v|] eqn:Hv; [|by right; left].
    left. by rewrite (lookup_weaken _ _ _ _ Hv Hsub).
  - by left.
  - by left.
  - unfold on_disabled in Hd. destruct (_ <? _)%nat; simplify_eq. by left.
  - destruct (push_state _ _ _ _ _ Hp) as [->|[_ ->]]; by left.
  - destruct (commitments_at_state _ _ _ _ _ Hc) as [->|(l & _ & ->)]; by left.
Qed.

(** Votes cast since an entry had none, the keys unchanged, name current authorities. *)
Definition named s (v : list Z) : Prop := Forall (fun j => is_Some (Keys s !! Z.to_nat j)) v.

Lemma step_named s t b i : step s t -> named s (votes_of b i s) -> named s (votes_of b i t).
Proof.
  intros Hs Hn. destruct (step_votes s t b i Hs) as [-> |[-> |(j & Hj & ->)]]; [done|constructor|].
  apply Forall_app. split; [done|]. by constructor.
Qed.

Lemma named_since s1 s b i : votes_of b i s1 = [] -> rtc same_keys_step s1 s -> named s (votes_of b i s).
Proof.
  intros Hv. apply (rtc_ind_r (fun t => named t (votes_of b i t)) s1); [by rewrite Hv; constructor|].
  intros t u _ [Hs Hk] IH. unfold named. rewrite Hk. by apply step_named.
Qed.

Lemma named_voters s (v : list Z) : named s v -> NoDup v -> Forall (fun j => 0 <= j) v ->
  exists voters, Forall2 (fun j a => Keys s !! Z.to_nat j = Some a) v voters /\
    (NoDup (Keys s) -> NoDup voters).
Proof.
  intros Hn Hnd Hpos. induction v as [|j v IH]; [exists []; split; [constructor|by intros; constructor]|].
  apply Forall_cons in Hn as [[a Ha] Hn]. apply Forall_cons in Hpos as [Hj Hpos].
  apply NoDup_cons in Hnd as [Hni Hnd]. destruct (IH Hn Hnd Hpos) as (voters & Hf & Hv).
  exists (a :: voters). split; [by constructor|]. intros Hk. apply NoDup_cons. split; [|by apply Hv].
  intros Hin. apply list_elem_of_lookup in Hin as [n Hi]. destruct (Forall2_lookup_r _ _ _ _ _ Hf Hi) as (j' & Hj' & Hk').
  apply Hni. assert (Z.to_nat j = Z.to_nat j') by (by eapply NoDup_lookup).
  assert (j = j') as ->; [|by eapply list_elem_of_lookup_2].
  rewrite Forall_forall in Hpos. specialize (Hpos j' ltac:(by eapply list_elem_of_lookup_2)). lia.
Qed.

(** C4: An entry loses its availability only by a majority of votes, and for good: in every
    reachable state, a step never removes or alters an entry except for its availability
    flag, never sets the flag back, and clears it only for the current or the previous
    block and only when the indices recorded as its voters after the step are pairwise
    different and outnumber half of the current authorities.  Indices stand for
    authorities as long as the keys do not change: if they did not since the entry had no
    votes, and no key is listed twice, more than half of the authorities voted, each
    once.  (After a key was removed or replaced an index may name another authority.) *)
Theorem availability_needs_majority s0 s s' b i m :
  genesis s0 -> rtc step s0 s -> step s s' -> get_Metadata b s !! i = Some m ->
  exists m', get_Metadata b s' !! i = Some m' /\ entry_step s s' b i m m' /\
    forall s1, rtc same_keys_step s1 s -> votes_of b (Z.of_nat i) s1 = [] ->
      Forall (in_u 32) (votes_of b (Z.of_nat i) s') -> NoDup (Keys s) ->
      is_available m = true -> is_available m' = false ->
      exists voters, Forall2 (fun j a => Keys s !! Z.to_nat j = Some a) (votes_of b (Z.of_nat i) s') voters /\
        NoDup voters /\ Z.of_nat (length (Keys s)) / 2 < Z.of_nat (length voters).
Proof.
  intros Hg Hr Hs Hm. destruct (entry_step_reachable s0 s s' b i m Hg Hr Hs Hm) as (m' & Hm' & He).
  exists m'. split; [done|]. split; [done|]. intros s1 Hk Hv1 Hu Hnd Ha Ha'.
  destruct He as (_ & _ & Hflip). destruct (Hflip Ha Ha') as (_ & Hvd & Hmaj).
  destruct (named_voters s (votes_of b (Z.of_nat i) s')) as (voters & Hf & Hv).
  - apply step_named; [done|]. by eapply named_since.
  - done.
  - eapply Forall_impl; [exact Hu|]. by intros ? [? _].
  - exists voters. split_and!; [done|by apply Hv|]. by rewrite <- (Forall2_length _ _ _ Hf).
Qed.
End reachability.
