(* ===== verification/MeloStoreFacts.v ===== *)
(** * More properties of the data submission pallet

    The commitment list that goes into the header, the validity of unsigned reports,
    the vote bound and the nonce rule. *)

From S2P Require Import Prelude Codec DasDb KzgLib KzgIndex KzgToy DasPrimitives Blob.
From S2P Require Import ErasureCoding CorePrimitives Reliability Sidecar MeloStore MeloStoreProps.

(** ** The header's commitment list *)
Section header_list.
Context `{Platform} `{KzgLib} `{MeloConfig} `{PermillLib} `{!PermillLaws} `{ClearPrefix}
  `{!ClearPrefixLaws} `{EmbeddedSettings}.
Context (HMax : 0 <= MaxBlobNum < 2 ^ 16).

Lemma lookups_fold (ms : list BlobMetadata) : forall cs ls,
  fold_left (fun '(cs, app_lookups) m =>
      (cs ++ commitments m,
       app_lookups ++ [AppLookup.mk (app_id m) (nonce m)
                         (wrap 16 (Z.of_nat (length (commitments m))))])) ms (cs, ls)
  = (cs ++ concat (commitments <$> ms),
     ls ++ ((fun m => AppLookup.mk (app_id m) (nonce m)
                        (wrap 16 (Z.of_nat (length (commitments m))))) <$> ms)).
Proof.
  induction ms as [|m ms IH]; intros cs ls; simpl; [by rewrite !app_nil_r|].
  rewrite IH. by rewrite <- !app_assoc.
Qed.

(** The table in closed form. *)
Lemma last_value s : invariant s -> 1 < block_number s < 2 ^ 32 ->
  let ms := iter_metadata (block_number s - 1) s in
  last s = (concat (commitments <$> ms),
    (fun m => AppLookup.mk (app_id m) (nonce m) (Z.of_nat (length (commitments m)))) <$> ms).
Proof.
  intros Hi Hb ms. unfold last, DELAY_CHECK_THRESHOLD. rewrite (proj2 (Z.leb_gt _ _)) by lia.
  unfold get_commitments_and_app_lookups. rewrite wrap_small by (unfold in_u; lia).
  rewrite lookups_fold. simpl. f_equal. apply list_fmap_ext. intros i m Hm. f_equal.
  apply list_elem_of_lookup_2, list_elem_of_filter in Hm as [_ Hm].
  destruct (inv_metadata_get s (block_number s - 1) Hi) as [_ Hok]. rewrite Forall_forall in Hok.
  destruct (Hok m Hm) as (_ & _ & _ & Hl). apply wrap_small. unfold in_u. lia.
Qed.

Lemma header_rows s : invariant s -> 0 <= MaxKeys ->
  let ms := iter_metadata (block_number s - 1) s in
  Z.of_nat (length (concat (commitments <$> ms))) <= MaxKeys * MaxBlobNum.
Proof.
  intros Hi Hk ms. destruct (inv_metadata_get s (block_number s - 1) Hi) as [Hlen Hok].
  assert (Hms : Forall metadata_ok ms).
  { apply Forall_forall. intros m [_ Hm]%list_elem_of_filter. by apply (proj1 (Forall_forall _ _) Hok). }
  assert (Hml : Z.of_nat (length ms) <= MaxKeys).
  { pose proof (length_filter (fun m => is_available m = true) (get_Metadata (block_number s - 1) s)).
    unfold ms, iter_metadata. lia. }
  transitivity (Z.of_nat (length ms) * MaxBlobNum); [|nia]. clear Hml.
  induction Hms as [|m l (_ & _ & _ & Hm) _ IH]; [done|].
  rewrite fmap_cons. cbn [concat length]. rewrite length_app. lia.
Qed.

(** The header gets a consistent table: in every reachable state the commitments
    [last] hands to the header are those of the available entries of the previous
    block in order, and its lookup table has one entry per submission, whose counts
    add up to the number of commitments, so that [get_lookup] covers exactly the rows
    of the header. *)
Theorem last_consistent s0 s : genesis s0 -> rtc step s0 s ->
  let '(cs, ls) := last s in
  sum_Z (AppLookup.count <$> ls) = Z.of_nat (length cs) /\
  (1 < block_number s < 2 ^ 32 ->
     let ms := iter_metadata (block_number s - 1) s in
     cs = concat (commitments <$> ms) /\
     Forall (fun m => is_available m = true) ms /\
     (fun l => (AppLookup.app_id l, AppLookup.nonce l)) <$> ls
     = (fun m => (app_id m, nonce m)) <$> ms).
Proof.
  intros Hg Hr. assert (Hi : invariant s) by (eapply invariant_reachable; [lia|done|done]).
  unfold last. destruct (Z.leb_spec (block_number s) DELAY_CHECK_THRESHOLD) as [Hle|Hgt].
  { split; [done|]. unfold DELAY_CHECK_THRESHOLD in Hle. lia. }
  unfold get_commitments_and_app_lookups. rewrite lookups_fold. simpl.
  set (b := wrap 32 (block_number s - DELAY_CHECK_THRESHOLD)). split.
  - destruct (inv_metadata_get s b Hi) as [_ Hok].
    assert (Hf : Forall metadata_ok (iter_metadata b s)).
    { apply Forall_forall. intros m [_ Hm]%list_elem_of_filter. by apply (proj1 (Forall_forall _ _) Hok). }
    induction Hf as [|m ms (_ & _ & _ & Hm) _ IH]; [done|].
    rewrite !fmap_cons. cbn [concat]. rewrite length_app, Nat2Z.inj_add, <- IH.
    unfold sum_Z. simpl. rewrite wrap_small by (unfold in_u; lia). done.
  - intros Hb32. assert (b = block_number s - 1) as ->
      by (unfold b; apply wrap_small; unfold in_u, DELAY_CHECK_THRESHOLD; lia).
    split_and!; [done| |by rewrite <- list_fmap_compose].
    apply Forall_forall. by intros m [? _]%list_elem_of_filter.
Qed.
End header_list.

(** ** The vote bound *)
Section vote_bound.
Context `{Platform} `{KzgLib} `{MeloConfig} `{PermillLib} `{!PermillLaws} `{ClearPrefix}
  `{!ClearPrefixLaws} `{EmbeddedSettings}.
Context (HMax : 0 <= MaxBlobNum < 2 ^ 32).

(** C39: The number of votes per entry is bounded by [MaxBlobNum], not by the number of
    authorities: once half of the authorities is at least [MaxBlobNum] (100 in the
    runtime, reached with 200 validators), no sequence of reports can mark any entry
    unavailable. *)
Theorem majority_unreachable s0 s s' b i m :
  genesis s0 -> rtc step s0 s -> step s s' ->
  MaxBlobNum <= Z.of_nat (length (Keys s)) / 2 ->
  get_Metadata b s !! i = Some m -> get_Metadata b s' !! i = Some m.
Proof.
  intros Hg Hr Hs Hb Hm. destruct (entry_step_reachable HMax s0 s s' b i m Hg Hr Hs Hm)
    as (m' & Hm' & Hse & Hmono & Hflip).
  assert (Hi' : invariant s')
    by (eapply invariant_reachable; [done|exact Hg|by eapply rtc_r]).
  rewrite Hm'. f_equal. unfold same_entry in Hse. rewrite <- Hse.
  destruct (is_available m) eqn:Ha, (is_available m') eqn:Ha'; try by destruct m; simpl in *; congruence.
  - destruct (Hflip eq_refl eq_refl) as (_ & _ & Hv).
    destruct (inv_votes_of HMax s' b (Z.of_nat i) Hi') as [_ Hl]. lia.
  - by specialize (Hmono eq_refl).
Qed.
End vote_bound.

(** ** Unsigned reports *)
Section validation.
Context `{KzgLib} `{MeloConfig} `{Codec UnavailableDataReport}.

(** The pool admits an unsigned call exactly when it is a report whose authority
    index names a current key, whose validator count is the number of keys and whose
    signature by that key verifies over the encoded report. *)
Theorem validate_unsigned_iff c s :
  is_ok (validate_unsigned c s) = true <->
  exists r sig key, c = CallReport r sig /\
    Keys s !! Z.to_nat (authority_index r) = Some key /\
    validators_len r = wrap 32 (Z.of_nat (length (Keys s))) /\
    authority_verify key (scale_encode r) sig = true.
Proof.
  destruct c as [p|r sig|]; simpl; [split; [done|naive_solver]| |split; [done|naive_solver]].
  destruct (Keys s !! Z.to_nat (authority_index r)) as [key|] eqn:Hk; [|split; [done|naive_solver]].
  destruct (Z.eqb_spec (wrap 32 (Z.of_nat (length (Keys s)))) (validators_len r)) as [He|He]; simpl.
  - destruct (authority_verify key (scale_encode r) sig) eqn:Hv; simpl; split; try done; [|naive_solver].
    intros _. by exists r, sig, key.
  - split; [done|]. intros (r' & sig' & key' & [= <- <-] & _ & Hl & _). congruence.
Qed.
End validation.

(** ** Nonces *)
Section nonces.
Context `{Platform} `{KzgLib} `{MeloConfig} `{PermillLib}.

(** The converse of [submit_data_Ok_inv]: what suffices for a submission. *)
Lemma submit_data_accepts who p s bn :
  SidecarMetadata.check p = true ->
  Blob.blob_count (SidecarMetadata.bytes_len p) BYTES_PER_BLOB = Ok bn -> bn <= MaxBlobNum ->
  SidecarMetadata.app_id p <= AppId s ->
  SidecarMetadata.nonce p = Z.min (get_Nonces (AppId s) s + 1) (2 ^ 32 - 1) ->
  Z.of_nat (length (SidecarMetadata.commitments p)) <= MaxBlobNum ->
  Z.of_nat (length (SidecarMetadata.proofs p)) <= MaxBlobNum ->
  Z.of_nat (length (get_Metadata (block_number s) s)) < MaxKeys ->
  exists s', submit_data (Signed who) p s = (Ok tt, s').
Proof.
  intros G1 Hbn G2 G3 G4 G5 G6 G7.
  assert (E5 := proj2 (bounded_Some _ _ _) (conj eq_refl G5)).
  assert (E6 := proj2 (bounded_Some _ _ _) (conj eq_refl G6)).
  unfold submit_data, ensure_signed, ensureM, lift_res, gets, modify, deposit_event,
    mbind, stM_bind. rewrite G1, Hbn. simpl.
  rewrite (proj2 (Z.leb_le _ _) G2), (proj2 (Z.leb_le _ _) G3), (proj2 (Z.eqb_eq _ _) G4), E5, E6.
  simpl. unfold try_push. rewrite (proj2 (Z.ltb_lt _ _) G7). simpl. eauto.
Qed.

(** C40: The nonce of a submission is checked against the counter of the latest
    registered application, not of the submitting one: after a new application is
    registered, a submission that was accepted with nonce 1 is accepted once more,
    and two entries carry the same application and nonce. *)
Theorem nonce_reused_after_register who who' p s s1 :
  dispatch (CallSubmitData p) (Signed who) s = (Ok tt, s1) ->
  SidecarMetadata.nonce p = 1 -> 0 <= AppId s -> AppId s + 1 < 2 ^ 32 ->
  Nonces s !! (AppId s + 1) = None ->
  Z.of_nat (length (get_Metadata (block_number s) s)) + 1 < MaxKeys ->
  exists s2 s3 m, dispatch CallRegisterApp (Signed who') s1 = (Ok tt, s2) /\
    dispatch (CallSubmitData p) (Signed who) s2 = (Ok tt, s3) /\
    get_Metadata (block_number s) s3 = get_Metadata (block_number s) s ++ [m; m] /\
    app_id m = SidecarMetadata.app_id p /\ nonce m = 1.
Proof.
  intros Hd Hn Hu0 Hu Hfresh Hroom. unfold dispatch, transactional in Hd.
  destruct (submit_data (Signed who) p s) as [[[]| |] s1'] eqn:Hs; simplify_eq.
  apply submit_data_Ok_inv in Hs
    as (who0 & bn & [= <-] & Hck & Hbn & Hbm & Happ & Hnn & Hcl & Hpl & Hmk & ->).
  match goal with |- context [dispatch CallRegisterApp _ ?t] => set (s1 := t) end.
  set (s2 := set_events (cons (AppIdRegistered (AppId s + 1) who')) (set_AppId (fun _ => AppId s + 1) s1)).
  assert (Hreg : dispatch CallRegisterApp (Signed who') s1 = (Ok tt, s2)).
  { cbv [dispatch transactional register_app ensure_signed lift_res gets modify deposit_event
      mbind stM_bind]. change (AppId s1) with (AppId s).
    by rewrite wrap_small by (unfold in_u; lia). }
  assert (Hmv : get_Metadata (block_number s2) s2 = get_Metadata (block_number s) s ++
      [mkMetadata (SidecarMetadata.app_id p) who (SidecarMetadata.commitments p)
        (SidecarMetadata.proofs p) (SidecarMetadata.bytes_len p) true (SidecarMetadata.nonce p)]).
  { unfold get_Metadata at 1. simpl. by rewrite lookup_insert_eq. }
  destruct (submit_data_accepts who p s2 bn) as [s3 Hs3]; [done|done|done|simpl; lia| |done|done| |].
  { rewrite Hn. unfold get_Nonces. simpl. rewrite lookup_insert_ne by lia. by rewrite Hfresh. }
  { rewrite Hmv, length_app. simpl. lia. }
  exists s2, s3, (mkMetadata (SidecarMetadata.app_id p) who (SidecarMetadata.commitments p)
    (SidecarMetadata.proofs p) (SidecarMetadata.bytes_len p) true (SidecarMetadata.nonce p)).
  split; [exact Hreg|]. unfold dispatch, transactional. rewrite Hs3.
  split; [done|].
  apply submit_data_Ok_inv in Hs3 as (who1 & bn' & [= <-] & _ & _ & _ & _ & _ & _ & _ & _ & ->).
  split; [|split; [reflexivity|exact Hn]]. unfold get_Metadata at 1.
  cbn [set_events set_Nonces set_Metadata Metadata block_number].
  change (block_number s2) with (block_number s) in *. rewrite lookup_insert_eq. simpl.
  by rewrite Hmv, <- app_assoc.
Qed.
End nonces.
