(* ===== verification/MeloOffchainProps.v ===== *)
(** * Properties of the pallet's off-chain worker

    What the worker submits is admitted by the pool and accepted by the pallet, and the
    lock lets one authority report a block once per block number. *)

From S2P Require Import Prelude Codec DasDb KzgLib KzgIndex KzgToy DasPrimitives Blob.
From S2P Require Import CorePrimitives Reliability Sidecar MeloStore MeloOffchain MeloStoreProps.

(** The key store's signatures verify. *)
Class SignLaws (H : Type) `{KzgLib} `{MeloConfig} `{!OffchainEnv H} : Prop :=
  sign_verify : forall key msg sig,
    authority_sign key msg = Some sig -> authority_verify key msg sig = true.

Section accepted.
Context `{Platform} `{KzgLib} `{MeloConfig} `{PermillLib}.

Lemma handle_vote_accepts b a i m s :
  a ∉ votes_of b i s -> Z.of_nat (length (votes_of b i s)) < MaxBlobNum ->
  handle_vote b a i m s
  = (Ok (judged s (votes_of b i s ++ [a]) m),
     set_UnavailableVote (insert (b, i) (votes_of b i s ++ [a])) s).
Proof.
  unfold votes_of, handle_vote, mbind, stM_bind, gets. intros Hn Hl. simpl.
  destruct (UnavailableVote s !! (b, i)) as [old|]; simpl in *.
  - unfold ensureM. rewrite bool_decide_false by done. simpl. unfold lift_res, try_push.
    rewrite (proj2 (Z.ltb_lt _ _) Hl). simpl. done.
  - unfold lift_res, try_push. cbn [length]. change (Z.of_nat 0) with 0 in *.
    destruct (Z.ltb_spec 0 MaxBlobNum); [|lia]. done.
Qed.

Lemma report_loop_accepts b a idx : forall mv s, NoDup idx ->
  Forall (fun i => 0 <= i) idx -> Forall (fun i => (Z.to_nat i < length mv)%nat) idx ->
  (forall i, i ∈ idx -> (a ∉ votes_of b i s) /\ Z.of_nat (length (votes_of b i s)) < MaxBlobNum) ->
  exists mv' s', report_loop b a idx mv s = (Ok mv', s').
Proof.
  induction idx as [|i idx IH]; intros mv s Hnd Hpos Hlt Hv; simpl; [by eexists _, _|].
  apply NoDup_cons in Hnd as [Hi Hnd]. apply Forall_cons in Hpos as [Hp Hpos].
  apply Forall_cons in Hlt as [Hl Hlt]. apply lookup_lt_is_Some in Hl as [m Hm].
  destruct (Hv i ltac:(left)) as [Hn Hlen].
  unfold mbind, stM_bind, lift_res. rewrite Hm. simpl. rewrite handle_vote_accepts by done.
  apply IH; [done|done|by rewrite length_insert|].
  intros j Hj. rewrite votes_of_insert_ne by (intros ->; done). apply Hv. by right.
Qed.

Lemma report_accepts r sig s :
  0 <= at_block r < 2 ^ 32 - 1 -> at_block r <= block_number s <= at_block r + 1 ->
  index_set r <> [] -> NoDup (index_set r) -> is_Some (Keys s !! Z.to_nat (authority_index r)) ->
  Forall (fun i => 0 <= i /\ (Z.to_nat i < length (get_Metadata (at_block r) s))%nat) (index_set r) ->
  (forall i, i ∈ index_set r -> (authority_index r ∉ votes_of (at_block r) i s) /\
     Z.of_nat (length (votes_of (at_block r) i s)) < MaxBlobNum) ->
  exists s', dispatch (CallReport r sig) Unsigned s = (Ok tt, s').
Proof.
  intros Hu Hb Hne Hnd Hk Hlt Hv. apply Forall_and in Hlt as [Hpos Hlt].
  destruct (report_loop_accepts (at_block r) (authority_index r) (index_set r) _ s Hnd Hpos Hlt Hv)
    as (mv' & s1 & Hl).
  unfold dispatch, transactional, report, ensure_none, mbind, stM_bind, lift_res, ensureM, gets.
  rewrite (proj2 (Z.leb_le (at_block r) (block_number s))) by lia. cbn [ensure].
  rewrite wrap_small by (unfold in_u, DELAY_CHECK_THRESHOLD in *; lia).
  rewrite (proj2 (Z.leb_le (block_number s) (at_block r + DELAY_CHECK_THRESHOLD)))
    by (unfold DELAY_CHECK_THRESHOLD; lia).
  rewrite (bool_decide_false (index_set r = [])) by done. simpl.
  rewrite bool_decide_true by done. simpl. rewrite Hl. simpl. by eexists.
Qed.
End accepted.

Section worker_props.
Context `{Platform} `{KzgLib} `{MeloConfig} `{PermillLib} {HT : Type} `{HostStorage HT} `{!OffchainEnv HT}
  `{!SignLaws HT}.
Context `{Codec Reliability.t} `{Codec LastProcessedBlock} `{Codec ReportStatus}
  `{Codec UnavailableDataReport} `{Codec Z}.
Abbreviation W := (Worker (HT := HT)).
Implicit Types w : W.

Lemma send_all_inv (P : W -> Prop) l : (forall m, m ∈ l -> forall w, P w -> P (m w).2) ->
  forall w, P w -> P (send_all l w).2.
Proof.
  induction l as [|m l IH]; intros Hm w Hw; simpl; [done|].
  pose proof (Hm m ltac:(left) w Hw) as Hw1. destruct (m w) as [r w1]. simpl in Hw1.
  assert (Hl : P (send_all l w1).2) by (apply IH; [|done]; intros; apply Hm; [by right|done]).
  by destruct (send_all l w1).
Qed.

Lemma with_report_lock_submitted {R} a b now (f : stM OffchainErr W R) (P : list Call -> Prop) w :
  (forall w, P (submitted w) -> P (submitted (f w).2)) ->
  P (submitted w) -> P (submitted (with_report_lock a b now f w).2).
Proof.
  intros Hf Hw. unfold with_report_lock, storage_mutate.
  destruct (match _ ≫= decode_all with Some _ => _ | None => _ end) as [v| |]; [|done..].
  destruct (local_storage_compare_and_set _ _ _ _) as [[] h']; [|done].
  specialize (Hf (mkWorker h' (submitted w)) Hw).
  destruct (f (mkWorker h' (submitted w))) as [[|e|] w1]; done.
Qed.

(** [filter_map] over an enumeration. *)
Lemma elem_of_omap_enumerate {A B} (f : nat * A -> option B) (l : list A) b :
  b ∈ omap f (enumerate l) <-> exists i x, l !! i = Some x /\ f (i, x) = Some b.
Proof.
  rewrite list_elem_of_omap. split.
  - intros ([i x] & [k Hk]%list_elem_of_lookup & Hf). rewrite lookup_enumerate in Hk.
    destruct (l !! k) eqn:Hl; simplify_eq/=. eauto.
  - intros (i & x & Hl & Hf). exists (i, x). split; [|done].
    apply list_elem_of_lookup. exists i. by rewrite lookup_enumerate, Hl.
Qed.

Lemma unavailability_apps_in b s h i : Z.of_nat (length (get_Metadata b s)) < 2 ^ 32 ->
  i ∈ get_unavailability_apps b s h <->
  0 <= i /\ exists m c, get_Metadata b s !! Z.to_nat i = Some m /\
    get_confidence (app_confidence (app_id m) (nonce m)) (OffchainKv.new None h) = Some c /\
    Reliability.is_availability c = false.
Proof.
  intros Hl. unfold get_unavailability_apps. rewrite elem_of_omap_enumerate. split.
  - intros (k & m & Hk & Hf). apply lookup_lt_Some in Hk as Hlt.
    destruct (get_confidence _ _) as [c|] eqn:Hc; [|done].
    destruct (Reliability.is_availability c) eqn:Ha; simplify_eq/=.
    rewrite wrap_small by (unfold in_u; lia). split; [lia|]. rewrite Nat2Z.id. eauto.
  - intros (Hi & m & c & Hm & Hc & Ha). exists (Z.to_nat i), m. split; [done|].
    rewrite Hc, Ha. simpl. apply lookup_lt_Some in Hm.
    rewrite wrap_small by (unfold in_u; lia). f_equal. lia.
Qed.

Lemma unavailability_apps_NoDup b s h : Z.of_nat (length (get_Metadata b s)) < 2 ^ 32 ->
  NoDup (get_unavailability_apps b s h).
Proof.
  intros Hl. unfold get_unavailability_apps.
  assert (Hk : Forall (fun p : nat * BlobMetadata => Z.of_nat p.1 < 2 ^ 32)
      (enumerate (get_Metadata b s))).
  { apply Forall_forall. intros [i m] [k Hk]%list_elem_of_lookup. rewrite lookup_enumerate in Hk.
    destruct (_ !! k) eqn:Hm; simplify_eq/=. apply lookup_lt_Some in Hm. lia. }
  assert (Hn : NoDup (enumerate (get_Metadata b s)).*1).
  { apply NoDup_alt. intros i j x. rewrite !list_lookup_fmap, !lookup_enumerate.
    destruct (_ !! i), (_ !! j); naive_solver. }
  induction (enumerate _) as [|[i m] l IH]; simpl; [constructor|].
  apply Forall_cons in Hk as [Hi Hk]. apply NoDup_cons in Hn as [Hni Hn].
  destruct (get_confidence _ _) as [c|]; [|by apply IH].
  destruct (negb _); [|by apply IH]. apply NoDup_cons. split; [|by apply IH].
  rewrite list_elem_of_omap. intros ([j m'] & Hj & Hf).
  destruct (get_confidence _ _) as [c'|]; [|done]. destruct (negb _); [|done].
  injection Hf as Hf. rewrite Forall_forall in Hk. specialize (Hk _ Hj). simpl in Hi, Hk.
  rewrite !wrap_small in Hf by (unfold in_u; lia). apply Hni.
  assert (i = j) as -> by lia. apply list_elem_of_fmap. by exists (j, m').
Qed.

(** A report of local authority [r] about the records in [h]. *)
Definition honest_report (s : Storage) (now : Z) (h : HT) (c : Call) : Prop :=
  exists r sig key, c = CallReport r sig /\ at_block r = now /\
    index_set r = get_unavailability_apps now s h /\ index_set r <> [] /\
    Keys s !! Z.to_nat (authority_index r) = Some key /\ key ∈ local_keys /\
    is_ok (validate_unsigned c s) = true.

Lemma send_single_honest s a key now idx h w :
  Z.of_nat (length (Keys s)) < 2 ^ 32 ->
  Keys s !! Z.to_nat a = Some key -> key ∈ local_keys -> 
  idx = get_unavailability_apps now s h -> idx <> [] ->
  forall old : list Call, (forall c, c ∈ submitted w -> c ∈ old \/ honest_report s now h c) ->
  forall c, c ∈ submitted (send_single_unavailability_report s a key now now idx w).2 ->
    c ∈ old \/ honest_report s now h c.
Proof.
  intros Hl Hk Hlocal Hidx Hne old Hw. unfold send_single_unavailability_report.
  apply (with_report_lock_submitted a now now _
    (fun l => forall c, c ∈ l -> c ∈ old \/ honest_report s now h c)); [|done].
  intros w1 Hw1. unfold mbind, stM_bind, lift_res.
  destruct (authority_sign key _) as [sig|] eqn:Hs; simpl; [|done].
  unfold submit_unsigned_transaction. destruct (pool_accepts _); simpl; [|done].
  intros c [->|Hc]%elem_of_cons; [|by apply Hw1]. right.
  eexists _, _, key. split_and!; [reflexivity|done|done|done|done|done|].
  unfold validate_unsigned. simpl. rewrite Hk, Z.eqb_refl. simpl.
  by rewrite (sign_verify _ _ _ Hs).
Qed.

Lemma offchain_worker_honest s now w c :
  in_u 32 now -> Z.of_nat (length (Keys s)) < 2 ^ 32 ->
  c ∈ submitted (offchain_worker s now w) ->
  c ∈ submitted w \/ honest_report s now (host w) c.
Proof.
  intros Hu Hl. unfold offchain_worker. destruct is_validator; [|by left].
  unfold send_unavailability_report. change (seq 0 (Z.to_nat DELAY_CHECK_THRESHOLD)) with [0%nat].
  cbn [gaps_reports]. unfold gap_reports. change (Z.of_nat 0) with 0.
  destruct (Z.ltb_spec now 0) as [Hneg|_]; [by left|].
  rewrite Z.sub_0_r, wrap_small by done.
  case_bool_decide as Hne; [by left|].
  set (l := _ <$> local_authority_keys s).
  assert (Hinv : forall c, c ∈ submitted (send_all l w).2 ->
      c ∈ submitted w \/ honest_report s now (host w) c).
  { apply (send_all_inv (fun w1 => forall c, c ∈ submitted w1 ->
      c ∈ submitted w \/ honest_report s now (host w) c)); [|by left].
    intros m Hm w1 Hw1. apply list_elem_of_fmap in Hm as ([a key] & -> & Ha).
    unfold local_authority_keys in Ha. apply elem_of_omap_enumerate in Ha as (i & key' & Hi & Hf).
    case_bool_decide as Hlocal; [|done]. apply lookup_lt_Some in Hi as Hlt. simplify_eq/=.
    apply send_single_honest; try done. rewrite wrap_small, Nat2Z.id by (unfold in_u; lia). done. }
  destruct (send_all l w) as [rs w1]. by apply Hinv.
Qed.

(** What the worker submits counts: every transaction it adds is a report of a local
    authority about exactly the entries of the current block whose sampling record says
    unavailable, is admitted by the pool on the same state, and, as long as this
    authority has not voted on these entries yet and their vote lists have room, is
    accepted by the pallet. *)
Theorem worker_reports_accepted s now w c :
  now = block_number s -> 0 <= now < 2 ^ 32 - 1 ->
  Z.of_nat (length (Keys s)) < 2 ^ 32 -> Z.of_nat (length (get_Metadata now s)) < 2 ^ 32 ->
  c ∈ submitted (offchain_worker s now w) -> c ∉ submitted w ->
  exists r sig, c = CallReport r sig /\ is_ok (validate_unsigned c s) = true /\
    at_block r = now /\
    (forall i, i ∈ index_set r <-> 0 <= i /\ exists m rec,
       get_Metadata now s !! Z.to_nat i = Some m /\
       get_confidence (app_confidence (app_id m) (nonce m)) (OffchainKv.new None (host w)) = Some rec /\
       Reliability.is_availability rec = false) /\
    ((forall i, i ∈ index_set r -> (authority_index r ∉ votes_of now i s) /\
        Z.of_nat (length (votes_of now i s)) < MaxBlobNum) ->
     exists s', dispatch c Unsigned s = (Ok tt, s')).
Proof.
  intros -> Hu Hk Hm Hc Hnew.
  destruct (offchain_worker_honest s (block_number s) w c ltac:(unfold in_u; lia) Hk Hc)
    as [?|(r & sig & key & -> & Hb & Hidx & Hne & Hkey & _ & Hval)]; [done|].
  exists r, sig. split_and!; [done|done|done| |].
  - intros i. rewrite Hidx. by apply unavailability_apps_in.
  - intros Hv. apply report_accepts; [lia|lia|done| | | |].
    + rewrite Hidx. by apply unavailability_apps_NoDup.
    + by rewrite Hkey.
    + rewrite Hidx, Hb. apply Forall_forall. intros i Hi.
      apply unavailability_apps_in in Hi as (Hi & m & rec & Hlk & _); [|done].
      split; [done|by eapply lookup_lt_Some].
    + by rewrite Hb.
Qed.
End worker_props.

(** ** The lock *)
#[export] Instance ReportStatus_wf : Wf ReportStatus :=
  fun st => in_u 32 (status_at_block st) /\ in_u 32 (sent_at st).

Section lock.
Context `{KzgLib} `{MeloConfig} `{PermillLib} {HT : Type} `{HostStorage HT} `{!HostStorageLaws HT}
  `{!OffchainEnv HT}.
Context `{Codec ReportStatus} `{!CodecLaws ReportStatus} `{Codec UnavailableDataReport} `{Codec Z}.
Context `{Codec Reliability.t}.
Implicit Types w : Worker (HT := HT).

Definition lock_status (a : Z) w : option ReportStatus :=
  local_storage_get (lock_key a) (host w) ≫= decode_all.

Definition blocked (a b now : Z) w : bool :=
  match lock_status a w with Some st => is_recent st b now | None => false end.

(** No other worker of this authority runs between the read and the write. *)
Definition quiet (a : Z) : Prop :=
  forall h, local_storage_get (lock_key a) (interference h) = local_storage_get (lock_key a) h.

Definition locked (a b now : Z) w : Worker :=
  mkWorker (local_storage_set (lock_key a) (scale_encode (mkStatus b now)) (interference (host w)))
    (submitted w).

Lemma lock_blocked {R} a b now (f : stM OffchainErr Worker R) w st :
  lock_status a w = Some st -> is_recent st b now = true ->
  with_report_lock a b now f w = (Err (WaitingForInclusion (sent_at st)), w).
Proof.
  unfold lock_status, with_report_lock, storage_mutate. intros -> ->. done.
Qed.

Lemma lock_free {R} a b now (f : stM OffchainErr Worker R) w :
  quiet a -> blocked a b now w = false ->
  with_report_lock a b now f w =
  let '(r, w2) := f (locked a b now w) in
  match r with Err e => (Err e, storage_set (lock_key a) (mkStatus b 0) w2) | _ => (r, w2) end.
Proof.
  unfold blocked, lock_status, with_report_lock, storage_mutate, locked. intros Hq Hb.
  assert (Hv : match local_storage_get (lock_key a) (host w) ≫= decode_all with
    | Some status => if is_recent status b now then Err (WaitingForInclusion (sent_at status))
                     else Ok (mkStatus b now)
    | None => Ok (mkStatus b now) end = Ok (E := OffchainErr) (mkStatus b now)).
  { destruct (_ ≫= decode_all) as [st|]; [|done]. by rewrite Hb. }
  rewrite Hv. rewrite host_cas_hit by apply Hq. done.
Qed.

Lemma lock_status_set a st w : wf st -> lock_status a (storage_set (lock_key a) st w) = Some st.
Proof.
  intros Hst. unfold lock_status, storage_set. simpl. rewrite host_get_set_eq. simpl.
  by apply decode_all_encode.
Qed.

(** What signing and submitting does once the lock is taken. *)
Definition sign_and_submit s a key b idx : stM OffchainErr Worker unit :=
  call ← (let r := mkReport b a idx (wrap 32 (Z.of_nat (length (Keys s)))) in
          signature ← lift_res (ok_or (authority_sign key (scale_encode r)) FailedSigning);
          mret (CallReport r signature));
  submit_unsigned_transaction call.

Lemma sign_and_submit_cases s a key b idx w :
  (exists c, sign_and_submit s a key b idx w = (Ok tt, mkWorker (host w) (c :: submitted w))) \/
  (exists e, sign_and_submit s a key b idx w = (Err e, w) /\
     (e = FailedSigning \/ e = SubmitTransaction) /\
     forall w', sign_and_submit s a key b idx w' = (Err e, w')).
Proof.
  unfold sign_and_submit, mbind, stM_bind, lift_res, submit_unsigned_transaction.
  destruct (authority_sign _ _) as [sig|]; simpl; [|right; naive_solver].
  destruct (pool_accepts _); simpl; [left|right]; naive_solver.
Qed.

(** C30: One report per authority, block and block number: of two attempts in a row the
    second submits nothing after a success, and neither submits anything while an
    earlier report waits for inclusion; after a failure to sign or to submit the lock is
    released, so that the second attempt is made. *)
Theorem report_once s a key b now idx w :
  quiet a -> in_u 32 b -> 1 <= now -> now + 1 < 2 ^ 32 ->
  let '(r1, w1) := send_single_unavailability_report s a key b now idx w in
  let '(r2, w2) := send_single_unavailability_report s a key b now idx w1 in
  match r1 with
  | Ok _ => blocked a b now w = false /\ (exists c, submitted w1 = c :: submitted w) /\
      r2 = Err (WaitingForInclusion now) /\ w2 = w1
  | Err (WaitingForInclusion t) => now < wrap 32 (t + 1) /\ blocked a b now w = true /\
      r2 = r1 /\ w1 = w /\ w2 = w
  | Err e => (e = FailedSigning \/ e = SubmitTransaction) /\
      blocked a b now w = false /\ blocked a b now w1 = false /\
      r2 = r1 /\ submitted w1 = submitted w /\ submitted w2 = submitted w
  | Panic => False
  end.
Proof.
  intros Hq Hb Hnow1 Hnow2.
  assert (Hsend : forall w, send_single_unavailability_report s a key b now idx w
    = with_report_lock a b now (sign_and_submit s a key b idx) w) by reflexivity.
  rewrite Hsend. destruct (blocked a b now w) eqn:Hbl.
  - unfold blocked in Hbl. destruct (lock_status a w) as [st|] eqn:Hst; [|done].
    rewrite (lock_blocked _ _ _ _ _ st) by done. rewrite Hsend, (lock_blocked _ _ _ _ _ st) by done.
    split_and!; try done. unfold is_recent in Hbl. apply andb_true_iff in Hbl as [_ Hlt%Z.ltb_lt].
    exact Hlt.
  - rewrite lock_free by done.
    destruct (sign_and_submit_cases s a key b idx (locked a b now w)) as [[c Hc]|(e & He & Hkind & Hall)].
    + rewrite Hc. rewrite Hsend, (lock_blocked _ _ _ _ _ (mkStatus b now)).
      * split_and!; [done|by exists c|done|done].
      * unfold lock_status, locked. simpl. rewrite host_get_set_eq. simpl.
        apply decode_all_encode. split; simpl; unfold in_u in *; lia.
      * unfold is_recent. simpl. rewrite Z.eqb_refl, wrap_small
          by (unfold in_u, DELAY_CHECK_THRESHOLD; lia). apply Z.ltb_lt. unfold DELAY_CHECK_THRESHOLD. lia.
    + rewrite He. rewrite Hsend.
      set (w1 := storage_set (lock_key a) (mkStatus b 0) (locked a b now w)).
      assert (Hb1 : blocked a b now w1 = false).
      { unfold blocked, w1. rewrite lock_status_set by (split; simpl; unfold in_u in *; lia).
        unfold is_recent. simpl. rewrite Z.eqb_refl. apply Z.ltb_ge. vm_compute (wrap 32 _). lia. }
      rewrite lock_free by done. rewrite Hall. simpl.
      destruct Hkind as [-> | ->]; split_and!; auto.
Qed.
(** What the worker of a node with one local authority submits when its lock is free. *)
Lemma worker_submits s a key h :
  is_validator = true -> local_authority_keys s = [(a, key)] -> quiet a ->
  blocked a (block_number s) (block_number s) (mkWorker h []) = false ->
  (forall msg, exists sig, authority_sign key msg = Some sig /\ authority_verify key msg sig = true) ->
  (forall c, pool_accepts c = is_ok (validate_unsigned c s)) ->
  in_u 32 (block_number s) -> Z.of_nat (length (Keys s)) < 2 ^ 32 ->
  let apps := get_unavailability_apps (block_number s) s h in
  Keys s !! Z.to_nat a = Some key /\
  exists sig, submitted (offchain_worker s (block_number s) (mkWorker h []))
    = if bool_decide (apps = []) then []
      else [CallReport (mkReport (block_number s) a apps (wrap 32 (Z.of_nat (length (Keys s))))) sig].
Proof.
  intros Hval Hloc Hq Hbl Hsign Hpool Hu Hk apps.
  assert (Hkey : Keys s !! Z.to_nat a = Some key).
  { assert (Hin : (a, key) ∈ local_authority_keys s) by (rewrite Hloc; left).
    unfold local_authority_keys in Hin. apply elem_of_omap_enumerate in Hin as (i & k & Hi & Hf).
    case_bool_decide; [|done]. injection Hf as <- <-. apply lookup_lt_Some in Hi as Hlt.
    by rewrite wrap_small, Nat2Z.id by (unfold in_u; lia). }
  split; [done|]. unfold offchain_worker. rewrite Hval. unfold send_unavailability_report.
  change (seq 0 (Z.to_nat DELAY_CHECK_THRESHOLD)) with [0%nat].
  cbn [gaps_reports]. unfold gap_reports. change (Z.of_nat 0) with 0.
  rewrite (proj2 (Z.ltb_ge (block_number s) 0)) by apply Hu.
  rewrite Z.sub_0_r, wrap_small by done. cbn [host]. fold apps.
  set (r := mkReport (block_number s) a apps (wrap 32 (Z.of_nat (length (Keys s))))).
  destruct (Hsign (scale_encode r)) as (sig & Hs & Hv). exists sig.
  case_bool_decide as Hne; [done|]. rewrite Hloc, fmap_cons, fmap_nil. cbn [send_all].
  assert (Hsend : forall w, send_single_unavailability_report s a key (block_number s) (block_number s) apps w
    = with_report_lock a (block_number s) (block_number s) (sign_and_submit s a key (block_number s) apps) w)
    by reflexivity.
  rewrite Hsend, lock_free by done. unfold sign_and_submit, mbind, stM_bind, lift_res. fold r. rewrite Hs.
  simpl. unfold submit_unsigned_transaction. rewrite Hpool. unfold validate_unsigned. simpl authority_index.
  rewrite Hkey. simpl validators_len. rewrite Z.eqb_refl, Hv. done.
Qed.
End lock.
