(* ===== verification/MeloStoreRuns.v ===== *)
(** * Concrete runs of the data submission pallet

    The runtime's bounds ([MaxKeys] 10000, [MaxBlobNum] 100, [MaxExtedLen] 200), integer
    accounts and keys, and short histories on which the properties of the pallet are
    instantiated. *)

From S2P Require Import Prelude Codec DasDb KzgLib KzgIndex KzgToy DasPrimitives Blob.
From S2P Require Import ErasureCoding CorePrimitives Reliability Sidecar MeloStore MeloStoreProps MeloStoreFacts MeloOffchain MeloOffchainProps.

(** The prefix deletion without a limit meets the contract. *)
Definition ref_clear_prefix : ClearPrefix := fun p _ m => filter (fun kv => kv.1.1 <> p) m.
Lemma ref_clear_prefix_laws : @ClearPrefixLaws ref_clear_prefix.
Proof.
  split; unfold clear_prefix, ref_clear_prefix.
  - intros p l m k Hk. destruct (m !! k) as [v|] eqn:Hm.
    + by apply map_lookup_filter_Some_2.
    + apply map_lookup_filter_None. by left.
  - intros p l m. apply map_filter_subseteq.
  - intros p l m _ i. apply map_lookup_filter_None. right. simpl. auto.
Qed.

Section runs.
#[local] Existing Instances host64 poly_lib ref_permill ref_permill_laws ref_clear_prefix
  ref_clear_prefix_laws.
#[local] Instance run_config : MeloConfig := {|
  AccountId := Z; AuthorityId := Z; Signature := bytes;
  MaxKeys := 10000; MaxBlobNum := 100; MaxExtedLen := 200; MeloUnsignedPriority := 1;
  authority_verify _ _ _ := true
|}.
#[local] Instance run_settings : EmbeddedSettings := [].

#[local] Definition alice : AccountId := 7.
#[local] Definition bob : AccountId := 8.
#[local] Definition no_sig : Signature := [].
#[local] Definition start (keys : list Z) : Storage :=
  mkStorage ∅ ∅ keys 1 ∅ ∅ 1 (fun _ => []) [].
#[local] Definition sidecar : SidecarMetadata.t := SidecarMetadata.mk 1 10 1 [[e1]] [[e2]].
#[local] Definition report_by (a : Z) (n : Z) : Call := CallReport (mkReport 1 a [0] n) [].
#[local] Definition after (c : Call) (o : Origin) (s : Storage) : Storage := (dispatch c o s).2.

(** Three authorities, one submission, two reports: the second one decides. *)
#[local] Definition r0 : Storage := start [1; 2; 3].
#[local] Definition r1 : Storage := after (CallSubmitData sidecar) (Signed alice) r0.
#[local] Definition r2 : Storage := after (report_by 0 3) Unsigned r1.
#[local] Definition r3 : Storage := after (report_by 2 3) Unsigned r2.
#[local] Definition entry (available : bool) : BlobMetadata :=
  mkMetadata 1 alice [[e1]] [[e2]] 10 available 1.

Lemma r0_genesis : genesis r0.
Proof. split_and!; done. Qed.
Lemma step_r1 : step r0 r1.
Proof. by apply (step_call (CallSubmitData sidecar) (Signed alice) r0 (Ok tt)). Qed.
Lemma report_by_wf a n : call_wf (report_by a n).
Proof. split; [by repeat constructor|done]. Qed.
Lemma step_r2 : step r1 r2.
Proof. apply (step_call (report_by 0 3) Unsigned r1 (Ok tt)); [apply report_by_wf|reflexivity]. Qed.
Lemma step_r3 : step r2 r3.
Proof. apply (step_call (report_by 2 3) Unsigned r2 (Ok tt)); [apply report_by_wf|reflexivity]. Qed.

Lemma report_effect_witness :
  votes_of 1 0 r3 = [0; 2] /\ get_Metadata 1 r3 !! 0%nat = Some (entry false).
Proof.
  destruct (report_effect Unsigned (mkReport 1 2 [0] 3) no_sig r2 (Ok tt) r3)
    as (_ & _ & _ & _ & _ & Hin & _ & (_ & Hv) & _).
  - by repeat constructor.
  - reflexivity.
  - discriminate.
  - reflexivity.
  - split.
    + destruct (Hin 0) as (_ & _ & He); [left|]. exact He.
    + exact (Hv 0%nat (entry true) eq_refl).
Defined.

Lemma max_blob_num_bound : 0 <= MaxBlobNum < 2 ^ 32.
Proof. done. Qed.

Lemma max_blob_num_16 : 0 <= MaxBlobNum < 2 ^ 16.
Proof. done. Qed.

Lemma reachable_invariant_witness : invariant r3.
Proof.
  apply (reachable_invariant max_blob_num_bound r0 r3); [exact r0_genesis|].
  eapply rtc_l; [exact step_r1|]. eapply rtc_l; [exact step_r2|]. apply rtc_once. exact step_r3.
Defined.

Lemma availability_needs_majority_witness :
  exists voters, Forall2 (fun j a => Keys r2 !! Z.to_nat j = Some a) (votes_of 1 0 r3) voters /\
    NoDup voters /\ 3 / 2 < Z.of_nat (length voters).
Proof.
  destruct (availability_needs_majority max_blob_num_bound r0 r2 r3 1 0 (entry true)) as (m' & Hm' & _ & Hv).
  - exact r0_genesis.
  - eapply rtc_l; [exact step_r1|]. apply rtc_once. exact step_r2.
  - exact step_r3.
  - reflexivity.
  - apply (Hv r1).
    + apply rtc_once. split; [exact step_r2|reflexivity].
    + reflexivity.
    + by repeat constructor.
    + by_decision.
    + reflexivity.
    + assert (get_Metadata 1 r3 !! 0%nat = Some (entry false)) as Hf by reflexivity.
      rewrite Hf in Hm'. by injection Hm' as <-.
Defined.

(** An index names another authority after a key was removed: authority 3 votes as number 2,
    authority 1 is disabled, and authority 3 votes again as number 1; the two votes are a
    majority of the two that are left. *)
#[local] Definition d2 : Storage := after (report_by 2 3) Unsigned r1.
#[local] Definition d3 : Storage := match on_disabled 0 d2 with Ok s => s | _ => d2 end.
#[local] Definition d4 : Storage := after (report_by 1 2) Unsigned d3.
Example one_authority_votes_twice :
  Keys d2 !! 2%nat = Some 3 /\ Keys d3 !! 1%nat = Some 3 /\ on_disabled 0 d2 = Ok d3 /\
  votes_of 1 0 d4 = [2; 1] /\ get_Metadata 1 d4 !! 0%nat = Some (entry false).
Proof. by split_and!. Qed.

(** The next block sees the commitments of block 1. *)
#[local] Definition r4 : Storage := next_block [] r2.

Lemma last_consistent_witness :
  last r4 = ([[e1]], [AppLookup.mk 1 1 1]) /\
  sum_Z (AppLookup.count <$> (last r4).2) = Z.of_nat (length (last r4).1).
Proof.
  split; [reflexivity|].
  pose proof (last_consistent max_blob_num_16 r0 r4 r0_genesis) as Hl.
  assert (Hr : rtc step r0 r4).
  { eapply rtc_l; [exact step_r1|]. eapply rtc_l; [exact step_r2|]. apply rtc_once. apply step_block. }
  destruct (last r4) as [cs ls]. exact (proj1 (Hl Hr)).
Defined.

(** 200 authorities: no vote can remove the entry. *)
#[local] Definition q0 : Storage := start (Z.of_nat <$> seq 0 200).
#[local] Definition q1 : Storage := after (CallSubmitData sidecar) (Signed alice) q0.
#[local] Definition q2 : Storage := after (report_by 0 200) Unsigned q1.

Lemma majority_unreachable_witness : get_Metadata 1 q2 !! 0%nat = Some (entry true).
Proof.
  apply (majority_unreachable max_blob_num_bound q0 q1 q2 1 0 (entry true)).
  - split_and!; done.
  - apply rtc_once. by apply (step_call (CallSubmitData sidecar) (Signed alice) q0 (Ok tt)).
  - apply (step_call (report_by 0 200) Unsigned q1 (Ok tt)); [apply report_by_wf|reflexivity].
  - done.
  - reflexivity.
Defined.

Lemma nonce_reused_after_register_witness :
  exists s2 s3 m, dispatch CallRegisterApp (Signed bob) r1 = (Ok tt, s2) /\
    dispatch (CallSubmitData sidecar) (Signed alice) s2 = (Ok tt, s3) /\
    get_Metadata 1 s3 = [m; m] /\ app_id m = 1 /\ nonce m = 1.
Proof.
  apply (nonce_reused_after_register alice bob sidecar r0 r1); [reflexivity..|done|done|reflexivity|done].
Defined.

(** ** The worker of authority 1 *)
#[local] Existing Instances map_host map_host_laws.
#[local] Instance run_env : OffchainEnv (gmap bytes bytes) := {|
  authority_sign _ _ := Some no_sig;
  local_keys := [2];
  pool_accepts _ := true;
  is_validator := true;
  interference h := h
|}.
#[local] Instance run_sign_laws : SignLaws (gmap bytes bytes).
Proof. intros key msg sig _. reflexivity. Qed.
#[local] Instance status_countable : Countable ReportStatus :=
  inj_countable' (fun st => (status_at_block st, sent_at st)) (fun p => mkStatus p.1 p.2)
    ltac:(by intros []).
#[local] Instance status_codec : Codec ReportStatus := RefCodec.ref_codec ReportStatus.
#[local] Instance status_codec_laws : CodecLaws ReportStatus := RefCodec.ref_codec_laws ReportStatus _.
#[local] Instance index_codec : Codec Z := RefCodec.ref_codec Z.
#[local] Instance last_codec : Codec LastProcessedBlock := {|
  scale_encode _ := []; scale_decode _ := None |}.
#[local] Instance report_codec : Codec UnavailableDataReport := {|
  scale_encode r := [at_block r; authority_index r] ++ index_set r; scale_decode _ := None |}.

(** A record with one failed sample, under the key of the submitted entry. *)
#[local] Definition failed_record : Reliability.t :=
  Reliability.mk [mkSample [] (Crypto.mkPosition 0 0) false] [] App.
#[local] Instance record_codec : Codec Reliability.t := {|
  scale_encode _ := [7]; scale_decode _ := Some (failed_record, []) |}.
#[local] Definition host0 : gmap bytes bytes :=
  {[OffchainKv.DEFAULT_PREFIX ++ app_confidence 1 1 := [7]]}.
#[local] Definition worker0 : Worker := mkWorker host0 [].
#[local] Definition the_report : Call := CallReport (mkReport 1 1 [0] 3) no_sig.

Lemma worker_reports_accepted_witness :
  exists s', dispatch the_report Unsigned r1 = (Ok tt, s').
Proof.
  destruct (worker_reports_accepted r1 1 worker0 the_report) as (r & sig & Heq & _ & _ & _ & Hd).
  - reflexivity.
  - split; [discriminate|reflexivity].
  - reflexivity.
  - reflexivity.
  - apply list_elem_of_singleton. reflexivity.
  - apply not_elem_of_nil.
  - apply Hd. injection Heq as <- <-. intros i [->|[]%not_elem_of_nil]%elem_of_cons.
    split; [apply not_elem_of_nil|reflexivity].
Defined.

#[local] Definition bob_key : AuthorityId := 2.
#[local] Definition send (w : Worker) : res OffchainErr unit * Worker :=
  send_single_unavailability_report r1 1 bob_key 1 1 [0] w.

Lemma report_once_witness :
  let w1 := (send worker0).2 in
  submitted w1 = [the_report] /\ send w1 = (Err (WaitingForInclusion 1), w1).
Proof.
  pose proof (report_once r1 1 bob_key 1 1 [0] worker0 (fun h => eq_refl)) as Hr.
  specialize (Hr ltac:(done) ltac:(lia) ltac:(done)).
  change (let w1 := (send worker0).2 in
    blocked 1 1 1 worker0 = false /\ (exists c, submitted w1 = c :: submitted worker0) /\
    (send w1).1 = Err (WaitingForInclusion 1) /\ (send w1).2 = w1) in Hr.
  destruct Hr as (_ & _ & Hx & Hw). split; [reflexivity|].
  by rewrite (surjective_pairing (send _)), Hx, Hw.
Defined.
End runs.
