(* ===== verification/FarmersFortune.v ===== *)
(** * The rewards pallet ([crates/pallet-farmers-fortune/src/lib.rs])

    One call, [claim]: a farmer presents a solution for the previous block and is paid a
    fixed reward.  Commitments come from the data submission pallet through the trait
    [CommitmentFromPosition], which caches extended commitments, so a claim also runs a
    storage write there.  The currency is an interface. *)

From S2P Require Import Prelude Codec DasDb KzgLib KzgIndex KzgToy DasPrimitives Blob.
From S2P Require Import ErasureCoding CorePrimitives Reliability Sidecar PosUtils ProofOfSpace.
From S2P Require Import MeloStore MeloStoreProps.

(** [traits::CommitmentFromPosition] over a storage [S]. *)
Class CommitmentFromPosition `{KzgLib} (S : Type) :=
  cfp_commitments : Z -> Position -> stM string S (option KZGCommitment).

#[export] Instance melo_store_commitments `{Platform} `{KzgLib} `{MeloConfig} `{EmbeddedSettings}
  : CommitmentFromPosition Storage := commitments_at.

(** [Config], with [frame_support::traits::Currency]. *)
Class FortuneConfig `{MeloConfig} := {
  RewardAmount : Z;
  MaxClaimantsPerBlock : Z;
  Balances : Type;
  ExistentialDeposit : Z;
  free_balance : AccountId -> Balances -> Z;
  deposit_creating : AccountId -> Z -> Balances -> Balances;
  encode_account : AccountId -> bytes
}.

(** A deposit of at least the existential deposit reaches the account, and only it. *)
Class CurrencyLaws `{FortuneConfig} : Prop := {
  deposit_creating_self : forall who v b, ExistentialDeposit <= v ->
    free_balance who (deposit_creating who v b) = free_balance who b + v;
  deposit_creating_other : forall who other v b, other <> who ->
    free_balance other (deposit_creating who v b) = free_balance other b
}.

Module FarmersFortune.
Inductive Error :=
| InvalidSolution
| PreCommitNotFound
| WinCommitNotFound
| MaxClaimantsReached
| AlreadyClaimed
| StorageLimitReached
| BlockNumberUnderflow.

Inductive DispatchError := BadOrigin | ModuleError (e : Error).

Section pallet.
Context `{Platform} `{KzgLib} `{HashLib} `{MeloConfig} `{!FortuneConfig} `{EmbeddedSettings}.
Context `{Codec Segment.t} `{!CommitmentFromPosition Storage}.

Inductive Event := RewardClaimed (who : AccountId) (amount : Z).

(** The pallet's storage, the balances, the data submission pallet with [frame_system],
    and the events of the block, latest first. *)
Record State := mkState {
  ClaimantsForBlock : gmap Z (list AccountId);
  balances : Balances;
  store : Storage;
  fevents : list Event
}.

Abbreviation FM A := (stM DispatchError State A).

Definition claimants (b : Z) (s : State) : list AccountId := default [] (ClaimantsForBlock s !! b).

Definition set_ClaimantsForBlock f s :=
  mkState (f (ClaimantsForBlock s)) (balances s) (store s) (fevents s).
Definition set_balances f s :=
  mkState (ClaimantsForBlock s) (f (balances s)) (store s) (fevents s).
Definition set_store st s := mkState (ClaimantsForBlock s) (balances s) st (fevents s).
Definition set_fevents f s :=
  mkState (ClaimantsForBlock s) (balances s) (store s) (f (fevents s)).

Definition ensure_signed (origin : Origin) : FM AccountId :=
  lift_res match origin with Signed who => Ok who | _ => Err BadOrigin end.

(** Run the other pallet; its only failures are panics. *)
Definition on_store {A} (m : stM string Storage A) : FM A := fun s =>
  let '(r, st) := m (store s) in
  (match r with Ok a => Ok a | _ => Panic end, set_store st s).

Definition commitment_or (e : Error) (block_num : Z) (position : Position) : FM KZGCommitment :=
  maybe ← on_store (cfp_commitments block_num position);
  lift_res (ok_or maybe (ModuleError e)).

(** [Solution::verify] panics where the embedded settings do not load. *)
Definition verify_solution (r : res string bool) : res DispatchError bool :=
  match r with Ok b => Ok b | _ => Panic end.

Definition claim (origin : Origin) (pre_cell : PreCell) (win_cell_left win_cell_right : Cell)
    : FM unit :=
  who ← ensure_signed origin;
  now ← gets (fun s => block_number (store s));
  current ← gets (claimants now);
  _ ← ensureM (Z.of_nat (length current) <? MaxClaimantsPerBlock) (ModuleError MaxClaimantsReached);
  _ ← ensureM (negb (bool_decide (who ∈ current))) (ModuleError AlreadyClaimed);
  pre_block_num ← lift_res (if now <? 1 then Err (ModuleError BlockNumberUnderflow) else Ok (now - 1));
  pre_block_hash ← gets (fun s => block_hash (store s) pre_block_num);
  let left_block_num := CellMetadata.block_number (cell_metadata win_cell_left) in
  let right_block_num := CellMetadata.block_number (cell_metadata win_cell_right) in
  win_block_hash_left ← gets (fun s => block_hash (store s) left_block_num);
  win_block_hash_right ← gets (fun s => block_hash (store s) right_block_num);
  pre_commit ← commitment_or PreCommitNotFound pre_block_num (Segment.position (pre_seg pre_cell));
  left_commit ← commitment_or WinCommitNotFound left_block_num
                  (Segment.position (cell_seg win_cell_left));
  right_commit ← commitment_or WinCommitNotFound right_block_num
                   (Segment.position (cell_seg win_cell_right));
  let farmer_id := FarmerId.new (encode_account who) in
  let solution := Solution.new pre_block_hash farmer_id pre_cell win_cell_left win_cell_right in
  valid ← lift_res (verify_solution
            (Solution.verify solution pre_commit left_commit right_commit
               win_block_hash_left win_block_hash_right PRE_CELL_LEADING_ZEROS 1));
  _ ← ensureM valid (ModuleError InvalidSolution);
  current' ← lift_res (ok_or (try_push MaxClaimantsPerBlock who current)
                         (ModuleError StorageLimitReached));
  _ ← modify (set_ClaimantsForBlock (insert now current'));
  _ ← modify (set_balances (deposit_creating who RewardAmount));
  modify (set_fevents (cons (RewardClaimed who RewardAmount))).

Definition dispatch (origin : Origin) (pre_cell : PreCell) (win_cell_left win_cell_right : Cell)
    : FM unit := transactional (claim origin pre_cell win_cell_left win_cell_right).
End pallet.
End FarmersFortune.
