(* ===== verification/FortuneProps.v ===== *)
(** * Properties of the rewards pallet

    What an accepted claim does, and how much a block can pay out. *)

From S2P Require Import Prelude Codec DasDb KzgLib KzgIndex KzgToy DasPrimitives Blob.
From S2P Require Import ErasureCoding CorePrimitives Reliability Sidecar PosUtils ProofOfSpace.
From S2P Require Import MeloStore MeloStoreProps FarmersFortune.

(** Reading a commitment leaves everything but the cache of extended commitments. *)
Definition same_but_cache `{KzgLib} `{MeloConfig} (s s' : Storage) : Prop :=
  exists f, s' = set_CommitmentsExt f s.

Class CommitmentFromPositionLaws `{KzgLib} `{MeloConfig} `{!CommitmentFromPosition Storage} : Prop :=
  cfp_same_but_cache : forall b p s, same_but_cache s (cfp_commitments b p s).2.

#[export] Instance melo_store_commitments_laws `{Platform} `{KzgLib} `{MeloConfig} `{PermillLib}
  `{EmbeddedSettings} : CommitmentFromPositionLaws.
Proof.
  intros b p s. destruct (cfp_commitments b p s) as [o s'] eqn:Hc.
  destruct (commitments_at_state b p s o s' Hc) as [->|(l & _ & ->)]; simpl.
  - exists id. by destruct s.
  - by exists (insert b l).
Qed.

Section props.
Context `{Platform} `{KzgLib} `{HashLib} `{MeloConfig} `{!FortuneConfig} `{EmbeddedSettings}.
Context `{Codec Segment.t} `{!CommitmentFromPosition Storage} `{!CommitmentFromPositionLaws}.
Import FarmersFortune.
Implicit Types s : State.

Lemma same_but_cache_trans (s1 s2 s3 : Storage) :
  same_but_cache s1 s2 -> same_but_cache s2 s3 -> same_but_cache s1 s3.
Proof. intros [f ->] [g ->]. by exists (fun c => g (f c)). Qed.

Lemma commitment_or_Ok e b p s c s' : commitment_or e b p s = (Ok c, s') ->
  exists st, cfp_commitments b p (store s) = (Ok (Some c), st) /\ s' = set_store st s /\
    same_but_cache (store s) st.
Proof.
  unfold commitment_or, on_store, mbind, stM_bind. intros Hc.
  pose proof (cfp_same_but_cache b p (store s)) as Hsame.
  destruct (cfp_commitments b p (store s)) as [[[c'|]| |] st]; unfold lift_res in Hc; simpl in *;
    try discriminate. injection Hc as <- <-. by exists st.
Qed.

(** The three commitments a claim reads, one after the other, and the check it passes. *)
Definition proven (who : AccountId) (pc : PreCell) (l r : Cell) (st st' : Storage) : Prop :=
  exists c1 c2 c3 st1 st2,
    cfp_commitments (block_number st - 1) (Segment.position (pre_seg pc)) st = (Ok (Some c1), st1) /\
    cfp_commitments (CellMetadata.block_number (cell_metadata l))
      (Segment.position (cell_seg l)) st1 = (Ok (Some c2), st2) /\
    cfp_commitments (CellMetadata.block_number (cell_metadata r))
      (Segment.position (cell_seg r)) st2 = (Ok (Some c3), st') /\
    Solution.verify
      (Solution.new (block_hash st (block_number st - 1)) (FarmerId.new (encode_account who)) pc l r)
      c1 c2 c3
      (block_hash st (CellMetadata.block_number (cell_metadata l)))
      (block_hash st (CellMetadata.block_number (cell_metadata r)))
      PRE_CELL_LEADING_ZEROS 1 = Ok true.

Lemma claim_Ok_inv origin pc l r s u s' : claim origin pc l r s = (Ok u, s') ->
  exists who st, origin = Signed who /\
    let now := block_number (store s) in
    1 <= now /\ (who ∉ claimants now s) /\
    Z.of_nat (length (claimants now s)) < MaxClaimantsPerBlock /\
    proven who pc l r (store s) st /\ same_but_cache (store s) st /\
    s' = set_fevents (cons (RewardClaimed who RewardAmount))
          (set_balances (deposit_creating who RewardAmount)
            (set_ClaimantsForBlock (insert now (claimants now s ++ [who])) (set_store st s))).
Proof.
  intros Hc. unfold claim, FarmersFortune.ensure_signed in Hc.
  apply stM_bind_Ok in Hc as (who & s0 & Ho & Hc). destruct origin as [w| |]; try done.
  injection Ho as -> <-. exists who.
  apply stM_bind_Ok in Hc as (now & s0 & [= <- <-] & Hc).
  apply stM_bind_Ok in Hc as (cur & s0 & [= <- <-] & Hc).
  unfold ensureM, lift_res, gets, modify in Hc.
  apply stM_bind_Ok in Hc as (? & s0 & [= G1 <-] & Hc). apply ensure_Ok, Z.ltb_lt in G1.
  apply stM_bind_Ok in Hc as (? & s0 & [= G2 <-] & Hc).
  apply ensure_Ok, negb_true_iff, bool_decide_eq_false in G2.
  apply stM_bind_Ok in Hc as (pre & s0 & [= G3 <-] & Hc).
  destruct (Z.ltb_spec (block_number (store s)) 1) as [|Hge]; [done|]. injection G3 as <-.
  apply stM_bind_Ok in Hc as (h0 & s0 & [= <- <-] & Hc).
  apply stM_bind_Ok in Hc as (h1 & s0 & [= <- <-] & Hc).
  apply stM_bind_Ok in Hc as (h2 & s0 & [= <- <-] & Hc).
  apply stM_bind_Ok in Hc as (c1 & s0 & (st1 & R1 & -> & B1)%commitment_or_Ok & Hc).
  apply stM_bind_Ok in Hc as (c2 & s0 & (st2 & R2 & -> & B2)%commitment_or_Ok & Hc).
  apply stM_bind_Ok in Hc as (c3 & s0 & (st3 & R3 & -> & B3)%commitment_or_Ok & Hc).
  apply stM_bind_Ok in Hc as (valid & s0 & [= G4 <-] & Hc).
  apply stM_bind_Ok in Hc as (? & s0 & [= G5 <-] & Hc). apply ensure_Ok in G5. subst valid.
  apply stM_bind_Ok in Hc as (cur' & s0 & [= G6 <-] & Hc). apply ok_or_Ok, try_push_Some in G6 as [-> _].
  apply stM_bind_Ok in Hc as (? & s0 & [= _ <-] & Hc).
  apply stM_bind_Ok in Hc as (? & s0 & [= _ <-] & [= _ <-]).
  exists st3. simpl in *. split_and!; [done|done|done|done| | |done].
  - exists c1, c2, c3, st1, st2. split_and!; [done..|].
    by destruct (Solution.verify _ _ _ _ _ _ _ _) as [[]| |].
  - eapply same_but_cache_trans; [exact B1|]. by eapply same_but_cache_trans.
Qed.

Lemma claim_accepts who pc l r s st :
  let now := block_number (store s) in
  1 <= now -> (who ∉ claimants now s) ->
  Z.of_nat (length (claimants now s)) < MaxClaimantsPerBlock ->
  proven who pc l r (store s) st ->
  exists s', dispatch (Signed who) pc l r s = (Ok tt, s').
Proof.
  intros now Hnow Hnin Hlen (c1 & c2 & c3 & st1 & st2 & R1 & R2 & R3 & Hv).
  unfold dispatch, transactional, claim, FarmersFortune.ensure_signed, mbind, stM_bind, lift_res,
    gets, ensureM, modify. fold now.
  rewrite (proj2 (Z.ltb_lt _ _) Hlen), (bool_decide_false _ Hnin). simpl.
  rewrite (proj2 (Z.ltb_ge _ _)) by lia.
  unfold commitment_or, on_store, mbind, stM_bind, lift_res. unfold now. rewrite R1. simpl.
  rewrite R2. simpl. rewrite R3. simpl. rewrite Hv. simpl. unfold try_push. fold now.
  rewrite (proj2 (Z.ltb_lt _ _) Hlen). simpl. by eexists.
Qed.

(** C23: What an accepted claim does: it comes from a signed account that has not claimed
    in this block, while the block has room; the presented cells verify against the
    commitments of their blocks, for the hash of the previous block; the account is
    appended to the block's claimants, is paid the reward once, and nothing else changes
    but the cache of extended commitments.  A rejected claim changes nothing. *)
Theorem claim_effect `{!CurrencyLaws} origin pc l r s o s' :
  ExistentialDeposit <= RewardAmount ->
  dispatch origin pc l r s = (o, s') ->
  match o with
  | Ok _ => exists who, origin = Signed who /\
      let now := block_number (store s) in
      1 <= now /\ (who ∉ claimants now s) /\
      Z.of_nat (length (claimants now s)) < MaxClaimantsPerBlock /\
      proven who pc l r (store s) (store s') /\ same_but_cache (store s) (store s') /\
      claimants now s' = claimants now s ++ [who] /\
      (forall b, b <> now -> claimants b s' = claimants b s) /\
      free_balance who (balances s') = free_balance who (balances s) + RewardAmount /\
      (forall other, other <> who -> free_balance other (balances s') = free_balance other (balances s))
  | _ => s' = s
  end.
Proof.
  intros Hed Hd. unfold dispatch, transactional in Hd.
  destruct (claim origin pc l r s) as [[[]| |] s1] eqn:Hc; simplify_eq; [|done|done].
  apply claim_Ok_inv in Hc as (who & st & -> & Hnow & Hnin & Hlen & Hpr & Hsame & ->).
  exists who. split; [done|]. cbv zeta. split_and!; try done; simpl.
  - unfold claimants at 1. simpl. by rewrite lookup_insert_eq.
  - intros b Hb. unfold claimants. simpl. by rewrite lookup_insert_ne.
  - by apply deposit_creating_self.
  - intros other Ho. by apply deposit_creating_other.
Qed.

(** ** Blocks *)
Inductive fstep : State -> State -> Prop :=
| fstep_claim origin pc l r s o s' : dispatch origin pc l r s = (o, s') -> fstep s s'
| fstep_store s st : block_number st = block_number (store s) -> fstep s (set_store st s)
| fstep_block s h : fstep s (set_fevents (fun _ => []) (set_store (next_block h (store s)) s)).

Record fortune_inv s : Prop := {
  fi_claimants : forall b, NoDup (claimants b s) /\
    Z.of_nat (length (claimants b s)) <= Z.max 0 MaxClaimantsPerBlock;
  fi_future : forall b, block_number (store s) < b -> claimants b s = [];
  fi_events : fevents s
    = (fun who => RewardClaimed who RewardAmount) <$> rev (claimants (block_number (store s)) s)
}.

Lemma fstep_inv s s' : fstep s s' -> fortune_inv s -> fortune_inv s'.
Proof.
  intros Hs [Hc Hf He]. destruct Hs as [origin pc l r s o s' Hd|s st Hb|s h].
  - unfold dispatch, transactional in Hd.
    destruct (claim origin pc l r s) as [[[]| |] s1] eqn:Hcl; simplify_eq; [|by split..].
    apply claim_Ok_inv in Hcl as (who & st & -> & Hnow & Hnin & Hlen & _ & [f ->] & ->).
    set (now := block_number (store s)) in *.
    assert (Hcl : forall b, claimants b (set_fevents (cons (RewardClaimed who RewardAmount))
        (set_balances (deposit_creating who RewardAmount)
          (set_ClaimantsForBlock (insert now (claimants now s ++ [who]))
            (set_store (set_CommitmentsExt f (store s)) s))))
        = if decide (b = now) then claimants now s ++ [who] else claimants b s).
    { intros b. unfold claimants at 1. simpl. case_decide as Hb; [subst; by rewrite lookup_insert_eq|].
      by rewrite lookup_insert_ne. }
    split.
    + intros b. rewrite Hcl. case_decide as Hb; [|apply Hc]. split.
      * apply NoDup_app. split_and!; [apply Hc| |apply NoDup_singleton]. set_solver.
      * rewrite length_app. simpl. lia.
    + intros b Hb. simpl in Hb. rewrite Hcl, decide_False by (unfold now; lia). by apply Hf.
    + rewrite Hcl. simpl. fold now. rewrite decide_True by done. rewrite rev_unit, He. done.
  - split; simpl; [done| |]; by rewrite Hb.
  - split; simpl; [done| |].
    + intros b Hb. apply Hf. lia.
    + pose proof (Hf (block_number (store s) + 1) ltac:(lia)) as Hx.
      unfold claimants in *. simpl. by rewrite Hx.
Qed.

(** The amounts paid by the events of a block. *)
Definition paid (evs : list Event) : Z := sum_Z ((fun '(RewardClaimed _ v) => v) <$> evs).

Lemma paid_rewards ws :
  paid ((fun who => RewardClaimed who RewardAmount) <$> ws) = RewardAmount * Z.of_nat (length ws).
Proof.
  induction ws as [|w ws IH]; [unfold paid, sum_Z; simpl; lia|].
  rewrite fmap_cons. unfold paid, sum_Z in *. rewrite fmap_cons. cbn [foldr]. rewrite IH. simpl. lia.
Qed.

(** Rewards are bounded: in every state reachable from one without claims, no account
    is paid twice in a block, and the rewards of the current block are the fixed amount
    times its claimants, at most [MaxClaimantsPerBlock] times the amount. *)
Theorem payout_bounded s0 s :
  ClaimantsForBlock s0 = ∅ -> fevents s0 = [] -> rtc fstep s0 s ->
  0 <= RewardAmount -> 0 <= MaxClaimantsPerBlock ->
  let now := block_number (store s) in
  (forall b, NoDup (claimants b s)) /\
  paid (fevents s) = RewardAmount * Z.of_nat (length (claimants now s)) /\
  paid (fevents s) <= RewardAmount * MaxClaimantsPerBlock.
Proof.
  intros Hc0 He0 Hr Hrew Hmax now.
  assert (Hi0 : fortune_inv s0).
  { assert (Hn : forall b, claimants b s0 = []) by (intros b; unfold claimants; by rewrite Hc0).
    split; [|done|by rewrite He0, Hn]. intros b. rewrite Hn. split; [constructor|simpl; lia]. }
  clear Hc0 He0.
  assert (Hi : fortune_inv s).
  { clear now. induction Hr as [s|s1 s2 s3 Hs _ IH]; [done|]. apply IH. by eapply fstep_inv. }
  destruct Hi as [Hc Hf He].
  assert (Hpaid : paid (fevents s) = RewardAmount * Z.of_nat (length (claimants now s))).
  { rewrite He. fold now. rewrite paid_rewards, length_rev. done. }
  split_and!; [intros b; apply Hc|done|]. rewrite Hpaid. destruct (Hc now) as [_ Hl]. nia.
Qed.
End props.

(** ** A concrete claim *)
Section claim_witness.
#[local] Existing Instances host64 bytes_lib Sidecar.toy_embedded ref_permill.
#[local] Instance fair_config : MeloConfig := {|
  AccountId := Z; AuthorityId := Z; Signature := bytes;
  MaxKeys := 10000; MaxBlobNum := 100; MaxExtedLen := 200; MeloUnsignedPriority := 1;
  authority_verify _ _ _ := true
|}.
#[local] Instance fair_fortune : FortuneConfig := {|
  RewardAmount := 100; MaxClaimantsPerBlock := 100; Balances := gmap Z Z; ExistentialDeposit := 1;
  free_balance who b := default 0 (b !! who);
  deposit_creating who v b := <[who := default 0 (b !! who) + v]> b;
  encode_account _ := [0]
|}.
#[local] Instance fair_currency : CurrencyLaws.
Proof.
  split; simpl.
  - intros who v b _. by rewrite lookup_insert_eq.
  - intros who other v b Ho. by rewrite lookup_insert_ne.
Qed.
#[local] Instance one_hash : HashLib := {|
  blake2_256 _ := 1 :: replicate 31 0; chacha8_keystream _ := [0; 0; 0; 5] ++ replicate 28 0 |}.
#[local] Instance one_codec : Codec Segment.t := {| scale_encode _ := [1]; scale_decode _ := None |}.

#[local] Definition hash1 : bytes := 1 :: replicate 31 0.
#[local] Definition seg (x : Z) : Segment.t :=
  Segment.mk (Crypto.mkPosition x 0) (Segment.mkData [fr_zero] g1_identity).
#[local] Definition row0 : PiecePosition.t := PiecePosition.Row 0.
#[local] Definition the_pre : PreCell := pre_cell_new row0 (seg 0).
#[local] Definition the_cell (i : Z) : Cell :=
  cell_new (CellMetadata.mk (PieceMetadata.mk 1 row0) i) (seg i).
#[local] Definition st0 : Storage :=
  mkStorage ∅ (<[1 := [g1_identity]]> {[2 := [g1_identity]]}) [] 0 ∅ ∅ 3 (fun _ => hash1) [].
#[local] Definition f0 : FarmersFortune.State := FarmersFortune.mkState ∅ ∅ st0 [].
#[local] Definition carol : AccountId := 9.

Lemma carol_proven : proven carol the_pre (the_cell 0) (the_cell 1) st0 st0.
Proof.
  exists g1_identity, g1_identity, g1_identity, st0, st0.
  split_and!; [reflexivity|reflexivity|reflexivity|].
  destruct toy_default_embedded as [kzg Hkzg]. unfold Solution.verify. rewrite Hkzg. reflexivity.
Qed.

Lemma carol_accepted : exists s', FarmersFortune.dispatch (Signed carol) the_pre (the_cell 0)
  (the_cell 1) f0 = (Ok tt, s').
Proof.
  apply (claim_accepts carol the_pre (the_cell 0) (the_cell 1) f0 st0).
  - done.
  - apply not_elem_of_nil.
  - done.
  - exact carol_proven.
Qed.

Lemma claim_effect_witness : exists s', FarmersFortune.dispatch (Signed carol) the_pre (the_cell 0)
    (the_cell 1) f0 = (Ok tt, s') /\ free_balance carol (FarmersFortune.balances s') = 100.
Proof.
  destruct carol_accepted as [s' Hs']. exists s'. split; [exact Hs'|].
  destruct (claim_effect (Signed carol) the_pre (the_cell 0) (the_cell 1) f0 (Ok tt) s')
    as (who & [= <-] & _ & _ & _ & _ & _ & _ & _ & Hbal & _); [done|exact Hs'|]. exact Hbal.
Defined.

Lemma payout_bounded_witness : exists s', rtc fstep f0 s' /\ paid (FarmersFortune.fevents s') <= 10000.
Proof.
  destruct carol_accepted as [s' Hs']. exists s'.
  assert (Hr : rtc fstep f0 s') by (apply rtc_once; eapply fstep_claim; exact Hs').
  split; [exact Hr|].
  exact (proj2 (proj2 (payout_bounded f0 s' eq_refl eq_refl Hr ltac:(done) ltac:(done)))).
Defined.
End claim_witness.
