(* ===== verification/Executive.v ===== *)
(** * Block execution ([crates/frame-executive-ext], [crates/frame-system-ext])

    The executive drives a block through initialization, extrinsics, hooks and final
    checks, on a runtime state [S].  [frame_system], the pallets' hooks and the extrinsic
    type are interfaces; the extended header is that of [CorePrimitives].  A failed
    assertion is a panic. *)

From S2P Require Import Prelude Codec DasDb KzgLib KzgIndex KzgToy DasPrimitives CorePrimitives.

(** [sp_weights::Weight]: two saturating 64-bit components. *)
Module Weight.
Record t := mk { ref_time : Z; proof_size : Z }.
Definition zero : t := mk 0 0.
Definition saturating_add (a b : t) : t :=
  mk (Z.min (ref_time a + ref_time b) (2 ^ 64 - 1)) (Z.min (proof_size a + proof_size b) (2 ^ 64 - 1)).
Definition saturating_sub (a b : t) : t :=
  mk (Z.max (ref_time a - ref_time b) 0) (Z.max (proof_size a - proof_size b) 0).
Definition all_gt (a b : t) : bool := (ref_time b <? ref_time a) && (proof_size b <? proof_size a).
End Weight.

Inductive DispatchClass := Normal | Operational | Mandatory.
#[export] Instance DispatchClass_eq_dec : EqDecision DispatchClass.
Proof. solve_decision. Defined.

Inductive TransactionValidityError := BadMandatory | MandatoryValidation | OtherInvalid (code : Z).

(** [sp_runtime::transaction_validity::TransactionSource]. *)
Inductive TransactionSource := SourceInBlock | SourceLocal | SourceExternal.

(** [frame_system::Pallet]. *)
Class FrameSystem (S Hash Item : Type) := {
  reset_events : S -> S;
  initialize : Z -> Hash -> list Item -> S -> S;
  register_extra_weight_unchecked : Weight.t -> DispatchClass -> S -> S;
  note_finished_initialize : S -> S;
  sys_block_number : S -> Z;
  sys_block_hash : S -> Z -> Hash;
  insert_block_hash : Z -> Hash -> S -> S;
  note_extrinsic : bytes -> S -> S;
  note_finished_extrinsics : S -> S;
  block_weight_total : S -> Weight.t;
  system_finalize : S -> Header.t Z Hash (list Item) * S;
  (* LastRuntimeUpgrade: whether it differs from the current version, and its update *)
  last_upgrade_outdated : S -> bool;
  put_last_upgrade : S -> S;
  item_is_pre_runtime : Item -> bool;
  base_block : Weight.t;
  max_block : Weight.t
}.

(** [AllPalletsWithSystem] and [COnRuntimeUpgrade]. *)
Class Hooks (S : Type) := {
  custom_on_runtime_upgrade : S -> Weight.t * S;
  pallets_on_runtime_upgrade : S -> Weight.t * S;
  on_initialize : Z -> S -> Weight.t * S;
  on_idle : Z -> Weight.t -> S -> Weight.t * S;
  hooks_on_finalize : Z -> S -> S;
  hooks_offchain_worker : Z -> S -> S
}.

(** [Block::Extrinsic]: [Checkable], [GetDispatchInfo], [Applyable]; [PostInfo] and the
    error of a dispatched call are opaque. *)
Class Extrinsics (S X : Type) := {
  Checked : Type;
  PostInfo : Type;
  CallError : Type;
  xt_encode : X -> bytes;
  check : X -> S -> res TransactionValidityError Checked;
  dispatch_class : Checked -> DispatchClass;
  apply : Checked -> Z -> S -> res TransactionValidityError (PostInfo + CallError) * S;
  validate : TransactionSource -> Checked -> Z -> S -> res TransactionValidityError Z;
  note_applied_extrinsic : PostInfo + CallError -> DispatchClass -> S -> S;
  (* [ensure_inherents_are_first]: the index of an inherent out of place *)
  inherent_out_of_place : list X -> option nat
}.

Section executive.
Context `{KzgLib} {S Hash Item X : Type} `{EqDecision Hash} `{EqDecision Item}.
Context `{!FrameSystem S Hash Item} `{!Hooks S} `{!Extrinsics S X} `{!HeaderCommitList S}.
Abbreviation ExtHeader := (Header.t Z Hash (list Item)).
Abbreviation EM A := (stM string S A).

(** ** [frame-system-ext]: [Pallet::finalize] *)
Definition finalize (s : S) : ExtHeader * S :=
  let '(header, s) := system_finalize s in
  let extension_data := hcl_last s in
  let ext_header := Header.new_ext (Header.number header) (Header.extrinsics_root header)
                      (Header.state_root header) (Header.parent_hash header) (Header.digest header)
                      HeaderExtension.default in
  (Header.set_extension extension_data ext_header, s).

(** ** [frame-executive-ext] *)
Definition execute_on_runtime_upgrade (s : S) : Weight.t * S :=
  let '(w1, s) := custom_on_runtime_upgrade s in
  let '(w2, s) := pallets_on_runtime_upgrade s in
  (Weight.saturating_add w1 w2, s).

Definition runtime_upgraded (s : S) : bool * S :=
  if last_upgrade_outdated s then (true, put_last_upgrade s) else (false, s).

Definition extract_pre_digest (header : ExtHeader) : list Item :=
  filter (fun d => item_is_pre_runtime d = true) (Header.digest header).

Definition initialize_block_impl (block_number : Z) (parent_hash : Hash) (digest : list Item)
    (s : S) : S :=
  let s := reset_events s in
  let weight := Weight.zero in
  let '(upgraded, s) := runtime_upgraded s in
  let '(weight, s) :=
    if upgraded : bool then let '(w, s) := execute_on_runtime_upgrade s in (Weight.saturating_add weight w, s)
    else (weight, s) in
  let s := initialize block_number parent_hash digest s in
  let '(w, s) := on_initialize block_number s in
  let weight := Weight.saturating_add weight w in
  let weight := Weight.saturating_add weight base_block in
  let s := register_extra_weight_unchecked weight Mandatory s in
  note_finished_initialize s.

Definition initialize_block (header : ExtHeader) (s : S) : S :=
  initialize_block_impl (Header.number header) (Header.parent_hash header)
    (extract_pre_digest header) s.

Definition initial_checks (header : ExtHeader) (extrinsics : list X) : EM unit := fun s =>
  let n := Header.number header in
  if negb ((0 <? n) && bool_decide (sys_block_hash s (n - 1) = Header.parent_hash header))
  then (Panic, s)
  else match inherent_out_of_place extrinsics with
       | Some _ => (Panic, s)
       | None => (Ok tt, s)
       end.

(** [ApplyExtrinsicResult]: the outcome of the call inside the validity of the
    transaction. *)
Definition apply_extrinsic (uxt : X) : stM TransactionValidityError S (unit + CallError) := fun s =>
  let encoded := xt_encode uxt in
  let encoded_len := Z.of_nat (length encoded) in
  match check uxt s with
  | Err e => (Err e, s)
  | Panic => (Panic, s)
  | Ok xt =>
      let s := note_extrinsic encoded s in
      let class := dispatch_class xt in
      match apply xt encoded_len s with
      | (Err e, s) => (Err e, s)
      | (Panic, s) => (Panic, s)
      | (Ok r, s) =>
          match r with
          | inr _ => if bool_decide (class = Mandatory) then (Err BadMandatory, s)
                     else (Ok match r with inl _ => inl tt | inr e => inr e end,
                           note_applied_extrinsic r class s)
          | inl _ => (Ok (inl tt), note_applied_extrinsic r class s)
          end
      end
  end.

Definition idle_and_finalize_hook (block_number : Z) (s : S) : S :=
  let weight := block_weight_total s in
  let remaining_weight := Weight.saturating_sub max_block weight in
  let s :=
    if Weight.all_gt remaining_weight Weight.zero then
      let '(used_weight, s) := on_idle block_number remaining_weight s in
      register_extra_weight_unchecked used_weight Mandatory s
    else s in
  hooks_on_finalize block_number s.

(** [for_each], panicking at the first invalid extrinsic. *)
Fixpoint apply_extrinsics (extrinsics : list X) : EM unit :=
  match extrinsics with
  | [] => mret tt
  | e :: extrinsics => fun s =>
      match apply_extrinsic e s with
      | (Ok _, s) => apply_extrinsics extrinsics s
      | (_, s) => (Panic, s)
      end
  end.

Definition execute_extrinsics_with_book_keeping (extrinsics : list X) (block_number : Z) : EM unit :=
  _ ← apply_extrinsics extrinsics;
  _ ← modify note_finished_extrinsics;
  modify (idle_and_finalize_hook block_number).

Definition finalize_block (s : S) : ExtHeader * S :=
  let s := note_finished_extrinsics s in
  let block_number := sys_block_number s in
  let s := idle_and_finalize_hook block_number s in
  finalize s.

Definition final_checks (header : ExtHeader) : EM unit := fun s =>
  let '(new_header, s) := finalize s in
  if negb (length (Header.digest header) =? length (Header.digest new_header))%nat then (Panic, s)
  else if negb (forallb (fun '(header_item, computed_item) => bool_decide (header_item = computed_item))
                  (zip (Header.digest header) (Header.digest new_header))) then (Panic, s)
  else if negb (bool_decide (Header.state_root header = Header.state_root new_header)) then (Panic, s)
  else if negb (bool_decide (Header.extrinsics_root header = Header.extrinsics_root new_header))
  then (Panic, s)
  else (Ok tt, s).

Definition execute_block (header : ExtHeader) (extrinsics : list X) : EM unit :=
  _ ← modify (initialize_block header);
  _ ← initial_checks header extrinsics;
  _ ← execute_extrinsics_with_book_keeping extrinsics (Header.number header);
  final_checks header.

Definition validate_transaction (source : TransactionSource) (uxt : X) (block_hash : Hash)
    : stM TransactionValidityError S Z := fun s =>
  let s := initialize (sys_block_number s + 1) block_hash [] s in
  let encoded_len := Z.of_nat (length (xt_encode uxt)) in
  match check uxt s with
  | Err e => (Err e, s)
  | Panic => (Panic, s)
  | Ok xt => if bool_decide (dispatch_class xt = Mandatory) then (Err MandatoryValidation, s)
             else (validate source xt encoded_len s, s)
  end.

Definition executive_offchain_worker (header_hash : ExtHeader -> Hash) (header : ExtHeader) (s : S) : S :=
  let digests := Header.digest header in
  let s := initialize (Header.number header) (Header.parent_hash header) digests s in
  let s := insert_block_hash (Header.number header) (header_hash header) s in
  hooks_offchain_worker (Header.number header) s.

(** ** Authoring and import *)

(** What a block author runs: initialization, the extrinsics, finalization. *)
Definition build_block (header : ExtHeader) (extrinsics : list X) (s : S) : res string ExtHeader * S :=
  match apply_extrinsics extrinsics (initialize_block header s) with
  | (Ok _, s) => let '(h, s) := finalize_block s in (Ok h, s)
  | (Err e, s) => (Err e, s)
  | (Panic, s) => (Panic, s)
  end.

Lemma digest_items_refl (d : list Item) :
  forallb (fun '(a, b) => bool_decide (a = b)) (zip d d) = true.
Proof. induction d as [|i d IH]; simpl; [done|]. by rewrite bool_decide_true. Qed.

Lemma final_checks_own s : final_checks (finalize s).1 s = (Ok tt, (finalize s).2).
Proof.
  unfold final_checks. destruct (finalize s) as [h s']. simpl.
  by rewrite Nat.eqb_refl, digest_items_refl, !bool_decide_true.
Qed.

Definition with_extension (e : HeaderExtension.t) (h : ExtHeader) : ExtHeader :=
  Header.new_ext (Header.number h) (Header.extrinsics_root h) (Header.state_root h)
    (Header.parent_hash h) (Header.digest h) e.

Lemma execute_with_extension e h extrinsics s :
  execute_block (with_extension e h) extrinsics s = execute_block h extrinsics s.
Proof. reflexivity. Qed.

(** C25: What an author builds every node accepts: if a block is built on a state from a
    header and extrinsics that all apply, and the resulting header keeps the number, the
    parent and the pre-runtime digest it was started with, then executing the block with
    this header on the same state succeeds and ends in the same state.  It does so
    whatever extension [e] the header carries: import does not compare the commitments
    of the header with those of the state. *)
Theorem build_execute header extrinsics s h s' e :
  build_block header extrinsics s = (Ok h, s') ->
  Header.number h = Header.number header -> Header.parent_hash h = Header.parent_hash header ->
  extract_pre_digest h = extract_pre_digest header ->
  0 < Header.number header ->
  sys_block_hash (initialize_block header s) (Header.number header - 1) = Header.parent_hash header ->
  sys_block_number (note_finished_extrinsics (apply_extrinsics extrinsics (initialize_block header s)).2)
    = Header.number header ->
  inherent_out_of_place extrinsics = None ->
  execute_block (with_extension e h) extrinsics s = (Ok tt, s').
Proof.
  intros Hb Hn Hp Hd Hpos Hhash Hnum Hinh. rewrite execute_with_extension.
  assert (Hi : forall s, initialize_block h s = initialize_block header s)
    by (intros s0; unfold initialize_block; by rewrite Hn, Hp, Hd).
  unfold build_block in Hb. unfold execute_block, mbind, stM_bind, modify. rewrite Hi.
  unfold initial_checks. rewrite Hn, Hp, Hhash, Hinh.
  rewrite (proj2 (Z.ltb_lt _ _) Hpos), bool_decide_true by done. simpl.
  unfold execute_extrinsics_with_book_keeping, mbind, stM_bind, modify.
  destruct (apply_extrinsics extrinsics (initialize_block header s)) as [[[]|err|] s1]; try done.
  simpl in Hnum. unfold finalize_block in Hb. rewrite Hnum in Hb.
  set (s2 := idle_and_finalize_hook (Header.number header) (note_finished_extrinsics s1)) in *.
  pose proof (final_checks_own s2) as Hf. destruct (finalize s2) as [h2 s3]. by simplify_eq/=.
Qed.

End executive.

(** ** A concrete chain: the state is a block number and a counter of extrinsics *)
Section chain_witness.
#[local] Existing Instances poly_lib.
#[local] Definition CS : Type := Z * Z.
#[local] Instance counter_system : FrameSystem CS Z Z := {|
  reset_events s := s; initialize n _ _ s := (n, s.2);
  register_extra_weight_unchecked _ _ s := s; note_finished_initialize s := s;
  sys_block_number s := s.1; sys_block_hash _ _ := 7; insert_block_hash _ _ s := s;
  note_extrinsic _ s := s; note_finished_extrinsics s := s;
  block_weight_total _ := Weight.zero;
  system_finalize s := (Header.new s.1 s.2 s.2 7 [5], s);
  last_upgrade_outdated _ := false; put_last_upgrade s := s;
  item_is_pre_runtime d := d =? 5; base_block := Weight.zero; max_block := Weight.mk 10 10
|}.
#[local] Instance counter_hooks : Hooks CS := {|
  custom_on_runtime_upgrade s := (Weight.zero, s); pallets_on_runtime_upgrade s := (Weight.zero, s);
  on_initialize _ s := (Weight.zero, s); on_idle _ _ s := (Weight.zero, s);
  hooks_on_finalize _ s := s; hooks_offchain_worker _ s := s
|}.
#[local] Instance counter_extrinsics : Extrinsics CS unit := {|
  Checked := unit; PostInfo := unit; CallError := unit; xt_encode _ := [1];
  check _ _ := Ok tt; dispatch_class _ := Normal;
  apply _ _ s := (Ok (inl tt), (s.1, s.2 + 1)); validate _ _ _ _ := Ok 0;
  note_applied_extrinsic _ _ s := s; inherent_out_of_place _ := None
|}.
#[local] Instance counter_commits : HeaderCommitList CS := fun _ => ([[e1]], [AppLookup.mk 1 1 1]).
#[local] Definition start_header : Header.t Z Z (list Z) := Header.new 1 0 0 7 [5].
#[local] Definition two_extrinsics : list unit := [tt; tt].
#[local] Definition genesis_state : CS := (0, 0).
#[local] Definition built : Header.t Z Z (list Z) :=
  Header.set_extension ([[e1]], [AppLookup.mk 1 1 1]) (Header.new 1 2 2 7 [5]).

Lemma build_execute_witness :
  execute_block (with_extension HeaderExtension.default built) two_extrinsics genesis_state
  = (Ok tt, (1, 2)).
Proof.
  apply (build_execute start_header two_extrinsics genesis_state built (1, 2)
    HeaderExtension.default); try reflexivity.
Defined.
End chain_witness.
