(* ===== verification/TryRuntime.v ===== *)
(** * Block execution for testing ([crates/frame-executive-ext/src/lib.rs], feature
    [try-runtime])

    [try_execute_block] runs a block the way [execute_block] does, with checks of the
    pallets' state and with some checks of the block left out. *)

From S2P Require Import Prelude Codec DasDb KzgLib KzgIndex KzgToy DasPrimitives CorePrimitives.
From S2P Require Import Executive.

(** [frame_try_runtime::TryStateSelect] and [UpgradeCheckSelect]. *)
Inductive TryStateSelect := SelectNone | SelectAll | RoundRobin (n : Z) | Only (pallets : list bytes).
Inductive UpgradeCheckSelect := ChecksNone | ChecksAll | PreAndPost | TryStateOnly.
Definition checks_pre_and_post (c : UpgradeCheckSelect) : bool :=
  match c with ChecksAll | PreAndPost => true | _ => false end.
Definition checks_try_state (c : UpgradeCheckSelect) : bool :=
  match c with ChecksAll | TryStateOnly => true | _ => false end.

(** [TryState::try_state] and [try_on_runtime_upgrade] of all pallets, the conversion of an
    extrinsic without checking its signature, and the storage root. *)
Class TryHooks (S X Root : Type) `{!Extrinsics S X} := {
  try_state : Z -> TryStateSelect -> S -> res string unit * S;
  try_on_runtime_upgrade : bool -> S -> res string Weight.t * S;
  unchecked_into_checked : X -> S -> res TransactionValidityError Checked;
  storage_root : S -> Root
}.

(** Leaving out the signature check admits what the check admits. *)
Class UncheckedLaws (S X Root : Type) `{!Extrinsics S X} `{!TryHooks S X Root} : Prop :=
  unchecked_agrees : forall uxt (s : S) xt, check uxt s = Ok xt -> unchecked_into_checked uxt s = Ok xt.

Section try_runtime.
Context `{KzgLib} {S Hash Item X Root : Type} `{EqDecision Hash} `{EqDecision Item} `{EqDecision Root}.
Context `{!FrameSystem S Hash Item} `{!Hooks S} `{!Extrinsics S X} `{!HeaderCommitList S}
  `{!TryHooks S X Root}.
Abbreviation ExtHeader := (Header.t Z Hash (list Item)).
Abbreviation EM A := (stM string S A).

(** [try_state] under [StorageNoopGuard]: the guard panics when it is dropped - also on the
    way out with an error - and the storage root has changed. *)
Definition guarded_try_state (n : Z) (select : TryStateSelect) : EM unit := fun s =>
  let '(r, s') := try_state n select s in
  if bool_decide (storage_root s' = storage_root s) then (r, s') else (Panic, s').

(** The closure [try_apply_extrinsic]: unlike [apply_extrinsic] it notes a failed mandatory
    call like any other. *)
Definition try_apply_extrinsic (signature_check : bool) (uxt : X)
    : stM TransactionValidityError S (unit + CallError) := fun s =>
  let encoded := xt_encode uxt in
  let encoded_len := Z.of_nat (length encoded) in
  match (if signature_check then check uxt s else unchecked_into_checked uxt s) with
  | Err e => (Err e, s)
  | Panic => (Panic, s)
  | Ok xt =>
      let s := note_extrinsic encoded s in
      let class := dispatch_class xt in
      match apply xt encoded_len s with
      | (Err e, s) => (Err e, s)
      | (Panic, s) => (Panic, s)
      | (Ok r, s) => (Ok match r with inl _ => inl tt | inr e => inr e end, note_applied_extrinsic r class s)
      end
  end.

(** The loop stops at the first invalid extrinsic; the block goes on. *)
Fixpoint try_apply_extrinsics (signature_check : bool) (extrinsics : list X) : EM unit :=
  match extrinsics with
  | [] => mret tt
  | e :: extrinsics => fun s =>
      match try_apply_extrinsic signature_check e s with
      | (Ok _, s) => try_apply_extrinsics signature_check extrinsics s
      | (Err _, s) => (Ok tt, s)
      | (Panic, s) => (Panic, s)
      end
  end.

Definition try_final_checks (header : ExtHeader) (state_root_check : bool) : EM unit := fun s =>
  let '(new_header, s) := finalize s in
  if negb (forallb (fun '(header_item, computed_item) => bool_decide (header_item = computed_item))
             (zip (Header.digest header) (Header.digest new_header))) then (Panic, s)
  else if state_root_check && negb (bool_decide (Header.state_root header = Header.state_root new_header))
  then (Panic, s)
  else if negb (bool_decide (Header.extrinsics_root header = Header.extrinsics_root new_header))
  then (Panic, s)
  else (Ok tt, s).

Definition try_execute_block (header : ExtHeader) (extrinsics : list X)
    (state_root_check signature_check : bool) (select : TryStateSelect) : EM Weight.t :=
  _ ← modify (initialize_block header);
  _ ← initial_checks header extrinsics;
  _ ← try_apply_extrinsics signature_check extrinsics;
  _ ← modify note_finished_extrinsics;
  _ ← modify (idle_and_finalize_hook (Header.number header));
  _ ← guarded_try_state (Header.number header) select;
  _ ← try_final_checks header state_root_check;
  gets block_weight_total.

Definition try_runtime_upgrade (checks : UpgradeCheckSelect) : EM Weight.t :=
  _ ← (if checks_try_state checks
       then n ← gets sys_block_number; guarded_try_state n SelectAll else mret tt);
  weight ← try_on_runtime_upgrade (checks_pre_and_post checks);
  _ ← (if checks_try_state checks
       then n ← gets sys_block_number; guarded_try_state n SelectAll else mret tt);
  mret weight.

(** ** Agreement with the real execution *)
Context `{!UncheckedLaws S X Root}.

Lemma try_apply_extrinsics_agree sig xs : forall s s', apply_extrinsics xs s = (Ok tt, s') ->
  try_apply_extrinsics sig xs s = (Ok tt, s').
Proof.
  induction xs as [|x xs IH]; intros s s' Ha; [done|]. cbn [apply_extrinsics try_apply_extrinsics] in *.
  assert (Hone : forall o s1, apply_extrinsic x s = (Ok o, s1) -> try_apply_extrinsic sig x s = (Ok o, s1)).
  { intros o s1. unfold apply_extrinsic, try_apply_extrinsic.
    destruct (check x s) as [xt| |] eqn:Hc; [|done..].
    assert ((if sig then Ok xt else unchecked_into_checked x s) = Ok xt) as ->
      by (destruct sig; [done|by apply unchecked_agrees]).
    destruct (apply xt _ _) as [[[r|e]| |] s2]; [done| |done..]. by case_bool_decide. }
  destruct (apply_extrinsic x s) as [[o|e|] s1]; [|done..]. rewrite (Hone o s1) by done. by apply IH.
Qed.

(** The checks of the pallets pass and change nothing. *)
Definition state_sound (n : Z) (select : TryStateSelect) (s : S) : Prop := try_state n select s = (Ok tt, s).

(** The state in which the pallets are checked. *)
Definition before_final (header : ExtHeader) (extrinsics : list X) (s : S) : S :=
  idle_and_finalize_hook (Header.number header)
    (note_finished_extrinsics (apply_extrinsics extrinsics (initialize_block header s)).2).

Lemma guarded_sound n select s : state_sound n select s -> guarded_try_state n select s = (Ok tt, s).
Proof. intros Hs. unfold guarded_try_state. rewrite Hs. by rewrite bool_decide_true. Qed.

(** On a block whose extrinsics all apply both runs reach the final checks in the same
    state. *)
Lemma runs_to_final header xs root sig sel s :
  (apply_extrinsics xs (initialize_block header s)).1 = Ok tt ->
  state_sound (Header.number header) sel (before_final header xs s) ->
  (exists s1, initial_checks header xs (initialize_block header s) = (Panic, s1) /\
     execute_block header xs s = (Panic, s1) /\ try_execute_block header xs root sig sel s = (Panic, s1)) \/
  execute_block header xs s = final_checks header (before_final header xs s) /\
  try_execute_block header xs root sig sel s
  = (_ ← try_final_checks header root; gets block_weight_total) (before_final header xs s).
Proof.
  intros Ha Hs. unfold execute_block, try_execute_block, execute_extrinsics_with_book_keeping, before_final in *.
  unfold mbind at 1 3. unfold stM_bind at 1 3, modify.
  assert (Hi : forall s0, initial_checks header xs s0 = (Ok tt, s0) \/ initial_checks header xs s0 = (Panic, s0)).
  { intros s0. unfold initial_checks. destruct (negb _); [by right|]. destruct (inherent_out_of_place xs); auto. }
  destruct (Hi (initialize_block header s)) as [Hc|Hc].
  - right. unfold mbind, stM_bind. rewrite Hc.
    destruct (apply_extrinsics xs (initialize_block header s)) as [o s1] eqn:Hap. simpl in Ha. subst o.
    rewrite (try_apply_extrinsics_agree sig _ _ _ Hap). simpl in *. rewrite guarded_sound by done. done.
  - left. exists (initialize_block header s). unfold mbind, stM_bind. rewrite Hc. done.
Qed.

(** C26: What a node accepts the test run accepts, and what the full test run accepts a node
    accepts when nothing the test run leaves out is wrong.  If executing a block succeeds
    and the pallets' checks hold before the final checks, [try_execute_block] - with or
    without state root and signature checks - ends in the same state and returns the weight
    of the block.  Conversely, if all extrinsics apply, the digests have the same number of
    items and [try_execute_block] with the state root check succeeds, so does
    [execute_block], in the same state. *)
Theorem try_execute_agrees header xs root sig sel s s' :
  state_sound (Header.number header) sel (before_final header xs s) ->
  (execute_block header xs s = (Ok tt, s') ->
   try_execute_block header xs root sig sel s = (Ok (block_weight_total s'), s')) /\
  (forall w, (apply_extrinsics xs (initialize_block header s)).1 = Ok tt ->
   length (Header.digest header) = length (Header.digest (finalize (before_final header xs s)).1) ->
   try_execute_block header xs true sig sel s = (Ok w, s') ->
   execute_block header xs s = (Ok tt, s') /\ w = block_weight_total s').
Proof.
  intros Hs. split.
  - intros He. assert (Ha : (apply_extrinsics xs (initialize_block header s)).1 = Ok tt).
    { apply stM_bind_Ok in He as (u & s0 & [= <- <-] & He). apply stM_bind_Ok in He as ([] & s1 & Hi & He).
      assert (s1 = initialize_block header s) as ->.
      { unfold initial_checks in Hi. destruct (negb _); [done|]. by destruct (inherent_out_of_place xs); simplify_eq. }
      apply stM_bind_Ok in He as ([] & s2 & He & _). apply stM_bind_Ok in He as ([] & s3 & He & _). by rewrite He. }
    destruct (runs_to_final header xs root sig sel s Ha Hs) as [(s1 & _ & Hp & _)|[Hx ->]]; [by rewrite Hp in He|].
    rewrite Hx in He. unfold final_checks in He. unfold mbind, stM_bind, try_final_checks.
    destruct (finalize _) as [h s1]. destruct (negb (_ =? _)%nat); [done|]. destruct (negb (forallb _ _)); [done|].
    destruct (negb (bool_decide (Header.state_root _ = _))); [done|].
    destruct (negb (bool_decide (Header.extrinsics_root _ = _))); [done|]. injection He as <-.
    by rewrite andb_false_r.
  - intros w Ha Hlen Ht.
    destruct (runs_to_final header xs true sig sel s Ha Hs) as [(s1 & _ & _ & Hp)|[-> Hx]]; [by rewrite Hp in Ht|].
    rewrite Hx in Ht. unfold mbind, stM_bind, try_final_checks in Ht. unfold final_checks.
    destruct (finalize (before_final header xs s)) as [h s1]. simpl in Hlen. rewrite Hlen, Nat.eqb_refl. simpl.
    destruct (negb (forallb _ _)); [done|]. simpl in Ht.
    destruct (negb (bool_decide (Header.state_root _ = _))); [done|].
    destruct (negb (bool_decide (Header.extrinsics_root _ = _))); [done|]. by injection Ht as <- <-.
Qed.
End try_runtime.

Section upgrade.
Context {S Hash Item X Root : Type} `{EqDecision Root} `{!FrameSystem S Hash Item} `{!Extrinsics S X}
  `{!TryHooks S X Root}.

(** What a passed upgrade run has checked: the pallets before and after the migration, each
    time without a change of the storage root. *)
Lemma try_runtime_upgrade_checked c (s s' : S) w : checks_try_state c = true ->
  try_runtime_upgrade c s = (Ok w, s') ->
  exists s1 s2, try_state (sys_block_number s) SelectAll s = (Ok tt, s1) /\ storage_root s1 = storage_root s /\
    try_on_runtime_upgrade (checks_pre_and_post c) s1 = (Ok w, s2) /\
    try_state (sys_block_number s2) SelectAll s2 = (Ok tt, s') /\ storage_root s' = storage_root s2.
Proof.
  intros Hc Hu. unfold try_runtime_upgrade in Hu. rewrite Hc in Hu.
  assert (Hg : forall n sel s0 s1, guarded_try_state n sel s0 = (Ok tt, s1) ->
    try_state n sel s0 = (Ok tt, s1) /\ storage_root s1 = storage_root s0).
  { intros n sel s0 s1. unfold guarded_try_state. destruct (try_state n sel s0) as [r s2].
    case_bool_decide as Hr; [|done]. intros [= -> ->]. done. }
  apply stM_bind_Ok in Hu as ([] & s1 & Hb & Hu). apply stM_bind_Ok in Hb as (n & s0 & [= <- <-] & [Ht Hr]%Hg).
  apply stM_bind_Ok in Hu as (w' & s2 & Hm & Hu). apply stM_bind_Ok in Hu as ([] & s3 & Ha & Hu).
  apply stM_bind_Ok in Ha as (n & s0 & [= <- <-] & [Ht' Hr']%Hg). injection Hu as -> <-.
  by exists s1, s2.
Qed.
End upgrade.

(** ** The counter chain *)
Section try_witness.
#[local] Existing Instances poly_lib.
#[local] Existing Instances Executive.counter_system Executive.counter_hooks Executive.counter_extrinsics
  Executive.counter_commits.
#[local] Instance counter_try : TryHooks Executive.CS unit Executive.CS := {|
  try_state _ _ s := (if s.2 <? 100 then Ok tt else Err "counter"%string, s);
  try_on_runtime_upgrade _ s := (Ok Weight.zero, s);
  unchecked_into_checked _ _ := Ok tt;
  storage_root s := s
|}.
#[local] Instance counter_unchecked : UncheckedLaws Executive.CS unit Executive.CS.
Proof. intros uxt s [] _. reflexivity. Qed.

Lemma try_execute_agrees_witness :
  try_execute_block Executive.built Executive.two_extrinsics true false SelectAll Executive.genesis_state
  = (Ok Weight.zero, (1, 2)).
Proof.
  destruct (try_execute_agrees Executive.built Executive.two_extrinsics true false SelectAll
    Executive.genesis_state (1, 2)) as [Ht _].
  - reflexivity.
  - apply Ht. reflexivity.
Defined.
End try_witness.
