(* ===== verification/Testing.v ===== *)
(** * Test primitives ([crates/core-primitives/src/testing.rs]) and signed votes

    The mock authority, signature, commitment lists, header and extrinsic the repository's
    own runtimes for testing are built from.  [TestXt] is how an unsigned call passes the
    pallet's [ValidateUnsigned] before it is dispatched; composed with the executive and the
    data submission pallet it shows that votes are signed. *)

From S2P Require Import Prelude Codec DasDb KzgLib KzgIndex KzgToy DasPrimitives Blob.
From S2P Require Import ErasureCoding CorePrimitives Reliability Sidecar MeloStore MeloStoreProps.
From S2P Require Import MeloStoreFacts MeloStoreRuns Executive.

(** ** Authorities and signatures *)
Module UintAuthorityId.
Definition t : Type := Z.
(** [U256::from(self.0).into()]: 32 bytes, big endian. *)
Definition to_public_key (id : t) : bytes := replicate 24 0 ++ to_be_bytes 8 id.
Definition into_account (id : t) : Z := id.
End UintAuthorityId.

Module TestSignature.
Record t := mk { signer : Z; message : bytes }.
#[export] Instance t_eq_dec : EqDecision t.
Proof. solve_decision. Defined.
Definition verify (self : t) (msg : bytes) (who : Z) : bool :=
  bool_decide (who = signer self) && bool_decide (msg = message self).
End TestSignature.
Export (hints) TestSignature.

(** [RuntimeAppPublic::sign] and [verify]. *)
Definition uint_sign (id : UintAuthorityId.t) (msg : bytes) : option TestSignature.t :=
  Some (TestSignature.mk id msg).
Definition uint_verify (id : UintAuthorityId.t) (msg : bytes) (signature : TestSignature.t) : bool :=
  TestSignature.verify signature msg id.

(** The mock signature of a message by an authority is the only one that verifies. *)
Lemma uint_verify_iff id msg sig : uint_verify id msg sig = true <-> uint_sign id msg = Some sig.
Proof.
  unfold uint_verify, TestSignature.verify, uint_sign. rewrite andb_true_iff, !bool_decide_eq_true.
  destruct sig. simpl. naive_solver.
Qed.

(** ** Commitment lists and headers *)
Section mocks.
Context `{KzgLib}.
Definition TEST_COMMITMENTS : list KZGCommitment := [].
Definition commit_list_test_last : list KZGCommitment * list AppLookup.t := ([], []).
Definition commit_list_test_with_data_last : list KZGCommitment * list AppLookup.t := (TEST_COMMITMENTS, []).
Definition commit_bytes : bytes := concat (g1_to_bytes <$> TEST_COMMITMENTS).
Definition header_extension : HeaderExtension.t := HeaderExtension.mk commit_bytes [].
Definition new_from_number {Item : Type} (default_hash : bytes) (number : Z) : Header.t Z bytes (list Item) :=
  Header.mk default_hash number default_hash default_hash [] HeaderExtension.default.

(** The mock list gives a header the mock extension. *)
Lemma mock_extension {Item} (h : Header.t Z bytes (list Item)) :
  Header.extension (Header.set_extension commit_list_test_with_data_last h) = header_extension.
Proof. reflexivity. Qed.
End mocks.

(** ** [TestXt] *)

(** [sp_runtime::traits::SignedExtension] over the state, without the dispatch information. *)
Class SignedExtension (Extra Call S : Type) := {
  ext_validate : Extra -> Z -> Call -> Z -> S -> res TransactionValidityError Z;
  ext_validate_unsigned : Call -> Z -> S -> res TransactionValidityError Z;
  ext_pre_dispatch : Extra -> Z -> Call -> Z -> S -> res TransactionValidityError unit * S;
  ext_pre_dispatch_unsigned : Call -> Z -> S -> res TransactionValidityError unit
}.

(** [InvalidTransaction] inside [TransactionValidityError]: its index, and past them the
    custom codes. *)
Definition into_validity (e : InvalidTransaction) : TransactionValidityError :=
  OtherInvalid match e with InvalidCall => 0 | Stale => 3 | BadProof => 4 | Custom code => 256 + code end.

Section test_xt.
Context `{Platform} `{KzgLib} `{MeloConfig} `{PermillLib} `{Codec UnavailableDataReport}.
Context (account : Z -> AccountId) {Extra : Type} `{!SignedExtension Extra Call Storage}.

Record TestXt := mkTestXt { xt_signature : option (Z * Extra); xt_call : Call }.
Definition test_xt_new (call : Call) (signature : option (Z * Extra)) : TestXt := mkTestXt signature call.

(** [Checkable::check] accepts everything. *)
Definition test_xt_check (xt : TestXt) (s : Storage) : res TransactionValidityError TestXt := Ok xt.

(** [ValidateUnsigned] of the runtime: that of the pallet; its [pre_dispatch] is the
    trait's, which validates again. *)
Definition runtime_validate_unsigned (c : Call) (s : Storage) : res TransactionValidityError Z :=
  match validate_unsigned c s with
  | Ok v => Ok (priority v)
  | Err e => Err (into_validity e)
  | Panic => Panic
  end.
Definition runtime_pre_dispatch (c : Call) (s : Storage) : res TransactionValidityError unit :=
  _ ← runtime_validate_unsigned c s; Ok tt.

(** [combine_with] adds the priorities, saturating. *)
Definition test_xt_validate (source : TransactionSource) (xt : TestXt) (len : Z) (s : Storage)
    : res TransactionValidityError Z :=
  match xt_signature xt with
  | Some (id, extra) => ext_validate extra id (xt_call xt) len s
  | None =>
      valid ← ext_validate_unsigned (xt_call xt) len s;
      unsigned_validation ← runtime_validate_unsigned (xt_call xt) s;
      Ok (Z.min (valid + unsigned_validation) (2 ^ 64 - 1))
  end.

(** [Option<u64>] into the origin. *)
Definition origin_of (maybe_who : option Z) : Origin :=
  match maybe_who with Some who => Signed (account who) | None => Unsigned end.

Definition test_xt_apply (xt : TestXt) (len : Z) (s : Storage)
    : res TransactionValidityError (unit + DispatchError) * Storage :=
  let pre := match xt_signature xt with
             | Some (who, extra) =>
                 let '(r, s) := ext_pre_dispatch extra who (xt_call xt) len s in ((_ ← r; Ok (Some who)), s)
             | None =>
                 ((_ ← ext_pre_dispatch_unsigned (xt_call xt) len s;
                   _ ← runtime_pre_dispatch (xt_call xt) s; Ok None), s)
             end in
  match pre with
  | (Ok maybe_who, s) =>
      match dispatch (xt_call xt) (origin_of maybe_who) s with
      | (Ok _, s) => (Ok (inl tt), s)
      | (Err e, s) => (Ok (inr e), s)
      | (Panic, s) => (Panic, s)
      end
  | (Err e, s) => (Err e, s)
  | (Panic, s) => (Panic, s)
  end.
End test_xt.
Arguments TestXt {_ _} _.

(** ** Votes through the executive *)
Section votes.
Context `{Platform} `{KzgLib} `{MeloConfig} `{PermillLib} `{Codec UnavailableDataReport}.
Context (account : Z -> AccountId) {Extra : Type} `{!SignedExtension Extra Call Storage}.
Context {Hash Item : Type} `{!FrameSystem Storage Hash Item}.
(** The encoding of an extrinsic, the class of a call, and what [frame_system] notes. *)
Context (encode : TestXt Extra -> bytes) (class : Call -> DispatchClass)
  (note_applied : unit + DispatchError -> DispatchClass -> Storage -> Storage)
  (out_of_place : list (TestXt Extra) -> option nat).

#[local] Instance test_extrinsics : Extrinsics Storage (TestXt Extra) := {|
  Checked := TestXt Extra; PostInfo := unit; CallError := DispatchError;
  xt_encode := encode; check := test_xt_check;
  dispatch_class xt := class (xt_call xt);
  apply := test_xt_apply account; validate := test_xt_validate;
  note_applied_extrinsic := note_applied; inherent_out_of_place := out_of_place
|}.

(** Neither [frame_system] nor the extensions touch the pallet's keys and votes. *)
Definition keeps (s s' : Storage) : Prop := Keys s' = Keys s /\ UnavailableVote s' = UnavailableVote s.
Context (Hnote : forall bs s, keeps s (note_extrinsic bs s))
  (Happlied : forall r c s, keeps s (note_applied r c s))
  (Hext : forall e who c len s, keeps s (ext_pre_dispatch e who c len s).2).

(** An unsigned extrinsic with a report of authority [a] on entry [i] of block [b], signed
    with the key it has in [s]. *)
Definition signed_vote (s : Storage) (b i a : Z) (xt : TestXt Extra) : Prop :=
  exists r sig key, xt = test_xt_new (CallReport r sig) None /\
    at_block r = b /\ authority_index r = a /\ i ∈ index_set r /\
    Keys s !! Z.to_nat a = Some key /\ authority_verify key (scale_encode r) sig = true.

(** The indices of a report are unsigned integers. *)
Definition xt_wf (xt : TestXt Extra) : Prop :=
  match xt_call xt with CallReport r _ => Forall (fun i => 0 <= i) (index_set r) | _ => True end.

Lemma keeps_trans s1 s2 s3 : keeps s1 s2 -> keeps s2 s3 -> keeps s1 s3.
Proof. intros [? ?] [? ?]. split; congruence. Qed.

Lemma dispatch_votes c origin s o s' :
  match c with CallReport r _ => Forall (fun i => 0 <= i) (index_set r) | _ => True end ->
  dispatch c origin s = (o, s') ->
  Keys s' = Keys s /\ forall b i a, a ∈ votes_of b i s' -> a ∈ votes_of b i s \/
    exists r sig, c = CallReport r sig /\ at_block r = b /\ authority_index r = a /\ i ∈ index_set r.
Proof.
  intros Hwf Hd. assert (Hsame : keeps s s' -> Keys s' = Keys s /\ forall b i a, a ∈ votes_of b i s' ->
    a ∈ votes_of b i s \/ exists r sig, c = CallReport r sig /\ at_block r = b /\ authority_index r = a /\ i ∈ index_set r).
  { intros [Hk Hv]. split; [done|]. intros b i a. unfold votes_of. rewrite Hv. auto. }
  unfold dispatch, transactional in Hd. destruct c as [p|r sig|].
  - destruct (submit_data origin p s) as [[[]|e|] s1] eqn:Hr; simplify_eq; [|by apply Hsame..].
    apply submit_data_Ok_inv in Hr as (who & bn & _ & _ & _ & _ & _ & _ & _ & _ & _ & ->). by apply Hsame.
  - destruct (report origin r s) as [[[]|e|] s1] eqn:Hr; simplify_eq; [|by apply Hsame..].
    apply report_Ok_inv in Hr as (_ & _ & _ & _ & mv' & s1 & Hl & ->); [|done].
    destruct (report_loop_Ok _ _ _ _ _ _ _ Hwf Hl) as (_ & _ & _ & _ & [f ->] & Hin & Hout).
    split; [done|]. intros b i a Ha. unfold votes_of in Ha. simpl in Ha, Hin, Hout.
    destruct (decide (b = at_block r /\ i ∈ index_set r)) as [[-> Hi]|Hn].
    + rewrite (Hin i Hi) in Ha. simpl in Ha. apply elem_of_app in Ha as [Ha|Ha]; [by left|]. right.
      apply list_elem_of_singleton in Ha as ->. by exists r, sig.
    + left. rewrite (Hout (b, i)) in Ha; [done|]. simpl. destruct (decide (b = at_block r)); [right|left]; naive_solver.
  - destruct (register_app origin s) as [[[]|e|] s1] eqn:Hr; simplify_eq; [|by apply Hsame..].
    unfold register_app, ensure_signed, lift_res, gets, modify, deposit_event in Hr.
    apply stM_bind_Ok in Hr as (who & s2 & Ho & Hr). destruct origin; simplify_eq.
    apply stM_bind_Ok in Hr as (app & s3 & [= <- <-] & Hr).
    apply stM_bind_Ok in Hr as (? & s4 & [= _ <-] & [= <-]). by apply Hsame.
Qed.

(** A dispatch between changes that keep keys and votes. *)
Lemma dispatched_votes c origin s s1 o s2 s' :
  match c with CallReport r _ => Forall (fun i => 0 <= i) (index_set r) | _ => True end ->
  keeps s s1 -> dispatch c origin s1 = (o, s2) -> keeps s2 s' ->
  Keys s' = Keys s /\ forall b i a, a ∈ votes_of b i s' -> a ∈ votes_of b i s \/
    exists r sig, c = CallReport r sig /\ origin = Unsigned /\ at_block r = b /\ authority_index r = a /\ i ∈ index_set r.
Proof.
  intros Hwf [Hk1 Hv1] Hd [Hk2 Hv2]. destruct (dispatch_votes c origin s1 o s2 Hwf Hd) as [Hk Hv].
  split; [congruence|]. intros b i a Ha. unfold votes_of in Ha. rewrite Hv2 in Ha.
  destruct (Hv b i a Ha) as [Hold|(r & sig & -> & Hb & Hau & Hi)];
    [left; unfold votes_of in *; by rewrite Hv1 in Hold|].
  destruct origin as [who| |]; [..|by right; exists r, sig]; injection Hd as <- <-;
    left; unfold votes_of; by rewrite <- Hv1.
Qed.

(** One extrinsic. *)
Lemma apply_votes xt s o s' : xt_wf xt -> apply_extrinsic xt s = (Ok o, s') ->
  Keys s' = Keys s /\ forall b i a, a ∈ votes_of b i s' -> a ∈ votes_of b i s \/ signed_vote s b i a xt.
Proof.
  intros Hwf Ha. unfold apply_extrinsic in Ha. simpl in Ha. set (s1 := note_extrinsic (encode xt) s) in *.
  assert (Hap : exists r s2, test_xt_apply account xt (Z.of_nat (length (encode xt))) s1 = (Ok r, s2) /\ keeps s2 s').
  { destruct (test_xt_apply _ _ _ _) as [[[[]|e]| |] s2]; [|case_bool_decide|..]; simplify_eq; eauto. }
  destruct Hap as (r & s2 & Hap & Hk2). clear Ha. pose proof (Hnote (encode xt) s) as Hk1. fold s1 in Hk1.
  unfold test_xt_apply in Hap. destruct xt as [[[who extra]|] c]; simpl in Hap.
  - pose proof (Hext extra who c (Z.of_nat (length (encode (mkTestXt (Some (who, extra)) c)))) s1) as Hk.
    destruct (ext_pre_dispatch _ _ _ _ _) as [[[]| |] s3]; simpl in *; [|done..].
    pose proof (keeps_trans _ _ _ Hk1 Hk) as Hk3.
    destruct (dispatch c (Signed (account who)) s3) as [o' s4] eqn:Hd.
    assert (s4 = s2) as -> by (destruct o'; by simplify_eq/=).
    destruct (dispatched_votes c _ s s3 o' s2 s' Hwf Hk3 Hd Hk2) as [Hkk Hv]. split; [done|].
    intros b i a Hin. destruct (Hv b i a Hin) as [?|(? & ? & _ & [=] & _)]. by left.
  - destruct (ext_pre_dispatch_unsigned _ _ _) as [[]| |]; simpl in Hap; [|done..].
    unfold runtime_pre_dispatch, runtime_validate_unsigned in Hap.
    destruct (validate_unsigned c s1) as [v| |] eqn:Hval; simpl in Hap; [|done..].
    destruct (dispatch c Unsigned s1) as [o' s4] eqn:Hd.
    assert (s4 = s2) as -> by (destruct o'; by simplify_eq/=).
    destruct (dispatched_votes c _ s s1 o' s2 s' Hwf Hk1 Hd Hk2) as [Hkk Hv]. split; [done|].
    intros b i a Hin. destruct (Hv b i a Hin) as [?|(r' & sig & -> & _ & Hb & Hau & Hi)]; [by left|right].
    simpl in Hval. destruct Hk1 as [Hk1 _]. rewrite Hk1 in Hval.
    destruct (Keys s !! Z.to_nat (authority_index r')) as [key|] eqn:Hkey; [|done].
    destruct (negb (_ =? _)); [done|]. destruct (authority_verify _ _ _) eqn:Hver; [|done].
    exists r', sig, key. subst. done.
Qed.

(** C6: Votes are signed.  [report] itself does not look at its signature; it is the
    validation of unsigned extrinsics before dispatch that does.  When the executive applies
    a list of extrinsics, every vote on an entry that was not there before stems from an
    unsigned report in the list that names the authority, the block and the entry and whose
    signature verifies, on the whole report, under the key the authority has; no extrinsic
    changes the keys. *)
Theorem votes_are_signed xs s s' : Forall xt_wf xs -> apply_extrinsics xs s = (Ok tt, s') ->
  Keys s' = Keys s /\
  forall b i a, a ∈ votes_of b i s' -> (a ∉ votes_of b i s) -> exists xt, xt ∈ xs /\ signed_vote s b i a xt.
Proof.
  intros Hwf. revert s. induction Hwf as [|xt xs Hx _ IH]; intros s Ha.
  { injection Ha as <-. split; [done|]. naive_solver. }
  cbn [apply_extrinsics] in Ha. destruct (apply_extrinsic xt s) as [[o| |] s1] eqn:Hap; [|done..].
  destruct (apply_votes xt s o s1 Hx Hap) as [Hk1 Hv1]. destruct (IH s1 Ha) as [Hk Hv].
  split; [congruence|]. intros b i a Hin Hout.
  destruct (decide (a ∈ votes_of b i s1)) as [Hmid|Hmid].
  - destruct (Hv1 b i a Hmid) as [?|Hs]; [done|]. exists xt. split; [by left|done].
  - destruct (Hv b i a Hin Hmid) as (xt' & Hin' & r & sig & key & Hr). exists xt'. split; [by right|].
    exists r, sig, key. by rewrite <- Hk1.
Qed.
End votes.

(** ** A signed report of mock authority 5 *)
Section votes_witness.
#[local] Existing Instances host64 bytes_lib ref_permill MeloStoreRuns.report_codec.
#[local] Instance uint_config : MeloConfig := {|
  AccountId := Z; AuthorityId := UintAuthorityId.t; Signature := TestSignature.t;
  MaxKeys := 10000; MaxBlobNum := 100; MaxExtedLen := 200; MeloUnsignedPriority := 1;
  authority_verify := uint_verify
|}.
#[local] Instance no_extension : SignedExtension unit Call Storage := {|
  ext_validate _ _ _ _ _ := Ok 0; ext_validate_unsigned _ _ _ := Ok 0;
  ext_pre_dispatch _ _ _ _ s := (Ok tt, s); ext_pre_dispatch_unsigned _ _ _ := Ok tt
|}.
#[local] Instance quiet_system : FrameSystem Storage Z Z := {|
  reset_events s := s; initialize _ _ _ s := s; register_extra_weight_unchecked _ _ s := s;
  note_finished_initialize s := s; sys_block_number := block_number; sys_block_hash _ _ := 7;
  insert_block_hash _ _ s := s; note_extrinsic _ s := s; note_finished_extrinsics s := s;
  block_weight_total _ := Weight.zero;
  system_finalize s := (Header.new (block_number s) 0 0 7 [], s);
  last_upgrade_outdated _ := false; put_last_upgrade s := s;
  item_is_pre_runtime _ := false; base_block := Weight.zero; max_block := Weight.zero
|}.
#[local] Definition the_entry : BlobMetadata :=
  mkMetadata 1 (4 : @AccountId uint_config) [g1_identity] [g1_identity] 10 true 1.
#[local] Definition before_vote : Storage :=
  mkStorage {[1 := [the_entry]]} ∅ [5 : @AuthorityId uint_config] 1 ∅ ∅ 1 (fun _ => []) [].
#[local] Definition the_vote : UnavailableDataReport := mkReport 1 0 [0] 1.
#[local] Definition vote_xt : TestXt unit :=
  test_xt_new (CallReport the_vote (TestSignature.mk 5 (scale_encode the_vote) : @Signature uint_config)) None.
#[local] Definition run_votes : res string unit * Storage :=
  @apply_extrinsics _ _ _ _ quiet_system
    (test_extrinsics (fun who => who : @AccountId uint_config) (fun _ => [1]) (fun _ => Normal) (fun _ _ s => s)
       (fun _ => None)) [vote_xt] before_vote.

Lemma votes_are_signed_witness :
  votes_of 1 0 run_votes.2 = [0] /\ exists xt, xt ∈ [vote_xt] /\ signed_vote before_vote 1 0 0 xt.
Proof.
  assert (Hv : votes_of 1 0 run_votes.2 = [0]) by (vm_compute; reflexivity). split; [exact Hv|].
  destruct (votes_are_signed (fun who => who : @AccountId uint_config) (fun _ => [1]) (fun _ => Normal)
    (fun _ _ s => s) (fun _ => None) ltac:(intros; split; reflexivity) ltac:(intros; split; reflexivity)
    ltac:(intros; split; reflexivity) [vote_xt] before_vote run_votes.2) as [_ Hs].
  - constructor; [|constructor]. constructor; [done|constructor].
  - change (run_votes = (Ok tt, run_votes.2)). rewrite (surjective_pairing run_votes) at 1. f_equal.
  - apply Hs; [rewrite Hv; by left|]. apply not_elem_of_nil.
Defined.
End votes_witness.
