(* ===== verification/TestTypes.v ===== *)
(** * More test primitives ([crates/core-primitives/src/testing.rs])

    The keys of the mock authority as the session pallet sees them, the wrapper of an
    extrinsic, and the mock block. *)

From S2P Require Import Prelude Codec DasDb KzgLib KzgIndex KzgToy DasPrimitives Blob.
From S2P Require Import ErasureCoding CorePrimitives Reliability Sidecar MeloStore MeloStoreProps.
From S2P Require Import MeloStoreFacts MeloStoreRuns Executive Testing.

(** ** Keys *)
Module UintKeys.
(** [AsRef<[u8]>]: the memory of the [u64], little endian on the supported hosts. *)
Definition as_ref (id : UintAuthorityId.t) : bytes := rev (to_be_bytes 8 id).
Definition to_raw_vec (id : UintAuthorityId.t) : bytes := as_ref id.

(** The thread's [ALL_KEYS]. *)
Definition set_all_keys (keys : list UintAuthorityId.t) (all_keys : list UintAuthorityId.t)
    : list UintAuthorityId.t := keys.
Definition all (all_keys : list UintAuthorityId.t) : list UintAuthorityId.t := all_keys.

(** [OpaqueKeys]: one key, of the type [DUMMY], whatever type is asked for. *)
Definition DUMMY : bytes := [100; 117; 109; 121].
Definition key_ids : list bytes := [DUMMY].
Definition get_raw (id : UintAuthorityId.t) (key_type : bytes) : bytes := as_ref id.
(** SCALE encodes a [u64] in eight bytes, little endian. *)
Definition encode (id : UintAuthorityId.t) : bytes := rev (to_be_bytes 8 id).
Definition get {T} `{Codec T} (id : UintAuthorityId.t) (key_type : bytes) : option T := decode_all (encode id).

(** The session pallet finds the key of an authority under every key type, as its raw bytes
    and decoded; different authorities have different keys. *)
Lemma keys_identify `{Codec Z} `{!CodecLaws Z (H := in_u 64)} id id' k k' :
  (forall n, scale_encode n = encode n) -> in_u 64 id -> in_u 64 id' ->
  get id k = Some id /\ get_raw id k = scale_encode id /\
  (get_raw id k = get_raw id' k' -> id = id').
Proof.
  intros He Hi Hi'. split_and!.
  - unfold get. rewrite <- He. by apply decode_all_encode.
  - by rewrite He.
  - unfold get_raw, as_ref. intros Hr%(f_equal (@rev Z)). rewrite !rev_involutive in Hr.
    by apply to_be_bytes_inj in Hr.
Qed.
End UintKeys.

(** ** Extrinsics and blocks *)
Module ExtrinsicWrapper.
Record t (Xt : Type) := mk { inner : Xt }.
Arguments mk {_}.
Arguments inner {_}.
Definition from {Xt} (xt : Xt) : t Xt := mk xt.
Definition deref {Xt} (self : t Xt) : Xt := inner self.
Definition is_signed {Xt} (self : t Xt) : option bool := None.
Definition serialize {Xt} `{Codec (t Xt)} (self : t Xt) : bytes := scale_encode self.
End ExtrinsicWrapper.

Module TestBlock.
Section block.
Context {Header Xt : Type}.
Record t := mk { header : Header; extrinsics : list Xt }.
Definition new (header : Header) (extrinsics : list Xt) : t := mk header extrinsics.
Definition deconstruct (self : t) : Header * list Xt := (header self, extrinsics self).
Definition encode_from `{Codec (Header * list Xt)} (header : Header) (extrinsics : list Xt) : bytes :=
  scale_encode (header, extrinsics).

(** [Deserialize] reads a sequence of bytes, the SCALE encoding of a block (the derived
    [Serialize] writes the fields). *)
Definition deserialize `{Codec t} (r : bytes) : res string t :=
  match decode_all r with
  | Some b => Ok b
  | None => Err "Invalid value passed into decode"%string
  end.

(** A block is its parts, and is read back from the encoding of its parts. *)
Lemma block_roundtrip `{Wf t} `{Codec t} `{!CodecLaws t} `{Codec (Header * list Xt)} (b : t) :
  (forall b, scale_encode b = scale_encode (deconstruct b)) -> wf b ->
  new (deconstruct b).1 (deconstruct b).2 = b /\
  deserialize (encode_from (header b) (extrinsics b)) = Ok b.
Proof.
  intros He Hb. split; [by destruct b|]. unfold deserialize, encode_from.
  change (header b, extrinsics b) with (deconstruct b). rewrite <- He. by rewrite decode_all_encode.
Qed.
End block.
End TestBlock.

(** [Extrinsic for TestXt] *)
Definition test_xt_is_signed {Extra : Type} `{Platform} `{KzgLib} `{MeloConfig}
    (xt : TestXt Extra) : option bool :=
  Some (match xt_signature xt with Some _ => true | None => false end).
Definition test_xt_extrinsic_new {Extra : Type} `{Platform} `{KzgLib} `{MeloConfig} (c : Call)
    (sig : option (Z * Extra)) : option (TestXt Extra) := Some (mkTestXt sig c).
