(* ===== verification/HeaderFlow.v ===== *)
(** * From submission to header

    The executive finalizes a block with the commitment list of the data submission
    pallet: what a reader of the header sees is what the pallet's storage holds for the
    previous block. *)

From S2P Require Import Prelude Codec DasDb KzgLib KzgIndex KzgToy DasPrimitives Blob.
From S2P Require Import ErasureCoding CorePrimitives Reliability Sidecar MeloStore MeloStoreProps.
From S2P Require Import MeloStoreFacts MeloStoreRuns Executive.

(** [frame_system::finalize] removes its own temporaries and reads the rest. *)
Class SystemFinalizeLaws `{KzgLib} (S Hash Item : Type) `{!FrameSystem S Hash Item}
    `{!HeaderCommitList S} : Prop :=
  finalize_keeps_list : forall s : S, hcl_last (system_finalize s).2 = hcl_last s.

Section flow.
Context `{Platform} `{KzgLib} `{!G1BytesLaws} `{MeloConfig} `{PermillLib} `{!PermillLaws}
  `{ClearPrefix} `{!ClearPrefixLaws} `{EmbeddedSettings}.
Context {Hash Item : Type} `{!FrameSystem Storage Hash Item} `{!SystemFinalizeLaws Storage Hash Item}.
Context (HMax : 0 <= MaxBlobNum < 2 ^ 16) (HKeys : 0 <= MaxKeys)
  (HRows : MaxKeys * MaxBlobNum < 2 ^ 32).

Lemma header_of_invariant s : invariant s -> 1 < block_number s < 2 ^ 32 ->
  let h := (finalize s).1 in
  let ms := iter_metadata (block_number s - 1) s in
  Header.commitments h = Some (concat (commitments <$> ms)) /\
  Header.col_num h = Some (Z.of_nat (length (concat (commitments <$> ms)))) /\
  HeaderExtension.app_lookup (Header.extension h)
  = (fun m => AppLookup.mk (app_id m) (nonce m) (Z.of_nat (length (commitments m)))) <$> ms.
Proof.
  intros Hi Hb h ms.
  pose proof (header_rows HMax s Hi HKeys) as Hrows. cbv zeta in Hrows. fold ms in Hrows.
  assert (Hh : exists base, h = Header.set_extension (concat (commitments <$> ms),
      (fun m => AppLookup.mk (app_id m) (nonce m) (Z.of_nat (length (commitments m)))) <$> ms) base).
  { unfold h, finalize. pose proof (finalize_keeps_list s) as Hk.
    destruct (system_finalize s) as [base s']. simpl in Hk. rewrite Hk.
    change (hcl_last s) with (last s). rewrite (last_value HMax s Hi Hb). by eexists. }
  destruct Hh as [base ->].
  destruct (set_extension_read base (concat (commitments <$> ms))
    ((fun m => AppLookup.mk (app_id m) (nonce m) (Z.of_nat (length (commitments m)))) <$> ms))
    as (Hc & Hn & Hl & _); [lia|]. done.
Qed.

(** C22: The header carries the submissions: in every reachable state after the first
    block, the header that [finalize] returns decodes to the commitments of the available
    submissions of the previous block in order, its column count is their number, and its
    lookup table lists each submission with its application, nonce and number of
    commitments. *)
Theorem header_carries_submissions s0 s :
  genesis s0 -> rtc step s0 s -> 1 < block_number s < 2 ^ 32 ->
  let h := (finalize s).1 in
  let ms := iter_metadata (block_number s - 1) s in
  Header.commitments h = Some (concat (commitments <$> ms)) /\
  Header.col_num h = Some (Z.of_nat (length (concat (commitments <$> ms)))) /\
  HeaderExtension.app_lookup (Header.extension h)
  = (fun m => AppLookup.mk (app_id m) (nonce m) (Z.of_nat (length (commitments m)))) <$> ms.
Proof.
  intros Hg Hr Hb. apply header_of_invariant; [|done].
  eapply invariant_reachable; [lia|done|done].
Qed.
End flow.

(** ** A concrete block *)
Section flow_witness.
#[local] Existing Instances host64 bytes_lib bytes_lib_g1 ref_permill ref_permill_laws
  ref_clear_prefix ref_clear_prefix_laws.
#[local] Instance flow_config : MeloConfig := {|
  AccountId := Z; AuthorityId := Z; Signature := bytes;
  MaxKeys := 10000; MaxBlobNum := 100; MaxExtedLen := 200; MeloUnsignedPriority := 1;
  authority_verify _ _ _ := true
|}.
#[local] Instance flow_settings : EmbeddedSettings := [].
#[local] Instance flow_system : FrameSystem Storage Z Z := {|
  reset_events s := s; initialize _ _ _ s := s; register_extra_weight_unchecked _ _ s := s;
  note_finished_initialize s := s; sys_block_number := block_number; sys_block_hash _ _ := 7;
  insert_block_hash _ _ s := s; note_extrinsic _ s := s; note_finished_extrinsics s := s;
  block_weight_total _ := Weight.zero;
  system_finalize s := (Header.new (block_number s) 0 0 7 [], s);
  last_upgrade_outdated _ := false; put_last_upgrade s := s;
  item_is_pre_runtime _ := false; base_block := Weight.zero; max_block := Weight.zero
|}.
#[local] Instance flow_laws : SystemFinalizeLaws Storage Z Z.
Proof. done. Qed.
#[local] Definition dave : AccountId := 4.
#[local] Definition submission : SidecarMetadata.t :=
  SidecarMetadata.mk 1 10 1 [g1_identity] [g1_identity].
#[local] Definition b1 : Storage := mkStorage ∅ ∅ [1] 1 ∅ ∅ 1 (fun _ => []) [].
#[local] Definition b2 : Storage := (dispatch (CallSubmitData submission) (Signed dave) b1).2.
#[local] Definition b3 : Storage := next_block [] b2.

Lemma b3_reachable : rtc step b1 b3.
Proof.
  eapply rtc_l; [|apply rtc_once, step_block].
  by apply (step_call (CallSubmitData submission) (Signed dave) b1 (Ok tt)).
Qed.
Lemma flow_max : 0 <= MaxBlobNum < 2 ^ 16.
Proof. done. Qed.

Lemma header_carries_submissions_witness :
  Header.commitments (finalize b3).1 = Some [g1_identity].
Proof.
  apply (header_carries_submissions flow_max ltac:(done) ltac:(done) b1 b3).
  - split_and!; done.
  - exact b3_reachable.
  - done.
Defined.
End flow_witness.
