(* ===== verification/Availability.v ===== *)
(** * From sampling records to the header

    The components that keep unavailable data out of the chain, composed.  Every validator
    runs the pallet's off-chain worker on its own host storage after block [n]; the reports
    the workers submit are the unsigned extrinsics of block [n + 1]; the executive then
    builds the header of block [n + 1] from what the pallet holds for block [n]. *)

From S2P Require Import Prelude Codec DasDb KzgLib KzgIndex KzgToy DasPrimitives Blob.
From S2P Require Import ErasureCoding CorePrimitives Reliability Sidecar MeloStore MeloOffchain.
From S2P Require Import MeloStoreProps MeloStoreFacts MeloOffchainProps Executive HeaderFlow.

(** ** Several reports *)
Section votes.
Context `{Platform} `{KzgLib} `{MeloConfig} `{PermillLib}.
Implicit Types (s : Storage) (r : UnavailableDataReport) (rs : list (UnavailableDataReport * Signature)).

(** Unsigned extrinsics, one after the other. *)
Fixpoint apply_calls (cs : list Call) s : list (res DispatchError unit) * Storage :=
  match cs with
  | [] => ([], s)
  | c :: cs =>
      let '(o, s) := dispatch c Unsigned s in
      let '(os, s) := apply_calls cs s in (o :: os, s)
  end.

Definition call_of (p : UnavailableDataReport * Signature) : Call := CallReport p.1 p.2.

(** Who votes on entry [i]. *)
Definition voters (i : Z) rs : list Z :=
  authority_index <$> filter (fun r => i ∈ index_set r) rs.*1.

(** An entry after the votes [new] on it. *)
Definition verdict s (b i : Z) (new : list Z) (m : BlobMetadata) : BlobMetadata :=
  if bool_decide (new = []) then m else judged s (votes_of b i s ++ new) m.

(** A report about block [b] on existing entries by an existing authority. *)
Record admissible (b : Z) s r : Prop := {
  adm_block : at_block r = b;
  adm_some : index_set r <> [];
  adm_nodup : NoDup (index_set r);
  adm_key : is_Some (Keys s !! Z.to_nat (authority_index r));
  adm_range : Forall (fun i => 0 <= i /\ (Z.to_nat i < length (get_Metadata b s))%nat) (index_set r)
}.

Lemma report_step b r sig s :
  0 <= b < 2 ^ 32 - 1 -> b <= block_number s <= b + 1 -> admissible b s r ->
  (forall i, (authority_index r ∉ votes_of b i s) /\ Z.of_nat (length (votes_of b i s)) < MaxBlobNum) ->
  exists s', dispatch (CallReport r sig) Unsigned s = (Ok tt, s') /\
    Keys s' = Keys s /\ block_number s' = block_number s /\
    (forall i, votes_of b i s' = votes_of b i s ++ voters i [(r, sig)]) /\
    voted s b (authority_index r) (index_set r) (get_Metadata b s) (get_Metadata b s').
Proof.
  intros Hb Hn [Hab Hne Hnd Hk Hr] Hv. subst b.
  destruct (report_accepts r sig s) as [s' Hd]; [done..|]. exists s'. split; [done|].
  unfold dispatch, transactional in Hd.
  destruct (report Unsigned r s) as [[[]|e|] s1] eqn:Hrep; simplify_eq.
  assert (Hpos : Forall (fun i => 0 <= i) (index_set r))
    by (eapply Forall_impl; [exact Hr|]; by intros i [? _]).
  apply report_Ok_inv in Hrep as (_ & _ & _ & _ & mv' & s1 & Hl & ->); [|done].
  destruct (report_loop_Ok _ _ _ _ _ _ _ Hpos Hl) as (_ & _ & _ & Hvoted & [f ->] & Hin & Hout).
  split_and!; [done|done| |].
  - intros i. unfold votes_of at 1, voters. simpl in *. rewrite filter_cons, filter_nil.
    case_decide as Hi; simpl; [by rewrite Hin|].
    rewrite (Hout (at_block r, i)) by (right; done). by rewrite app_nil_r.
  - unfold get_Metadata at 2. simpl. by rewrite lookup_insert_eq.
Qed.

Lemma voters_cons i p rs : voters i (p :: rs) = voters i [p] ++ voters i rs.
Proof.
  unfold voters. rewrite !fmap_cons, fmap_nil, !filter_cons, filter_nil.
  by case_decide; rewrite ?fmap_cons, ?fmap_nil.
Qed.

Lemma voters_single i r sig : voters i [(r, sig)] = if decide (i ∈ index_set r) then [authority_index r] else [].
Proof. unfold voters. simpl. rewrite filter_cons, filter_nil. by case_decide. Qed.

Lemma judged_final s v1 v2 m : v1 `prefix_of` v2 -> Z.of_nat (length v2) < 2 ^ 32 ->
  judged s v2 (judged s v1 m) = judged s v2 m.
Proof.
  intros Hp%prefix_length Hl. unfold judged. rewrite !wrap_small by (unfold in_u; lia).
  destruct (Z.ltb_spec (threshold s) (Z.of_nat (length v1))); [|done].
  by rewrite (proj2 (Z.ltb_lt _ _)) by lia.
Qed.

Lemma verdict_app s v v1 v2 m : Z.of_nat (length (v ++ v1 ++ v2)) < 2 ^ 32 ->
  let m1 := if bool_decide (v1 = []) then m else judged s (v ++ v1) m in
  (if bool_decide (v2 = []) then m1 else judged s ((v ++ v1) ++ v2) m1)
  = if bool_decide (v1 ++ v2 = []) then m else judged s (v ++ v1 ++ v2) m.
Proof.
  intros Hl. destruct v1 as [|a v1]; [by rewrite app_nil_r|].
  destruct v2 as [|b v2]; [by rewrite !app_nil_r|]. cbv zeta. rewrite !bool_decide_false by done.
  rewrite app_assoc in *. apply judged_final; [by apply prefix_app_r|done].
Qed.

Context (HMax : 0 <= MaxBlobNum < 2 ^ 32).

Lemma reports_applied b rs : forall s,
  0 <= b < 2 ^ 32 - 1 -> b <= block_number s <= b + 1 -> Forall (admissible b s) rs.*1 ->
  NoDup (authority_index <$> rs.*1) ->
  (forall i r, r ∈ rs.*1 -> authority_index r ∉ votes_of b i s) ->
  (forall i, Z.of_nat (length (votes_of b i s)) + Z.of_nat (length rs) <= MaxBlobNum) ->
  exists s', apply_calls (call_of <$> rs) s = (replicate (length rs) (Ok tt), s') /\
    Keys s' = Keys s /\ block_number s' = block_number s /\
    (forall i, votes_of b i s' = votes_of b i s ++ voters i rs) /\
    length (get_Metadata b s') = length (get_Metadata b s) /\
    (forall j m, get_Metadata b s !! j = Some m -> get_Metadata b s' !! j
       = Some (verdict s b (Z.of_nat j) (voters (Z.of_nat j) rs) m)).
Proof.
  induction rs as [|[r sig] rs IH]; intros s Hb Hn Hall Hnd Hfresh Hroom.
  { exists s. split_and!; try done. intros i. by rewrite app_nil_r. }
  rewrite fmap_cons in Hall. apply Forall_cons in Hall as [Hadm Hall].
  rewrite !fmap_cons in Hnd. apply NoDup_cons in Hnd as [Hna Hnd]. cbn [length] in Hroom.
  destruct (report_step b r sig s Hb Hn Hadm) as (s1 & Hd & Hk1 & Hn1 & Hv1 & Hlen1 & Hm1).
  { intros i. split; [apply Hfresh; rewrite fmap_cons; by left|]. specialize (Hroom i). lia. }
  assert (Hvl : forall i, (length (voters i [(r, sig)]) <= 1)%nat)
    by (intros i; rewrite voters_single; case_decide; simpl; lia).
  destruct (IH s1) as (s2 & Ha & Hk2 & Hn2 & Hv2 & Hlen2 & Hm2); [done|by rewrite Hn1| |done| | |].
  { eapply Forall_impl; [exact Hall|]. intros r' [? ? ? ? ?]. split; [done..|by rewrite Hk1|by rewrite Hlen1]. }
  { intros i r' Hr'. rewrite Hv1, voters_single, not_elem_of_app.
    split; [apply Hfresh; rewrite fmap_cons; by right|].
    case_decide; [|apply not_elem_of_nil]. rewrite list_elem_of_singleton. intros He.
    apply Hna. simpl. rewrite <- He. apply list_elem_of_fmap. by exists r'. }
  { intros i. rewrite Hv1, length_app. specialize (Hvl i). specialize (Hroom i). lia. }
  exists s2. split.
  { rewrite fmap_cons. cbn [apply_calls]. change (call_of (r, sig)) with (CallReport r sig).
    by rewrite Hd, Ha. } rewrite Hk2, Hn2, Hlen2. split_and!; [done..| |done|].
  - intros i. by rewrite Hv2, Hv1, <- app_assoc, <- voters_cons.
  - intros j m Hm. specialize (Hm1 j m Hm). rewrite (Hm2 j _ Hm1). f_equal.
    rewrite (voters_cons _ (r, sig)), voters_single. unfold verdict. rewrite Hv1, voters_single.
    assert (Hbnd : Z.of_nat (length (votes_of b (Z.of_nat j) s)) + 1 + Z.of_nat (length (voters (Z.of_nat j) rs)) < 2 ^ 32).
    { specialize (Hroom (Z.of_nat j)). unfold voters. rewrite length_fmap.
      pose proof (length_filter (fun r => Z.of_nat j ∈ index_set r) rs.*1) as Hf. rewrite length_fmap in Hf. lia. }
    assert (Hj : forall v m0, judged s1 v m0 = judged s v m0)
      by (intros v m0; unfold judged, threshold; by rewrite Hk1). rewrite Hj.
    rewrite <- (verdict_app s (votes_of b (Z.of_nat j) s)).
    + repeat (case_decide || case_bool_decide); done.
    + rewrite !length_app. case_decide; simpl; lia.
Qed.
End votes.

(** ** Validators and the header *)
Section validators.
Context `{Platform} `{KzgLib} `{!G1BytesLaws} `{MeloConfig} `{PermillLib} `{!PermillLaws}
  `{ClearPrefix} `{!ClearPrefixLaws} `{EmbeddedSettings}.
Context {Hash Item : Type} `{!FrameSystem Storage Hash Item} `{!SystemFinalizeLaws Storage Hash Item}.
Context {HT : Type} `{HostStorage HT} `{!HostStorageLaws HT}.
Context `{Codec Reliability.t} `{Codec ReportStatus} `{!CodecLaws ReportStatus}
  `{Codec UnavailableDataReport} `{Codec Z}.
Context (HMax : 0 <= MaxBlobNum < 2 ^ 16) (HKeys : 0 <= MaxKeys < 2 ^ 32)
  (HRows : MaxKeys * MaxBlobNum < 2 ^ 32).
Implicit Types (s : Storage) (m : BlobMetadata).

(** A validator: its node, its host storage after block [n], its authority index and key. *)
Record Validator := mkValidator {
  v_env : OffchainEnv HT;
  v_host : HT;
  v_index : Z;
  v_key : AuthorityId
}.
Implicit Types (v : Validator) (vs : list Validator).

(** The node validates, holds the key of one authority, has no report of it waiting, and
    its pool admits what [validate_unsigned] admits. *)
Record ready s v : Prop := {
  ready_role : is_validator (OffchainEnv := v_env v) = true;
  ready_key : local_authority_keys (OffchainEnv0 := v_env v) s = [(v_index v, v_key v)];
  ready_quiet : quiet (OffchainEnv0 := v_env v) (v_index v);
  ready_lock : blocked (v_index v) (block_number s) (block_number s) (mkWorker (v_host v) []) = false;
  ready_sign : forall msg, exists sig,
    authority_sign (OffchainEnv := v_env v) (v_key v) msg = Some sig /\
    authority_verify (v_key v) msg sig = true;
  ready_pool : forall c, pool_accepts (OffchainEnv := v_env v) c = is_ok (validate_unsigned c s)
}.

(** What the worker of the validator submits after block [block_number s]. *)
Definition reports_of s v : list Call :=
  submitted (offchain_worker (OffchainEnv0 := v_env v) s (block_number s) (mkWorker (v_host v) [])).

(** The validator has a record of the submission, and it says unavailable. *)
Definition distrusts m v : bool :=
  match get_confidence (app_confidence (app_id m) (nonce m)) (OffchainKv.new None (v_host v)) with
  | Some rec => negb (Reliability.is_availability rec)
  | None => false
  end.
Definition suspicions vs m : Z := Z.of_nat (length (filter (fun v => distrusts m v = true) vs)).

Lemma apps_distrusts s v j m : Z.of_nat (length (get_Metadata (block_number s) s)) < 2 ^ 32 ->
  get_Metadata (block_number s) s !! j = Some m ->
  Z.of_nat j ∈ get_unavailability_apps (block_number s) s (v_host v) <-> distrusts m v = true.
Proof.
  intros Hl Hm. rewrite unavailability_apps_in by done. rewrite Nat2Z.id. unfold distrusts. split.
  - intros (_ & m' & c & Hm' & Hc & Ha). assert (m' = m) as -> by congruence. by rewrite Hc, Ha.
  - destruct (get_confidence _ _) as [c|] eqn:Hc; [|done]. intros Ha%negb_true_iff.
    split; [lia|]. by exists m, c.
Qed.

(** The reports of all validators. *)
Lemma validators_report s vs : in_u 32 (block_number s) -> Z.of_nat (length (Keys s)) < 2 ^ 32 ->
  Z.of_nat (length (get_Metadata (block_number s) s)) < 2 ^ 32 -> Forall (ready s) vs ->
  exists rs, concat (reports_of s <$> vs) = call_of <$> rs /\
    Forall (admissible (block_number s) s) rs.*1 /\
    (authority_index <$> rs.*1) `sublist_of` (v_index <$> vs) /\
    forall j m, get_Metadata (block_number s) s !! j = Some m ->
      voters (Z.of_nat j) rs = v_index <$> filter (fun v => distrusts m v = true) vs.
Proof.
  intros Hu Hk Hl. induction vs as [|v vs IH]; intros Hr.
  { exists []. by split_and!. }
  apply Forall_cons in Hr as [[Hrole Hkey Hq Hlock Hsign Hpool] Hr].
  destruct (IH Hr) as (rs & Hc & Hadm & Hsub & Hv).
  destruct (worker_submits (OffchainEnv0 := v_env v) s (v_index v) (v_key v) (v_host v)) as [Hlk [sig Hs]]; [done..|].
  rewrite fmap_cons. cbn [concat]. unfold reports_of at 1. rewrite Hs. case_bool_decide as Hne.
  - exists rs. split_and!; [done|done|by constructor|]. intros j m Hm. rewrite (Hv j m Hm).
    rewrite filter_cons, decide_False; [done|].
    rewrite <- (apps_distrusts s v j m) by done. rewrite Hne. apply not_elem_of_nil.
  - set (r := mkReport _ _ _ _). exists ((r, sig) :: rs). rewrite !fmap_cons. split_and!.
    + by rewrite Hc.
    + constructor; [|done]. split; [done|done|by apply unavailability_apps_NoDup|exists (v_key v); exact Hlk|].
      apply Forall_forall. intros i (Hi & m & c & Hm & _)%unavailability_apps_in; [|done].
      split; [done|by eapply lookup_lt_Some].
    + by constructor.
    + intros j m Hm. rewrite voters_cons, voters_single, (Hv j m Hm), filter_cons.
      pose proof (apps_distrusts s v j m Hl Hm) as Hd. simpl index_set.
      destruct (decide (distrusts m v = true)) as [Ht|Hf].
      * rewrite decide_True by (by apply Hd). done.
      * rewrite decide_False by (by rewrite Hd). done.
Qed.

Lemma apply_calls_invariant cs : forall s, Forall call_wf cs -> invariant s ->
  invariant (apply_calls cs s).2.
Proof.
  induction cs as [|c cs IH]; intros s Hw Hi; [done|]. apply Forall_cons in Hw as [Hc Hw].
  cbn [apply_calls]. destruct (dispatch c Unsigned s) as [o s1] eqn:Hd.
  assert (Hi1 : invariant s1) by (by eapply dispatch_invariant; [lia|..]).
  specialize (IH s1 Hw Hi1). by destruct (apply_calls cs s1).
Qed.

(** The entries of a block after the votes of [vs]. *)
Definition after_votes s vs m : BlobMetadata :=
  if Z.of_nat (length (Keys s)) / 2 <? suspicions vs m then set_unavailable m else m.

Lemma after_votes_available s vs (ms : list BlobMetadata) :
  filter (fun m => is_available m = true) (after_votes s vs <$> ms)
  = filter (fun m => is_available m = true /\ suspicions vs m <= Z.of_nat (length (Keys s)) / 2) ms.
Proof.
  induction ms as [|m ms IH]; [done|]. rewrite fmap_cons, !filter_cons, IH. unfold after_votes.
  destruct (Z.ltb_spec (Z.of_nat (length (Keys s)) / 2) (suspicions vs m)) as [Hlt|Hle].
  - rewrite decide_False by done. rewrite decide_False; [done|]. intros [_ ?]. lia.
  - destruct (decide (is_available m = true)) as [Ha|Ha].
    + by rewrite decide_True.
    + rewrite decide_False; [done|]. by intros [? _].
Qed.

(** The block that includes the reports. *)
Lemma reports_block s vs calls h :
  invariant s -> 0 <= block_number s < 2 ^ 32 - 1 -> Forall (ready s) vs -> NoDup (v_index <$> vs) ->
  Z.of_nat (length vs) <= MaxBlobNum -> (forall i, votes_of (block_number s) i s = []) ->
  calls ≡ₚ concat (reports_of s <$> vs) ->
  exists os s', apply_calls calls (next_block h s) = (os, s') /\ Forall (fun o => o = Ok tt) os /\
    invariant s' /\ block_number s' = block_number s + 1 /\
    get_Metadata (block_number s) s' = after_votes s vs <$> get_Metadata (block_number s) s.
Proof.
  intros Hi Hb Hready Hnd Hlen Hno Hperm. assert (HMax32 : 0 <= MaxBlobNum < 2 ^ 32) by lia.
  pose proof (inv_keys s Hi) as Hk. destruct (inv_metadata_get s (block_number s) Hi) as [Hml _].
  assert (Hml32 : Z.of_nat (length (get_Metadata (block_number s) s)) < 2 ^ 32) by lia.
  destruct (validators_report s vs) as (rs0 & Hrs0 & Hadm0 & Hsub & Hvot); [split; lia|done..|].
  rewrite Hrs0 in Hperm. apply Permutation_map_inv in Hperm as (rs & -> & Hp).
  change (map call_of rs) with (call_of <$> rs). symmetry in Hp.
  assert (Hadm : Forall (admissible (block_number s) (next_block h s)) rs.*1).
  { rewrite Hp. eapply Forall_impl; [exact Hadm0|]. intros r [? ? ? ? ?]. by split. }
  assert (Hrl : Z.of_nat (length rs) <= MaxBlobNum).
  { apply sublist_length in Hsub. rewrite !length_fmap in Hsub. rewrite Hp. lia. }
  destruct (reports_applied HMax32 (block_number s) rs (next_block h s))
    as (s' & Ha & Hk' & Hn' & _ & Hl' & Hm').
  - lia.
  - simpl. lia.
  - done.
  - rewrite Hp. by eapply sublist_NoDup.
  - intros i r _. change (votes_of (block_number s) i (next_block h s)) with (votes_of (block_number s) i s).
    rewrite Hno. apply not_elem_of_nil.
  - intros i. change (votes_of (block_number s) i (next_block h s)) with (votes_of (block_number s) i s).
    rewrite Hno. simpl. lia.
  - exists (replicate (length rs) (Ok tt)), s'. rewrite Ha. split_and!; [done| | |done|].
    + apply Forall_replicate. done.
    + assert (Hi1 : invariant (next_block h s)) by (by apply (step_invariant HMax32 s); [constructor|]).
      replace s' with (apply_calls (call_of <$> rs) (next_block h s)).2 by (by rewrite Ha).
      apply apply_calls_invariant; [|done]. apply Forall_fmap. rewrite Hp.
      rewrite Forall_fmap in Hadm0. eapply Forall_impl; [exact Hadm0|].
      intros [r sig] [Hab _ _ _ Hr]. simpl in *. split; [|rewrite Hab; split; lia].
      eapply Forall_impl; [exact Hr|]. intros i [? ?]. split; lia.
    + apply list_eq. intros j. rewrite list_lookup_fmap.
      change (get_Metadata (block_number s) (next_block h s)) with (get_Metadata (block_number s) s) in *.
      destruct (get_Metadata (block_number s) s !! j) as [m|] eqn:Hm.
      * rewrite (Hm' j m Hm). simpl. f_equal. unfold verdict, after_votes, judged.
        change (votes_of (block_number s) _ (next_block h s)) with (votes_of (block_number s) (Z.of_nat j) s).
        rewrite Hno, app_nil_l. rewrite (threshold_half (next_block h s)) by done. simpl Keys.
        assert (Hvl : Z.of_nat (length (voters (Z.of_nat j) rs)) = suspicions vs m).
        { unfold suspicions. unfold voters. rewrite Hp. fold (voters (Z.of_nat j) rs0).
          rewrite (Hvot j m Hm). by rewrite length_fmap. }
        assert (Hsl : suspicions vs m <= Z.of_nat (length vs))
          by (unfold suspicions; pose proof (length_filter (fun v => distrusts m v = true) vs); lia).
        rewrite Hvl, wrap_small by (unfold in_u; split; [unfold suspicions; lia|lia]).
        case_bool_decide as Hnil; [|done]. rewrite Hnil in Hvl. simpl in Hvl.
        rewrite (proj2 (Z.ltb_ge _ _)); [done|]. rewrite <- Hvl. apply Z.div_pos; lia.
      * simpl. apply lookup_ge_None in Hm. apply lookup_ge_None. lia.
Qed.

(** The header of that block. *)
Lemma header_after_reports s vs calls h :
  invariant s -> 1 <= block_number s < 2 ^ 32 - 1 -> Forall (ready s) vs -> NoDup (v_index <$> vs) ->
  Z.of_nat (length vs) <= MaxBlobNum -> (forall i, votes_of (block_number s) i s = []) ->
  calls ≡ₚ concat (reports_of s <$> vs) ->
  let '(outcomes, s') := apply_calls calls (next_block h s) in
  let header := (finalize s').1 in
  let kept := filter (fun m => is_available m = true /\
                suspicions vs m <= Z.of_nat (length (Keys s)) / 2) (get_Metadata (block_number s) s) in
  Forall (fun o => o = Ok tt) outcomes /\
  Header.commitments header = Some (concat (commitments <$> kept)) /\
  HeaderExtension.app_lookup (Header.extension header)
  = (fun m => AppLookup.mk (app_id m) (nonce m) (Z.of_nat (length (commitments m)))) <$> kept.
Proof.
  intros Hi Hb Hready Hnd Hlen Hno Hperm.
  destruct (reports_block s vs calls h) as (os & s' & Ha & Hos & Hi' & Hn' & Hm'); [done|lia|done..|].
  rewrite Ha. cbv zeta. split; [done|].
  destruct (header_of_invariant HMax ltac:(lia) HRows s' Hi') as (Hc & _ & Hl); [lia|].
  rewrite Hn', Z.add_simpl_r in Hc, Hl. unfold iter_metadata in Hc, Hl.
  rewrite Hm', after_votes_available in Hc, Hl. done.
Qed.

(** C5: Unavailable data stays out of the header.  Take any reachable state after block
    [n] in which block [n] has no votes, and at most [MaxBlobNum] validators - the bound of
    the vote lists, beyond which a vote is refused - with different indices, whose off-chain
    workers run on their own host storage.  When the reports they submit are included in
    block [n + 1], in any order, all of them are accepted, and the header of block [n + 1]
    carries exactly those submissions of block [n] - in order, with their commitments and
    lookup entries - that were available and of which no majority, counted among all authorities,
    holds an unfavourable sampling record. *)
Theorem header_drops_unavailable s0 s vs calls h :
  genesis s0 -> rtc step s0 s -> 1 <= block_number s < 2 ^ 32 - 1 ->
  Forall (ready s) vs -> NoDup (v_index <$> vs) -> Z.of_nat (length vs) <= MaxBlobNum ->
  (forall i, votes_of (block_number s) i s = []) ->
  calls ≡ₚ concat (reports_of s <$> vs) ->
  let '(outcomes, s') := apply_calls calls (next_block h s) in
  let header := (finalize s').1 in
  let kept := filter (fun m => is_available m = true /\
                suspicions vs m <= Z.of_nat (length (Keys s)) / 2) (get_Metadata (block_number s) s) in
  Forall (fun o => o = Ok tt) outcomes /\
  Header.commitments header = Some (concat (commitments <$> kept)) /\
  HeaderExtension.app_lookup (Header.extension header)
  = (fun m => AppLookup.mk (app_id m) (nonce m) (Z.of_nat (length (commitments m)))) <$> kept.
Proof.
  intros Hg Hr ? ? ? ? ? ?. apply header_after_reports; [|done..].
  eapply invariant_reachable; [lia|done|done].
Qed.
End validators.
