(* ===== verification/DasNetwork.v ===== *)
(** * The DAS network ([crates/das-network/src])

    [Worker] is the event loop that owns the libp2p swarm: it turns commands into
    Kademlia queries, remembers the reply channel of each query, and answers it when the
    swarm reports progress.  [Service] is the handle the rest of the node uses.  The swarm
    and Kademlia are interfaces; a [oneshot] channel is a number, and what was sent on it
    is a log in the worker's state.  Metrics are left out. *)

From S2P Require Import Prelude.

(** [libp2p::kad]. *)
Record KadRecord := mkRecord { rec_key : bytes; rec_value : bytes }.
Inductive Quorum := QuorumOne | QuorumMajority | QuorumAll | QuorumN (n : Z).

Class Swarm (K : Type) := {
  PeerId : Type;
  Multiaddr : Type;
  QueryId : Type;
  PeerId_eq_dec :: EqDecision PeerId;
  PeerId_countable :: Countable PeerId;
  QueryId_eq_dec :: EqDecision QueryId;
  QueryId_countable :: Countable QueryId;
  parse_multiaddr : string -> option Multiaddr;
  (* the first [Protocol::P2p] component that is a peer id *)
  multiaddr_peer : Multiaddr -> option PeerId;
  swarm_listen_on : Multiaddr -> K -> (string + unit) * K;
  kad_add_address : PeerId -> Multiaddr -> K -> K;
  kad_remove_address : PeerId -> Multiaddr -> K -> K;
  kad_remove_peer : PeerId -> K -> K;
  kad_bootstrap : K -> option QueryId * K;
  kad_get_record : bytes -> K -> QueryId * K;
  kad_put_record : KadRecord -> Quorum -> K -> option QueryId * K;
  kad_store_remove : bytes -> K -> K;
  mdns_has_node : PeerId -> K -> bool
}.

Definition MAX_RETRIES : Z := 3.

(** [service.rs]: the configuration; durations are in seconds. *)
Module DasNetworkConfig.
Record t := mk {
  listen_addr : string;
  listen_port : Z;
  bootstrap_nodes : list string;
  max_retries : Z;
  retry_delay : Z;
  bootstrap_timeout : Z;
  parallel_limit : nat
}.
Definition default : t := mk "0.0.0.0" 4417 [] 3 5 60 10.
End DasNetworkConfig.

Module Worker.
Section worker.
Context `{Swarm K}.

(** ** [shared.rs]: commands, with the number of the reply channel *)
Inductive Command :=
| StartListening (addr : Multiaddr) (sender : nat)
| AddAddress (peer_id : PeerId) (peer_addr : Multiaddr) (sender : nat)
| Stream (sender : nat)
| BootstrapCommand (sender : nat)
| GetKadRecord (key : bytes) (sender : nat)
| PutKadRecord (record : KadRecord) (quorum : Quorum) (sender : nat)
| RemoveRecords (keys : list bytes) (sender : nat).

(** ** Events of the swarm *)
Inductive GetRecordOk := FoundRecord (rec : KadRecord) | FinishedWithNoAdditionalRecord.

Inductive QueryResult :=
| QueryGetRecord (result : string + GetRecordOk)
| QueryPutRecord (result : string + unit)
| QueryBootstrap (result : string + PeerId * Z)
| QueryOther.

Inductive KademliaEvent :=
| RoutingUpdated (peer : PeerId)
| RoutablePeer (peer : PeerId)
| UnroutablePeer (peer : PeerId)
| PendingRoutablePeer (peer : PeerId)
| InboundRequest
| OutboundQueryProgressed (id : QueryId) (result : QueryResult).

Inductive MdnsEvent :=
| Discovered (peers : list (PeerId * Multiaddr))
| Expired (peers : list (PeerId * Multiaddr)).

Inductive IdentifyEvent :=
| Received (peer_id : PeerId) (listen_addrs : list Multiaddr)
| IdentifyOther.

Inductive ConnectionError := ConnectionIO | KeepAliveTimeout | ConnectionHandler.

Inductive SwarmEvent :=
| BehaviourKademlia (event : KademliaEvent)
| BehaviourIdentify (event : IdentifyEvent)
| NewListenAddr (address : Multiaddr)
| BehaviourMdns (event : MdnsEvent)
| ConnectionClosed (peer_id : PeerId) (cause : option ConnectionError)
| Dialing (peer_id : PeerId)
| SwarmOther.

(** ** The worker's state *)
Inductive QueryResultSender := PutRecord (ch : nat) | GetRecord (ch : nat) | Bootstrap (ch : nat).

Inductive Reply :=
| ReplyUnit (result : string + unit)
| ReplyRecords (result : string + list KadRecord).

(** [sent] lists what was sent on reply channels, in order. *)
Record t := mk {
  swarm : K;
  output_senders : list nat;
  query_id_receivers : gmap QueryId QueryResultSender;
  pending_routing : gmap PeerId QueryResultSender;
  retry_counts : gmap PeerId Z;
  known_addresses : gmap PeerId (list string);
  sent : list (nat * Reply)
}.

Definition on_swarm (f : K -> K) (w : t) : t :=
  mk (f (swarm w)) (output_senders w) (query_id_receivers w) (pending_routing w)
    (retry_counts w) (known_addresses w) (sent w).
Definition set_swarm (k : K) : t -> t := on_swarm (fun _ => k).
Definition on_queries f (w : t) : t :=
  mk (swarm w) (output_senders w) (f (query_id_receivers w)) (pending_routing w)
    (retry_counts w) (known_addresses w) (sent w).
Definition on_pending f (w : t) : t :=
  mk (swarm w) (output_senders w) (query_id_receivers w) (f (pending_routing w))
    (retry_counts w) (known_addresses w) (sent w).
Definition on_retries f (w : t) : t :=
  mk (swarm w) (output_senders w) (query_id_receivers w) (pending_routing w)
    (f (retry_counts w)) (known_addresses w) (sent w).
Definition on_outputs f (w : t) : t :=
  mk (swarm w) (f (output_senders w)) (query_id_receivers w) (pending_routing w)
    (retry_counts w) (known_addresses w) (sent w).

(** [sender.send(result)]. *)
Definition send (ch : nat) (reply : Reply) (w : t) : t :=
  mk (swarm w) (output_senders w) (query_id_receivers w) (pending_routing w)
    (retry_counts w) (known_addresses w) (sent w ++ [(ch, reply)]).

(** The three expansions of [handle_send!]: a sender of another kind is dropped. *)
Definition handle_send_put (msg : option QueryResultSender) (result : string + unit) (w : t) : t :=
  match msg with Some (PutRecord ch) => send ch (ReplyUnit result) w | _ => w end.
Definition handle_send_get (msg : option QueryResultSender) (result : string + list KadRecord)
    (w : t) : t :=
  match msg with Some (GetRecord ch) => send ch (ReplyRecords result) w | _ => w end.
Definition handle_send_bootstrap (msg : option QueryResultSender) (result : string + unit)
    (w : t) : t :=
  match msg with Some (Bootstrap ch) => send ch (ReplyUnit result) w | _ => w end.

(** ** Construction *)
Definition add_bootstrap_node (acc : K * gmap PeerId (list string)) (addr : string)
    : K * gmap PeerId (list string) :=
  let '(swarm, known_addresses) := acc in
  match parse_multiaddr addr with
  | Some multiaddr =>
      match multiaddr_peer multiaddr with
      | Some peer_id =>
          (kad_add_address peer_id multiaddr swarm,
           <[peer_id := default [] (known_addresses !! peer_id) ++ [addr]]> known_addresses)
      | None => (swarm, known_addresses)
      end
  | None => (swarm, known_addresses)
  end.

(** [format!("/ip4/{}/tcp/{}", ..)]. *)
Definition listen_multiaddr (config : DasNetworkConfig.t) : string :=
  ("/ip4/" +:+ DasNetworkConfig.listen_addr config +:+ "/tcp/" +:+
     pretty (DasNetworkConfig.listen_port config))%string.

(** A listen address that does not parse panics; a failure to listen is logged. *)
Definition new (swarm : K) (config : DasNetworkConfig.t) : res string t :=
  let '(swarm, known_addresses) :=
    fold_left add_bootstrap_node (DasNetworkConfig.bootstrap_nodes config) (swarm, ∅) in
  addr ← unwrap (parse_multiaddr (listen_multiaddr config));
  let '(_, swarm) := swarm_listen_on addr swarm in
  Ok (mk swarm [] ∅ ∅ ∅ known_addresses []).

(** The start of [run], before the loop. *)
Definition run_prologue (w : t) : t :=
  if bool_decide (known_addresses w = ∅) then w
  else
    let w := fold_left (fun w '(peer_id, addrs) =>
        fold_left (fun w addr =>
          match parse_multiaddr addr with
          | Some multiaddr => on_swarm (kad_add_address peer_id multiaddr) w
          | None => w
          end) addrs w)
      (map_to_list (known_addresses w)) w in
    let '(_, k) := kad_bootstrap (swarm w) in set_swarm k w.

(** ** Events *)
Definition handle_retry_connection (peer_id : PeerId) (w : t) : t :=
  let retry_count := default 0 (retry_counts w !! peer_id) in
  if retry_count <? MAX_RETRIES
  then on_retries (insert peer_id (retry_count + 1)) w
  else on_retries (delete peer_id)
         (on_swarm (kad_remove_peer peer_id) (on_retries (insert peer_id retry_count) w)).

Definition handle_kademlia_event (event : KademliaEvent) (w : t) : t :=
  match event with
  | RoutingUpdated peer =>
      let msg := pending_routing w !! peer in
      handle_send_bootstrap msg (inr tt) (on_pending (delete peer) w)
  | RoutablePeer _ | UnroutablePeer _ | PendingRoutablePeer _ | InboundRequest => w
  | OutboundQueryProgressed id result =>
      let msg := query_id_receivers w !! id in
      let w' := on_queries (delete id) w in
      match result with
      | QueryGetRecord result =>
          match result with
          | inr (FoundRecord rec) => handle_send_get msg (inr [rec]) w'
          | inr FinishedWithNoAdditionalRecord => handle_send_get msg (inl "No record found."%string) w'
          | inl err => handle_send_get msg (inl err) w'
          end
      | QueryPutRecord result =>
          match result with
          | inr _ => handle_send_put msg (inr tt) w'
          | inl err => handle_send_put msg (inl err) w'
          end
      | QueryBootstrap result =>
          match result with
          | inr (_, num_remaining) =>
              if num_remaining =? 0 then handle_send_bootstrap msg (inr tt) w' else w
          | inl err => handle_send_bootstrap msg (inl err) w'
          end
      | QueryOther => w
      end
  end.

Definition handle_identify_event (event : IdentifyEvent) (w : t) : t :=
  match event with
  | Received peer_id listen_addrs =>
      fold_left (fun w addr => on_swarm (kad_add_address peer_id addr) w) listen_addrs w
  | IdentifyOther => w
  end.

Definition handle_mdns_event (event : MdnsEvent) (w : t) : t :=
  match event with
  | Discovered peers =>
      fold_left (fun w '(peer_id, address) => on_swarm (kad_add_address peer_id address) w) peers w
  | Expired peers =>
      fold_left (fun w '(peer_id, address) =>
        if mdns_has_node peer_id (swarm w) then w
        else on_swarm (kad_remove_address peer_id address) w) peers w
  end.

Definition handle_swarm_event (event : SwarmEvent) (w : t) : t :=
  match event with
  | BehaviourKademlia event => handle_kademlia_event event w
  | BehaviourIdentify event => handle_identify_event event w
  | BehaviourMdns event => handle_mdns_event event w
  | ConnectionClosed peer_id (Some (ConnectionIO | ConnectionHandler)) =>
      handle_retry_connection peer_id w
  | ConnectionClosed _ _ | NewListenAddr _ | Dialing _ | SwarmOther => w
  end.

(** ** Commands.  A sender that is not stored or used is dropped: its receiver fails. *)
Definition handle_command (command : Command) (w : t) : t :=
  match command with
  | StartListening addr sender =>
      (* called once for the metrics and once for the reply *)
      let '(_, k) := swarm_listen_on addr (swarm w) in
      let '(result, k) := swarm_listen_on addr k in
      send sender (ReplyUnit result) (set_swarm k w)
  | AddAddress peer_id peer_addr sender =>
      on_pending (insert peer_id (Bootstrap sender)) (on_swarm (kad_add_address peer_id peer_addr) w)
  | Stream sender => on_outputs (fun l => l ++ [sender]) w
  | BootstrapCommand sender =>
      let '(query, k) := kad_bootstrap (swarm w) in
      let w := set_swarm k w in
      match query with
      | Some query_id => on_queries (insert query_id (Bootstrap sender)) w
      | None => w
      end
  | GetKadRecord key sender =>
      let '(query_id, k) := kad_get_record key (swarm w) in
      on_queries (insert query_id (GetRecord sender)) (set_swarm k w)
  | PutKadRecord record quorum sender =>
      let '(query, k) := kad_put_record record quorum (swarm w) in
      let w := set_swarm k w in
      match query with
      | Some query_id => on_queries (insert query_id (PutRecord sender)) w
      | None => w
      end
  | RemoveRecords keys sender =>
      let w := fold_left (fun w key => on_swarm (kad_store_remove key) w) keys w in
      send sender (ReplyUnit (inr tt)) w
  end.
End worker.
End Worker.

(** ** [service.rs]

    One request through the worker, from the command to the reply: [get_kad_record],
    [put_kad_record] and [remove_records] on the network as a whole.  An answer that does
    not arrive is an error. *)
Class Requests (Net : Type) := {
  get_kad_record : bytes -> Net -> res string (list KadRecord);
  put_kad_record : KadRecord -> Quorum -> Net -> res string unit * Net;
  request_remove_records : list bytes -> Net -> res string unit * Net
}.

Module Service.
Section service.
Context `{Requests Net}.

(** [Service]; the command channel is the network itself. *)
Record t := mk { parallel_limit : nat }.

Definition get_value (key : bytes) (net : Net) : res string (list bytes) :=
  records ← get_kad_record key net;
  Ok (fmap (M := list) rec_value records).

Definition put_value (key value : bytes) (net : Net) : res string unit * Net :=
  put_kad_record (mkRecord key value) QuorumAll net.

(** [chunks] panics on a zero size.  A failed request leaves [None]. *)
Definition get_values (self : t) (keys : list bytes) (net : Net)
    : res string (list (option (list bytes))) :=
  match keys, parallel_limit self with
  | _, O => Panic
  | _, limit =>
      results ← mapM (M := res string) (fun chunk : list bytes =>
        mapM (M := res string) (fun key => res_ok (get_value key net)) chunk) (chunks limit keys);
      Ok (concat results)
  end.

(** The requests run concurrently and their failures are ignored; the model performs them
    in the order of the list. *)
Definition put_values (keys_and_values : list (bytes * bytes)) (net : Net) : res string unit * Net :=
  (Ok tt, fold_left (fun net '(key, value) => (put_value key value net).2) keys_and_values net).

Definition remove_records (keys : list bytes) (net : Net) : res string unit * Net :=
  request_remove_records keys net.
End service.
End Service.

(** ** The worker answers every request once *)

(** Query identifiers are never issued twice, and nothing else issues any. *)
Class SwarmLaws (K : Type) `{Swarm K} := {
  issued : K -> gset QueryId;
  issued_listen : forall a k, issued k ⊆ issued (swarm_listen_on a k).2;
  issued_add : forall p a k, issued k ⊆ issued (kad_add_address p a k);
  issued_remove : forall p a k, issued k ⊆ issued (kad_remove_address p a k);
  issued_remove_peer : forall p k, issued k ⊆ issued (kad_remove_peer p k);
  issued_store : forall b k, issued k ⊆ issued (kad_store_remove b k);
  issued_bootstrap : forall k, issued k ⊆ issued (kad_bootstrap k).2 /\
    forall q, (kad_bootstrap k).1 = Some q -> (q ∉ issued k) /\ q ∈ issued (kad_bootstrap k).2;
  issued_get : forall b k, issued k ⊆ issued (kad_get_record b k).2 /\
    ((kad_get_record b k).1 ∉ issued k) /\ (kad_get_record b k).1 ∈ issued (kad_get_record b k).2;
  issued_put : forall r u k, issued k ⊆ issued (kad_put_record r u k).2 /\
    forall q, (kad_put_record r u k).1 = Some q ->
      (q ∉ issued k) /\ q ∈ issued (kad_put_record r u k).2
}.

Section answers.
Context `{SwarmLaws K}.
Import Worker.
Implicit Types w : Worker.t.

Definition channel (s : QueryResultSender) : nat :=
  match s with PutRecord ch | GetRecord ch | Bootstrap ch => ch end.

(** Where a reply channel is: waiting for a query, waiting for a peer, or used. *)
Inductive place := AtQuery (q : QueryId) | AtPeer (p : PeerId) | AtSent (i : nat).
#[export] Instance place_eq_dec : EqDecision place.
Proof. solve_decision. Defined.
Definition chan_at w (l : place) : option nat :=
  match l with
  | AtQuery q => channel <$> query_id_receivers w !! q
  | AtPeer p => channel <$> pending_routing w !! p
  | AtSent i => fst <$> sent w !! i
  end.

Definition fresh w (ch : nat) : Prop := forall l, chan_at w l <> Some ch.

Record worker_inv w : Prop := {
  one_place : forall l l' ch, chan_at w l = Some ch -> chan_at w l' = Some ch -> l = l';
  queries_issued : forall q s, query_id_receivers w !! q = Some s -> q ∈ issued (swarm w);
  retries_bounded : forall p n, retry_counts w !! p = Some n -> 0 <= n <= MAX_RETRIES
}.

Definition sender_of (c : Command) : nat :=
  match c with
  | StartListening _ s | AddAddress _ _ s | Stream s | BootstrapCommand s
  | GetKadRecord _ s | PutKadRecord _ _ s | RemoveRecords _ s => s
  end.

(** What the loop handles: a command with a channel of its own, or an event, with the
    state the swarm has reached. *)
Inductive action := ACommand (c : Command) | AEvent (e : SwarmEvent) (k : K).
Definition allowed w (a : action) : Prop :=
  match a with
  | ACommand c => fresh w (sender_of c)
  | AEvent _ k => issued (swarm w) ⊆ issued k
  end.
Definition act (a : action) w : Worker.t :=
  match a with
  | ACommand c => handle_command c w
  | AEvent e k => handle_swarm_event e (set_swarm k w)
  end.
Definition wstep (P : action -> Prop) w w' : Prop := exists a, P a /\ allowed w a /\ w' = act a w.

(** An event that reports on query [q]. *)
Definition reports (q : QueryId) (a : action) : Prop :=
  exists r k, a = AEvent (BehaviourKademlia (OutboundQueryProgressed q r)) k.

(** [w'] differs from [w] in the swarm alone, which has issued no less. *)
Definition swarm_only w w' : Prop :=
  exists k, w' = set_swarm k w /\ issued (swarm w) ⊆ issued k.

Lemma swarm_only_refl w : swarm_only w w.
Proof. exists (swarm w). split; [by destruct w|done]. Qed.

Lemma swarm_only_on w f : (forall k, issued k ⊆ issued (f k)) -> swarm_only w (on_swarm f w).
Proof. intros Hf. exists (f (swarm w)). split; [done|apply Hf]. Qed.

Lemma swarm_only_trans w1 w2 w3 : swarm_only w1 w2 -> swarm_only w2 w3 -> swarm_only w1 w3.
Proof. intros (k & -> & Hk) (k' & -> & Hk'). exists k'. split; [done|]. simpl in *. set_solver. Qed.

Lemma swarm_only_fold {A} (f : Worker.t -> A -> Worker.t) l :
  (forall w a, swarm_only w (f w a)) -> forall w, swarm_only w (fold_left f l w).
Proof.
  intros Hf. induction l as [|a l IH]; intros w; [apply swarm_only_refl|].
  eapply swarm_only_trans; [apply Hf|apply IH].
Qed.

Lemma swarm_only_inv w w' : swarm_only w w' -> worker_inv w -> worker_inv w'.
Proof.
  intros (k & -> & Hk) Hi. split; simpl.
  - intros l l' ch H1 H2. apply (one_place w Hi l l' ch); [destruct l|destruct l']; done.
  - intros q s Hq. apply Hk. by eapply queries_issued.
  - by apply retries_bounded.
Qed.

(** Changing the place [l0] alone, to a channel that is nowhere else. *)
Lemma one_place_move w w' l0 :
  (forall l l' ch, chan_at w l = Some ch -> chan_at w l' = Some ch -> l = l') ->
  (forall l ch, l <> l0 -> chan_at w' l = Some ch -> chan_at w l = Some ch) ->
  (forall ch l, chan_at w' l0 = Some ch -> chan_at w' l = Some ch -> l = l0) ->
  forall l l' ch, chan_at w' l = Some ch -> chan_at w' l' = Some ch -> l = l'.
Proof.
  intros Hi Hold Hnew l l' ch H1 H2.
  destruct (decide (l = l0)) as [->|Hl]; [symmetry; by eapply Hnew|].
  destruct (decide (l' = l0)) as [->|Hl']; [by eapply Hnew|]. by eapply Hi; apply Hold.
Qed.

Lemma inv_delete_query w q : worker_inv w -> worker_inv (on_queries (delete q) w).
Proof.
  intros Hi. split; simpl.
  - apply (one_place_move w _ (AtQuery q)); [by apply one_place| |].
    + intros [q'|p|i] ch Hl; simpl; [|done..]. rewrite lookup_delete_ne; [done|congruence].
    + intros ch l. simpl. by rewrite lookup_delete_eq.
  - intros q' s [_ Hq]%lookup_delete_Some. by eapply queries_issued.
  - by apply retries_bounded.
Qed.

Lemma inv_delete_pending w p : worker_inv w -> worker_inv (on_pending (delete p) w).
Proof.
  intros Hi. split; simpl.
  - apply (one_place_move w _ (AtPeer p)); [by apply one_place| |].
    + intros [q|p'|i] ch Hl; simpl; [done| |done]. rewrite lookup_delete_ne; [done|congruence].
    + intros ch l. simpl. by rewrite lookup_delete_eq.
  - by apply queries_issued.
  - by apply retries_bounded.
Qed.

Lemma chan_at_send w ch r l : chan_at (send ch r w) l =
  if decide (l = AtSent (length (sent w))) then Some ch else chan_at w l.
Proof.
  case_decide as Hd; [subst l; simpl; by rewrite list_lookup_middle|].
  destruct l as [q|p|i]; [done..|]. simpl.
  destruct (decide (i < length (sent w))%nat); [by rewrite lookup_app_l|].
  assert (i <> length (sent w)) by congruence.
  rewrite !lookup_ge_None_2; [done|lia|]. rewrite length_app. simpl. lia.
Qed.

Lemma inv_send w ch r : worker_inv w -> fresh w ch -> worker_inv (send ch r w).
Proof.
  intros Hi Hf. split; [|exact (queries_issued w Hi)|exact (retries_bounded w Hi)].
  apply (one_place_move w _ (AtSent (length (sent w)))); [by apply one_place| |].
  - intros l c Hl. by rewrite chan_at_send, decide_False.
  - intros c l. rewrite !chan_at_send, decide_True by done. case_decide; [done|].
    intros [= <-] Hl. by destruct (Hf l).
Qed.

Lemma fresh_deleted_query w q s : worker_inv w -> query_id_receivers w !! q = Some s ->
  fresh (on_queries (delete q) w) (channel s).
Proof.
  intros Hi Hq l Hl. assert (Hw : chan_at w (AtQuery q) = Some (channel s)) by (simpl; by rewrite Hq).
  assert (chan_at w l = Some (channel s)) as Hl2.
  { destruct l as [q'|p|i]; [|done..]. simpl in *.
    destruct (decide (q = q')) as [->|Hne]; [by rewrite lookup_delete_eq in Hl|].
    by rewrite lookup_delete_ne in Hl. }
  rewrite <- (one_place w Hi _ _ _ Hw Hl2) in Hl. simpl in Hl. by rewrite lookup_delete_eq in Hl.
Qed.

Lemma fresh_deleted_pending w p s : worker_inv w -> pending_routing w !! p = Some s ->
  fresh (on_pending (delete p) w) (channel s).
Proof.
  intros Hi Hp l Hl. assert (Hw : chan_at w (AtPeer p) = Some (channel s)) by (simpl; by rewrite Hp).
  assert (chan_at w l = Some (channel s)) as Hl2.
  { destruct l as [q|p'|i]; [done| |done]. simpl in *.
    destruct (decide (p = p')) as [->|Hne]; [by rewrite lookup_delete_eq in Hl|].
    by rewrite lookup_delete_ne in Hl. }
  rewrite <- (one_place w Hi _ _ _ Hw Hl2) in Hl. simpl in Hl. by rewrite lookup_delete_eq in Hl.
Qed.

Lemma inv_insert_query w q s : worker_inv w -> fresh w (channel s) -> q ∈ issued (swarm w) ->
  worker_inv (on_queries (insert q s) w).
Proof.
  intros Hi Hf Hq. split; simpl.
  - apply (one_place_move w _ (AtQuery q)); [by apply one_place| |].
    + intros [q'|p|i] ch Hl; simpl; [|done..]. rewrite lookup_insert_ne; [done|congruence].
    + intros ch l. simpl. rewrite lookup_insert_eq. intros [= <-] Hl.
      destruct (decide (l = AtQuery q)) as [|Hne]; [done|]. destruct (Hf l).
      destruct l as [q'|p|i]; [|done..]. simpl in *. rewrite lookup_insert_ne in Hl; [done|congruence].
  - intros q' s' [[<- _]|[_ Hq']]%lookup_insert_Some; [done|]. by eapply queries_issued.
  - by apply retries_bounded.
Qed.

Lemma inv_insert_pending w p s : worker_inv w -> fresh w (channel s) ->
  worker_inv (on_pending (insert p s) w).
Proof.
  intros Hi Hf. split; simpl.
  - apply (one_place_move w _ (AtPeer p)); [by apply one_place| |].
    + intros [q|p'|i] ch Hl; simpl; [done| |done]. rewrite lookup_insert_ne; [done|congruence].
    + intros ch l. simpl. rewrite lookup_insert_eq. intros [= <-] Hl.
      destruct (decide (l = AtPeer p)) as [|Hne]; [done|]. destruct (Hf l).
      destruct l as [q|p'|i]; [done| |done]. simpl in *. rewrite lookup_insert_ne in Hl; [done|congruence].
  - by apply queries_issued.
  - by apply retries_bounded.
Qed.

Lemma inv_retries w f : worker_inv w ->
  (forall p n, f (retry_counts w) !! p = Some n -> 0 <= n <= MAX_RETRIES) ->
  worker_inv (on_retries f w).
Proof.
  intros Hi Hf. split; simpl; [|by apply queries_issued|done].
  intros l l' ch. exact (one_place w Hi l l' ch).
Qed.

Lemma inv_outputs w f : worker_inv w -> worker_inv (on_outputs f w).
Proof. intros Hi. split; [exact (one_place w Hi)|exact (queries_issued w Hi)|exact (retries_bounded w Hi)]. Qed.

Lemma swarm_only_fresh w w' ch : swarm_only w w' -> fresh w ch -> fresh w' ch.
Proof. intros (k & -> & _) Hf l. specialize (Hf l). by destruct l. Qed.

Lemma swarm_only_set w k : issued (swarm w) ⊆ issued k -> swarm_only w (set_swarm k w).
Proof. intros. by exists k. Qed.

Lemma inv_registered w k q s : worker_inv w -> fresh w (channel s) ->
  issued (swarm w) ⊆ issued k -> q ∈ issued k ->
  worker_inv (on_queries (insert q s) (set_swarm k w)).
Proof.
  intros Hi Hf Hk Hq. pose proof (swarm_only_set w k Hk) as Hs.
  apply inv_insert_query; [by eapply swarm_only_inv|by eapply swarm_only_fresh|done].
Qed.

Lemma handle_command_inv c w : worker_inv w -> fresh w (sender_of c) ->
  worker_inv (handle_command c w).
Proof.
  intros Hi Hf. destruct c as [a ch|p a ch|ch|ch|key ch|r u ch|keys ch]; simpl in *.
  - pose proof (issued_listen a (swarm w)) as H1. destruct (swarm_listen_on a _) as [r1 k1].
    pose proof (issued_listen a k1) as H2. destruct (swarm_listen_on a k1) as [r2 k2]. simpl in *.
    assert (Hs : swarm_only w (set_swarm k2 w)) by (apply swarm_only_set; set_solver).
    apply inv_send; [by eapply swarm_only_inv|by eapply swarm_only_fresh].
  - pose proof (swarm_only_on w (kad_add_address p a) (issued_add p a)) as Hs.
    apply inv_insert_pending; [by eapply swarm_only_inv|by eapply swarm_only_fresh].
  - by apply inv_outputs.
  - destruct (issued_bootstrap (swarm w)) as [H1 H2].
    destruct (kad_bootstrap (swarm w)) as [[q|] k]; simpl in *.
    + destruct (H2 q eq_refl). by apply inv_registered.
    + eapply swarm_only_inv; [by apply swarm_only_set|done].
  - destruct (issued_get key (swarm w)) as (H1 & H2 & H3).
    destruct (kad_get_record key (swarm w)) as [q k]; simpl in *. by apply inv_registered.
  - destruct (issued_put r u (swarm w)) as [H1 H2].
    destruct (kad_put_record r u (swarm w)) as [[q|] k]; simpl in *.
    + destruct (H2 q eq_refl). by apply inv_registered.
    + eapply swarm_only_inv; [by apply swarm_only_set|done].
  - assert (Hs : swarm_only w (fold_left (fun w key => on_swarm (kad_store_remove key) w) keys w)).
    { apply swarm_only_fold. intros w' key. apply swarm_only_on, issued_store. }
    apply inv_send; [by eapply swarm_only_inv|by eapply swarm_only_fresh].
Qed.

(** The three ways a stored sender is used up. *)
Lemma answer_query_inv w q : worker_inv w ->
  let msg := query_id_receivers w !! q in
  let w' := on_queries (delete q) w in
  (forall r, worker_inv (handle_send_get msg r w')) /\
  (forall r, worker_inv (handle_send_put msg r w')) /\
  (forall r, worker_inv (handle_send_bootstrap msg r w')).
Proof.
  intros Hi msg w'. assert (Hd : worker_inv w') by by apply inv_delete_query.
  assert (Hf : forall s, msg = Some s -> fresh w' (channel s)) by (intros; by apply fresh_deleted_query).
  destruct msg as [[ch|ch|ch]|]; simpl; split_and!; intros r; try done;
    (apply inv_send; [done|exact (Hf _ eq_refl)]).
Qed.

Lemma handle_kademlia_event_inv e w : worker_inv w -> worker_inv (handle_kademlia_event e w).
Proof.
  intros Hi. destruct e as [p| | | | |q r]; simpl; try done.
  - assert (Hd : worker_inv (on_pending (delete p) w)) by by apply inv_delete_pending.
    destruct (pending_routing w !! p) as [[ch|ch|ch]|] eqn:Hp; simpl; try done.
    apply inv_send; [done|exact (fresh_deleted_pending _ _ _ Hi Hp)].
  - destruct (answer_query_inv w q Hi) as (Hg & Hpu & Hb).
    destruct r as [[|[]]|[]|[|[p n]]|]; simpl; try done. by destruct (n =? 0).
Qed.

Lemma retry_inv p w : worker_inv w -> worker_inv (handle_retry_connection p w).
Proof.
  intros Hi. assert (Hb : 0 <= default 0 (retry_counts w !! p) <= MAX_RETRIES).
  { destruct (retry_counts w !! p) eqn:Hp; simpl; [by eapply retries_bounded|unfold MAX_RETRIES; lia]. }
  unfold handle_retry_connection. case_match eqn:Hlt.
  - apply inv_retries; [done|]. intros p' n [[<- <-]|[_ Hn]]%lookup_insert_Some;
      [lia|by eapply retries_bounded].
  - apply inv_retries.
    + eapply swarm_only_inv; [apply swarm_only_on, issued_remove_peer|].
      apply inv_retries; [done|]. intros p' n [[<- <-]|[_ Hn]]%lookup_insert_Some;
        [done|by eapply retries_bounded].
    + simpl. intros p' n [Hne Hn]%lookup_delete_Some. rewrite lookup_insert_ne in Hn by done.
      by eapply retries_bounded.
Qed.

Lemma handle_swarm_event_inv e w : worker_inv w -> worker_inv (handle_swarm_event e w).
Proof.
  intros Hi. destruct e as [e|[p addrs|]|a|[peers|peers]|p [[| |]|]|p|]; simpl; try done.
  - by apply handle_kademlia_event_inv.
  - eapply swarm_only_inv; [|done]. apply swarm_only_fold. intros. apply swarm_only_on, issued_add.
  - eapply swarm_only_inv; [|done]. apply swarm_only_fold. intros ? []. apply swarm_only_on, issued_add.
  - eapply swarm_only_inv; [|done]. apply swarm_only_fold. intros w' [p a].
    destruct (mdns_has_node p (swarm w')); [apply swarm_only_refl|].
    apply swarm_only_on, issued_remove.
  - by apply retry_inv.
  - by apply retry_inv.
Qed.

Lemma act_inv a w : worker_inv w -> allowed w a -> worker_inv (act a w).
Proof.
  intros Hi Ha. destruct a as [c|e k]; simpl in *; [by apply handle_command_inv|].
  apply handle_swarm_event_inv. eapply swarm_only_inv; [by apply swarm_only_set|done].
Qed.

Lemma wsteps_inv P w w' : rtc (wstep P) w w' -> worker_inv w -> worker_inv w'.
Proof. induction 1 as [|w1 w2 w3 (a & _ & Ha & ->) _ IH]; [done|]. intros Hi. by apply IH, act_inv. Qed.

(** A step that does not report on a query keeps its sender. *)
Lemma act_keeps a w q s : worker_inv w -> allowed w a -> ~ reports q a ->
  query_id_receivers w !! q = Some s -> query_id_receivers (act a w) !! q = Some s.
Proof.
  intros Hi Ha Hr Hq. pose proof (queries_issued w Hi q s Hq) as Hiss.
  assert (Hso : forall w', swarm_only w w' -> query_id_receivers w' !! q = Some s)
    by (by intros w' (k & -> & _)).
  destruct a as [c|e k]; simpl.
  - destruct c as [a ch|p a ch|ch|ch|key ch|r u ch|keys ch]; simpl.
    + destruct (swarm_listen_on a _) as [r1 k1]. by destruct (swarm_listen_on a k1).
    + done.
    + done.
    + destruct (issued_bootstrap (swarm w)) as [H1 H2].
      destruct (kad_bootstrap (swarm w)) as [[q'|] k']; simpl in *; [|done].
      destruct (H2 q' eq_refl). rewrite lookup_insert_ne; [done|congruence].
    + destruct (issued_get key (swarm w)) as (H1 & H2 & H3).
      destruct (kad_get_record key (swarm w)) as [q' k']; simpl in *.
      rewrite lookup_insert_ne; [done|congruence].
    + destruct (issued_put r u (swarm w)) as [H1 H2].
      destruct (kad_put_record r u (swarm w)) as [[q'|] k']; simpl in *; [|done].
      destruct (H2 q' eq_refl). rewrite lookup_insert_ne; [done|congruence].
    + apply Hso, swarm_only_fold. intros w' key. apply swarm_only_on, issued_store.
  - assert (Hso' : forall w', swarm_only (set_swarm k w) w' -> query_id_receivers w' !! q = Some s)
      by (by intros w' (k' & -> & _)).
    destruct e as [e|[p addrs|]|a|[peers|peers]|p [[| |]|]|p|]; simpl; try done.
    + destruct e as [p| | | | |q' r]; simpl; try done.
      * by destruct (pending_routing w !! p) as [[]|].
      * assert (q' <> q) by (intros ->; apply Hr; by eexists _, _).
        assert (delete q' (query_id_receivers w) !! q = Some s) by by rewrite lookup_delete_ne.
        by destruct r as [[|[]]|[]|[|[p n]]|]; simpl; try done; try destruct (n =? 0);
          destruct (query_id_receivers w !! q') as [[]|].
    + apply Hso', swarm_only_fold. intros. apply swarm_only_on, issued_add.
    + apply Hso', swarm_only_fold. intros ? []. apply swarm_only_on, issued_add.
    + apply Hso', swarm_only_fold. intros w' [p a].
      destruct (mdns_has_node p (swarm w')); [apply swarm_only_refl|apply swarm_only_on, issued_remove].
    + unfold handle_retry_connection. by case_match.
    + unfold handle_retry_connection. by case_match.
Qed.

Lemma wsteps_keep q s w w' : rtc (wstep (fun a => ~ reports q a)) w w' -> worker_inv w ->
  query_id_receivers w !! q = Some s -> query_id_receivers w' !! q = Some s.
Proof.
  induction 1 as [|w1 w2 w3 (a & Hr & Ha & ->) _ IH]; [done|]. intros Hi Hq.
  apply IH; [by apply act_inv|by apply act_keeps].
Qed.

Lemma inv_nodup w : worker_inv w -> NoDup (sent w).*1.
Proof.
  intros Hi. apply NoDup_alt. intros i j ch H1 H2. rewrite !list_lookup_fmap in H1, H2.
  assert (AtSent i = AtSent j) as [= ->]; [|done]. by apply (one_place w Hi _ _ ch).
Qed.

Lemma new_inv k config w : new k config = Ok w -> worker_inv (run_prologue w).
Proof.
  intros Hn. assert (Hi : worker_inv w).
  { unfold new in Hn. destruct (fold_left _ _ _) as [k' known].
    apply res_bind_Ok in Hn as (a & _ & Hn). destruct (swarm_listen_on a k') as [? k2].
    injection Hn as <-. split; simpl; [|by intros ??; rewrite lookup_empty..].
    intros [q|p|i] l' ch; simpl; by rewrite ?lookup_empty, ?lookup_nil. }
  unfold run_prologue. case_bool_decide; [done|].
  match goal with |- context [kad_bootstrap (swarm ?w')] => assert (Hs : swarm_only w w') end.
  { apply swarm_only_fold. intros w1 [p addrs]. apply swarm_only_fold. intros w2 a.
    destruct (parse_multiaddr a); [apply swarm_only_on, issued_add|apply swarm_only_refl]. }
  match goal with |- context [kad_bootstrap ?k] => destruct (issued_bootstrap k) as [Hb _];
    destruct (kad_bootstrap k) as [q k'] end.
  eapply swarm_only_inv; [by apply swarm_only_set|]. by eapply swarm_only_inv.
Qed.

(** The reply to a finished [GetRecord] query. *)
Definition get_reply (r : string + GetRecordOk) : Reply :=
  ReplyRecords match r with
               | inr (FoundRecord rec) => inr [rec]
               | inr FinishedWithNoAdditionalRecord => inl "No record found."%string
               | inl err => inl err
               end.

(** C20: The network worker answers a lookup once and with the outcome of its own query:
    after a [GetKadRecord] command handled in any reachable state, whatever commands and
    events follow, the first event that reports on the query it started sends that
    report on the command's reply channel, on which nothing was sent before; and nothing
    is ever sent again on it, or twice on any channel. *)
Theorem request_answered_once k config w0 w key ch w2 r k' w4 :
  new k config = Ok w0 -> rtc (wstep (fun _ => True)) (run_prologue w0) w -> fresh w ch ->
  let q := (kad_get_record key (swarm w)).1 in
  rtc (wstep (fun a => ~ reports q a)) (handle_command (GetKadRecord key ch) w) w2 ->
  issued (swarm w2) ⊆ issued k' ->
  let w3 := act (AEvent (BehaviourKademlia (OutboundQueryProgressed q (QueryGetRecord r))) k') w2 in
  rtc (wstep (fun _ => True)) w3 w4 ->
  (ch ∉ (sent w2).*1) /\ sent w3 = sent w2 ++ [(ch, get_reply r)] /\ NoDup (sent w4).*1.
Proof.
  intros Hn Hw Hf q H2 Hk' w3 H4.
  assert (Hi : worker_inv w) by (eapply wsteps_inv; [exact Hw|by eapply new_inv]).
  assert (Hi1 : worker_inv (handle_command (GetKadRecord key ch) w)) by by apply handle_command_inv.
  assert (Hi2 : worker_inv w2) by by eapply wsteps_inv.
  assert (Hq : query_id_receivers w2 !! q = Some (GetRecord ch)).
  { eapply wsteps_keep; [exact H2|done|]. simpl. unfold q.
    destruct (kad_get_record key (swarm w)). simpl. by rewrite lookup_insert_eq. }
  split_and!.
  - intros [i Hs]%list_elem_of_lookup. rewrite list_lookup_fmap in Hs.
    assert (AtSent i = AtQuery q); [|done]. apply (one_place w2 Hi2 _ _ ch); [done|].
    simpl. by rewrite Hq.
  - unfold w3. cbn [act handle_swarm_event handle_kademlia_event set_swarm on_swarm query_id_receivers].
    rewrite Hq. by destruct r as [|[]].
  - apply inv_nodup. eapply wsteps_inv; [exact H4|]. by apply act_inv.
Qed.
End answers.

(** A swarm that counts its queries, with one lookup answered after another command. *)
Section worker_witness.
Import Worker.
#[local] Instance count_swarm : Swarm nat := {|
  PeerId := nat; Multiaddr := string; QueryId := nat;
  parse_multiaddr s := Some s; multiaddr_peer _ := None;
  swarm_listen_on _ k := (inr tt, k); kad_add_address _ _ k := k; kad_remove_address _ _ k := k;
  kad_remove_peer _ k := k; kad_bootstrap k := (Some k, S k); kad_get_record _ k := (k, S k);
  kad_put_record _ _ k := (Some k, S k); kad_store_remove _ k := k; mdns_has_node _ _ := false
|}.

Lemma elem_of_first (q k : nat) : q ∈ (list_to_set (seq 0 k) : gset nat) <-> (q < k)%nat.
Proof. rewrite elem_of_list_to_set, elem_of_seq. lia. Qed.
Lemma first_subseteq k : (list_to_set (seq 0 k) : gset nat) ⊆ list_to_set (seq 0 (S k)).
Proof. intros q. rewrite !elem_of_first. lia. Qed.

#[local] Instance count_swarm_laws : SwarmLaws nat.
Proof.
  refine {| issued k := (list_to_set (seq 0 k) : gset nat) : gset (@QueryId nat count_swarm) |};
    try (intros; reflexivity).
  - intros k. split; [apply first_subseteq|]. intros q [= <-]. cbn [kad_bootstrap count_swarm snd].
    split; [intros Hk%elem_of_first; lia|apply elem_of_first; lia].
  - intros key k. cbn [kad_get_record count_swarm fst snd].
    split_and!; [apply first_subseteq|intros Hk%elem_of_first; lia|apply elem_of_first; lia].
  - intros r u k. split; [apply first_subseteq|]. intros q [= <-]. cbn [kad_put_record count_swarm snd].
    split; [intros Hk%elem_of_first; lia|apply elem_of_first; lia].
Defined.

#[local] Definition cw0 : Worker.t := mk 0%nat [] ∅ ∅ ∅ ∅ [].
#[local] Definition cw1 : Worker.t := handle_command (GetKadRecord [7] 0) cw0.
#[local] Definition cw2 : Worker.t := handle_command (RemoveRecords [[8]] 1) cw1.
#[local] Definition cr : string + GetRecordOk := inr (FoundRecord (mkRecord [7] [42])).

Lemma request_answered_once_witness :
  sent (act (AEvent (BehaviourKademlia (@OutboundQueryProgressed nat count_swarm 0%nat (QueryGetRecord cr))) 1%nat) cw2)
  = [(1%nat, ReplyUnit (inr tt)); (0%nat, ReplyRecords (inr [mkRecord [7] [42]]))].
Proof.
  apply (request_answered_once 0%nat DasNetworkConfig.default cw0 cw0 [7] 0 cw2 cr 1%nat
    (act (AEvent (BehaviourKademlia (@OutboundQueryProgressed nat count_swarm 0%nat (QueryGetRecord cr))) 1%nat) cw2)).
  - reflexivity.
  - apply rtc_refl.
  - by intros [q|p|i].
  - apply rtc_once. exists (ACommand (RemoveRecords [[8]] 1)). split_and!; [|intros [q|p|i]|reflexivity].
    + by intros (? & ? & ?).
    + simpl. intros (s & Hs & Hc)%fmap_Some. apply lookup_insert_Some in Hs as [[_ <-]|[_ Hs]]; done.
    + done.
    + done.
  - reflexivity.
  - apply rtc_refl.
Defined.
End worker_witness.
