(* ===== verification/NetworkMetrics.v ===== *)
(** * Metrics of the network worker ([crates/das-network/src/worker.rs], [lib.rs])

    [Metrics::register] announces five collectors to a Prometheus registry;
    [DasNetwork::new] keeps them if that works. *)

From S2P Require Import Prelude.

(** [prometheus::Registry]: collectors by name, with the names of their labels. *)
Class PrometheusRegistry (R : Type) := {
  registered : R -> string -> bool;
  register : string -> list string -> R -> option R
}.

(** The registry refuses a second collector of the same name. *)
Class RegistryLaws (R : Type) `{PrometheusRegistry R} : Prop := {
  register_new : forall name labels (r r' : R), register name labels r = Some r' -> registered r' name = true;
  register_keeps : forall name labels (r r' : R) other, register name labels r = Some r' ->
    registered r other = true -> registered r' other = true;
  register_twice : forall name labels (r : R), registered r name = true -> register name labels r = None
}.

Module Metrics.
Section metrics.
Context {R : Type} `{PrometheusRegistry R}.

(** The collectors, by name. *)
Record t := mk {
  publish : string; requests : string; requests_total : string; requests_pending : string;
  dht_event_received : string
}.

(** A collector that was registered before the failure stays registered. *)
Definition register (registry : R) : option t * R :=
  let fields :=
    [ ("das_network_publish_total", []);
      ("das_network_requests_total", []);
      ("das_network_requests_total", ["type"]);
      ("das_network_requests_pending", []);
      ("das_network_dht_event_received_total", ["event"]) ]%string in
  let fix go (fields : list (string * list string)) (r : R) : bool * R :=
    match fields with
    | [] => (true, r)
    | (name, labels) :: fields =>
        match NetworkMetrics.register name labels r with
        | Some r => go fields r
        | None => (false, r)
        end
    end in
  let '(ok, r) := go fields registry in
  (if ok : bool then Some (mk "das_network_publish_total" "das_network_requests_total"
     "das_network_requests_total" "das_network_requests_pending" "das_network_dht_event_received_total")
   else None, r).

(** The metrics of a new worker: a failure is only logged. *)
Definition of_worker (prometheus_registry : option R) : option t :=
  match prometheus_registry with
  | Some registry => (register registry).1
  | None => None
  end.
End metrics.
End Metrics.

(** The network worker never has metrics: two of its five collectors have the same name,
    so the registration fails with every registry - also the fresh one the node passes -
    and the worker runs without them; what was registered before the failure stays
    registered. *)
Theorem metrics_never_registered {R} `{RegistryLaws R} (prometheus_registry : option R) :
  Metrics.of_worker prometheus_registry = None.
Proof.
  destruct prometheus_registry as [r|]; [|done]. simpl. unfold Metrics.register.
  destruct (register "das_network_publish_total" [] r) as [r1|] eqn:E1; [|done].
  destruct (register "das_network_requests_total" [] r1) as [r2|] eqn:E2; [|done].
  by rewrite (register_twice "das_network_requests_total" _ r2) by (by eapply register_new).
Qed.

(** A registry as the list of its names. *)
Section metrics_witness.
#[local] Instance name_list : PrometheusRegistry (list string) := {|
  registered r name := bool_decide (name ∈ r);
  register name _ r := if bool_decide (name ∈ r) then None else Some (name :: r)
|}.
#[local] Instance name_list_laws : RegistryLaws (list string).
Proof.
  split; simpl.
  - intros name _ r r'. case_bool_decide; [done|]. intros [= <-]. apply bool_decide_true. by left.
  - intros name _ r r' other. case_bool_decide; [done|]. intros [= <-]. rewrite !bool_decide_eq_true. by right.
  - intros name _ r ->. done.
Qed.
#[local] Definition fresh_registry : list string := [].

Lemma metrics_never_registered_witness :
  Metrics.of_worker (Some fresh_registry) = None /\ length (Metrics.register fresh_registry).2 = 2%nat.
Proof. split; [apply metrics_never_registered|reflexivity]. Defined.
End metrics_witness.
