(* ===== verification/NetworkStart.v ===== *)
(** * Starting the network ([crates/das-network/src/lib.rs], [service.rs])

    [create] and [default] build the service and the worker from a key pair and a
    configuration; libp2p's constructors are parameters.  The address requests of the service
    wait for their reply on a channel of their own, whose sender the worker holds. *)

From S2P Require Import Prelude DasNetwork NetworkMetrics.

(** ** Construction *)
Class Libp2p (K : Type) := {
  Keypair : Type;
  Peer : Type;
  peer_of : Keypair -> Peer;
  generate_ed25519 : Keypair;
  Noise : Type;
  noise_xx : Keypair -> option Noise;
  Transport : Type;
  dns_tcp_system : bool -> bool -> res string Transport;  (* nodelay, port_reuse *)
  upgrade : Transport -> Noise -> Z -> Transport;         (* the timeout in seconds *)
  Mdns : Type;
  mdns_new : res string Mdns;
  swarm_build : Transport -> Peer -> string -> Mdns -> Z -> K
}.

Definition SWARM_MAX_NEGOTIATING_INBOUND_STREAMS : Z := 5000.
Definition DAS_NETWORK_VERSION : string := "0.0.1".

Section create.
Context {K : Type} `{Swarm K} `{!Libp2p K}.

Definition build_transport (key_pair : Keypair) (port_reuse : bool) : res string Transport :=
  noise ← unwrap (noise_xx key_pair);
  dns_tcp ← dns_tcp_system true port_reuse;
  Ok (upgrade dns_tcp noise 20).

(** [Behavior::new]: Kademlia with the default configuration and an empty store, identify
    with the protocol version, ping and mDNS. *)
Record Behavior := mkBehavior { identify : string; mdns : Mdns }.
Definition behavior_new (protocol_version : string) : res string Behavior :=
  m ← mdns_new; Ok (mkBehavior protocol_version m).

Definition create (keypair : Keypair) (protocol_version : string) (config : DasNetworkConfig.t)
    : res string (Service.t * Worker.t) :=
  let local_peer_id := peer_of keypair in
  let protocol_version := ("/melodot-das/" +:+ protocol_version)%string in
  transport ← build_transport keypair true;
  behaviour ← behavior_new protocol_version;
  let swarm := swarm_build transport local_peer_id (identify behaviour) (mdns behaviour)
                 SWARM_MAX_NEGOTIATING_INBOUND_STREAMS in
  worker ← Worker.new swarm config;
  Ok (Service.mk (DasNetworkConfig.parallel_limit config), worker).

Definition default (config : option DasNetworkConfig.t) (keypair : option Keypair)
    : res string (Service.t * Worker.t) :=
  let keypair := match keypair with Some keypair => keypair | None => generate_ed25519 end in
  let config := match config with Some config => config | None => DasNetworkConfig.default end in
  create keypair DAS_NETWORK_VERSION config.

(** A network that is created listens on the address of its configuration and batches
    requests by its limit; nothing else of the set-up can fail but the listed
    constructors. *)
Lemma create_spec keypair version config service worker :
  create keypair version config = Ok (service, worker) <->
  exists noise dns_tcp m,
    noise_xx keypair = Some noise /\ dns_tcp_system true true = Ok dns_tcp /\ mdns_new = Ok m /\
    service = Service.mk (DasNetworkConfig.parallel_limit config) /\
    Worker.new (swarm_build (upgrade dns_tcp noise 20) (peer_of keypair)
      ("/melodot-das/" +:+ version)%string m SWARM_MAX_NEGOTIATING_INBOUND_STREAMS) config = Ok worker.
Proof.
  unfold create, build_transport, behavior_new. split.
  - intros (t & (noise & Hn & (dns & Hd & [= <-])%res_bind_Ok)%res_bind_Ok & Hr)%res_bind_Ok.
    apply res_bind_Ok in Hr as (b & (m & Hm & [= <-])%res_bind_Ok & (w & Hw & [= <- <-])%res_bind_Ok).
    exists noise, dns, m. unfold unwrap in Hn. split_and!; try done.
    by destruct (noise_xx keypair); simplify_eq/=.
  - intros (noise & dns & m & Hn & Hd & Hm & -> & Hw). rewrite Hn. simpl. rewrite Hd. simpl.
    rewrite Hm. simpl. by rewrite Hw.
Qed.
End create.

(** ** [protocol/src/lib.rs]: [DasDht for DasDhtService]

    [Service] has no method [put_value_to_dht] of its own, so the call in the body of the
    trait's method is to the trait's method: [depth] counts the nested calls, and [None] is a
    call that has not returned yet. *)
Fixpoint put_value_to_dht (depth : nat) (self : Service.t) (key value : bytes) : option (option unit) :=
  match depth with
  | O => None
  | S depth => put_value_to_dht depth self key value
  end.

Lemma put_value_to_dht_diverges self key value : forall depth, put_value_to_dht depth self key value = None.
Proof. by induction depth. Qed.

(** ** Requests on the worker

    The command channel as the list of commands the worker has not taken yet: every request
    sends on a clone of the sender, which has a slot of its own. *)
Module Requests.
Section requests.
Context {K : Type} `{Swarm K}.
Import Worker.

Record t := mk { commands : list Command; worker : Worker.t }.

(** [self.to_worker.clone().send(..)] *)
Definition send_command (command : Command) (s : t) : t := mk (commands s ++ [command]) (worker s).

(** [sender] is the channel made by [oneshot::channel()]. *)
Definition start_listening (addr : Multiaddr) (sender : nat) (s : t) : t :=
  send_command (StartListening addr sender) s.
Definition add_address (peer_id : PeerId) (peer_addr : Multiaddr) (sender : nat) (s : t) : t :=
  send_command (AddAddress peer_id peer_addr sender) s.

(** One turn of the loop of [run]: an event of the swarm, or a command if there is one. *)
Inductive Turn := SwarmTurn (event : SwarmEvent) (k : K) | CommandTurn.
Definition turn (choice : Turn) (s : t) : t :=
  match choice with
  | SwarmTurn event k => mk (commands s) (handle_swarm_event event (set_swarm k (worker s)))
  | CommandTurn =>
      match commands s with
      | command :: commands => mk commands (handle_command command (worker s))
      | [] => s
      end
  end.

(** The sender of a channel still exists. *)
Definition held (ch : nat) (s : t) : bool :=
  existsb (fun c => (sender_of c =? ch)%nat) (commands s)
  || existsb (fun '(_, q) => (channel q =? ch)%nat) (map_to_list (query_id_receivers (worker s)))
  || existsb (fun '(_, q) => (channel q =? ch)%nat) (map_to_list (pending_routing (worker s))).

(** [receiver.await.context(..)?]: [None] while it waits. *)
Definition await (context : string) (ch : nat) (s : t) : option (res string unit) :=
  match list_find (fun x => x.1 = ch) (sent (worker s)) with
  | Some (_, (_, ReplyUnit (inr _))) => Some (Ok tt)
  | Some (_, (_, ReplyUnit (inl e))) => Some (Err e)
  | Some (_, (_, ReplyRecords _)) => Some (Err context)
  | None => if held ch s then None else Some (Err context)
  end.
Definition start_listening_reply : nat -> t -> option (res string unit) :=
  await "Failed receiving start listening response".
Definition add_address_reply : nat -> t -> option (res string unit) :=
  await "Failed receiving add address response".
End requests.
Arguments t : clear implicits.
Arguments t K {_}.
End Requests.

Section address.
Context `{SwarmLaws K}.
Import Worker.
Implicit Types w : Worker.t.

(** An action that concerns the routing of peer [p]. *)
Definition routes (p : PeerId) (a : action) : Prop :=
  (exists k, a = AEvent (BehaviourKademlia (RoutingUpdated p)) k) \/
  (exists addr ch, a = ACommand (AddAddress p addr ch)).

Lemma swarm_only_pending w w' : swarm_only w w' -> pending_routing w' = pending_routing w.
Proof. by intros (k & -> & _). Qed.

Lemma act_keeps_pending a w p s : allowed w a -> ~ routes p a ->
  pending_routing w !! p = Some s -> pending_routing (act a w) !! p = Some s.
Proof.
  intros Ha Hr Hp. destruct a as [c|e k]; simpl.
  - destruct c as [a ch|p' a ch|ch|ch|key ch|r u ch|keys ch]; simpl; repeat case_match; simpl; try done.
    + rewrite lookup_insert_ne; [done|]. intros ->. apply Hr. right. by eexists _, _.
    + rewrite (swarm_only_pending w); [done|]. apply swarm_only_fold. intros w' key.
      apply swarm_only_on, issued_store.
  - assert (Hso : forall w', swarm_only (set_swarm k w) w' -> pending_routing w' !! p = Some s)
      by (intros w' ->%swarm_only_pending; done).
    destruct e as [e|[p' addrs|]|a|[peers|peers]|p' [[| |]|]|p'|]; simpl; try done.
    + destruct e as [p'| | | | |q' r]; simpl; try done.
      * assert (p' <> p) by (intros ->; apply Hr; left; by eexists).
        assert (delete p' (pending_routing w) !! p = Some s) by by rewrite lookup_delete_ne.
        by destruct (pending_routing w !! p') as [[]|].
      * by destruct r as [[|[]]|[]|[|[p' n]]|]; simpl; try done; try destruct (n =? 0);
          destruct (query_id_receivers w !! q') as [[]|].
    + apply Hso, swarm_only_fold. intros. apply swarm_only_on, issued_add.
    + apply Hso, swarm_only_fold. intros ? []. apply swarm_only_on, issued_add.
    + apply Hso, swarm_only_fold. intros w' [p' a].
      destruct (mdns_has_node p' (swarm w')); [apply swarm_only_refl|apply swarm_only_on, issued_remove].
    + unfold handle_retry_connection. by case_match.
    + unfold handle_retry_connection. by case_match.
Qed.

Lemma wsteps_keep_pending p s w w' : rtc (wstep (fun a => ~ routes p a)) w w' ->
  pending_routing w !! p = Some s -> pending_routing w' !! p = Some s.
Proof.
  induction 1 as [|w1 w2 w3 (a & Hr & Ha & ->) _ IH]; [done|]. intros Hp.
  apply IH. by apply act_keeps_pending.
Qed.

Lemma existsb_values `{Countable A} {B} (f : B -> bool) (m : gmap A B) :
  existsb (fun '(_, b) => f b) (map_to_list m) = true <-> exists k b, m !! k = Some b /\ f b = true.
Proof.
  rewrite existsb_exists. split.
  - intros ([k b] & Hin%list_elem_of_In & Hf). exists k, b. split; [|done]. by apply elem_of_map_to_list.
  - intros (k & b & Hk & Hf). exists (k, b). split; [|done]. by apply list_elem_of_In, elem_of_map_to_list.
Qed.

(** A channel with an empty queue: where it is decides what its receiver sees. *)
Lemma await_sent context ch w i r : worker_inv w -> sent w !! i = Some (ch, ReplyUnit r) ->
  Requests.await context ch (Requests.mk [] w)
  = Some match r with inr _ => Ok tt | inl e => Err e end.
Proof.
  intros Hi Hs. unfold Requests.await. simpl.
  destruct (list_find _ _) as [[j [ch' r']]|] eqn:Hf.
  - apply list_find_Some in Hf as (Hj & Hch & _). simpl in Hch. subst ch'.
    assert (AtSent j = AtSent i) as [= ->]; [|by rewrite Hs in Hj; injection Hj as <-; destruct r].
    apply (one_place w Hi _ _ ch); simpl; [by rewrite Hj|by rewrite Hs].
  - apply list_find_None in Hf. rewrite Forall_forall in Hf.
    by destruct (Hf (ch, ReplyUnit r)); [eapply list_elem_of_lookup_2|].
Qed.

Lemma await_not_sent context ch w : (forall i, chan_at w (AtSent i) <> Some ch) ->
  Requests.await context ch (Requests.mk [] w)
  = if Requests.held ch (Requests.mk [] w) then None else Some (Err context).
Proof.
  intros Hn. unfold Requests.await. simpl. destruct (list_find _ _) as [[j [ch' r']]|] eqn:Hf; [|done].
  apply list_find_Some in Hf as (Hj & Hch & _). simpl in Hch. subst ch'. destruct (Hn j). simpl. by rewrite Hj.
Qed.

Lemma held_at ch w : Requests.held ch (Requests.mk [] w) = true <->
  exists l, chan_at w l = Some ch /\ forall i, l <> AtSent i.
Proof.
  unfold Requests.held. simpl. rewrite orb_true_iff, !existsb_values. split.
  - intros [(q & s & Hq & Hs%Nat.eqb_eq)|(p & s & Hp & Hs%Nat.eqb_eq)].
    + exists (AtQuery q). simpl. by rewrite Hq, <- Hs.
    + exists (AtPeer p). simpl. by rewrite Hp, <- Hs.
  - intros ([q|p|i] & Hl & Hn); simpl in Hl; [left|right|by destruct (Hn i)];
      apply fmap_Some in Hl as (s & Hs & ->); eexists _, s; by rewrite Nat.eqb_refl.
Qed.

(** C21: What an address request gets: with [add_address] the caller waits through everything
    the worker does until the routing of the peer is reported, and then succeeds; if another
    address of the same peer is added first, the earlier caller fails with "Failed receiving
    add address response", though its address was added.  [start_listening] returns what
    the swarm answered, and the swarm is asked twice. *)
Theorem address_requests w p a ch w2 :
  worker_inv w -> fresh w ch ->
  let sent_add := Requests.add_address p a ch (Requests.mk [] w) in
  rtc (wstep (fun x => ~ routes p x)) (Requests.worker (Requests.turn Requests.CommandTurn sent_add)) w2 ->
  Requests.add_address_reply ch (Requests.mk [] w2) = None /\
  (forall k, issued (swarm w2) ⊆ issued k ->
     Requests.add_address_reply ch (Requests.turn (Requests.SwarmTurn
       (BehaviourKademlia (RoutingUpdated p)) k) (Requests.mk [] w2)) = Some (Ok tt)) /\
  (forall a' ch', fresh w2 ch' ->
     Requests.add_address_reply ch (Requests.turn Requests.CommandTurn
       (Requests.add_address p a' ch' (Requests.mk [] w2)))
     = Some (Err "Failed receiving add address response"%string)) /\
  (forall addr ch', fresh w2 ch' ->
     let k1 := (swarm_listen_on addr (swarm w2)).2 in
     let s := Requests.turn Requests.CommandTurn (Requests.start_listening addr ch' (Requests.mk [] w2)) in
     swarm (Requests.worker s) = (swarm_listen_on addr k1).2 /\
     Requests.start_listening_reply ch' s
     = Some match (swarm_listen_on addr k1).1 with inr _ => Ok tt | inl e => Err e end).
Proof.
  intros Hi Hf sent_add Hst.
  assert (Hi1 : worker_inv (handle_command (AddAddress p a ch) w)) by by apply handle_command_inv.
  assert (Hi2 : worker_inv w2) by by eapply wsteps_inv.
  assert (Hp : pending_routing w2 !! p = Some (Bootstrap ch))
    by (eapply wsteps_keep_pending; [exact Hst|]; apply lookup_insert_eq).
  assert (Hat : chan_at w2 (AtPeer p) = Some ch) by (simpl; by rewrite Hp).
  assert (Honly : forall l, chan_at w2 l = Some ch -> l = AtPeer p) by (intros l Hl; by eapply one_place).
  split_and!.
  - unfold Requests.add_address_reply. rewrite await_not_sent by (intros i Hs; by apply Honly in Hs).
    rewrite (proj2 (held_at ch w2)); [done|]. by exists (AtPeer p).
  - intros k Hk. set (w3 := act (AEvent (BehaviourKademlia (RoutingUpdated p)) k) w2).
    assert (Hi3 : worker_inv w3) by by apply act_inv.
    apply (await_sent _ ch w3 (length (sent w2)) (inr tt) Hi3). unfold w3. simpl. rewrite Hp. simpl.
    by rewrite lookup_app_r, Nat.sub_diag by lia.
  - intros a' ch' Hf'. simpl. unfold Requests.add_address_reply.
    rewrite await_not_sent by (intros i Hs; by apply (Honly (AtSent i)) in Hs).
    destruct (Requests.held ch _) eqn:Hh; [|done]. apply held_at in Hh as ([q|p'|i] & Hl & Hn).
    + by apply (Honly (AtQuery q)) in Hl.
    + simpl in Hl. apply fmap_Some in Hl as (s & Hs & Hc).
      apply lookup_insert_Some in Hs as [[<- <-]|[Hne Hs]].
      * simpl in Hc. subst ch'. by destruct (Hf' (AtPeer p)).
      * assert (AtPeer p' = AtPeer p); [|congruence]. apply Honly. simpl. by rewrite Hs, Hc.
    + by destruct (Hn i).
  - intros addr ch' Hf'. simpl. unfold Requests.start_listening_reply.
    pose proof (handle_command_inv (StartListening addr ch') w2 Hi2 Hf') as Hi3. simpl in Hi3.
    destruct (swarm_listen_on addr (swarm w2)) as [r1 k1]. simpl in *.
    destruct (swarm_listen_on addr k1) as [r2 k2]. simpl in *. split; [done|].
    apply (await_sent _ ch' _ (length (sent w2)) r2 Hi3). simpl. by rewrite lookup_app_r, Nat.sub_diag by lia.
Qed.
End address.

Section address_witness.
#[local] Existing Instances count_swarm count_swarm_laws.
Import Worker.
#[local] Definition peer3 : PeerId := 3%nat.
#[local] Definition addr3 : Multiaddr := "/ip4/1.2.3.4"%string.
#[local] Definition aw : Worker.t := mk 0%nat [] ∅ ∅ ∅ ∅ [].

Lemma address_requests_witness :
  let w := Requests.worker (Requests.turn Requests.CommandTurn
    (Requests.add_address peer3 addr3 0 (Requests.mk [] aw))) in
  Requests.add_address_reply 0 (Requests.mk [] w) = None /\
  Requests.add_address_reply 0 (Requests.turn (Requests.SwarmTurn
    (BehaviourKademlia (RoutingUpdated peer3)) 0%nat) (Requests.mk [] w)) = Some (Ok tt).
Proof.
  intros w. destruct (address_requests aw peer3 addr3 0 w)
    as (Hw & Hr & _).
  - split; simpl; [|by intros ??; rewrite lookup_empty..].
    intros [q|p|i] l' ch; simpl; by rewrite ?lookup_empty, ?lookup_nil.
  - by intros [q|p|i].
  - apply rtc_refl.
  - split; [exact Hw|]. exact (Hr 0%nat ltac:(reflexivity)).
Defined.
End address_witness.
