(* ===== verification/DaserNetwork.v ===== *)
(** * Fetching and publishing segments ([crates/daser/src/network.rs])

    [DasNetworkServiceWrapper] derives the keys of segments, publishes segments, and turns
    what the network returns into verified segments and recovered rows.  The network is the
    one of [DasNetwork.Service].  An error of [anyhow] is its message. *)

From S2P Require Import Prelude Codec DasDb KzgLib KzgIndex KzgToy DasPrimitives Blob.
From S2P Require Import ErasureCoding CorePrimitives Reliability DasNetwork.

Module DaserNetwork.
Section network.
Context `{Platform} `{KzgLib} `{Codec Position} `{Codec Segment.SegmentData}.
Context {Net : Type} `{!Requests Net}.
Context {Hash Header : Type} `{Codec Hash} `{!HeaderWithCommitment Z Hash Header}.

(** [DasNetworkServiceWrapper]. *)
Record t := mk { network : Service.t; kzg : KZG }.
Definition new (network : Service.t) (kzg : KZG) : t := mk network kzg.

(** [header.hash().encode()]. *)
Definition hash_bytes (header : Header) : bytes := scale_encode (hwc_hash header).

(** ** Verification of what the network returned *)

(** The closure of [filter_map]: a value that does not decode, is malformed or fails the
    check is skipped. *)
Definition verify_value (kzg : KZG) (commitment : KZGCommitment) (position : Position)
    (value : bytes) : res string (option Segment.t) :=
  match decode_all value with
  | None => Ok None
  | Some segment_data =>
      let segment := Segment.mk position segment_data in
      match Segment.checked segment with
      | Ok checked_segment =>
          match Segment.verify checked_segment kzg commitment SEGMENTS_PER_BLOB with
          | Ok vd => Ok (if vd : bool then Some segment else None)
          | Err _ => Ok None
          | Panic => Panic
          end
      | Err _ => Ok None
      | Panic => Panic
      end
  end.

(** [filter_map(..).find(..)] stops at the first hit. *)
Fixpoint verify_values (kzg : KZG) (values : list bytes) (commitment : KZGCommitment)
    (position : Position) : res string (option Segment.t) :=
  match values with
  | [] => Ok None
  | value :: values =>
      found ← verify_value kzg commitment position value;
      match found with
      | Some segment =>
          if bool_decide (Segment.position segment = position) then Ok (Some segment)
          else verify_values kzg values commitment position
      | None => verify_values kzg values commitment position
      end
  end.

(** One row: verified segments, recovered when at least half are there. *)
Definition rows_values_handler (kzg : KZG) (row : list (option (list bytes))) (y : nat)
    (commitment : KZGCommitment) : res string (list (option Segment.t) * bool) :=
  segments ← mapM (fun '(x, values) =>
      match values with
      | Some values => verify_values kzg values commitment
                         (Crypto.mkPosition (wrap 32 (Z.of_nat x)) (wrap 32 (Z.of_nat y)))
      | None => Ok None
      end) (enumerate row);
  let some_count := count_some segments in
  let is_availability := (length segments / 2 <=? some_count)%nat in
  let needs_recovery := is_availability && (some_count <? length segments)%nat in
  if needs_recovery then
    match recovery_order_row_from_segments segments kzg with
    | Ok recovered_segments => Ok (Some <$> recovered_segments, is_availability)
    | Err _ => Ok (segments, false)
    | Panic => Panic
    end
  else Ok (segments, is_availability).

(** The loop of [rows_values_set_handler] from row [y] on. *)
Fixpoint rows_loop (kzg : KZG) (commitments : list KZGCommitment) (stop_on_unavailability : bool)
    (y : nat) (rows : list (list (option (list bytes)))) (all_segments : list (option Segment.t))
    : res string (list (option Segment.t) * bool) :=
  match rows with
  | [] => Ok (all_segments, true)
  | chunk :: rows =>
      commitment ← unwrap (commitments !! y);
      '(segments, availability) ← rows_values_handler kzg chunk y commitment;
      if negb availability && stop_on_unavailability
      then Ok (all_segments ++ segments, false)
      else rows_loop kzg commitments stop_on_unavailability (S y) rows (all_segments ++ segments)
  end.

Definition rows_values_set_handler (values_set : list (option (list bytes)))
    (commitments : list KZGCommitment) (kzg : KZG) (stop_on_unavailability : bool)
    : res string (list (option Segment.t) * bool) :=
  if bool_decide (values_set = []) || bool_decide (commitments = []) then Ok ([], true)
  else rows_loop kzg commitments stop_on_unavailability 0
         (chunks (Z.to_nat EXTENDED_SEGMENTS_PER_BLOB) values_set) [].

(** The closure of [cols_values_set_handler] for column [x], on the captured
    [need_reconstruct] and [is_availability]. *)
Definition cols_values_handler (kzg : KZG) (commitments : list KZGCommitment)
    (stop_on_unavailability : bool) (acc : list (option Segment.t) * list nat * bool)
    (column : nat * list (option (list bytes)))
    : res string (list (option Segment.t) * list nat * bool) :=
  let '(all_segments, need_reconstruct, is_availability) := acc in
  let '(x, column_values) := column in
  let segments_per_col := length commitments in
  let segments_per_col_exted := (segments_per_col * 2)%nat in
  if negb is_availability && stop_on_unavailability
  then Ok (all_segments ++ replicate (Z.to_nat EXTENDED_SEGMENTS_PER_BLOB) None, need_reconstruct,
           is_availability)
  else
    segments ← mapM (fun '(y, values) =>
        match values with
        | Some values =>
            commitment ← unwrap (commitments !! y);
            verify_values kzg values commitment
              (Crypto.mkPosition (wrap 32 (Z.of_nat x)) (wrap 32 (Z.of_nat y)))
        | None => Ok None
        end) (enumerate column_values);
    let available_segments := count_some segments in
    if (segments_per_col <=? available_segments)%nat
    then Ok (all_segments ++ segments,
             if (available_segments <? segments_per_col_exted)%nat then need_reconstruct ++ [x]
             else need_reconstruct,
             is_availability)
    else Ok (all_segments ++ segments, need_reconstruct, false).

Definition cols_values_set_handler (values_set : list (option (list bytes)))
    (commitments : list KZGCommitment) (kzg : KZG) (stop_on_unavailability : bool)
    : res string (list (option Segment.t) * list nat * bool) :=
  if bool_decide (values_set = []) || bool_decide (commitments = []) then Ok ([], [], false)
  else
    let segments_per_col_exted := (length commitments * 2)%nat in
    foldM (cols_values_handler kzg commitments stop_on_unavailability) ([], [], true)
      (enumerate (chunks segments_per_col_exted values_set)).

(** ** Keys *)
Definition row_xs : list Z := Z.of_nat <$> seq 0 (Z.to_nat EXTENDED_SEGMENTS_PER_BLOB).
Definition prepare_keys (header : Header) : res string (list bytes) :=
  Ok (app_lookup ← HeaderExtension.app_lookup (hwc_extension header);
      x ← row_xs;
      y ← Z.of_nat <$> seq 0 (Z.to_nat (AppLookup.count app_lookup));
      [sample_key (AppLookup.app_id app_lookup) (AppLookup.nonce app_lookup)
         (Crypto.mkPosition (wrap 32 x) (wrap 32 y))]).

(** The body of the loop over [index]; the message names the other function, as in the
    source. *)
Definition row_keys (header : Header) (row_count : Z) (keys : list bytes) (y : Z)
    : res string (list bytes) :=
  if y <? row_count then
    foldM (fun keys x =>
      '(app_lookup, _) ← ok_or (HeaderExtension.get_lookup (hwc_extension header) y)
                           "prepare_cols_keys: get_lookup failed"%string;
      Ok (keys ++ [sample_key (AppLookup.app_id app_lookup) (AppLookup.nonce app_lookup)
                     (Crypto.mkPosition (wrap 32 x) y)])) keys row_xs
  else if wrap 32 (row_count * 2) <=? y then Err "prepare_cols_keys: idx is too large"%string
  else Ok (keys ++ ((fun x => sample_key_from_block (hash_bytes header)
                                (Crypto.mkPosition (wrap 32 x) y)) <$> row_xs)).
Definition prepare_rows_keys (header : Header) (index : list Z) (row_count : Z)
    : res string (list bytes) :=
  if bool_decide (index = []) then Ok [] else foldM (row_keys header row_count) [] index.

Definition col_keys (header : Header) (row_count : Z) (keys : list bytes) (x : Z)
    : res string (list bytes) :=
  keys ← foldM (fun keys y =>
      '(app_lookup, _) ← ok_or (HeaderExtension.get_lookup (hwc_extension header) y)
                           "prepare_rows_keys: get_lookup failed"%string;
      Ok (keys ++ [sample_key (AppLookup.app_id app_lookup) (AppLookup.nonce app_lookup)
                     (Crypto.mkPosition x y)])) keys
    (Z.of_nat <$> seq 0 (Z.to_nat row_count));
  let keys := keys ++ ((fun y => sample_key_from_block (hash_bytes header) (Crypto.mkPosition x y)) <$>
    (Z.of_nat <$> seq (Z.to_nat row_count) (Z.to_nat (wrap 32 (row_count * 2) - row_count)))) in
  if EXTENDED_SEGMENTS_PER_BLOB <? x then Err "prepare_rows_keys: idx is too large"%string
  else Ok keys.
Definition prepare_cols_keys (header : Header) (index : list Z) (row_count : Z)
    : res string (list bytes) :=
  if bool_decide (index = []) then Ok [] else foldM (col_keys header row_count) [] index.

(** ** [DasNetworkOperations] *)
Definition extend_segments_col (self : t) (segments : list Segment.t) : res string (list Segment.t) :=
  ErasureCoding.extend_segments_col (Crypto.get_fs (kzg self)) segments.

Definition recovery_order_row_from_segments (self : t) (segments : list (option Segment.t))
    : res string (list Segment.t) :=
  ErasureCoding.recovery_order_row_from_segments segments (kzg self).

Definition put_ext_segments (self : t) (segments : list Segment.t) (header : Header) (net : Net)
    : res string unit * Net :=
  Service.put_values
    ((fun segment => (sample_key_from_block (hash_bytes header) (Segment.position segment),
                      scale_encode (Segment.content segment))) <$> segments) net.

Definition put_app_segments (self : t) (segments : list Segment.t) (app_id nonce : Z) (net : Net)
    : res string unit * Net :=
  Service.put_values
    ((fun segment => (sample_key app_id nonce (Segment.position segment),
                      scale_encode (Segment.content segment))) <$> segments) net.

Definition put_bytes (self : t) (bs : bytes) (app_id nonce : Z) (net : Net)
    : res string unit * Net :=
  match bytes_to_segments bs FIELD_ELEMENTS_PER_BLOB FIELD_ELEMENTS_PER_SEGMENT (kzg self) with
  | Ok segments => put_app_segments self segments app_id nonce net
  | Err e => (Err e, net)
  | Panic => (Panic, net)
  end.

Definition fetch_value (self : t) (key : bytes) (position : Position) (commitment : KZGCommitment)
    (net : Net) : res string (option Segment.SegmentData) :=
  values ← res_ok (Service.get_value key net);
  match values with
  | None => Ok None
  | Some values =>
      found ← verify_values (kzg self) values commitment position;
      Ok (fmap (M := option) Segment.content found)
  end.

Definition fetch_segment_data (self : t) (app_id nonce : Z) (position : Position)
    (commitment : KZGCommitment) (net : Net) : res string (option Segment.SegmentData) :=
  fetch_value self (sample_key app_id nonce position) position commitment net.

Definition fetch_sample (self : t) (sample : Sample) (commitment : KZGCommitment) (net : Net)
    : res string (option Segment.SegmentData) :=
  fetch_value self (sample_id sample) (Reliability.position sample) commitment net.

Definition fetch_block (self : t) (header : Header) (net : Net)
    : res string (list (option Segment.t) * bool) :=
  commitments ← ok_or (hwc_commitments header) "Header does not contain commitments."%string;
  keys ← prepare_keys header;
  values_set ← Service.get_values (network self) keys net;
  rows_values_set_handler values_set commitments (kzg self) true.

Definition fetch_rows (self : t) (header : Header) (index : list Z) (net : Net)
    : res string (list (option Segment.t) * bool) :=
  commitments ← ok_or (hwc_commitments header) "Header does not contain commitments."%string;
  commits_exted ← extend_and_reorder_elements (Crypto.get_fs (kzg self)) commitments;
  keys ← prepare_rows_keys header index (wrap 32 (Z.of_nat (length commitments)));
  values_set ← Service.get_values (network self) keys net;
  rows_values_set_handler values_set commits_exted (kzg self) false.

Definition fetch_cols (self : t) (header : Header) (index : list Z) (net : Net)
    : res string (list (option Segment.t) * list nat * bool) :=
  commitments ← ok_or (hwc_commitments header) "Header does not contain commitments."%string;
  commits_exted ← extend_and_reorder_elements (Crypto.get_fs (kzg self)) commitments;
  keys ← prepare_cols_keys header index (wrap 32 (Z.of_nat (length commitments)));
  values_set ← Service.get_values (network self) keys net;
  cols_values_set_handler values_set commits_exted (kzg self) false.

Definition remove_records (self : t) (keys : list bytes) (net : Net) : res string unit * Net :=
  Service.remove_records keys net.
End network.
End DaserNetwork.
