(* ===== verification/NodeService.v ===== *)
(** * The node's service ([node/src/service.rs], [node/src/rpc.rs])

    [new_partial] builds the client side of a node and [new_full] runs it.  Substrate's
    constructors are parameters that succeed or fail; what the sources contribute is their
    order, the tasks that are spawned and for whom, and which objects are shared: the store of
    the sampling client with the RPC, and the GRANDPA voter state. *)

From S2P Require Import Prelude Codec DasDb KzgLib KzgIndex KzgToy DasPrimitives Blob.
From S2P Require Import ErasureCoding CorePrimitives Reliability Sidecar DasNetwork NetworkMetrics NetworkStart DaserNetwork.

(** [jsonrpsee::RpcModule] by the names of its methods; a merge refuses a name twice. *)
Module RpcModule.
Definition new : list string := [].
Definition merge (other : list string) (module : list string) : res string (list string) :=
  if existsb (fun m => bool_decide (m ∈ module)) other
  then Err "Method was already registered"%string else Ok (module ++ other).

Lemma merge_Ok other module : NoDup (module ++ other) -> merge other module = Ok (module ++ other).
Proof.
  intros Hnd. unfold merge. destruct (existsb _ other) eqn:He; [|done].
  apply existsb_exists in He as (m & Hin%list_elem_of_In & Hm%bool_decide_eq_true).
  apply NoDup_app in Hnd as (_ & Hd & _). by destruct (Hd m Hm).
Qed.
End RpcModule.

(** The methods of [crates/das-rpc]. *)
Definition submit_blob_methods : list string := ["das_submitBlobTx"%string].
Definition confidence_methods : list string :=
  ["das_blockConfidence"; "das_isAvailable"; "das_removeRecords"; "das_last"]%string.

Inductive Role := Full | Authority.
Definition is_authority (role : Role) : bool := match role with Authority => true | Full => false end.

(** What the node reads of [sc_service::Configuration]. *)
Record Configuration := mkConfiguration {
  role : Role;
  telemetry_endpoints : option (list string);
  offchain_worker_enabled : bool;
  disable_grandpa : bool
}.

(** A task of the task manager. *)
Record Task := mkTask { task_name : string; group : option string; essential : bool; blocking : bool }.

(** The RPC module with the voter state and the store it holds. *)
Record RpcExtensions := mkRpc { methods : list string; rpc_voter_state : nat; rpc_db : nat }.

(** Substrate's constructors: whether they succeed, and the methods of its RPC modules.
    [sc_spawn_tasks] is given what the RPC builder returns; it fails, also for reasons of its
    own, or spawns tasks. *)
Class NodeLib := {
  telemetry_worker_new : Z -> res string unit;
  new_full_parts : res string unit;
  grandpa_block_import : res string unit;
  babe_configuration : res string unit;
  babe_block_import : res string unit;
  babe_import_queue : res string unit;
  offchain_storage : option unit;
  genesis_hash : option bytes;
  build_network : res string unit;
  sc_spawn_tasks : res string RpcExtensions -> res string (list Task);
  start_babe : res string unit;
  run_grandpa_voter : res string unit;
  sync_state_new : res string unit;
  system_methods : list string;
  transaction_payment_methods : list string;
  babe_methods : list string;
  grandpa_methods : list string;
  sync_state_methods : list string
}.

(** The node under construction.  Shared objects are numbered in the order they are made. *)
Record Node := mkNode {
  tasks : list Task;
  voter_states : nat;
  stores : nat;
  offchain_workers : bool;
  network_started : bool
}.
Definition node0 : Node := mkNode [] 0 0 false false.

Section service.
Context `{Platform} `{KzgLib} `{EmbeddedSettings} `{NodeLib} {K : Type} `{Swarm K} `{!Libp2p K}.
Abbreviation NM A := (stM string Node A).

Definition spawn (t : Task) : NM unit :=
  modify (fun n => mkNode (tasks n ++ [t]) (voter_states n) (stores n) (offchain_workers n) (network_started n)).
(** [SharedVoterState::empty()]: a state of its own, shared by its clones. *)
Definition voter_state_empty : NM nat := fun n =>
  (Ok (voter_states n), mkNode (tasks n) (S (voter_states n)) (stores n) (offchain_workers n) (network_started n)).
(** [Arc::new(Mutex::new(db))] *)
Definition store_new : NM nat := fun n =>
  (Ok (stores n), mkNode (tasks n) (voter_states n) (S (stores n)) (offchain_workers n) (network_started n)).
Definition build_offchain_workers : NM unit :=
  modify (fun n => mkNode (tasks n) (voter_states n) (stores n) true (network_started n)).
Definition start_network : NM unit :=
  modify (fun n => mkNode (tasks n) (voter_states n) (stores n) (offchain_workers n) true).

(** ** [rpc.rs]: [create_full].  The RPC holds the voter state and the store it was given. *)
Record FullDeps := mkFullDeps { deps_voter_state : nat; deps_das_db : nat }.
Definition create_full (deps : FullDeps) : res string RpcExtensions :=
  let module := RpcModule.new in
  module ← RpcModule.merge system_methods module;
  module ← RpcModule.merge transaction_payment_methods module;
  module ← RpcModule.merge babe_methods module;
  module ← RpcModule.merge grandpa_methods module;
  _ ← sync_state_new;
  module ← RpcModule.merge sync_state_methods module;
  module ← RpcModule.merge submit_blob_methods module;
  module ← RpcModule.merge confidence_methods module;
  Ok (mkRpc module (deps_voter_state deps) (deps_das_db deps)).

(** ** [new_partial] *)
Record PartialComponents := mkPartial {
  rpc_extensions_builder : res string RpcExtensions;
  rpc_setup : nat;
  das_client_db : nat;
  das_client_network : DaserNetwork.t;
  das_networker : Worker.t
}.

Definition new_partial (config : Configuration) : NM PartialComponents :=
  let endpoints := match telemetry_endpoints config with Some (e :: es) => Some (e :: es) | _ => None end in
  _ ← lift_res (match endpoints with Some _ => telemetry_worker_new 16 | None => Ok tt end);
  _ ← lift_res new_full_parts;
  _ ← match endpoints with Some _ => spawn (mkTask "telemetry" None false false) | None => mret tt end;
  _ ← lift_res grandpa_block_import;
  _ ← lift_res babe_configuration;
  _ ← lift_res babe_block_import;
  _ ← lift_res babe_import_queue;
  '(das_network_service, das_networker) ← lift_res (NetworkStart.default None None);
  _ ← lift_res (ok_or offchain_storage "No offchain storage available"%string);
  kzg ← lift_res (Crypto.default_embedded EMBEDDED_KZG_SETTINGS_BYTES);
  let das_network_wrapper := DaserNetwork.new das_network_service kzg in
  db ← store_new;
  shared_voter_state ← voter_state_empty;
  let shared_voter_state2 := shared_voter_state in
  mret (mkPartial (create_full (mkFullDeps shared_voter_state db)) shared_voter_state2 db
          das_network_wrapper das_networker).

(** ** [new_full]

    A running node by the objects it hands out: the RPC builder given to
    [sc_service::spawn_tasks], the store of the listener, the voter's state, and the tasks
    [spawn_tasks] added. *)
Record Running := mkRunning {
  rpc_builder : res string RpcExtensions;
  listener_db : nat;
  voter : option nat;
  service_tasks : list Task
}.

Definition new_full (config : Configuration) : NM Running :=
  partial ← new_partial config;
  _ ← lift_res (unwrap genesis_hash);
  _ ← lift_res build_network;
  _ ← (if offchain_worker_enabled config then build_offchain_workers else mret tt);
  let enable_grandpa := negb (disable_grandpa config) in
  _ ← spawn (mkTask "tx_pool_listener" None true true);
  _ ← spawn (mkTask "das_networker" None true true);
  service_tasks ← lift_res (sc_spawn_tasks (rpc_extensions_builder partial));
  _ ← modify (fun n => mkNode (tasks n ++ service_tasks) (voter_states n) (stores n) (offchain_workers n) (network_started n));
  _ ← match role config with
      | Authority => _ ← lift_res start_babe;
                     spawn (mkTask "babe-proposer" (Some "block-authoring"%string) true true)
      | Full => mret tt
      end;
  _ ← (if is_authority (role config)
       then spawn (mkTask "authority-discovery-worker" (Some "networking"%string) false false)
       else mret tt);
  voter ← (if enable_grandpa
           then shared_voter_state ← voter_state_empty;
                _ ← lift_res run_grandpa_voter;
                _ ← spawn (mkTask "grandpa-voter" None true true);
                mret (Some shared_voter_state)
           else mret None);
  _ ← start_network;
  mret (mkRunning (rpc_extensions_builder partial) (das_client_db partial) voter service_tasks).

(** ** What runs *)
Definition has_telemetry (config : Configuration) : bool :=
  match telemetry_endpoints config with Some (_ :: _) => true | _ => false end.
Definition expected_tasks (config : Configuration) (service_tasks : list Task) : list Task :=
  (if has_telemetry config then [mkTask "telemetry" None false false] else [])
  ++ [mkTask "tx_pool_listener" None true true; mkTask "das_networker" None true true]
  ++ service_tasks
  ++ (if is_authority (role config)
      then [mkTask "babe-proposer" (Some "block-authoring"%string) true true;
            mkTask "authority-discovery-worker" (Some "networking"%string) false false] else [])
  ++ (if disable_grandpa config then [] else [mkTask "grandpa-voter" None true true]).

(** The constructors a node with this configuration calls succeed. *)
Definition all_methods : list string :=
  system_methods ++ transaction_payment_methods ++ babe_methods ++ grandpa_methods
  ++ sync_state_methods ++ submit_blob_methods ++ confidence_methods.
Record components_ok (config : Configuration) : Prop := {
  ok_telemetry : has_telemetry config = true -> telemetry_worker_new 16 = Ok tt;
  ok_parts : new_full_parts = Ok tt /\ grandpa_block_import = Ok tt /\ babe_configuration = Ok tt /\
    babe_block_import = Ok tt /\ babe_import_queue = Ok tt;
  ok_network : exists r, NetworkStart.default (K := K) None None = Ok r;
  ok_store : offchain_storage = Some tt /\ is_ok (Crypto.default_embedded EMBEDDED_KZG_SETTINGS_BYTES) = true;
  ok_full : genesis_hash <> None /\ build_network = Ok tt;
  ok_tasks : forall deps, is_ok (sc_spawn_tasks (create_full deps)) = true;
  ok_authority : is_authority (role config) = true -> start_babe = Ok tt;
  ok_voter : disable_grandpa config = false -> run_grandpa_voter = Ok tt
}.

Lemma create_full_Ok deps : sync_state_new = Ok tt -> NoDup all_methods ->
  create_full deps = Ok (mkRpc all_methods (deps_voter_state deps) (deps_das_db deps)).
Proof.
  intros Hs Hnd. unfold all_methods in Hnd. rewrite !app_assoc in Hnd.
  assert (Hpre : forall l l' : list string, NoDup (l ++ l') -> NoDup l) by (by intros l l' (? & _)%NoDup_app).
  pose proof (Hpre _ _ Hnd) as D6. pose proof (Hpre _ _ D6) as D5. pose proof (Hpre _ _ D5) as D4.
  pose proof (Hpre _ _ D4) as D3. pose proof (Hpre _ _ D3) as D2. pose proof (Hpre _ _ D2) as D1.
  unfold create_full, RpcModule.new.
  rewrite (RpcModule.merge_Ok system_methods []) by done. simpl.
  rewrite (RpcModule.merge_Ok transaction_payment_methods) by done. simpl.
  rewrite (RpcModule.merge_Ok babe_methods) by done. simpl.
  rewrite (RpcModule.merge_Ok grandpa_methods) by done. simpl. rewrite Hs. simpl.
  rewrite (RpcModule.merge_Ok sync_state_methods) by done. simpl.
  rewrite (RpcModule.merge_Ok submit_blob_methods) by done. simpl.
  rewrite (RpcModule.merge_Ok confidence_methods) by done. simpl.
  unfold all_methods. by rewrite <- !app_assoc.
Qed.

Lemma create_full_shares deps e : create_full deps = Ok e ->
  rpc_voter_state e = deps_voter_state deps /\ rpc_db e = deps_das_db deps /\
  incl (submit_blob_methods ++ confidence_methods) (methods e).
Proof.
  unfold create_full. intros (m1 & _ & Hr)%res_bind_Ok.
  apply res_bind_Ok in Hr as (m2 & _ & Hr). apply res_bind_Ok in Hr as (m3 & _ & Hr).
  apply res_bind_Ok in Hr as (m4 & _ & Hr). apply res_bind_Ok in Hr as ([] & _ & Hr).
  apply res_bind_Ok in Hr as (m5 & _ & Hr). apply res_bind_Ok in Hr as (m6 & E6 & Hr).
  apply res_bind_Ok in Hr as (m7 & E7 & [= <-]). split_and!; [done..|]. simpl.
  unfold RpcModule.merge in E6, E7.
  destruct (existsb _ submit_blob_methods); [done|]. injection E6 as <-.
  destruct (existsb _ confidence_methods); [done|]. injection E7 as <-.
  rewrite <- app_assoc. intros x Hx. apply in_or_app. by right.
Qed.

Lemma new_partial_Ok config n p n' : new_partial config n = (Ok p, n') ->
  n' = mkNode (tasks n ++ if has_telemetry config then [mkTask "telemetry" None false false] else [])
         (S (voter_states n)) (S (stores n)) (offchain_workers n) (network_started n) /\
  rpc_extensions_builder p = create_full (mkFullDeps (voter_states n) (stores n)) /\
  das_client_db p = stores n.
Proof.
  unfold new_partial, has_telemetry. intros Hp.
  set (e := match telemetry_endpoints config with Some (e :: es) => Some (e :: es) | _ => None end) in Hp.
  assert (He : match telemetry_endpoints config with Some (_ :: _) => true | _ => false end
    = match e with Some _ => true | None => false end) by (unfold e; by repeat case_match).
  rewrite He. clearbody e. unfold lift_res, spawn, modify in Hp.
  apply stM_bind_Ok in Hp as (? & n0 & [= _ <-] & Hp). apply stM_bind_Ok in Hp as (? & n0 & [= _ <-] & Hp).
  apply stM_bind_Ok in Hp as (? & n0 & Hn0 & Hp). apply stM_bind_Ok in Hp as (? & n1 & [= _ <-] & Hp).
  do 3 (apply stM_bind_Ok in Hp as (? & n1 & [= _ <-] & Hp)).
  apply stM_bind_Ok in Hp as ([sv wk] & n1 & [= _ <-] & Hp).
  do 2 (apply stM_bind_Ok in Hp as (? & n1 & [= _ <-] & Hp)).
  apply stM_bind_Ok in Hp as (db & n1 & [= <- <-] & Hp).
  apply stM_bind_Ok in Hp as (vs & n1 & [= <- <-] & [= <- <-]). simpl.
  destruct e; injection Hn0 as <- <-; simpl; rewrite ?app_nil_r; by destruct n.
Qed.

Lemma new_full_Ok config n r n' : new_full config n = (Ok r, n') ->
  tasks n' = tasks n ++ expected_tasks config (service_tasks r) /\
  offchain_workers n' = offchain_workers n || offchain_worker_enabled config /\
  network_started n' = true /\
  rpc_builder r = create_full (mkFullDeps (voter_states n) (stores n)) /\ listener_db r = stores n /\
  voter r = (if disable_grandpa config then None else Some (S (voter_states n))).
Proof.
  unfold new_full, spawn, build_offchain_workers, start_network, lift_res, modify. intros Hp.
  apply stM_bind_Ok in Hp as (p & n1 & (-> & Hrpc & Hdb)%new_partial_Ok & Hp).
  do 2 (apply stM_bind_Ok in Hp as (? & n2 & [= _ <-] & Hp)).
  apply stM_bind_Ok in Hp as (? & n2 & Hoc & Hp).
  do 2 (apply stM_bind_Ok in Hp as (? & n3 & [= _ <-] & Hp)).
  apply stM_bind_Ok in Hp as (ts & n3 & [= _ <-] & Hp). apply stM_bind_Ok in Hp as (? & n3 & [= _ <-] & Hp).
  apply stM_bind_Ok in Hp as (? & n3 & Hbabe & Hp). apply stM_bind_Ok in Hp as (? & n4 & Hdisc & Hp).
  apply stM_bind_Ok in Hp as (vt & n5 & Hvt & Hp). apply stM_bind_Ok in Hp as (? & n6 & [= _ <-] & [= <- <-]).
  simpl. rewrite Hrpc, Hdb. unfold expected_tasks.
  destruct (offchain_worker_enabled config); injection Hoc as _ <-;
    (destruct (role config); simpl in *;
     [injection Hbabe as _ <-; injection Hdisc as _ <-
     |apply stM_bind_Ok in Hbabe as (? & n7 & [= _ <-] & [= _ <-]); injection Hdisc as _ <-];
     (destruct (disable_grandpa config); simpl in *;
      [injection Hvt as <- <-
      |apply stM_bind_Ok in Hvt as (? & n8 & [= <- <-] & Hvt);
       apply stM_bind_Ok in Hvt as (? & n8 & [= _ <-] & Hvt);
       apply stM_bind_Ok in Hvt as (? & n8 & [= _ <-] & [= <- <-])];
      simpl; rewrite ?app_nil_r, <- ?app_assoc, ?orb_true_r, ?orb_false_r; by split_and!)).
Qed.

Lemma new_full_storage config n r n' : new_full config n = (Ok r, n') -> offchain_storage = Some tt.
Proof.
  unfold new_full. intros (p & n1 & Hp & _)%stM_bind_Ok. unfold new_partial, lift_res in Hp.
  do 7 (apply stM_bind_Ok in Hp as (? & ? & _ & Hp)).
  apply stM_bind_Ok in Hp as ([sv wk] & ? & _ & Hp). apply stM_bind_Ok in Hp as ([] & ? & [= Ho _] & _).
  by destruct offchain_storage as [[]|].
Qed.

Lemma new_full_starts config n : components_ok config -> exists r n', new_full config n = (Ok r, n').
Proof.
  intros [Ht (C1 & C2 & C3 & C4 & C5) (nw & Hnw) (Hos & Hkz) (Hg & Hb) Hts Ha Hv].
  assert (Hp : exists p n', new_partial config n = (Ok p, n')).
  { unfold new_partial, has_telemetry in *.
    set (e := match telemetry_endpoints config with Some (e :: es) => Some (e :: es) | _ => None end).
    assert (He : match e with Some _ => telemetry_worker_new 16 | None => Ok tt end = Ok tt).
    { unfold e. destruct (telemetry_endpoints config) as [[|]|]; try done. by apply Ht. }
    unfold mbind, stM_bind, lift_res, spawn, modify, voter_state_empty, store_new, mret, stM_ret.
    rewrite He, C1. destruct nw as [sv wk].
    destruct (Crypto.default_embedded _) as [kzg| |] eqn:Ek; try done.
    destruct e; simpl; rewrite C2, C3, C4, C5, Hnw, Hos; simpl; by eexists _, _. }
  destruct Hp as (p & n1 & Hp). pose proof (new_partial_Ok _ _ _ _ Hp) as (_ & Hrpc & _).
  unfold new_full, spawn, build_offchain_workers, start_network, lift_res, modify, mbind, stM_bind,
    voter_state_empty, mret, stM_ret.
  rewrite Hp, Hb, Hrpc. destruct genesis_hash as [gh|]; [|done]. simpl.
  specialize (Hts (mkFullDeps (voter_states n) (stores n))). destruct (sc_spawn_tasks _) as [ts| |]; try done.
  destruct (offchain_worker_enabled config), (role config) eqn:Er, (disable_grandpa config) eqn:Ed; simpl in *;
    rewrite ?Ha, ?Hv by done; simpl; by eexists _, _.
Qed.

(** ** [command.rs]: [run]

    The commands by what they need of the service, in a binary with or without the benchmarking
    feature and without the try-runtime one.  What a command does with the components is
    Substrate's. *)
Inductive BenchmarkCmd := BenchPallet | BenchBlock | BenchStorage | BenchOverhead | BenchExtrinsic | BenchMachine.
Inductive Subcommand :=
| Key | BuildSpec | CheckBlock | ExportBlocks | ExportState | ImportBlocks | PurgeChain | Revert
| Benchmark (cmd : BenchmarkCmd) | ChainInfo.
Inductive Components := NoComponents | WithPartial (p : PartialComponents) | WithNode (node : Running).

Definition run (runtime_benchmarks : bool) (subcommand : option Subcommand) (config : Configuration)
    : NM Components :=
  let partial := p ← new_partial config; mret (WithPartial p) in
  match subcommand with
  | Some (Key | BuildSpec | PurgeChain | ChainInfo) => mret NoComponents
  | Some (CheckBlock | ExportBlocks | ExportState | ImportBlocks | Revert) => partial
  | Some (Benchmark BenchPallet) =>
      if negb runtime_benchmarks
      then lift_res (Err "Runtime benchmarking wasn't enabled when building the node. You can enable it with `--features runtime-benchmarks`."%string)
      else mret NoComponents
  | Some (Benchmark (BenchBlock | BenchOverhead | BenchExtrinsic)) => partial
  | Some (Benchmark BenchStorage) =>
      if negb runtime_benchmarks
      then lift_res (Err "Storage benchmarking can be enabled with `--features runtime-benchmarks`."%string)
      else partial
  | Some (Benchmark BenchMachine) => mret NoComponents
  | None => node ← new_full config; mret (WithNode node)
  end.

(** Also the commands that only read or revert the database create the data availability
    network, and fail where it cannot be created. *)
Lemma offline_needs_network feature cmd config e n :
  cmd ∈ [CheckBlock; ExportBlocks; ExportState; ImportBlocks; Revert] ->
  has_telemetry config = false -> new_full_parts = Ok tt -> grandpa_block_import = Ok tt ->
  babe_configuration = Ok tt -> babe_block_import = Ok tt -> babe_import_queue = Ok tt ->
  NetworkStart.default (K := K) None None = Err e ->
  (run feature (Some cmd) config n).1 = Err e.
Proof.
  intros Hcmd Ht C1 C2 C3 C4 C5 Hd.
  assert (Hp : (new_partial config n).1 = Err e).
  { unfold new_partial, has_telemetry in *.
    destruct (telemetry_endpoints config) as [[|x xs]|]; simpl in *; [|done|];
      unfold mbind, stM_bind, lift_res, mret, stM_ret; rewrite C1, C2, C3, C4, C5, Hd; done. }
  assert (Hr : run feature (Some cmd) config = (p ← new_partial config; mret (WithPartial p)))
    by (apply list_elem_of_In in Hcmd; simpl in Hcmd; destruct cmd; try done; by repeat destruct Hcmd as [Hcmd|Hcmd]).
  rewrite Hr. unfold mbind, stM_bind. destruct (new_partial config n) as [[p|x|] n']; by simplify_eq/=.
Qed.

End service.

(** ** A node that starts *)
Section service_witness.
#[local] Existing Instances host64 bytes_lib Sidecar.toy_embedded count_swarm.
#[local] Instance toy_libp2p : Libp2p nat := {|
  Keypair := unit; Peer := unit; peer_of _ := tt; generate_ed25519 := tt;
  Noise := unit; noise_xx _ := Some tt; Transport := unit; dns_tcp_system _ _ := Ok tt;
  upgrade t _ _ := t; Mdns := unit; mdns_new := Ok tt; swarm_build _ _ _ _ _ := 0%nat
|}.
#[local] Instance toy_node : NodeLib := {|
  telemetry_worker_new _ := Ok tt; new_full_parts := Ok tt; grandpa_block_import := Ok tt;
  babe_configuration := Ok tt; babe_block_import := Ok tt; babe_import_queue := Ok tt;
  offchain_storage := Some tt; genesis_hash := Some []; build_network := Ok tt;
  sc_spawn_tasks := fmap (fun _ => []); start_babe := Ok tt;
  run_grandpa_voter := Ok tt; sync_state_new := Ok tt;
  system_methods := ["system_accountNextIndex"; "system_dryRun"]%string;
  transaction_payment_methods := ["payment_queryInfo"; "payment_queryFeeDetails"]%string;
  babe_methods := ["babe_epochAuthorship"]%string;
  grandpa_methods := ["grandpa_roundState"; "grandpa_proveFinality"]%string;
  sync_state_methods := ["sync_state_genSyncSpec"]%string
|}.
#[local] Definition validator : Configuration := mkConfiguration Authority None true false.

Lemma validator_components : components_ok validator.
Proof.
  destruct toy_default_embedded as [kzg Hkzg]. split.
  - discriminate.
  - by split_and!.
  - eexists. reflexivity.
  - rewrite Hkzg. by split.
  - split_and!; [discriminate|done].
  - intros deps. rewrite create_full_Ok; [done|done|by_decision].
  - reflexivity.
  - reflexivity.
Qed.

End service_witness.
