(* ===== verification/ClientStart.v ===== *)
(** * Starting the light client and the farmer ([light/src], [farmer/src]: [cli.rs], [main.rs];
    [light/src/rpc.rs])

    Both clients have the same command line.  [run] builds the network, for the light client
    the RPC server, then connects to the chain and spawns the network worker and the loop
    over headers.  The servers and the connection are parameters; the effects are listed in
    the order they happen. *)

From S2P Require Import Prelude Codec DasDb KzgLib KzgIndex KzgToy DasPrimitives Blob.
From S2P Require Import ErasureCoding CorePrimitives Reliability Sidecar DasNetwork NetworkMetrics.
From S2P Require Import NetworkStart DaserNetwork NodeService SqliteDb.

(** ** [cli.rs] *)
Definition DEFAULT_RPC_LISTEN_ADDR : string := "127.0.0.1:4177".
Definition DEV_RPC_URL : string := "ws://127.0.0.1:9944".
Definition TEST_RPC_URL : string := "wss://dev.melodot.io:9944".
Definition DEFAULT_RPC_URL : string := "ws://127.0.0.1:9944".

Module Cli.
Record t (SocketAddr : Type) := mk {
  rpc_listen_addr : option SocketAddr;
  rpc_remote_url : option string;
  das_net_listen_port : option Z;
  dev_mode : bool;
  test_mode : bool
}.
Arguments mk {_}.
Arguments rpc_listen_addr {_}.
Arguments rpc_remote_url {_}.
Arguments das_net_listen_port {_}.
Arguments dev_mode {_}.
Arguments test_mode {_}.
End Cli.

Module Config.
Record t (SocketAddr : Type) := mk {
  rpc_listen_addr : SocketAddr;
  rpc_url : string;
  network_config : DasNetworkConfig.t
}.
Arguments mk {_}.
Arguments rpc_listen_addr {_}.
Arguments rpc_url {_}.
Arguments network_config {_}.

Section config.
(** [SocketAddr::from_str] *)
Context {SocketAddr : Type} (parse : string -> option SocketAddr).

Definition set_listen_port (port : Z) (c : DasNetworkConfig.t) : DasNetworkConfig.t :=
  DasNetworkConfig.mk (DasNetworkConfig.listen_addr c) port (DasNetworkConfig.bootstrap_nodes c)
    (DasNetworkConfig.max_retries c) (DasNetworkConfig.retry_delay c)
    (DasNetworkConfig.bootstrap_timeout c) (DasNetworkConfig.parallel_limit c).

Definition from_cli_args (cli : Cli.t SocketAddr) : res string (t SocketAddr) :=
  rpc_listen_addr ← match Cli.rpc_listen_addr cli with
                    | Some addr => Ok addr
                    | None => unwrap (parse DEFAULT_RPC_LISTEN_ADDR)
                    end;
  let das_network_config := DasNetworkConfig.default in
  let rpc_url := DEFAULT_RPC_URL in
  let '(rpc_url, das_network_config) :=
    if Cli.dev_mode cli then (DEV_RPC_URL, set_listen_port 4418 das_network_config)
    else if Cli.test_mode cli then (TEST_RPC_URL, das_network_config)
    else (rpc_url, das_network_config) in
  let rpc_url := match Cli.rpc_remote_url cli with Some url => url | None => rpc_url end in
  Ok (mk rpc_listen_addr rpc_url das_network_config).
End config.
End Config.

(** ** [crates/meloxt/src/lib.rs]: the client and its builder

    [Api] is the connection, [Signer] a key pair; [dev_alice] is the well-known development
    key [dev::alice()]. *)
Module Client.
Record t (Api Signer : Type) := mk { api : Api; signer : Signer }.
Arguments mk {_ _}.
Arguments api {_ _}.
Arguments signer {_ _}.
Section client.
Context {Api Signer : Type}.
Definition set_signer (signer : Signer) (self : t Api Signer) : t Api Signer := mk (api self) signer.
Definition set_client (api : Api) (self : t Api Signer) : t Api Signer := mk api (signer self).
End client.
End Client.

Module ClientBuilder.
Record t (Signer : Type) := mk { url : string; signer : Signer }.
Arguments mk {_}.
Arguments url {_}.
Arguments signer {_}.
Section builder.
Context {Api Signer : Type} (dev_alice : Signer) (from_url : string -> res string Api).
Definition new (url : string) (signer : Signer) : t Signer := mk url signer.
Definition default : t Signer := mk "ws://127.0.0.1:9944" dev_alice.
Definition set_url (url : string) (self : t Signer) : t Signer := mk url (signer self).
Definition build (self : t Signer) : res string (Client.t Api Signer) :=
  api ← from_url (url self);
  Ok (Client.mk api (signer self)).
End builder.
End ClientBuilder.

(** ** [light/src/rpc.rs] *)
Section run.
Context `{Platform} `{KzgLib} `{EmbeddedSettings} {K : Type} `{Swarm K} `{!Libp2p K}.
Context {Conn : Type} `{Sqlite Conn} {SocketAddr Api Signer : Type} (dev_alice : Signer).

Definition light_create_full : res string (list string) :=
  RpcModule.merge confidence_methods RpcModule.new.

(** What the outside answers: the installation of the logger, the server on an address, and
    the chain at a URL. *)
Record Outside := mkOutside {
  init_logger : res string unit;
  server_build : SocketAddr -> res string SocketAddr;   (* with its local address *)
  server_start : list string -> res string unit;
  from_url : string -> res string Api
}.

Inductive Effect :=
| NetworkCreated (worker : Worker.t)
| RpcServing (addr : SocketAddr) (methods : list string) (db : nat)
| NetworkSpawned
| LoopSpawned (client : Client.t Api Signer) (network : DaserNetwork.t) (db : nat).
Abbreviation RunM A := (stM string (list Effect) A).
Definition effect (e : Effect) : RunM unit := modify (fun es => es ++ [e]).

Definition run_server (outside : Outside) (db : nat) (addre : SocketAddr) : RunM SocketAddr :=
  module ← lift_res light_create_full;
  addr ← lift_res (server_build outside addre);
  _ ← lift_res (server_start outside module);
  _ ← effect (RpcServing addr module db);
  mret addr.

(** [KZG::default_embedded] panics without the settings. *)
Definition network_wrapper (config : DasNetworkConfig.t) : RunM DaserNetwork.t :=
  '(network_service, network_worker) ← lift_res (NetworkStart.default (K := K) (Some config) None);
  _ ← effect (NetworkCreated network_worker);
  kzg ← lift_res (Crypto.default_embedded EMBEDDED_KZG_SETTINGS_BYTES);
  mret (DaserNetwork.new network_service kzg).

(** [Arc::new(Mutex::new(SqliteDasDb::default()))] panics when the file cannot be opened; the
    database is the shared object 0. *)
Definition open_database : RunM nat :=
  _ ← lift_res (SqliteDasDb.default (Conn := Conn));
  mret 0%nat.

(** [ClientBuilder::default().set_url(&rpc_url).build()] *)
Definition rpc_client (outside : Outside) (config : Config.t SocketAddr) : res string (Client.t Api Signer) :=
  ClientBuilder.build (from_url outside)
    (ClientBuilder.set_url (Config.rpc_url config) (ClientBuilder.default dev_alice)).

(** ** [light/src/main.rs] *)
Definition light_run (outside : Outside) (config : Config.t SocketAddr) : RunM unit :=
  _ ← lift_res (res_unwrap (init_logger outside));
  network_service_wrapper ← network_wrapper (Config.network_config config);
  database ← open_database;
  _ ← run_server outside database (Config.rpc_listen_addr config);
  rpc_client ← lift_res (rpc_client outside config);
  _ ← effect NetworkSpawned;
  effect (LoopSpawned rpc_client network_service_wrapper database).

(** ** [farmer/src/main.rs] *)
Definition farmer_run (outside : Outside) (config : Config.t SocketAddr) : RunM unit :=
  _ ← lift_res (res_unwrap (init_logger outside));
  network_service_wrapper ← network_wrapper (Config.network_config config);
  database ← open_database;
  rpc_client ← lift_res (rpc_client outside config);
  _ ← effect NetworkSpawned;
  effect (LoopSpawned rpc_client network_service_wrapper database).

(** The parts of a start that can fail. *)
Definition network_ok (config : Config.t SocketAddr) : Prop :=
  exists r, NetworkStart.default (K := K) (Some (Config.network_config config)) None = Ok r.

Lemma network_wrapper_Ok config es w es' : network_wrapper config es = (Ok w, es') ->
  exists worker, es' = es ++ [NetworkCreated worker] /\
    exists service, NetworkStart.default (K := K) (Some config) None = Ok (service, worker).
Proof.
  unfold network_wrapper, effect, lift_res, modify. intros Hw.
  apply stM_bind_Ok in Hw as ([sv wk] & s1 & [= Hd <-] & Hw).
  apply stM_bind_Ok in Hw as (? & s2 & [= _ <-] & Hw). apply stM_bind_Ok in Hw as (? & s3 & [= _ <-] & [= _ <-]).
  exists wk. split; [done|]. by exists sv.
Qed.

(** Without bootstrap nodes the worker knows nobody and its start does nothing. *)
Lemma default_no_bootstrap config kp service worker :
  DasNetworkConfig.bootstrap_nodes config = [] ->
  NetworkStart.default (K := K) (Some config) kp = Ok (service, worker) ->
  Worker.known_addresses worker = ∅ /\ Worker.run_prologue worker = worker.
Proof.
  intros Hb (noise & dns & m & _ & _ & _ & _ & Hw)%create_spec. unfold Worker.new in Hw. rewrite Hb in Hw.
  simpl in Hw. apply res_bind_Ok in Hw as (a & _ & Hw). destruct (swarm_listen_on _ _) as [r k].
  injection Hw as <-. unfold Worker.run_prologue. simpl. by rewrite bool_decide_true.
Qed.

Definition is_spawned (e : Effect) : bool :=
  match e with NetworkSpawned | LoopSpawned _ _ _ => true | _ => false end.

(** When the chain cannot be reached, the light client has started its RPC server and returns
    the error without the loop that fills the store behind it. *)
Lemma light_unreachable outside config e es' :
  from_url outside (Config.rpc_url config) = Err e ->
  light_run outside config [] = (Err e, es') -> existsb is_spawned es' = false.
Proof.
  intros Hc. unfold light_run, run_server, network_wrapper, open_database, effect, lift_res, modify, mbind, stM_bind,
    mret, stM_ret.
  destruct (res_unwrap _); [|by intros [= _ <-]..].
  destruct (NetworkStart.default _ _) as [[sv wk]| |]; [|by intros [= _ <-]..]. simpl.
  destruct (Crypto.default_embedded _); [|by intros [= _ <-]..].
  destruct (SqliteDasDb.default); [|by intros [= _ <-]..].
  destruct (server_build _ _); [|by intros; simplify_eq/=..].
  destruct (server_start _ _); [|by intros; simplify_eq/=..].
  unfold rpc_client, ClientBuilder.build. simpl. rewrite Hc. by intros [= <-].
Qed.

Lemma farmer_unreachable outside config e es' :
  from_url outside (Config.rpc_url config) = Err e ->
  farmer_run outside config [] = (Err e, es') -> existsb is_spawned es' = false.
Proof.
  intros Hc. unfold farmer_run, network_wrapper, open_database, effect, lift_res, modify, mbind, stM_bind, mret, stM_ret.
  destruct (res_unwrap _); [|by intros [= _ <-]..].
  destruct (NetworkStart.default _ _) as [[sv wk]| |]; [|by intros [= _ <-]..]. simpl.
  destruct (Crypto.default_embedded _); [|by intros [= _ <-]..].
  destruct (SqliteDasDb.default); [|by intros [= _ <-]..].
  unfold rpc_client, ClientBuilder.build. simpl. rewrite Hc. by intros [= <-].
Qed.

(** A started light client serves the store its loop writes; the network runs. *)
Lemma light_run_Ok outside config u es' : light_run outside config [] = (Ok u, es') ->
  exists worker addr client network,
    es' = [NetworkCreated worker; RpcServing addr confidence_methods 0; NetworkSpawned;
           LoopSpawned client network 0].
Proof.
  unfold light_run, run_server, open_database, effect, lift_res, modify. intros Hr.
  apply stM_bind_Ok in Hr as (? & s0 & [= _ <-] & Hr).
  apply stM_bind_Ok in Hr as (nw & s1 & (wk & -> & _)%network_wrapper_Ok & Hr).
  apply stM_bind_Ok in Hr as (db & s0 & Hdb & Hr). apply stM_bind_Ok in Hdb as (? & ? & [= _ <-] & [= <- <-]).
  apply stM_bind_Ok in Hr as (? & s2 & Hs & Hr).
  apply stM_bind_Ok in Hs as (md & s3 & [= <- <-] & Hs).
  apply stM_bind_Ok in Hs as (ad & s3 & [= _ <-] & Hs). apply stM_bind_Ok in Hs as (? & s3 & [= _ <-] & Hs).
  apply stM_bind_Ok in Hs as (? & s3 & [= _ <-] & [= _ <-]).
  apply stM_bind_Ok in Hr as (cl & s4 & [= _ <-] & Hr). apply stM_bind_Ok in Hr as (? & s4 & [= _ <-] & [= _ <-]).
  by exists wk, ad, cl, nw.
Qed.

(** No option of the farmer names a key: it signs, and is known to the pallet, as the
    development account. *)
Lemma farmer_run_Ok outside config u es' : farmer_run outside config [] = (Ok u, es') ->
  exists worker client network, Client.signer client = dev_alice /\
    es' = [NetworkCreated worker; NetworkSpawned; LoopSpawned client network 0].
Proof.
  unfold farmer_run, open_database, effect, lift_res, modify. intros Hr.
  apply stM_bind_Ok in Hr as (? & s0 & [= _ <-] & Hr).
  apply stM_bind_Ok in Hr as (nw & s1 & (wk & -> & _)%network_wrapper_Ok & Hr).
  apply stM_bind_Ok in Hr as (db & s0 & Hdb & Hr). apply stM_bind_Ok in Hdb as (? & ? & [= _ <-] & [= <- <-]).
  apply stM_bind_Ok in Hr as (cl & s4 & [= Hc <-] & Hr). apply stM_bind_Ok in Hr as (? & s4 & [= _ <-] & [= _ <-]).
  exists wk, cl, nw. split; [|done].
  unfold rpc_client, ClientBuilder.build in Hc. by apply res_bind_Ok in Hc as (api & _ & [= <-]).
Qed.

Lemma from_cli_args_spec parse (cli : Cli.t SocketAddr) config : Config.from_cli_args parse cli = Ok config ->
  Config.rpc_url config = match Cli.rpc_remote_url cli with
    | Some url => url
    | None => if Cli.dev_mode cli then DEV_RPC_URL else if Cli.test_mode cli then TEST_RPC_URL else DEFAULT_RPC_URL
    end /\
  Config.network_config config
  = (if Cli.dev_mode cli then Config.set_listen_port 4418 DasNetworkConfig.default else DasNetworkConfig.default).
Proof.
  unfold Config.from_cli_args. intros (a & _ & Hc)%res_bind_Ok.
  destruct (Cli.dev_mode cli), (Cli.test_mode cli); injection Hc as <-; by destruct (Cli.rpc_remote_url cli).
Qed.

(** C34: The command line of the clients: the chain is reached at the URL given, else at that
    of the mode; but the option for the port of the data availability network has no effect:
    a client listens on port 4418 in development mode and 4417 otherwise, whatever the option
    says.  No option names other nodes, so the network worker starts without known
    addresses and never bootstraps.  A client that cannot reach the chain runs neither the
    worker nor its loop, though the light client's RPC server is already up. *)
Theorem client_command_line parse (cli : Cli.t SocketAddr) config :
  Config.from_cli_args parse cli = Ok config ->
  Config.rpc_url config = match Cli.rpc_remote_url cli with
    | Some url => url
    | None => if Cli.dev_mode cli then DEV_RPC_URL else if Cli.test_mode cli then TEST_RPC_URL else DEFAULT_RPC_URL
    end /\
  Worker.listen_multiaddr (Config.network_config config)
  = (if Cli.dev_mode cli then "/ip4/0.0.0.0/tcp/4418" else "/ip4/0.0.0.0/tcp/4417")%string /\
  (forall port, Config.from_cli_args parse (Cli.mk (Cli.rpc_listen_addr cli) (Cli.rpc_remote_url cli) port
     (Cli.dev_mode cli) (Cli.test_mode cli)) = Ok config) /\
  (forall keypair service worker,
     NetworkStart.default (K := K) (Some (Config.network_config config)) keypair = Ok (service, worker) ->
     Worker.known_addresses worker = ∅ /\ Worker.run_prologue worker = worker) /\
  (forall outside e es, from_url outside (Config.rpc_url config) = Err e ->
     light_run outside config [] = (Err e, es) \/ farmer_run outside config [] = (Err e, es) ->
     existsb is_spawned es = false).
Proof.
  intros Hc. pose proof (from_cli_args_spec _ _ _ Hc) as [Hu Hn]. split_and!.
  - exact Hu.
  - rewrite Hn. by destruct (Cli.dev_mode cli).
  - intros port. rewrite <- Hc. by destruct cli.
  - intros kp sv wk. apply default_no_bootstrap. rewrite Hn. by destruct (Cli.dev_mode cli).
  - intros outside e es Hb [Hl|Hf]; [by eapply light_unreachable|by eapply farmer_unreachable].
Qed.
End run.
Arguments Outside : clear implicits.

Section client_witness.
#[local] Existing Instances host64 bytes_lib Sidecar.toy_embedded count_swarm toy_libp2p mem_sqlite.

(** The port option set to 9000. *)
Lemma client_command_line_witness : exists config,
  Config.from_cli_args (fun s => Some s) (Cli.mk None None (Some 9000) false true) = Ok config /\
  Config.rpc_url config = TEST_RPC_URL /\
  Worker.listen_multiaddr (Config.network_config config) = "/ip4/0.0.0.0/tcp/4417"%string.
Proof.
  eexists. split; [reflexivity|].
  destruct (client_command_line (K := nat) (Api := unit) tt (fun s => Some s) (Cli.mk None None (Some 9000) false true) _ eq_refl)
    as (Hu & Hl & _). split; [exact Hu|exact Hl].
Defined.
End client_witness.
