(* ===== verification/DaserRows.v ===== *)
(** * What the sampling client makes of a row

    From the values the network returned for the segments of a row: which segments are
    accepted, when the row is declared available, and that an available row is returned
    complete. *)

From S2P Require Import Prelude Codec DasDb KzgLib KzgIndex KzgToy DasPrimitives Blob.
From S2P Require Import ErasureCoding RowRecovery CorePrimitives Reliability DasNetwork DaserNetwork.
Import DaserNetwork.

Lemma count_some_option_fmap {A B} (f : A -> B) (l : list (option A)) :
  count_some (fmap (M := option) f <$> l) = count_some l.
Proof.
  unfold count_some. induction l as [|[a|] l IH]; [done|..]; rewrite fmap_cons; simpl; [f_equal|]; done.
Qed.

Lemma count_some_le {A} (l : list (option A)) : (count_some l <= length l)%nat.
Proof.
  induction l as [|[a|] l IH]; [done|..].
  - change (count_some (Some a :: l)) with (S (count_some l)). simpl. lia.
  - change (count_some (None :: l)) with (count_some l). simpl. lia.
Qed.

Lemma count_some_lt {A} (l : list (option A)) : None ∈ l -> (count_some l < length l)%nat.
Proof.
  induction l as [|[a|] l IH]; intros Hin.
  - by apply not_elem_of_nil in Hin.
  - apply elem_of_cons in Hin as [|Hin]; [done|]. specialize (IH Hin).
    change (count_some (Some a :: l)) with (S (count_some l)). simpl. lia.
  - change (count_some (None :: l)) with (count_some l). pose proof (count_some_le l). simpl. lia.
Qed.

Section rows.
Context `{Platform} `{KzgLib} `{Codec Segment.SegmentData}.

(** A segment that verifies against the commitment. *)
Record authentic (kzg : KZG) (c : KZGCommitment) (s : Segment.t) : Prop := {
  authentic_checked : Segment.checked s = Ok s;
  authentic_verify : Segment.verify s kzg c SEGMENTS_PER_BLOB = Ok true
}.

(** Conditions on what the network returned for a position, not on the library.  The library
    may panic on segments with more scalars than its settings have powers for: none of the
    values is of that kind.  Openings of a commitment to other values exist but are hard to
    find: none of the values is one. *)
Definition harmless (kzg : KZG) (c : KZGCommitment) (p : Position) (values : option (list bytes)) : Prop :=
  forall vs v d, values = Some vs -> v ∈ vs -> decode_all v = Some d ->
    Segment.checked (Segment.mk p d) = Ok (Segment.mk p d) ->
    Segment.verify (Segment.mk p d) kzg c SEGMENTS_PER_BLOB <> Panic.
Definition unforged (kzg : KZG) (c : KZGCommitment) (s : Segment.t) (values : option (list bytes)) : Prop :=
  forall vs v d, values = Some vs -> v ∈ vs -> decode_all v = Some d ->
    let s' := Segment.mk (Segment.position s) d in Segment.checked s' = Ok s' ->
    Segment.verify s' kzg c SEGMENTS_PER_BLOB = Ok true -> d = Segment.content s.
Definition honest_values (kzg : KZG) (c : KZGCommitment) (values : option (list bytes)) (s : Segment.t) : Prop :=
  harmless kzg c (Segment.position s) values /\ unforged kzg c s values.

(** The network returned the segment's data among other values. *)
Definition carries (values : option (list bytes)) (s : Segment.t) : Prop :=
  exists vs, values = Some vs /\ Exists (fun v => decode_all v = Some (Segment.content s)) vs.
#[export] Instance carries_dec values s : Decision (carries values s).
Proof.
  destruct values as [vs|]; [|right; by intros (? & ? & ?)].
  destruct (decide (Exists (fun v => decode_all v = Some (Segment.content s)) vs)) as [He|He];
    [left; by exists vs|right; intros (? & [= <-] & ?); done].
Defined.

Definition accepted (values : option (list bytes)) (s : Segment.t) : option Segment.t :=
  if decide (carries values s) then Some s else None.

Lemma checked_self s s' : Segment.checked s = Ok s' -> s' = s.
Proof. unfold Segment.checked. repeat case_match; congruence. Qed.

Lemma checked_no_panic s : Segment.checked s <> Panic.
Proof. unfold Segment.checked. by repeat case_match. Qed.

Lemma verify_value_spec kzg c s v : authentic kzg c s -> honest_values kzg c (Some [v]) s ->
  verify_value kzg c (Segment.position s) v
  = Ok (if decide (decode_all v = Some (Segment.content s)) then Some s else None).
Proof.
  intros Ha [Hh Hu]. unfold verify_value. destruct (decode_all v) as [d|] eqn:Hd; [|by rewrite decide_False].
  specialize (Hh [v] v d eq_refl ltac:(left) Hd). specialize (Hu [v] v d eq_refl ltac:(left) Hd). cbv zeta in Hu.
  case_decide as Hc.
  - injection Hc as ->. destruct s as [p d]. simpl in *.
    by rewrite (authentic_checked _ _ _ Ha), (authentic_verify _ _ _ Ha).
  - destruct (Segment.checked _) as [s'| |] eqn:Hs; [|done|by apply checked_no_panic in Hs].
    apply checked_self in Hs as He. subst s'. specialize (Hh eq_refl).
    destruct (Segment.verify _ _ _ _) as [[|]| |] eqn:Hv; [|done..].
    destruct Hc. by rewrite (Hu eq_refl eq_refl).
Qed.

Lemma honest_values_sub kzg c s vs vs' : (forall v, v ∈ vs' -> v ∈ vs) ->
  honest_values kzg c (Some vs) s -> honest_values kzg c (Some vs') s.
Proof.
  intros Hsub [Hh Hu]. split; intros ? v d [= <-] Hv; [apply (Hh vs)|apply (Hu vs)]; by auto.
Qed.

Lemma verify_values_spec kzg c s vs : authentic kzg c s -> honest_values kzg c (Some vs) s ->
  verify_values kzg vs c (Segment.position s) = Ok (accepted (Some vs) s).
Proof.
  intros Ha. unfold accepted. induction vs as [|v vs IH]; intros Hh; cbn [verify_values].
  - rewrite decide_False; [done|]. intros (? & [= <-] & He). inversion He.
  - rewrite verify_value_spec; [|done|].
    2: { eapply honest_values_sub; [|exact Hh]. intros w ->%list_elem_of_singleton. left. }
    bind_simpl.
    destruct (decide (decode_all v = Some (Segment.content s))) as [Hv|Hv].
    + rewrite bool_decide_true by done. rewrite decide_True; [done|].
      exists (v :: vs). split; [done|by left].
    + rewrite IH by (eapply honest_values_sub; [|exact Hh]; by right). f_equal. apply decide_ext. split; intros (? & [= <-] & He);
        (eexists; split; [done|]); [by right|by inversion He].
Qed.

Section recovery.
Context `{!BitOrderLaws} `{!FftLaws} `{!RecoverLaws} `{!Fk20Laws}.

(** Recovery of a row given in order. *)
Lemma recovery_order_row_spec poly kzg y sz segs chunk_count (order : list (option Segment.t)) :
  poly_to_segment_vec poly kzg y (Z.of_nat sz) = Ok segs ->
  length (Crypto.coeffs poly) = (chunk_count * sz)%nat ->
  is_power_of_two (Z.of_nat chunk_count) = true -> Z.of_nat (length segs) <= 2 ^ 32 ->
  Forall2 agrees order segs -> (chunk_count <= count_some order)%nat ->
  (forall s, s ∈ segs -> is_ok (Crypto.compute_proof_multi kzg poly
      (Crypto.x (Segment.position s)) (Z.of_nat (length segs)) (Segment.size s)) = true) ->
  exists segs', ErasureCoding.recovery_order_row_from_segments order kzg = Ok segs' /\
    length segs' = length segs /\
    forall i d s s', order !! i = Some d -> segs !! i = Some s -> segs' !! i = Some s' ->
      recovered kzg poly (Z.of_nat (length segs)) (Segment.content <$> d) s s'.
Proof.
  intros Hs Hlen Hcc Hu Hag Hcnt Hpr.
  destruct (poly_segments_shape _ _ _ _ _ _ Hs Hlen Hu) as (Hsl & Hsz & Hshape).
  apply is_power_of_two_spec in Hcc as (k & Hk & Hcc).
  pose proof (Z.pow_pos_nonneg 2 k ltac:(lia) Hk) as Hpos.
  apply Forall2_length in Hag as Hol.
  destruct (recover_segment_datas_spec poly kzg y sz segs
    (fmap (M := list) (fmap (M := option) Segment.content) order) chunk_count (Z.of_nat (length segs)))
    as (segs' & Hr & Hl & Hrec); [done|done| | |done|].
  { apply Forall2_fmap_l. eapply Forall2_impl; [exact Hag|]. intros d s [->| ->]; [by left|by right]. }
  { by rewrite count_some_option_fmap. }
  exists segs'. split; [|split; [done|]].
  - unfold ErasureCoding.recovery_order_row_from_segments. rewrite Hol.
    replace (is_power_of_two _) with true.
    2: { symmetry. apply is_power_of_two_spec. exists (k + 1). split; [lia|].
         rewrite Hsl, Nat2Z.inj_mul, Hcc, Z.pow_add_r by lia. done. }
    assert (Hall : forall s, s ∈ omap (M := list) id order ->
        Crypto.y (Segment.position s) = wrap 32 y /\ Segment.size s = Z.of_nat sz).
    { intros s (d & Hd & Hds)%list_elem_of_omap. simpl in Hds. subst d.
      apply list_elem_of_lookup in Hd as [i Hi].
      destruct (Forall2_lookup_l _ _ _ _ _ Hag Hi) as (s' & Hs' & [Hn|He]); [done|injection He as <-].
      destruct (Hshape _ _ Hs') as [-> ->]. done. }
    simpl negb. cbv iota.
    destruct (omap (M := list) id order) as [|s0 rest] eqn:Ho.
    { unfold count_some in Hcnt. rewrite Ho in Hcnt. simpl in Hcnt. lia. }
    destruct (Hall s0) as [Hy0 Hs0]; [left|]. rewrite Hy0, Hs0, Nat2Z.id.
    rewrite (proj2 (forallb_forall _ rest)); [done|].
    intros s Hin%list_elem_of_In. destruct (Hall s) as [-> ->]; [by right|].
    by rewrite !Z.eqb_refl.
  - intros i d s s' Hd Hss Hs'. apply (Hrec i); [|done..]. rewrite list_lookup_fmap, Hd. done.
Qed.

(** How many segments of a row the network carries. *)
Definition carried (row : list (option (list bytes))) (segs : list Segment.t) : nat :=
  length (filter (fun '(v, s) => carries v s) (zip row segs)).

Lemma carried_count row segs : length row = length segs ->
  count_some (zip_with accepted row segs) = carried row segs.
Proof.
  unfold carried, count_some. revert segs. induction row as [|v row IH]; intros [|s segs] Hl; try done.
  simpl in *. rewrite filter_cons. unfold accepted at 1. simpl.
  destruct (decide (carries v s)) as [Hc|Hc]; simpl; [f_equal|]; apply IH; lia.
Qed.

Definition same_data (s : Segment.t) (o : option Segment.t) : Prop :=
  exists s', o = Some s' /\ Segment.position s' = Segment.position s /\
    Segment.data (Segment.content s') = Segment.data (Segment.content s).

Lemma verified_row kzg c segs (row : list (option (list bytes))) y :
  Forall (authentic kzg c) segs -> Forall2 (honest_values kzg c) row segs ->
  (forall i s, segs !! i = Some s -> Segment.position s = Crypto.mkPosition (Z.of_nat i) y) ->
  Z.of_nat (length segs) <= 2 ^ 32 ->
  mapM (M := res string) (fun '(x, values) =>
      match values with
      | Some values => verify_values kzg values c (Crypto.mkPosition (wrap 32 (Z.of_nat x)) y)
      | None => Ok None
      end) (enumerate row) = Ok (zip_with accepted row segs).
Proof.
  intros Ha Hh Hpos Hu. apply Forall2_length in Hh as Hl.
  apply mapM_res_Ok, Forall2_same_length_lookup. split.
  { rewrite length_enumerate, length_zip_with. lia. }
  intros i [i' v] o Hi Ho. rewrite lookup_enumerate in Hi. apply fmap_Some in Hi as (v' & Hv & [= -> ->]).
  rewrite lookup_zip_with, Hv in Ho. simpl in Ho. apply bind_Some in Ho as (s & Hs & [= <-]).
  apply lookup_lt_Some in Hs as Hlt. pose proof (Forall_lookup_1 _ _ _ _ Ha Hs) as Has.
  pose proof (Forall2_lookup_lr _ _ _ _ _ _ Hh Hv Hs) as Hhs. destruct v' as [vs|].
  - rewrite wrap_small by (unfold in_u; lia). rewrite <- (Hpos _ _ Hs). by apply verify_values_spec.
  - unfold accepted. rewrite decide_False; [done|]. by intros (? & ? & _).
Qed.

(** One row, whatever the network returned for it: with half of the segments or more it is
    declared available and comes back complete, in order; with fewer it is declared
    unavailable and exactly the carried segments come back. *)
Lemma rows_values_handler_spec poly kzg c y sz segs row chunk_count :
  poly_to_segment_vec poly kzg (Z.of_nat y) (Z.of_nat sz) = Ok segs ->
  length (Crypto.coeffs poly) = (chunk_count * sz)%nat ->
  is_power_of_two (Z.of_nat chunk_count) = true -> Z.of_nat (length segs) <= 2 ^ 32 ->
  Forall (authentic kzg c) segs -> Forall2 (honest_values kzg c) row segs ->
  (forall s, s ∈ segs -> is_ok (Crypto.compute_proof_multi kzg poly
      (Crypto.x (Segment.position s)) (Z.of_nat (length segs)) (Segment.size s)) = true) ->
  if decide (chunk_count <= carried row segs)%nat
  then exists out, rows_values_handler kzg row y c = Ok (out, true) /\ Forall2 same_data segs out
  else rows_values_handler kzg row y c = Ok (zip_with accepted row segs, false).
Proof.
  intros Hs Hlen Hcc Hu Ha Hh Hpr. apply Forall2_length in Hh as Hl.
  destruct (poly_segments_shape _ _ _ _ _ _ Hs Hlen Hu) as (Hsl & Hsz & Hshape).
  unfold rows_values_handler. rewrite (verified_row kzg c segs) by (done || intros; by apply Hshape).
  bind_simpl. rewrite carried_count by done. rewrite length_zip_with.
  replace (Nat.min (length row) (length segs)) with (chunk_count * 2)%nat by lia.
  rewrite Nat.div_mul by lia.
  assert (Hacc : Forall2 agrees (zip_with accepted row segs) segs).
  { apply Forall2_same_length_lookup. split; [rewrite length_zip_with; lia|].
    intros i o s Ho Hi. rewrite lookup_zip_with, Hi in Ho. apply bind_Some in Ho as (v & _ & [= <-]).
    unfold accepted. case_decide; [by right|by left]. }
  case_decide as Hd; [rewrite (proj2 (Nat.leb_le _ _)) by lia|rewrite (proj2 (Nat.leb_gt _ _)) by lia; done].
  simpl. destruct (carried row segs <? chunk_count * 2)%nat eqn:Hlt.
  - destruct (recovery_order_row_spec poly kzg (Z.of_nat y) sz segs chunk_count
      (zip_with accepted row segs)) as (segs' & Hr & Hl' & Hrec); [done..|by rewrite carried_count|done|].
    rewrite Hr. exists (Some <$> segs'). split; [done|]. apply Forall2_fmap_r.
    apply Forall2_same_length_lookup. split; [done|]. intros i s s' Hi Hi'.
    destruct (lookup_lt_is_Some_2 (zip_with accepted row segs) i) as [d Hdi].
    { apply Forall2_length in Hacc. apply lookup_lt_Some in Hi. lia. }
    destruct (Hrec i d s s' Hdi Hi Hi') as (Hp & Hdt & _). by exists s'.
  - eexists. split; [done|]. apply Nat.ltb_ge in Hlt.
    assert (Hn : None ∉ zip_with accepted row segs).
    { intros Hin%count_some_lt. rewrite carried_count, length_zip_with in Hin by done. lia. }
    rewrite (agrees_all_some _ _ Hacc Hn). apply Forall2_fmap_r, Forall_Forall2_diag.
    apply Forall_forall. intros s _. by exists s.
Qed.
End recovery.
End rows.
