(* ===== verification/DaserBlock.v ===== *)
(** * Fetching a block, publishing and fetching segments

    The key layout, the batched lookup and the row handlers composed: when a block is
    declared available and what comes back; and that published segments are fetched. *)

From S2P Require Import Prelude Codec DasDb KzgLib KzgIndex KzgToy DasPrimitives Blob.
From S2P Require Import ErasureCoding RowRecovery CorePrimitives Reliability DasNetwork DaserNetwork DaserRows.
Import DaserNetwork.

(** ** The service *)
Section service.
Context `{Requests Net}.

(** What the network answers for a key; a failed request is [None]. *)
Definition reply (net : Net) (key : bytes) : option (list bytes) :=
  match Service.get_value key net with Ok vs => Some vs | _ => None end.

Definition responsive (net : Net) : Prop := forall key, get_kad_record key net <> Panic.

Lemma get_value_reply net key : responsive net ->
  res_ok (F := string) (Service.get_value key net) = Ok (reply net key).
Proof.
  intros Hn. specialize (Hn key). unfold reply, Service.get_value.
  by destruct (get_kad_record key net).
Qed.

(** Batching does not change the answers: one per key, in order. *)
Lemma get_values_spec (self : Service.t) keys net :
  (0 < Service.parallel_limit self)%nat -> responsive net ->
  Service.get_values self keys net = Ok (reply net <$> keys).
Proof.
  intros Hl Hn. unfold Service.get_values.
  destruct (Service.parallel_limit self) as [|limit] eqn:He; [lia|].
  rewrite (mapM_res_Ok_total _ (fmap (M := list) (reply net))).
  - destruct keys; bind_simpl; f_equal; change (list_fmap _ _ (reply net)) with (map (reply net)); rewrite <- concat_map, concat_chunks by lia; done.
  - intros chunk _. apply mapM_res_Ok_total. intros key _. by apply get_value_reply.
Qed.
End service.

Section block.
Context `{Platform} `{KzgLib} `{Codec Position} `{Codec Segment.SegmentData}.
Context {Net : Type} `{!Requests Net}.
Context {Hash Header : Type} `{Codec Hash} `{!HeaderWithCommitment Z Hash Header}.
Context `{!BitOrderLaws} `{!FftLaws} `{!RecoverLaws} `{!Fk20Laws}.

(** The segments of row [y], built from a polynomial of a full blob; they verify, and proofs of
    the polynomial can be computed. *)
Definition honest_row (kzg : KZG) (y : nat) (c : KZGCommitment) (segs : list Segment.t) : Prop :=
  exists poly,
    poly_to_segment_vec poly kzg (Z.of_nat y) FIELD_ELEMENTS_PER_SEGMENT = Ok segs /\
    length (Crypto.coeffs poly) = Z.to_nat FIELD_ELEMENTS_PER_BLOB /\
    Forall (authentic kzg c) segs /\
    forall s, s ∈ segs -> is_ok (Crypto.compute_proof_multi kzg poly
      (Crypto.x (Segment.position s)) EXTENDED_SEGMENTS_PER_BLOB (Segment.size s)) = true.

Lemma honest_row_length kzg y c segs : honest_row kzg y c segs ->
  length segs = Z.to_nat EXTENDED_SEGMENTS_PER_BLOB.
Proof.
  intros (poly & Hs & Hl & _). apply poly_to_segment_vec_Ok in Hs as (_ & evals & _ & He & Hsegs).
  apply Forall2_length in Hsegs. rewrite length_enumerate, length_chunks, He, Hl in Hsegs by (apply Nat.ltb_lt; reflexivity).
  rewrite <- Hsegs. reflexivity.
Qed.

(** What the network answers for the keys of a submission with one blob. *)
Definition row_reply (net : Net) (l : AppLookup.t) : list (option (list bytes)) :=
  (fun x => reply net (sample_key (AppLookup.app_id l) (AppLookup.nonce l)
                         (Crypto.mkPosition x 0))) <$> row_xs.

Definition enough (row : list (option (list bytes))) (segs : list Segment.t) : Prop :=
  (Z.to_nat SEGMENTS_PER_BLOB <= carried row segs)%nat.

#[export] Instance enough_dec row segs : Decision (enough row segs).
Proof. unfold enough. apply _. Defined.

Lemma handler_honest kzg y c segs row : honest_row kzg y c segs -> Forall2 (honest_values kzg c) row segs ->
  if decide (enough row segs)
  then exists out, rows_values_handler kzg row y c = Ok (out, true) /\ Forall2 same_data segs out
  else exists out, rows_values_handler kzg row y c = Ok (out, false).
Proof.
  intros Hh Hr. pose proof (honest_row_length _ _ _ _ Hh) as Hsl.
  destruct Hh as (poly & Hs & Hl & Ha & Hp).
  pose proof (rows_values_handler_spec poly kzg c y (Z.to_nat FIELD_ELEMENTS_PER_SEGMENT) segs row
    (Z.to_nat SEGMENTS_PER_BLOB)) as Hspec.
  rewrite Hsl in Hspec.
  specialize (Hspec Hs Hl eq_refl ltac:(discriminate) Ha Hr Hp).
  destruct (decide (Z.to_nat SEGMENTS_PER_BLOB <= carried row segs)%nat) as [He|He].
  - by rewrite decide_True.
  - rewrite decide_False by done. by eexists.
Qed.

(** The loop over the rows of a block, stopping at the first row without enough data. *)
Lemma rows_loop_spec kzg cs : forall rows replies y acc,
  length replies = length rows ->
  (forall i segs r, rows !! i = Some segs -> replies !! i = Some r ->
     exists c, cs !! (y + i)%nat = Some c /\ honest_row kzg (y + i) c segs /\
       Forall2 (honest_values kzg c) r segs) ->
  exists out b, rows_loop kzg cs true y replies acc = Ok (acc ++ out, b) /\
    (b = true <-> Forall2 enough replies rows) /\
    (b = true -> Forall2 same_data (concat rows) out).
Proof.
  induction rows as [|segs rows IH]; intros [|r replies] y acc Hl Hrow; try done; simpl.
  - exists [], true. rewrite app_nil_r. split_and!; [done| |constructor]. split; [constructor|done].
  - destruct (Hrow 0%nat segs r eq_refl eq_refl) as (c & Hc & Hh & Hrl).
    rewrite Nat.add_0_r in Hc, Hh. rewrite Hc. bind_simpl.
    pose proof (handler_honest kzg y c segs r Hh Hrl) as Hsp. case_decide as He.
    + destruct Hsp as (out & Ho & Hd). rewrite Ho. bind_simpl. simpl.
      destruct (IH replies (S y) (acc ++ out)) as (out' & b & Hr & Hb & Hs); [simpl in Hl; lia| |].
      { intros i segs' r' Hi Hi'. destruct (Hrow (S i) segs' r' Hi Hi') as (c' & Hc' & Hh' & Hrl').
        rewrite <- plus_n_Sm in Hc', Hh'. eauto. }
      exists (out ++ out'), b. rewrite Hr, app_assoc. split_and!; [done| |].
      * rewrite Hb. split; [by constructor|by inversion 1].
      * intros Ht. by apply Forall2_app; [|apply Hs].
    + destruct Hsp as (out & Ho). rewrite Ho. bind_simpl. simpl.
      exists out, false. split_and!; [done| |done]. split; [done|by inversion 1].
Qed.

(** One key per column for every submission with a single blob. *)
Lemma prepare_keys_single (header : Header) :
  Forall (fun l => AppLookup.count l = 1) (HeaderExtension.app_lookup (hwc_extension header)) ->
  prepare_keys header = Ok (concat ((fun l =>
    (fun x => sample_key (AppLookup.app_id l) (AppLookup.nonce l) (Crypto.mkPosition x 0)) <$> row_xs)
    <$> HeaderExtension.app_lookup (hwc_extension header))).
Proof.
  intros Hl. unfold prepare_keys. f_equal.
  induction Hl as [|l ls Hc _ IH]; [done|]. rewrite bind_cons, fmap_cons, IH, concat_cons. f_equal.
  rewrite Hc. assert (Hx : Forall (fun x => wrap 32 x = x) row_xs) by by_decision.
  clear IH. revert Hx. generalize row_xs. induction 1 as [|x xs Hx _ IH]; [done|].
  rewrite bind_cons, fmap_cons, IH. simpl. by rewrite Hx.
Qed.

(** C10: When a block counts as available: for a block whose submissions have one blob each,
    and a network on which no value is a forged opening of a row's commitment or makes the
    library's check panic, [fetch_block] does not fail; it reports availability exactly when
    the network carries at least half of the segments of every row, and then returns every
    segment of every row, in order, with its position and data - those the network did not
    carry included. *)
Theorem fetch_block_available (self : DaserNetwork.t) (header : Header) (net : Net) cs
    (rows : list (list Segment.t)) :
  let lookups := HeaderExtension.app_lookup (hwc_extension header) in
  hwc_commitments header = Some cs ->
  Forall (fun l => AppLookup.count l = 1) lookups ->
  length lookups = length cs -> length rows = length cs ->
  (forall y c segs, cs !! y = Some c -> rows !! y = Some segs -> honest_row (kzg self) y c segs) ->
  (forall y c segs l, cs !! y = Some c -> rows !! y = Some segs -> lookups !! y = Some l ->
     Forall2 (honest_values (kzg self) c) (row_reply net l) segs) ->
  (0 < Service.parallel_limit (network self))%nat -> responsive net ->
  exists out b, fetch_block self header net = Ok (out, b) /\
    (b = true <-> Forall2 enough (row_reply net <$> lookups) rows) /\
    (b = true -> Forall2 same_data (concat rows) out).
Proof.
  intros lookups Hcs Hone Hll Hrl Hrow Hvals Hlim Hnet. unfold fetch_block. rewrite Hcs. bind_simpl.
  rewrite prepare_keys_single by done. bind_simpl. rewrite get_values_spec by done. bind_simpl.
  fold lookups. unfold rows_values_set_handler.
  assert (Hv : reply net <$> concat ((fun l =>
      (fun x => sample_key (AppLookup.app_id l) (AppLookup.nonce l) (Crypto.mkPosition x 0)) <$> row_xs)
      <$> lookups) = concat (row_reply net <$> lookups)).
  { clear. induction lookups as [|l ls IH]; [done|]. rewrite !fmap_cons, !concat_cons, fmap_app, IH.
    f_equal. }
  rewrite Hv. clear Hv.
  assert (Hlen : Forall (fun r => length r = Z.to_nat EXTENDED_SEGMENTS_PER_BLOB)
      (row_reply net <$> lookups)).
  { apply Forall_fmap, Forall_forall. intros l _. unfold compose, row_reply, row_xs.
    by rewrite !length_fmap, length_seq. }
  destruct (decide (cs = [])) as [->|Hne].
  { destruct lookups; [|done]. destruct rows; [|done]. simpl. exists [], true.
    split_and!; [done| |constructor]. split; [constructor|done]. }
  rewrite !bool_decide_false; [|done|].
  2: { destruct lookups as [|l ls]; [by destruct cs|]. inversion Hlen as [|r rs Hr]; simplify_eq.
       simpl concat. destruct (row_reply net l); [|done]. by vm_compute in Hr. }
  simpl orb. cbv iota.
  rewrite chunks_concat; [|by apply Nat.ltb_lt; vm_compute|done].
  apply (rows_loop_spec (kzg self) cs rows (row_reply net <$> lookups) 0 []).
  - rewrite length_fmap. lia.
  - intros y segs r Hs Hr. destruct (lookup_lt_is_Some_2 cs y) as [c Hc].
    { apply lookup_lt_Some in Hs. lia. }
    exists c. split; [done|]. split; [exact (Hrow y c segs Hc Hs)|].
    rewrite list_lookup_fmap in Hr. apply fmap_Some in Hr as (l & Hl & ->). exact (Hvals y c segs l Hc Hs Hl).
Qed.

(** With the domain of the embedded settings, as wide as an extended row, asking for a
    position in a row of twice as many chunks always gives position 0. *)
Lemma kzg_index_extended kzg i :
  (13 < usize_bits)%nat -> Crypto.max_width kzg = FIELD_ELEMENTS_PER_BLOB * 2 ->
  Crypto.kzg_index kzg EXTENDED_SEGMENTS_PER_BLOB i FIELD_ELEMENTS_PER_SEGMENT = Ok 0.
Proof.
  intros Hw Hm. unfold Crypto.kzg_index, get_kzg_index. rewrite Hm.
  assert (Hp : 2 ^ 13 < 2 ^ Z.of_nat usize_bits) by (apply Z.pow_lt_mono_r; lia).
  rewrite (wrap_small _ (2 * _ * _)) by (split; [done|exact Hp]).
  change (FIELD_ELEMENTS_PER_BLOB * 2 / _) with 0. rewrite Z.mul_0_r. done.
Qed.

Lemma kzg_index_row kzg i :
  (13 < usize_bits)%nat -> Crypto.max_width kzg = FIELD_ELEMENTS_PER_BLOB * 2 ->
  0 <= i < EXTENDED_SEGMENTS_PER_BLOB ->
  Crypto.kzg_index kzg SEGMENTS_PER_BLOB i FIELD_ELEMENTS_PER_SEGMENT = Ok (reverse_bits 8 i).
Proof.
  intros Hw Hm Hi. unfold Crypto.kzg_index. rewrite Hm.
  assert (Hp : 2 ^ 13 < 2 ^ Z.of_nat usize_bits) by (apply Z.pow_lt_mono_r; lia).
  change SEGMENTS_PER_BLOB with (2 ^ Z.of_nat 7).
  assert (Hm' : FIELD_ELEMENTS_PER_BLOB * 2 < 2 ^ Z.of_nat usize_bits)
    by (eapply Z.lt_trans; [|exact Hp]; done).
  rewrite (get_kzg_index_val _ 7 _ _ _ 1) by (done || lia). by rewrite Z.mul_1_r.
Qed.

(** C37: With the embedded settings, row recovery in the sampling client gives every missing
    segment the proof of segment 0: [recovery_order_row_from_segments] passes the number
    of segments of the extended row where the number before extension is meant.  The data
    is right (see [fetch_block_available]), but the point at which the proof of another
    segment is checked differs from the point of the proof it was given. *)
Theorem recovered_proof_of_first poly kzg y segs (order : list (option Segment.t)) segs' i s' :
  (13 < usize_bits)%nat -> Crypto.max_width kzg = FIELD_ELEMENTS_PER_BLOB * 2 ->
  poly_to_segment_vec poly kzg y FIELD_ELEMENTS_PER_SEGMENT = Ok segs ->
  length (Crypto.coeffs poly) = Z.to_nat FIELD_ELEMENTS_PER_BLOB ->
  Forall2 agrees order segs -> (Z.to_nat SEGMENTS_PER_BLOB <= count_some order)%nat ->
  (forall s, s ∈ segs -> is_ok (Crypto.compute_proof_multi kzg poly
      (Crypto.x (Segment.position s)) EXTENDED_SEGMENTS_PER_BLOB (Segment.size s)) = true) ->
  ErasureCoding.recovery_order_row_from_segments order kzg = Ok segs' ->
  order !! i = Some None -> segs' !! i = Some s' ->
  Crypto.compute_proof_multi kzg poly 0 SEGMENTS_PER_BLOB FIELD_ELEMENTS_PER_SEGMENT
    = Ok (Segment.proof (Segment.content s')) /\
  (i <> 0%nat -> exists p, p <> 0 /\
     Crypto.kzg_index kzg SEGMENTS_PER_BLOB (Z.of_nat i) FIELD_ELEMENTS_PER_SEGMENT = Ok p).
Proof.
  intros Hw Hm Hs Hl Hag Hc Hp Hr Hi Hi'.
  assert (Hsl : length segs = Z.to_nat EXTENDED_SEGMENTS_PER_BLOB).
  { apply poly_to_segment_vec_Ok in Hs as (_ & evals & _ & He & Hsegs). apply Forall2_length in Hsegs.
    rewrite length_enumerate, length_chunks, He, Hl in Hsegs by (apply Nat.ltb_lt; reflexivity).
    rewrite <- Hsegs. reflexivity. }
  destruct (recovery_order_row_spec poly kzg y (Z.to_nat FIELD_ELEMENTS_PER_SEGMENT) segs
    (Z.to_nat SEGMENTS_PER_BLOB) order) as (segs2 & Hr2 & Hl2 & Hrec); try done.
  { rewrite Hsl. discriminate. }
  { by rewrite Hsl. }
  rewrite Hr in Hr2. injection Hr2 as <-.
  apply lookup_lt_Some in Hi' as Hlt. rewrite Hl2 in Hlt.
  destruct (lookup_lt_is_Some_2 segs i Hlt) as [s Hss].
  destruct (Hrec i None s s' Hi Hss Hi') as (_ & _ & Hpr).
  destruct (poly_segments_shape poly kzg y (Z.to_nat FIELD_ELEMENTS_PER_SEGMENT) segs
    (Z.to_nat SEGMENTS_PER_BLOB)) as (_ & _ & Hshape); [done|done|rewrite Hsl; discriminate|].
  destruct (Hshape i s Hss) as [Hpos Hsz]. rewrite Hsz, Hsl in Hpr.
  unfold Crypto.compute_proof_multi in *. rewrite kzg_index_row by (done || lia).
  change (Z.of_nat (Z.to_nat FIELD_ELEMENTS_PER_SEGMENT)) with FIELD_ELEMENTS_PER_SEGMENT in Hpr.
  change (Z.of_nat (Z.to_nat EXTENDED_SEGMENTS_PER_BLOB)) with EXTENDED_SEGMENTS_PER_BLOB in Hpr.
  rewrite kzg_index_extended in Hpr by done. rewrite reverse_bits_0. split; [exact Hpr|].
  intros Hne. assert (Hi2 : 0 <= Z.of_nat i < EXTENDED_SEGMENTS_PER_BLOB).
  { rewrite Hsl in Hlt. lia. }
  exists (reverse_bits 8 (Z.of_nat i)). split; [|by apply kzg_index_row].
  intros Hz. apply Hne. rewrite <- (Nat2Z.id i), <- (reverse_bits_involutive 8 (Z.of_nat i)) by exact Hi2.
  by rewrite Hz, reverse_bits_0.
Qed.
End block.

(** ** Publishing *)

(** A lookup finds the record last put under the key, and no other key is touched. *)
Class RequestLaws (Net : Type) `{Requests Net} : Prop := {
  get_put_same : forall r q (net : Net), (put_kad_record r q net).1 = Ok tt ->
    get_kad_record (rec_key r) (put_kad_record r q net).2 = Ok [r];
  get_put_other : forall r q (net : Net) key, key <> rec_key r ->
    get_kad_record key (put_kad_record r q net).2 = get_kad_record key net
}.

Section publish.
Context `{Platform} `{KzgLib} `{Codec Position} `{!CodecLaws Position}.
Context `{Codec Segment.SegmentData} `{!CodecLaws Segment.SegmentData}.
Context {Net : Type} `{!Requests Net} `{!RequestLaws Net}.

(** Every store request reaches its quorum. *)
Definition connected : Prop := forall r q (net : Net), (put_kad_record r q net).1 = Ok tt.

Lemma put_values_get (kvs : list (bytes * bytes)) : connected -> NoDup kvs.*1 ->
  forall net key,
  Service.get_value key (Service.put_values kvs net).2
  = match list_find (fun kv => kv.1 = key) kvs with
    | Some (_, (_, v)) => Ok [v]
    | None => Service.get_value key net
    end.
Proof.
  intros Hc. unfold Service.put_values. simpl.
  induction kvs as [|[k v] kvs IH]; intros Hnd net key; [done|]. simpl in Hnd.
  apply NoDup_cons in Hnd as [Hk Hnd]. cbn [fold_left]. rewrite IH by done.
  cbn [list_find]. destruct (decide (k = key)) as [->|Hne].
  - rewrite decide_True by done. assert (list_find (fun kv => kv.1 = key) kvs = None) as ->.
    { apply list_find_None, Forall_forall. intros [k' v'] Hin He. simpl in He. subst k'.
      apply Hk. apply list_elem_of_fmap. by exists (key, v'). }
    unfold Service.get_value, Service.put_value.
    rewrite (get_put_same (mkRecord key v)) by apply Hc. done.
  - rewrite decide_False by done.
    destruct (list_find (fun kv => kv.1 = key) kvs) as [[i [k' v']]|] eqn:Hf; simpl; [done|].
    unfold Service.get_value, Service.put_value. rewrite get_put_other; [done|]. simpl. congruence.
Qed.

Lemma sample_key_inj a n a' n' p p' : in_u 32 a -> in_u 32 n -> in_u 32 a' -> in_u 32 n' ->
  wf p -> wf p' -> sample_key a n p = sample_key a' n' p' -> a = a' /\ n = n' /\ p = p'.
Proof.
  intros Ha Hn Ha' Hn' Hp Hp' He. unfold sample_key in He.
  apply app_inj_1 in He as [Hq1 He]; [|by rewrite !length_to_be_bytes].
  apply app_inj_1 in He as [Hq2 He]; [|by rewrite !length_to_be_bytes].
  apply to_be_bytes_inj in Hq1, Hq2; [|done..]. by apply scale_encode_inj in He.
Qed.

(** After publication the keys of a submission's segments hold these segments, and the
    keys of other submissions what they held before. *)
Lemma put_app_segments_reply (self : DaserNetwork.t) segs app_id nonce (net : Net) :
  connected -> in_u 32 app_id -> in_u 32 nonce ->
  NoDup (Segment.position <$> segs) -> Forall (fun s => wf (Segment.position s)) segs ->
  let net' := (put_app_segments self segs app_id nonce net).2 in
  (forall s, s ∈ segs ->
     Service.get_value (sample_key app_id nonce (Segment.position s)) net' = Ok [scale_encode (Segment.content s)]) /\
  forall app_id' nonce' p, in_u 32 app_id' -> in_u 32 nonce' -> wf p -> (app_id', nonce') <> (app_id, nonce) ->
    Service.get_value (sample_key app_id' nonce' p) net' = Service.get_value (sample_key app_id' nonce' p) net.
Proof.
  intros Hc Ha Hn Hnd Hwf net'.
  set (kvs := (fun segment => (sample_key app_id nonce (Segment.position segment),
      scale_encode (Segment.content segment))) <$> segs).
  assert (Hkeys : NoDup kvs.*1).
  { assert (kvs.*1 = sample_key app_id nonce <$> (Segment.position <$> segs)) as ->
      by (unfold kvs; by rewrite <- !list_fmap_compose).
    apply NoDup_fmap_2_strong; [|done]. intros p p' Hp Hp' He.
    apply list_elem_of_fmap in Hp as (s1 & -> & Hs1). apply list_elem_of_fmap in Hp' as (s2 & -> & Hs2).
    rewrite Forall_forall in Hwf. by apply sample_key_inj in He as (_ & _ & ->); auto. }
  pose proof (put_values_get kvs Hc Hkeys net) as Hget. fold net' in Hget.
  unfold net', put_app_segments. fold kvs. split.
  - intros s Hs. rewrite Hget. destruct (list_find _ kvs) as [[i [k v]]|] eqn:Hf.
    + apply list_find_Some in Hf as (Hi & Hk & _). simpl in Hk. subst k. do 2 f_equal.
      unfold kvs in Hi. rewrite list_lookup_fmap in Hi. apply fmap_Some in Hi as (s' & Hs' & Hkv).
      pose proof (f_equal fst Hkv) as Hk. pose proof (f_equal snd Hkv) as Hval. simpl in Hk, Hval.
      apply list_elem_of_lookup in Hs as [j Hj]. rewrite Forall_forall in Hwf.
      apply sample_key_inj in Hk as (_ & _ & Hp); [|done..|apply Hwf; by eapply list_elem_of_lookup_2
        |apply Hwf; by eapply list_elem_of_lookup_2].
      assert (i = j) as -> by (eapply (NoDup_lookup (Segment.position <$> segs));
        [done|by rewrite list_lookup_fmap, Hs'|rewrite list_lookup_fmap, Hj; simpl; by rewrite Hp]).
      congruence.
    + apply list_find_None in Hf. exfalso. rewrite Forall_forall in Hf.
      eapply (Hf (_, _)); [apply list_elem_of_fmap; by exists s|done].
  - intros app_id' nonce' p Ha' Hn' Hp Hne. rewrite Hget.
    assert (list_find (fun kv => kv.1 = sample_key app_id' nonce' p) kvs = None) as ->; [|done].
    apply list_find_None, Forall_forall. intros kv Hkv Hk. apply Hne.
    apply list_elem_of_fmap in Hkv as (s' & -> & Hs'). simpl in Hk. rewrite Forall_forall in Hwf.
    apply sample_key_inj in Hk as (-> & -> & _); auto.
Qed.

(** A value that is a genuine segment is accepted. *)
Lemma fetch_stored (self : DaserNetwork.t) key (net : Net) s c :
  Service.get_value key net = Ok [scale_encode (Segment.content s)] ->
  wf (Segment.content s) -> Segment.checked s = Ok s ->
  Segment.verify s (kzg self) c SEGMENTS_PER_BLOB = Ok true ->
  fetch_value self key (Segment.position s) c net = Ok (Some (Segment.content s)) /\
  harmless (kzg self) c (Segment.position s) (reply net key).
Proof.
  intros Hg Hws Hck Hv. split.
  - unfold fetch_value. rewrite Hg. bind_simpl. simpl. unfold verify_value. rewrite decode_all_encode by done.
    destruct s as [p d]. simpl in *. rewrite Hck, Hv. bind_simpl. by rewrite bool_decide_true.
  - intros vs v d Hr Hin Hd _. unfold reply in Hr. rewrite Hg in Hr. injection Hr as <-.
    apply list_elem_of_singleton in Hin as ->. rewrite decode_all_encode in Hd by done. injection Hd as <-.
    destruct s as [p d]. simpl in *. by rewrite Hv.
Qed.

(** What is published is fetched: after the segments of a submission are put on a
    connected network, [fetch_segment_data] returns the data of each of them that verifies
    against the commitment it is asked with; and the data of every other submission is
    fetched as before. *)
Theorem publish_fetch (self : DaserNetwork.t) segs app_id nonce (net : Net) s c :
  connected -> in_u 32 app_id -> in_u 32 nonce ->
  NoDup (Segment.position <$> segs) -> Forall (fun s => wf (Segment.position s)) segs ->
  s ∈ segs -> wf (Segment.content s) -> Segment.checked s = Ok s ->
  Segment.verify s (kzg self) c SEGMENTS_PER_BLOB = Ok true ->
  let net' := (put_app_segments self segs app_id nonce net).2 in
  fetch_segment_data self app_id nonce (Segment.position s) c net' = Ok (Some (Segment.content s)) /\
  forall app_id' nonce' p c', in_u 32 app_id' -> in_u 32 nonce' -> wf p ->
    (app_id', nonce') <> (app_id, nonce) ->
    fetch_segment_data self app_id' nonce' p c' net' = fetch_segment_data self app_id' nonce' p c' net.
Proof.
  intros Hc Ha Hn Hnd Hwf Hs Hws Hck Hv.
  destruct (put_app_segments_reply self segs app_id nonce net Hc Ha Hn Hnd Hwf) as [Hin Hout]. split.
  - by apply (fetch_stored self _ _ s c (Hin s Hs)).
  - intros app_id' nonce' p c' Ha' Hn' Hp Hne. unfold fetch_segment_data, fetch_value. by rewrite Hout.
Qed.
End publish.
