(* ===== verification/Daser.v ===== *)
(** * The sampling client ([crates/daser/src/client.rs], [crates/daser/src/tx_pool_handler.rs])

    [SamplingClient] draws samples for a submission or a block, fetches them, and stores
    the record of successes in the database the validators read.  [TxPoolListener] reacts
    to transactions, new best blocks and finality.  The state is the database and the
    network; sampling draws from the random source of [Reliability], so its result is an
    option for the fuel of the drawing loop. *)

From S2P Require Import Prelude Codec DasDb KzgLib KzgIndex KzgToy DasPrimitives Blob.
From S2P Require Import ErasureCoding CorePrimitives Reliability Sidecar DasNetwork DaserNetwork.

(** b"sampled_at_last_block" *)
Definition LAST_AT_KEY : bytes :=
  [115; 97; 109; 112; 108; 101; 100; 95; 97; 116; 95; 108; 97; 115; 116; 95; 98; 108; 111; 99; 107].

Module SamplingClient.
Section client.
Context `{Platform} `{KzgLib} `{PermillLib} `{RngLib} `{Codec Position} `{Codec Segment.SegmentData}.
Context {Net : Type} `{!Requests Net}.
Context {Hash Header : Type} `{Codec Hash} `{!HeaderWithCommitment Z Hash Header}.
Context {DB : Type} `{!DasKv DB} `{Codec Reliability.t} `{Codec LastProcessedBlock} `{Codec Z}.

(** Outcome of an operation on the database; [None] while the drawing loop still runs. *)
Abbreviation Out := (option (res string unit * DB)).

(** The loop of [sample] over samples and commitments, as long as both last. *)
Fixpoint sample_all (network : DaserNetwork.t) (net : Net) (samples : list Sample)
    (commitments : list KZGCommitment) : res string (list Sample) :=
  match samples, commitments with
  | sample :: samples, commitment :: commitments =>
      fetched ← DaserNetwork.fetch_sample network sample commitment net;
      let sample := match fetched with Some _ => sample_set_success sample | None => sample end in
      rest ← sample_all network net samples commitments;
      Ok (sample :: rest)
  | samples, _ => Ok samples
  end.

Definition sample (network : DaserNetwork.t) (net : Net) (confidence_id : bytes)
    (confidence : Reliability.t) (commitments : list KZGCommitment) (db : DB)
    : res string unit * DB :=
  match sample_all network net (Reliability.samples confidence) commitments with
  | Ok samples =>
      let confidence := Reliability.mk samples (Reliability.commitments confidence)
                          (Reliability.confidence_type confidence) in
      (Ok tt, Reliability.save confidence confidence_id db)
  | Err e => (Err e, db)
  | Panic => (Panic, db)
  end.

Definition set_last_at (last : Z) (block_hash : bytes) (db : DB) : DB :=
  let should_update :=
    match kv_get LAST_AT_KEY db with
    | Some bs => match decode_all bs with
                 | Some current_last => current_last <? last
                 | None => true
                 end
    | None => true
    end in
  if should_update
  then kv_set LATEST_PROCESSED_BLOCK_KEY (scale_encode (mkLast last block_hash)) db
  else db.

Definition last_at (db : DB) : Z :=
  default 0 (kv_get LAST_AT_KEY db ≫= fun bs => decode_all bs).

Definition sample_application (fuel : nat) (network : DaserNetwork.t) (net : Net)
    (app_id nonce : Z) (commitments : list KZGCommitment) (db : DB) : Out :=
  let id := app_confidence app_id nonce in
  let confidence := Reliability.new App commitments in
  let blob_count := length commitments in
  let n := blob_count in
  let app_lookups := [AppLookup.mk app_id nonce (wrap 16 (Z.of_nat blob_count))] in
  out ← Reliability.set_sample fuel n app_lookups None confidence;
  Some match out with
       | Ok (confidence, sample_commitments) => sample network net id confidence sample_commitments db
       | Err e => (Err e, db)
       | Panic => (Panic, db)
       end.

(** The part of [sample_block] for a header with commitments. *)
Definition sample_commitments (fuel : nat) (network : DaserNetwork.t) (net : Net) (header : Header)
    (commitments : list KZGCommitment) (db : DB) : Out :=
  let block_hash := DaserNetwork.hash_bytes header in
  let id := block_confidence block_hash in
  match extend_fs_g1 (Crypto.get_fs (DaserNetwork.kzg network)) commitments with
  | Ok extended_commits =>
      let confidence := Reliability.new Block extended_commits in
      let app_lookups := HeaderExtension.app_lookup (hwc_extension header) in
      out ← Reliability.set_sample fuel (Z.to_nat SAMPLES_PER_BLOCK) app_lookups (Some block_hash)
              confidence;
      Some match out with
           | Ok (confidence, sample_commitments) =>
               sample network net id confidence sample_commitments db
           | Err e => (Err e, db)
           | Panic => (Panic, db)
           end
  | Err e => Some (Err e, db)
  | Panic => Some (Panic, db)
  end.

Definition sample_block (fuel : nat) (network : DaserNetwork.t) (net : Net) (header : Header)
    (db : DB) : Out :=
  let block_hash := DaserNetwork.hash_bytes header in
  match hwc_commitments header with
  | None => Some (Err "Commitments not found in the header"%string, db)
  | Some commitments =>
      sampled ← (if bool_decide (commitments = []) then Some (Ok tt, db)
                 else sample_commitments fuel network net header commitments db);
      Some match sampled with
           | (Ok _, db) => (Ok tt, set_last_at (hwc_number header) block_hash db)
           | (r, db) => (r, db)
           end
  end.

(** [FetchData]. *)
Definition fetch_rows (network : DaserNetwork.t) (header : Header) (inds : list Z) (net : Net) :=
  DaserNetwork.fetch_rows network header inds net.
Definition fetch_cols (network : DaserNetwork.t) (header : Header) (inds : list Z) (net : Net) :=
  DaserNetwork.fetch_cols network header inds net.
End client.
End SamplingClient.

Module TxPoolListener.
Section listener.
Context `{Platform} `{KzgLib} `{PermillLib} `{RngLib} `{Codec Position} `{Codec Segment.SegmentData}.
Context {Net : Type} `{!Requests Net}.
Context {Hash Header : Type} `{Codec Hash} `{!HeaderWithCommitment Z Hash Header}.
Context {DB : Type} `{!DasKv DB} `{Codec Reliability.t} `{Codec LastProcessedBlock} `{Codec Z}.
Context (network : DaserNetwork.t).

(** [full_col]: the column [index] of a matrix stored by rows of [len]. *)
Definition full_col {T} (segments : list (option T)) (index len : nat) : res string (list T) :=
  foldM (fun col maybe_segment =>
    match maybe_segment with
    | Some segment => Ok (col ++ [segment])
    | None => Err "Col is not available"%string
    end) [] (step_by len (drop index segments)).

(** A ready transaction: [extract] is the runtime's answer.  Errors of a sampling are
    logged and the loop goes on; a panic ends the task. *)
Fixpoint sample_params (fuel : nat) (net : Net) (data : list SidecarMetadata.t) (db : DB)
    : option (res string unit * DB) :=
  match data with
  | [] => Some (Ok tt, db)
  | params :: data =>
      out ← SamplingClient.sample_application fuel network net (SidecarMetadata.app_id params)
              (SidecarMetadata.nonce params) (SidecarMetadata.commitments params) db;
      match out with
      | (Panic, db) => Some (Panic, db)
      | (_, db) => sample_params fuel net data db
      end
  end.
Definition on_transaction (fuel : nat) (net : Net) (extract : option (list SidecarMetadata.t)) (db : DB)
    : option (res string unit * DB) :=
  match extract with
  | Some data => sample_params fuel net data db
  | None => Some (Ok tt, db)
  end.

(** One column of the best block: errors are logged. *)
Definition publish_col (header : Header) (segments : list (option Segment.t)) (net : Net) (x : nat)
    : res string Net :=
  match full_col segments x (Z.to_nat EXTENDED_SEGMENTS_PER_BLOB) with
  | Ok col =>
      match DaserNetwork.extend_segments_col network col with
      | Ok col_ext => Ok (DaserNetwork.put_ext_segments network col_ext header net).2
      | Err _ => Ok net
      | Panic => Panic
      end
  | Err _ => Ok net
  | Panic => Panic
  end.

Definition on_best_block (is_new_best : bool) (header : Header) (net : Net) : res string Net :=
  if negb is_new_best then Ok net
  else
    match hwc_commitments header with
    | None | Some [] => Ok net
    | Some _ =>
        match DaserNetwork.fetch_block network header net with
        | Err _ => Ok net
        | Panic => Panic
        | Ok (segments, is_availability) =>
            if negb is_availability then Ok net
            else foldM (publish_col header segments) net
                   (seq 0 (Z.to_nat EXTENDED_SEGMENTS_PER_BLOB))
        end
    end.

(** The blocks a finality notification samples: [hash] and [header] of the client, [None]
    where either fails. *)
Definition to_block (block_number latest_sampled_block : Z) : Z :=
  Z.min block_number
    (Z.max (wrap 32 (latest_sampled_block + BLOCK_SAMPLE_LIMIT)) BLOCK_SAMPLE_LIMIT).
Definition finality_blocks (block_number latest_sampled_block : Z) : list Z :=
  let first := wrap 32 (latest_sampled_block + 1) in
  (fun i => first + Z.of_nat i) <$>
    seq 0 (Z.to_nat (to_block block_number latest_sampled_block - first)).
Definition sampling_tasks (chain : Z -> option Header) (block_number : Z) (db : DB) : list Header :=
  omap (M := list) chain (finality_blocks block_number (SamplingClient.last_at db)).

(** [FuturesUnordered]: the tasks complete in some order; the model runs them in the order
    of the list it is given. *)
Fixpoint run_tasks (fuel : nat) (net : Net) (tasks : list Header) (db : DB)
    : option (res string unit * DB) :=
  match tasks with
  | [] => Some (Ok tt, db)
  | header :: tasks =>
      out ← SamplingClient.sample_block fuel network net header db;
      match out with
      | (Panic, db) => Some (Panic, db)
      | (_, db) => run_tasks fuel net tasks db
      end
  end.
Definition on_finality (fuel : nat) (net : Net) (chain : Z -> option Header) (block_number : Z)
    (order : list Header -> list Header) (db : DB) : option (res string unit * DB) :=
  run_tasks fuel net (order (sampling_tasks chain block_number db)) db.
End listener.
End TxPoolListener.
