(* ===== verification/DaserProps.v ===== *)
(** * Properties of the sampling client and of the listener

    What a sampled submission's record says, end to end from the network to the database
    the validators read, and which blocks the listener ever samples. *)

From S2P Require Import Prelude Codec DasDb KzgLib KzgIndex KzgToy DasPrimitives Blob.
From S2P Require Import ErasureCoding CorePrimitives Reliability Sidecar DasNetwork DaserNetwork.
From S2P Require Import DaserRows DaserBlock Daser.

Section client.
Context `{Platform} `{KzgLib} `{PermillLib} `{!PermillLaws} `{RngLib} `{!RngLaws}.
Context `{Codec Position} `{Codec Segment.SegmentData}.
Context {Net : Type} `{!Requests Net}.
Context {DB : Type} `{!DasKv DB} `{!DasKvLaws DB} `{Codec Reliability.t} `{!CodecLaws Reliability.t}.
Implicit Types (self : DaserNetwork.t) (net : Net).

Lemma verify_values_total kzg vs c p : harmless kzg c p (Some vs) ->
  exists o, DaserNetwork.verify_values kzg vs c p = Ok o.
Proof.
  intros Ht. induction vs as [|v vs IH]; simpl; [by eexists|]. destruct IH as [o IH].
  { intros ? w d [= <-] Hw. apply (Ht (v :: vs)); [done|by right]. }
  assert (exists o', DaserNetwork.verify_value kzg c p v = Ok o') as [o' ->].
  { unfold DaserNetwork.verify_value. destruct (decode_all v) as [d|] eqn:Hd; [|by eexists].
    destruct (Segment.checked _) as [a| |] eqn:Hc; [|by eexists|by apply checked_no_panic in Hc].
    apply checked_self in Hc as Ha. subst a. pose proof (Ht (v :: vs) v d eq_refl ltac:(left) Hd Hc). destruct (Segment.verify _ _ _ _) as [b| |]; [by eexists..|done]. }
  bind_simpl. destruct o' as [s|]; [|by exists o]. case_bool_decide; [by eexists|by exists o].
Qed.

(** What fetching a sample yields. *)
Definition fetched self net (key : bytes) (p : Position) (c : KZGCommitment)
    : option Segment.SegmentData :=
  match DaserNetwork.fetch_value self key p c net with Ok o => o | _ => None end.

Lemma fetch_value_total self net key p c : harmless (DaserNetwork.kzg self) c p (reply net key) -> responsive net ->
  DaserNetwork.fetch_value self key p c net = Ok (fetched self net key p c).
Proof.
  intros Ht Hn. unfold fetched, DaserNetwork.fetch_value. rewrite get_value_reply by done. bind_simpl.
  destruct (reply net key) as [vs|]; [|done].
  by destruct (verify_values_total (DaserNetwork.kzg self) vs c p Ht) as [o ->].
Qed.

(** A sample after the attempt to fetch it. *)
Definition mark self net (s : Sample) (c : KZGCommitment) : Sample :=
  match fetched self net (sample_id s) (position s) c with
  | Some _ => sample_set_success s
  | None => s
  end.

(** No answer of the network for the sample makes the check panic. *)
Definition harmless_sample self net (s : Sample) (c : KZGCommitment) : Prop :=
  harmless (DaserNetwork.kzg self) c (position s) (reply net (sample_id s)).

Lemma sample_all_spec self net : responsive net ->
  forall samples cs, Forall2 (harmless_sample self net) samples cs ->
  SamplingClient.sample_all self net samples cs = Ok (zip_with (mark self net) samples cs).
Proof.
  intros Hn samples cs Hh. induction Hh as [|s c samples cs Hs _ IH]; [done|]. simpl.
  unfold DaserNetwork.fetch_sample. rewrite fetch_value_total by done. bind_simpl.
  rewrite IH. bind_simpl. reflexivity.
Qed.

(** The longest run when every sample, or none, is available. *)
Lemma success_fold_all l m c : Forall (fun s => sample_available s = true) l -> (c <= m)%nat ->
  (fold_left Reliability.success_step l (m, c)).1 = (m `max` (c + length l))%nat.
Proof.
  intros Hl. revert m c. induction Hl as [|s l Hs _ IH]; intros m c Hc; simpl; [lia|].
  rewrite Hs, IH by lia. lia.
Qed.

Lemma success_fold_none l m : Forall (fun s => sample_available s = false) l ->
  (fold_left Reliability.success_step l (m, 0%nat)).1 = m.
Proof. induction 1 as [|s l Hs _ IH]; simpl; [done|]. by rewrite Hs, IH. Qed.

Lemma app_available (r : Reliability.t) :
  Reliability.confidence_type r = App -> 0 < Z.of_nat (length (Reliability.samples r)) < 2 ^ 32 ->
  (Forall (fun s => sample_available s = true) (Reliability.samples r) ->
     Reliability.is_availability r = true) /\
  (Forall (fun s => sample_available s = false) (Reliability.samples r) ->
     Reliability.is_availability r = false).
Proof.
  intros Hty Hlen. unfold Reliability.is_availability, Reliability.success_count.
  rewrite Hty. simpl. unfold APP_AVAILABILITY_THRESHOLD_PERMILL.
  rewrite (wrap_small 32 (Z.of_nat (length _))) by (unfold in_u; lia).
  rewrite permill_mul_floor_parts by (unfold in_u; lia).
  split; intros Ha.
  - rewrite success_fold_all by (done || lia). simpl.
    rewrite wrap_small by (unfold in_u; lia). apply Z.ltb_lt. apply Z.div_lt_upper_bound; lia.
  - rewrite success_fold_none by done. apply Z.ltb_ge. rewrite wrap_small by done.
    apply Z.div_pos; lia.
Qed.

(** The data a submission's position can be fetched with. *)
Definition fetchable self net (app_id nonce : Z) (p : Position) (c : KZGCommitment) : Prop :=
  is_Some (fetched self net (sample_key app_id nonce p) p c).

Lemma mark_spec self net s c :
  position (mark self net s c) = position s /\ sample_id (mark self net s c) = sample_id s /\
  (sample_available s = false ->
   sample_available (mark self net s c) = true <-> is_Some (fetched self net (sample_id s) (position s) c)).
Proof.
  unfold mark. destruct (fetched _ _ _ _ _) eqn:Hf; simpl; split_and!; try done.
  intros ->. split; [done|]. by intros [? ?].
Qed.

(** The samples after the attempts to fetch them. *)
Lemma marked_samples self net cols (ext : list KZGCommitment) (P : bytes -> Position -> Prop) samples scs :
  Forall (fun s => in_matrix cols (position s) /\ sample_available s = false /\
    P (sample_id s) (position s)) samples ->
  Forall2 (fun s c => ext !! Z.to_nat (Crypto.y (position s)) = Some c) samples scs ->
  length (zip_with (mark self net) samples scs) = length samples /\
  position <$> zip_with (mark self net) samples scs = position <$> samples /\
  Forall (fun s => in_matrix cols (position s) /\ (exists c,
      ext !! Z.to_nat (Crypto.y (position s)) = Some c /\
      (sample_available s = true <-> is_Some (fetched self net (sample_id s) (position s) c))) /\
    P (sample_id s) (position s)) (zip_with (mark self net) samples scs).
Proof.
  intros Hall Hscs. induction Hscs as [|s c samples scs Hc Hscs IH]; [by split_and!|].
  apply Forall_cons in Hall as [(Hin & Hav & HP) Hall]. destruct (IH Hall) as (IHl & IHp & IHa).
  destruct (mark_spec self net s c) as (Hp & Hi & Hm). cbn [zip_with]. rewrite !fmap_cons.
  split_and!; [simpl; by f_equal|by rewrite Hp, IHp|]. constructor; [|done]. rewrite Hp, Hi. split_and!; [done| |done]. exists c. by rewrite Hm.
Qed.

(** A cell of a submission's extended matrix with the commitment of its row, and that no
    answer of the network for any cell makes the check panic. *)
Definition in_data (cs : list KZGCommitment) (p : Position) (c : KZGCommitment) : Prop :=
  in_matrix (Z.of_nat (length cs)) p /\ cs !! Z.to_nat (Crypto.y p) = Some c.
Definition harmless_cells self net (app_id nonce : Z) (cs : list KZGCommitment) : Prop :=
  forall p c, in_data cs p c ->
    harmless (DaserNetwork.kzg self) c p (reply net (sample_key app_id nonce p)).

(** What sampling a submission records. *)
Lemma sample_application_record self net app_id nonce cs (db : DB) :
  0 < Z.of_nat (length cs) < 2 ^ 32 -> fair cs ->
  harmless_cells self net app_id nonce cs -> responsive net ->
  exists fuel r,
    SamplingClient.sample_application fuel self net app_id nonce cs db
      = Some (Ok tt, Reliability.save r (app_confidence app_id nonce) db) /\
    Reliability.confidence_type r = App /\ length (Reliability.samples r) = length cs /\
    NoDup (position <$> Reliability.samples r) /\
    Forall (fun s => in_matrix (Z.of_nat (length cs)) (position s) /\
      exists c, cs !! Z.to_nat (Crypto.y (position s)) = Some c /\
        (sample_available s = true <-> fetchable self net app_id nonce (position s) c))
      (Reliability.samples r).
Proof.
  intros Hcs Hfair Ht Hn. set (ls := [AppLookup.mk app_id nonce (wrap 16 (Z.of_nat (length cs)))]).
  destruct (set_sample_live (length cs) ls None (Reliability.new App cs)) as (fuel & out & Hset & Hnp);
    [done|done|change EXTENDED_SEGMENTS_PER_BLOB with 256; simpl; lia|].
  destruct out as [[r scs]|e|]; [| |done].
  2: { exfalso. unfold Reliability.set_sample in Hset. simpl in Hset.
       rewrite wrap_small in Hset by (unfold in_u; lia). rewrite (proj2 (Z.eqb_neq _ _)) in Hset by lia.
       apply bind_Some in Hset as (o & Hd & [= Ho]).
       apply draw_positions_sound in Hd as (ps & acc & -> & _);
         [|done|by split_and!; [apply NoDup_nil_2|apply Forall_nil_2|constructor]|simpl; lia].
       simpl in Ho. rewrite (mapM_res_Ok_total _ (fun pos => mkSample (sample_key app_id nonce pos) pos false))
         in Ho by done. done. }
  pose proof (set_sample_spec fuel (length cs) ls None (Reliability.new App cs) r scs Hcs Hset)
    as (Hlen & Hnd & Hall & Hscs & _ & Hty). cbv zeta in *. simpl in Hscs, Hty, Hall.
  apply Forall2_length in Hscs as Hl.
  exists fuel, (Reliability.mk (zip_with (mark self net) (Reliability.samples r) scs)
    (Reliability.commitments r) (Reliability.confidence_type r)).
  unfold SamplingClient.sample_application. fold ls. rewrite Hset. simpl. unfold SamplingClient.sample.
  rewrite sample_all_spec; [|done|].
  2: { apply Forall2_same_length_lookup. split; [done|]. intros i s c Hs Hc.
       destruct (Forall_lookup_1 _ _ _ _ Hall Hs) as (Hm & _ & l & [= <-] & Hid).
       unfold harmless_sample. rewrite Hid. apply Ht. split; [done|].
       exact (Forall2_lookup_lr _ _ _ _ _ _ Hscs Hs Hc). }
  split; [done|]. split; [done|].
  destruct (marked_samples self net (Z.of_nat (length cs)) cs
    (fun id p => id = sample_key app_id nonce p) (Reliability.samples r) scs) as (Hml & Hmp & Hma); [|done|].
  { eapply Forall_impl; [exact Hall|]. intros s (? & ? & l & [= <-] & ?). done. }
  cbn [Reliability.samples]. rewrite Hml, Hmp. split_and!; [done..|].
  eapply Forall_impl; [exact Hma|]. intros s (Hin & (c & Hc & Hs) & Hid). split; [done|].
  exists c. split; [done|]. rewrite Hs. unfold fetchable. by rewrite Hid.
Qed.

(** C13: What sampling a submission says: with a fair random source and a network that
    answers, none of whose values for the submission makes the library's check panic,
    [sample_application] ends, and the record validators then read for the
    submission lists as many samples as it has blobs, at different positions, each
    marked available exactly when data that verifies against the commitment of its
    row was fetched.  If all data can be fetched the record counts as available; if none
    can, as unavailable. *)
Theorem sample_application_verdict self net app_id nonce cs (db : DB) :
  0 < Z.of_nat (length cs) < 2 ^ 32 -> fair cs ->
  harmless_cells self net app_id nonce cs -> responsive net ->
  exists fuel db' r,
    SamplingClient.sample_application fuel self net app_id nonce cs db = Some (Ok tt, db') /\
    get_confidence (app_confidence app_id nonce) db' = Some r /\
    length (Reliability.samples r) = length cs /\ NoDup (position <$> Reliability.samples r) /\
    Forall (fun s => exists c, cs !! Z.to_nat (Crypto.y (position s)) = Some c /\
        (sample_available s = true <-> fetchable self net app_id nonce (position s) c))
      (Reliability.samples r) /\
    ((forall p c, in_data cs p c -> fetchable self net app_id nonce p c) ->
       Reliability.is_availability r = true) /\
    ((forall p c, in_data cs p c -> ~ fetchable self net app_id nonce p c) ->
       Reliability.is_availability r = false).
Proof.
  intros Hcs Hfair Ht Hn.
  destruct (sample_application_record self net app_id nonce cs db Hcs Hfair Ht Hn)
    as (fuel & r & Hr & Hty & Hlen & Hnd & Hall).
  exists fuel, (Reliability.save r (app_confidence app_id nonce) db), r.
  destruct (app_available r Hty) as [Htrue Hfalse]; [rewrite Hlen; lia|].
  split; [done|]. split.
  { unfold get_confidence, Reliability.get, Reliability.save. rewrite kv_get_set_eq.
    apply decode_all_encode. unfold wf, Reliability.t_wf. eapply Forall_impl; [exact Hall|].
    intros s [[Hx Hy] _]. change EXTENDED_SEGMENTS_PER_BLOB with 256 in Hx.
    split; unfold in_u; lia. }
  cbv zeta. split_and!; [done|done| | |].
  - eapply Forall_impl; [exact Hall|]. by intros s [_ Hs].
  - intros Hf. apply Htrue. eapply Forall_impl; [exact Hall|]. intros s (Hm & c & Hc & Hs). by apply Hs, Hf.
  - intros Hf. apply Hfalse. eapply Forall_impl; [exact Hall|]. intros s (Hm & c & Hc & Hs).
    apply not_true_is_false. intros Hx%Hs. by apply (Hf (position s) c).
Qed.
End client.

(** ** The listener *)
Section listener.
Context `{Platform} `{KzgLib} `{PermillLib} `{RngLib} `{Codec Position} `{Codec Segment.SegmentData}.
Context {Net : Type} `{!Requests Net}.
Context {Hash Header : Type} `{Codec Hash} `{!HeaderWithCommitment Z Hash Header}.
Context {DB : Type} `{!DasKv DB} `{!DasKvLaws DB} `{Codec Reliability.t}.
Context `{Codec LastProcessedBlock} `{Codec Z}.
Context (network : DaserNetwork.t).
(** Block hashes are 32 bytes. *)
Context (Hhash : forall h : Header, length (DaserNetwork.hash_bytes h) = 32%nat).

(** One notification, with whatever network state and outcome. *)
Inductive listener_step : DB -> DB -> Prop :=
| listen_transaction fuel net extract db r db' :
    TxPoolListener.on_transaction network fuel net extract db = Some (r, db') -> listener_step db db'
| listen_best_block db : listener_step db db
| listen_finality fuel net chain n order db r db' :
    TxPoolListener.on_finality network fuel net chain n order db = Some (r, db') -> listener_step db db'.

Lemma save_last_at (r : Reliability.t) id (db : DB) : length id <> length LAST_AT_KEY ->
  kv_get LAST_AT_KEY (Reliability.save r id db) = kv_get LAST_AT_KEY db.
Proof. intros Hl. apply kv_get_set_ne. by intros ->. Qed.

Lemma sample_last_at net id r cs (db : DB) : length id <> length LAST_AT_KEY ->
  kv_get LAST_AT_KEY (SamplingClient.sample network net id r cs db).2 = kv_get LAST_AT_KEY db.
Proof.
  intros Hl. unfold SamplingClient.sample.
  destruct (SamplingClient.sample_all _ _ _ _); simpl; [by apply save_last_at|done..].
Qed.

Lemma sample_application_last_at fuel net a n cs (db : DB) out :
  SamplingClient.sample_application fuel network net a n cs db = Some out ->
  kv_get LAST_AT_KEY out.2 = kv_get LAST_AT_KEY db.
Proof.
  unfold SamplingClient.sample_application. intros (o & _ & [= <-])%bind_Some.
  destruct o as [[r scs]| |]; [|done..]. apply sample_last_at.
  unfold app_confidence. by rewrite length_app, !length_to_be_bytes.
Qed.

Lemma set_last_at_last_at n h (db : DB) :
  kv_get LAST_AT_KEY (SamplingClient.set_last_at n h db) = kv_get LAST_AT_KEY db.
Proof. unfold SamplingClient.set_last_at. case_match; [|done]. by apply kv_get_set_ne. Qed.

Lemma sample_commitments_last_at fuel net (h : Header) cs (db : DB) out :
  SamplingClient.sample_commitments fuel network net h cs db = Some out ->
  kv_get LAST_AT_KEY out.2 = kv_get LAST_AT_KEY db.
Proof.
  unfold SamplingClient.sample_commitments.
  destruct (extend_fs_g1 _ _) as [ext| |]; [|by intros [= <-]..].
  intros (o & _ & [= <-])%bind_Some. destruct o as [[r scs]| |]; [|done..].
  apply sample_last_at. unfold block_confidence. by rewrite Hhash.
Qed.

Lemma sample_block_last_at fuel net (h : Header) (db : DB) out :
  SamplingClient.sample_block fuel network net h db = Some out ->
  kv_get LAST_AT_KEY out.2 = kv_get LAST_AT_KEY db.
Proof.
  unfold SamplingClient.sample_block. destruct (hwc_commitments h) as [cs|]; [|by intros [= <-]].
  intros ([r db'] & Hs & [= <-])%bind_Some.
  assert (Hdb : kv_get LAST_AT_KEY db' = kv_get LAST_AT_KEY db).
  { case_bool_decide; [by simplify_eq|]. by apply sample_commitments_last_at in Hs. }
  destruct r; simpl; rewrite ?set_last_at_last_at; done.
Qed.

Lemma listener_step_last_at db db' : listener_step db db' ->
  kv_get LAST_AT_KEY db' = kv_get LAST_AT_KEY db.
Proof.
  destruct 1 as [fuel net extract db r db' Hd|db|fuel net chain n order db r db' Hd]; [|done|].
  - destruct extract as [data|]; simpl in Hd; [|by simplify_eq].
    revert db Hd. induction data as [|params data IH]; intros db; simpl; [by intros [= _ <-]|].
    intros ([o db1] & Hs & Hd)%bind_Some. apply sample_application_last_at in Hs. simpl in Hs.
    rewrite <- Hs. destruct o; [by apply IH..|by simplify_eq].
  - unfold TxPoolListener.on_finality in Hd. revert Hd.
    generalize (order (TxPoolListener.sampling_tasks chain n db)). intros tasks. revert db.
    induction tasks as [|h tasks IH]; intros db; simpl; [by intros [= _ <-]|].
    intros ([o db1] & Hs & Hd)%bind_Some. apply sample_block_last_at in Hs. simpl in Hs.
    rewrite <- Hs. destruct o; [by apply IH..|by simplify_eq].
Qed.

(** C36: The listener samples the first blocks only: [set_last_at] stores the progress
    under another key than the one [last_at] reads, so starting from a database without
    the latter, after any sequence of notifications a finalized block [n] makes the
    listener sample blocks 1 and 2, as far as they are below [n], and never another
    block. *)
Theorem listener_never_advances (db0 db : DB) (chain : Z -> option Header) n :
  kv_get LAST_AT_KEY db0 = None -> rtc listener_step db0 db ->
  TxPoolListener.sampling_tasks chain n db = omap (M := list) chain (filter (fun i => i < n) [1; 2]).
Proof.
  intros Hdb0 Hr. assert (Hl : kv_get LAST_AT_KEY db = None).
  { induction Hr as [|db1 db2 db3 Hs _ IH]; [done|]. apply IH. by rewrite (listener_step_last_at _ _ Hs). }
  unfold TxPoolListener.sampling_tasks, SamplingClient.last_at. rewrite Hl. f_equal. simpl.
  unfold TxPoolListener.finality_blocks, TxPoolListener.to_block.
  rewrite !wrap_small by done. change BLOCK_SAMPLE_LIMIT with 3.
  rewrite !filter_cons, filter_nil. simpl. repeat case_decide; try lia.
  - by rewrite Z.min_r by lia.
  - by replace (n `min` ((0 + 3) `max` 3)) with 2 by lia.
  - by replace (Z.to_nat (n `min` ((0 + 3) `max` 3) - (0 + 1))) with 0%nat by lia.
Qed.
End listener.
