(* ===== verification/DaserRuns.v ===== *)
(** * Concrete runs of the sampling client

    The ring with one element makes rows of full size (2048 scalars, 256 segments) cheap to
    evaluate: every scalar, group element and proof is equal, and a check accepts exactly
    the segments of sixteen scalars.  The properties of the sampling client are
    instantiated on a network that carries half of each row. *)

From S2P Require Import Prelude Codec DasDb KzgLib KzgIndex KzgToy DasPrimitives Blob.
From S2P Require Import ErasureCoding RowRecovery CorePrimitives Reliability Sidecar DasNetwork DaserNetwork.
From S2P Require Import DaserRows DaserBlock Daser DaserProps.

Definition unit_lib : KzgLib := {|
  FsFr := unit; FsG1 := unit; FsG2 := unit;
  FsFFTSettings := unit; FsKZGSettings := unit; FsFK20MultiSettings := unit;
  fr_default := tt; fr_zero := tt; g1_identity := tt; g1_is_valid _ := true;
  fr_to_bytes _ := []; fr_from_bytes _ := Ok tt; g1_to_bytes _ := []; g1_from_bytes _ := Ok tt;
  g2_from_bytes _ := Ok tt;
  fft_settings_new _ := Ok tt; fs_max_width _ := FIELD_ELEMENTS_PER_BLOB * 2;
  fft_fr _ l _ := Ok l; fft_g1 _ l _ := Ok l; das_fft_extension _ l := Ok l;
  reverse_bit_order A l := l;
  poly_new n := Ok (replicate (Z.to_nat n) tt); poly_eval _ _ := tt;
  recover_poly_from_samples s _ := Ok (replicate (length s) tt);
  recover_poly_coeffs_from_samples s _ := Ok (replicate (length s) tt);
  kzg_settings _ _ _ := tt; ks_fs _ := tt; ks_get_expanded_roots_of_unity_at _ _ := Ok tt;
  commit_to_poly _ _ := Ok tt; compute_proof_single _ _ _ := Ok tt;
  ks_check_proof_single _ _ _ _ _ := Ok true; ks_compute_proof_multi _ _ _ _ := Ok tt;
  ks_check_proof_multi _ _ _ _ ys _ := Ok (length ys =? 16)%nat;
  verify_kzg_proof_batch _ _ _ _ _ := true;
  fk20_new _ _ _ := Ok tt; fk20_kzg_settings _ := tt;
  fk20_data_availability _ l := Ok (replicate (2 * length l) tt);
  CHALLENGE_INPUT_SIZE := 0; FIAT_SHAMIR_PROTOCOL_DOMAIN := []; bytes_of_uint64 _ := [];
  kzg_hash l := l; hash_to_bls_field _ := tt
|}.

Lemma unit_list_eq (l : list unit) : l = replicate (length l) tt.
Proof. induction l as [|[] l IH]; [done|]. simpl. by rewrite <- IH. Qed.

Lemma unit_lib_bit_order : @BitOrderLaws unit_lib.
Proof. by split. Qed.
Lemma unit_lib_fft : @FftLaws unit_lib.
Proof. split; [by intros ? ? ? ? [= ->]|by intros ? ? ? [= ->]]. Qed.
Lemma unit_lib_recover : @RecoverLaws unit_lib.
Proof.
  split; simpl; intros _ coeffs evals samples [= <-] Ha _ _; f_equal;
    rewrite (Forall2_length _ _ _ Ha); symmetry; apply unit_list_eq.
Qed.
Lemma unit_lib_fk20 : @Fk20Laws unit_lib.
Proof. by intros [] ? ? []. Qed.

Section runs.
#[local] Existing Instances host64 unit_lib unit_lib_bit_order unit_lib_fft unit_lib_recover unit_lib_fk20.

(** ** Codecs: positions as eight bytes, segment data as its length in four *)
#[local] Instance pos_codec : Codec Position := {|
  scale_encode p := to_be_bytes 4 (Crypto.x p) ++ to_be_bytes 4 (Crypto.y p);
  scale_decode l :=
    if (length l <? 8)%nat then None
    else Some (Crypto.mkPosition (from_be_bytes (take 4 l)) (from_be_bytes (take 4 (drop 4 l))), drop 8 l)
|}.
#[local] Instance pos_codec_laws : CodecLaws Position.
Proof.
  intros [x y] r [Hx Hy]. unfold scale_decode, scale_encode, pos_codec. cbn [Crypto.x Crypto.y] in *.
  rewrite <- app_assoc.
  rewrite (proj2 (Nat.ltb_ge _ _)) by (rewrite !length_app, !length_to_be_bytes; lia).
  rewrite take_app_length', drop_app_length' by (by rewrite length_to_be_bytes).
  rewrite take_app_length' by (by rewrite length_to_be_bytes).
  rewrite !from_to_be_bytes by done. by rewrite app_assoc.
Qed.

#[local] Instance data_codec : Codec Segment.SegmentData := {|
  scale_encode d := to_be_bytes 4 (Z.of_nat (length (Segment.data d)));
  scale_decode l :=
    if (length l <? 4)%nat then None
    else let n := from_be_bytes (take 4 l) in
         if bool_decide (in_u 32 n)
         then Some (Segment.mkData (replicate (Z.to_nat n) tt : list BlsScalar) (tt : KZGProof), drop 4 l)
         else None
|}.
#[local] Instance data_codec_laws : CodecLaws Segment.SegmentData.
Proof.
  intros [d []] r Hd. unfold scale_decode, scale_encode, data_codec.
  rewrite (proj2 (Nat.ltb_ge _ _)) by (rewrite length_app, length_to_be_bytes; lia).
  rewrite take_app_length' by (by rewrite length_to_be_bytes). rewrite from_to_be_bytes by exact Hd.
  rewrite bool_decide_true by exact Hd. rewrite Nat2Z.id. cbn [Segment.data].
  rewrite drop_app_length' by (by rewrite length_to_be_bytes). by rewrite <- unit_list_eq.
Qed.

Lemma u_decode_bound bs (d : Segment.SegmentData) : decode_all bs = Some d -> wf d.
Proof.
  intros Hd. unfold decode_all, scale_decode, data_codec in Hd.
  destruct (length bs <? 4)%nat; [done|]. case_bool_decide as Hn; [|done]. injection Hd as <-.
  unfold wf, Segment.SegmentData_wf. cbn [Segment.data]. rewrite length_replicate.
  destruct Hn. by rewrite Z2Nat.id.
Qed.

(** ** A row of full size *)
#[local] Definition u_kzg : KZG := Crypto.kzg_new tt.
#[local] Definition u_poly : Polynomial.t := Crypto.mkPolynomial (replicate 2048 tt).
#[local] Definition u_data : Segment.SegmentData := @Segment.mkData unit_lib (replicate 16 tt) tt.
#[local] Definition u_row (y : nat) : list Segment.t :=
  (fun x => Segment.mk (Crypto.mkPosition (Z.of_nat x) (Z.of_nat y))
              u_data) <$> seq 0 256.

Lemma u_row_built : poly_to_segment_vec u_poly u_kzg 0 FIELD_ELEMENTS_PER_SEGMENT = Ok (u_row 0).
Proof. vm_compute. reflexivity. Qed.

Lemma u_verify s c : wf (Segment.content s) -> Segment.checked s = Ok s ->
  Segment.verify s u_kzg c SEGMENTS_PER_BLOB = Ok (length (Segment.data (Segment.content s)) =? 16)%nat.
Proof.
  intros Hw Hc. unfold Segment.verify, Crypto.check_proof_multi, Crypto.kzg_index, get_kzg_index.
  assert (Hn : 0 < Segment.size s < 2 ^ 32).
  { unfold wf, Segment.SegmentData_wf, in_u in Hw. unfold Segment.checked in Hc. unfold Segment.size.
    destruct (Segment.data (Segment.content s)); [done|]. simpl length in *. lia. }
  rewrite (wrap_small _ (2 * _ * _)).
  2: { change SEGMENTS_PER_BLOB with 128. unfold in_u. change (Z.of_nat usize_bits) with 64. lia. }
  rewrite (proj2 (Z.eqb_neq _ _)) by (change SEGMENTS_PER_BLOB with 128; lia). reflexivity.
Qed.

Lemma u_authentic c s : length (Segment.data (Segment.content s)) = 16%nat -> authentic u_kzg c s.
Proof.
  intros Hl. assert (Hck : Segment.checked s = Ok s).
  { unfold Segment.checked. rewrite Hl. by destruct (Segment.data (Segment.content s)). }
  assert (Hw : wf (Segment.content s)) by (unfold wf, Segment.SegmentData_wf; by rewrite Hl).
  split; [done|by rewrite u_verify, Hl].
Qed.

Lemma u_harmless c p values : harmless u_kzg c p values.
Proof. intros vs v d _ _ Hd Hc. rewrite u_verify; [done|by eapply u_decode_bound|done]. Qed.

Lemma u_honest_values c values s : length (Segment.data (Segment.content s)) = 16%nat ->
  honest_values u_kzg c values s.
Proof.
  intros Hl. split; [apply u_harmless|]. intros vs v d _ _ Hd s' Hc. rewrite u_verify; [|by eapply u_decode_bound|done].
  intros [= Hs%Nat.eqb_eq]. destruct s as [p [l []]], d as [l' []]. simpl in *.
  by rewrite (unit_list_eq l'), (unit_list_eq l), Hl, Hs.
Qed.

Lemma u_row_sizes : Forall (fun s => length (Segment.data (Segment.content s)) = 16%nat) (u_row 0).
Proof. apply Forall_fmap, Forall_forall. done. Qed.

Lemma u_proofs s : s ∈ u_row 0 -> is_ok (Crypto.compute_proof_multi u_kzg u_poly
  (Crypto.x (Segment.position s)) EXTENDED_SEGMENTS_PER_BLOB (Segment.size s)) = true.
Proof.
  intros Hs. pose proof (proj1 (Forall_forall _ _) u_row_sizes s Hs) as H16.
  unfold Crypto.compute_proof_multi, Segment.size. rewrite H16.
  change (Z.of_nat 16) with FIELD_ELEMENTS_PER_SEGMENT.
  rewrite kzg_index_extended by (done || (simpl; lia)). reflexivity.
Qed.

Lemma u_honest : honest_row u_kzg 0 tt (u_row 0).
Proof.
  exists u_poly. split; [exact u_row_built|]. split; [reflexivity|].
  split; [|exact u_proofs]. eapply Forall_impl; [exact u_row_sizes|]. intros s. apply u_authentic.
Qed.

(** ** A network that keeps what is put *)
#[local] Instance map_net : Requests (gmap bytes bytes) := {|
  get_kad_record key net := match net !! key with
                            | Some v => Ok [mkRecord key v]
                            | None => Err "No record found."%string
                            end;
  put_kad_record r _ net := (Ok tt, <[rec_key r := rec_value r]> net);
  request_remove_records keys net := (Ok tt, fold_left (fun net key => delete key net) keys net)
|}.
#[local] Instance map_net_laws : RequestLaws (gmap bytes bytes).
Proof.
  split; simpl.
  - intros [k v] _ net _. simpl. by rewrite lookup_insert_eq.
  - intros [k v] _ net key Hk. simpl in *. by rewrite lookup_insert_ne.
Qed.
Lemma map_net_responsive (net : gmap bytes bytes) : responsive net.
Proof. intros key. simpl. by destruct (net !! key). Qed.

#[local] Instance hash_codec : Codec (list Z) := {|
  scale_encode h := h; scale_decode l := Some (take 32 l, drop 32 l) |}.
(** A header is the number of its block; each block has one submission with one blob. *)
#[local] Instance u_header : HeaderWithCommitment Z (list Z) Z := {|
  hwc_extension _ := HeaderExtension.mk [] [AppLookup.mk 1 1 1];
  hwc_commitments _ := Some [tt]; hwc_commitments_bytes _ := []; hwc_col_num _ := Some 1;
  hwc_number n := n; hwc_hash n := replicate 31 0 ++ [n mod 256]
|}.

#[local] Definition u_self : DaserNetwork.t := DaserNetwork.new (Service.mk 10) u_kzg.
#[local] Definition half_net : gmap bytes bytes :=
  (DaserNetwork.put_app_segments u_self (take 128 (u_row 0)) 1 1 ∅).2.

Lemma half_enough : Forall2 enough [row_reply half_net (AppLookup.mk 1 1 1)] [u_row 0].
Proof. constructor; [|constructor]. by_decision. Qed.

Lemma fetch_block_available_witness : exists out,
  DaserNetwork.fetch_block u_self 7 half_net = Ok (out, true) /\ Forall2 same_data (u_row 0) out.
Proof.
  destruct (fetch_block_available u_self 7 half_net [tt] [u_row 0]) as (out & b & Hf & Hb & Hd).
  - reflexivity.
  - apply Forall_singleton. reflexivity.
  - reflexivity.
  - reflexivity.
  - intros [|y] c segs Hc Hs; [|by destruct y]. injection Hs as <-. injection Hc as <-. exact u_honest.
  - intros [|y] c segs l Hc Hs Hlk; [|by destruct y]. injection Hs as <-. injection Hlk as <-.
    apply Forall2_same_length_lookup. split; [vm_compute; reflexivity|]. intros i v s _ Hs.
    apply u_honest_values. exact (Forall_lookup_1 _ _ _ _ u_row_sizes Hs).
  - simpl. lia.
  - apply map_net_responsive.
  - assert (b = true) as -> by (apply Hb; exact half_enough).
    exists out. split; [exact Hf|]. specialize (Hd eq_refl).
    change (concat [u_row 0]) with (u_row 0 ++ []) in Hd. rewrite app_nil_r in Hd. exact Hd.
Defined.

Lemma u_row_positions : NoDup (Segment.position <$> u_row 0).
Proof.
  unfold u_row. rewrite <- list_fmap_compose. apply NoDup_fmap_2; [|apply NoDup_seq].
  intros x x' Hx. injection Hx as Hx. lia.
Qed.

Lemma recovered_proof_of_first_witness : exists segs' s',
  ErasureCoding.recovery_order_row_from_segments
    (take 128 (Some <$> u_row 0) ++ replicate 128 None) u_kzg = Ok segs' /\
  segs' !! 200%nat = Some s' /\
  Crypto.compute_proof_multi u_kzg u_poly 0 SEGMENTS_PER_BLOB FIELD_ELEMENTS_PER_SEGMENT
    = Ok (Segment.proof (Segment.content s')).
Proof.
  exists (u_row 0), (Segment.mk (Crypto.mkPosition 200 0) u_data).
  assert (Hr : ErasureCoding.recovery_order_row_from_segments
    (take 128 (Some <$> u_row 0) ++ replicate 128 None) u_kzg = Ok (u_row 0)) by (vm_compute; reflexivity).
  split; [exact Hr|]. split; [reflexivity|].
  apply (recovered_proof_of_first u_poly u_kzg 0 (u_row 0)
    (take 128 (Some <$> u_row 0) ++ replicate 128 None) (u_row 0) 200).
  - apply Nat.ltb_lt. reflexivity.
  - reflexivity.
  - exact u_row_built.
  - reflexivity.
  - rewrite <- (take_drop 128 (u_row 0)). apply Forall2_app.
    + rewrite <- fmap_take, take_drop. apply agrees_some_list.
    + apply agrees_none_list. reflexivity.
  - apply Nat.leb_le. vm_compute. reflexivity.
  - exact u_proofs.
  - exact Hr.
  - reflexivity.
  - reflexivity.
Defined.

Lemma publish_fetch_witness :
  DaserNetwork.fetch_segment_data u_self 1 1 (Crypto.mkPosition 3 0) tt
    (DaserNetwork.put_app_segments u_self (u_row 0) 1 1 ∅ : res string unit * gmap bytes bytes).2
  = Ok (Some u_data).
Proof.
  apply (publish_fetch u_self (u_row 0) 1 1 ∅
    (Segment.mk (Crypto.mkPosition 3 0) u_data) tt).
  - intros r q net. reflexivity.
  - split; [discriminate|reflexivity].
  - split; [discriminate|reflexivity].
  - exact u_row_positions.
  - apply Forall_fmap, Forall_forall. intros x Hx%elem_of_seq. unfold wf, Crypto.Position_wf, in_u.
    simpl. lia.
  - apply list_elem_of_fmap. exists 3%nat. split; [reflexivity|]. apply elem_of_seq. lia.
  - split; [discriminate|reflexivity].
  - reflexivity.
  - reflexivity.
Defined.

(** ** Sampling on a network that answers every key *)
#[local] Existing Instances ref_rng ref_rng_laws ref_permill ref_permill_laws.
#[local] Instance all_net : Requests unit := {|
  get_kad_record key _ := Ok [mkRecord key (scale_encode u_data)];
  put_kad_record _ _ net := (Ok tt, net); request_remove_records _ net := (Ok tt, net)
|}.

#[local] Instance pos_countable : Countable Position.
Proof.
  apply (inj_countable' (fun p => (Crypto.x p, Crypto.y p)) (fun '(x, y) => Crypto.mkPosition x y)).
  by intros [].
Defined.
#[local] Instance sample_countable : Countable Sample.
Proof.
  apply (inj_countable' (fun s => (sample_id s, position s, sample_available s))
    (fun '(i, p, a) => mkSample i p a)). by intros [].
Defined.
#[local] Instance record_countable : Countable Reliability.t.
Proof.
  apply (inj_countable' (A := list Sample * list unit * bool)
    (fun r : @Reliability.t unit_lib => (Reliability.samples r, Reliability.commitments r,
       bool_decide (Reliability.confidence_type r = App)))
    (fun '(s, c, b) => @Reliability.mk unit_lib s c (if b : bool then App else Block))).
  by intros [? ? []].
Defined.
#[local] Instance record_codec : Codec Reliability.t := RefCodec.ref_codec Reliability.t.
#[local] Instance record_codec_laws : CodecLaws Reliability.t :=
  RefCodec.ref_codec_laws Reliability.t Reliability.t_wf.

Lemma u_fetchable p c : fetchable u_self tt 1 1 p c.
Proof.
  assert (Hv : DaserNetwork.verify_values u_kzg [scale_encode u_data] c p = Ok (Some (Segment.mk p u_data))).
  { rewrite (verify_values_spec u_kzg c (Segment.mk p u_data)) by (by apply u_authentic || by apply u_honest_values).
    unfold accepted. rewrite decide_True; [done|]. eexists. split; [done|].
    left. apply decode_all_encode. split; [discriminate|reflexivity]. }
  unfold fetchable, fetched, DaserNetwork.fetch_value.
  change (Service.get_value _ tt) with (Ok (E := string) [scale_encode u_data]). bind_simpl.
  cbn [res_ok mbind res_bind DaserNetwork.kzg u_self DaserNetwork.new].
  change (DaserNetwork.verify_values _ _ c p) with (DaserNetwork.verify_values u_kzg [scale_encode u_data] c p).
  rewrite Hv. by eexists.
Qed.

Lemma sample_application_verdict_witness : exists fuel db' r,
  SamplingClient.sample_application fuel u_self tt 1 1 [tt] MockDb.new = Some (Ok tt, db') /\
  get_confidence (app_confidence 1 1) db' = Some r /\ Reliability.is_availability r = true.
Proof.
  destruct (sample_application_verdict u_self tt 1 1 [tt] MockDb.new) as (fuel & db' & r & Hs & Hg & H').
  - split; reflexivity.
  - apply ref_rng_is_fair. simpl. lia.
  - intros p c _. apply u_harmless.
  - intros key. discriminate.
  - exists fuel, db', r. split; [exact Hs|]. split; [exact Hg|].
    destruct H' as (_ & _ & _ & Ht & _). apply Ht. intros p c _. apply u_fetchable.
Defined.

(** ** The listener after a few notifications *)
#[local] Instance last_codec : Codec LastProcessedBlock := {|
  scale_encode b := to_be_bytes 4 (block_num b) ++ block_hash b;
  scale_decode l := Some (mkLast (from_be_bytes (take 4 l)) (drop 4 l), []) |}.
#[local] Instance number_codec : Codec Z := {|
  scale_encode n := to_be_bytes 4 n; scale_decode l := Some (from_be_bytes (take 4 l), drop 4 l) |}.

Lemma u_hash_length (h : Z) : length (DaserNetwork.hash_bytes h) = 32%nat.
Proof. reflexivity. Qed.

Lemma listener_never_advances_witness : exists db1 : MockDb.t,
  kv_get LATEST_PROCESSED_BLOCK_KEY db1 <> None /\
  TxPoolListener.sampling_tasks (fun i => Some i) 100 db1 = [1; 2].
Proof.
  destruct (TxPoolListener.on_finality u_self 40 tt (fun i => Some i) 50 id MockDb.new)
    as [[r db1]|] eqn:Hf; [|by vm_compute in Hf].
  exists db1. split; [by vm_compute in Hf; injection Hf as <- <-|].
  rewrite (listener_never_advances u_self u_hash_length MockDb.new db1 (fun i => Some i) 100).
  - reflexivity.
  - reflexivity.
  - apply rtc_once. by eapply (listen_finality u_self 40 tt).
Defined.
End runs.
