(* ===== verification/RuntimeApi.v ===== *)
(** * Runtime interfaces of the node ([runtime/src/lib.rs])

    The two runtime APIs the node's data-availability code calls: [Extractor::extract],
    with which the listener learns which submissions an extrinsic carries, and
    [AppDataApi::get_blob_tx_param], with which the RPC finds the metadata of a submission.
    The calls of the other pallets are opaque. *)

From S2P Require Import Prelude Codec KzgLib KzgIndex KzgToy DasPrimitives Blob ErasureCoding.
From S2P Require Import CorePrimitives Reliability Sidecar.

Section runtime.
Context `{KzgLib} {OtherCall Signature : Type}.

(** [RuntimeCall]: the variants the APIs look at, and all others. *)
Inductive RuntimeCall :=
| MeloStore_submit_data (params : SidecarMetadata.t)
| Utility_batch (calls : list RuntimeCall)
| Utility_batch_all (calls : list RuntimeCall)
| Utility_force_batch (calls : list RuntimeCall)
| OtherRuntimeCall (call : OtherCall).

Record UncheckedExtrinsic := mkExtrinsic { signature : option Signature; function : RuntimeCall }.

(** [filter] and [process_calls] call each other. *)
Fixpoint filter_call (call : RuntimeCall) : list SidecarMetadata.t :=
  match call with
  | MeloStore_submit_data params => [params]
  | Utility_batch calls | Utility_batch_all calls | Utility_force_batch calls =>
      flat_map filter_call calls
  | OtherRuntimeCall _ => []
  end.
Definition process_calls (calls : list RuntimeCall) : list SidecarMetadata.t :=
  flat_map filter_call calls.

Definition extract `{Codec UncheckedExtrinsic} (extrinsic : bytes)
    : option (list SidecarMetadata.t) :=
  extrinsic ← decode_all extrinsic;
  Some (process_calls [function extrinsic]).

Definition get_blob_tx_param (function : RuntimeCall) : option SidecarMetadata.t :=
  match function with
  | MeloStore_submit_data params => Some params
  | _ => None
  end.

(** What the RPC accepts is what the listener samples. *)
Lemma extract_blob_tx `{Codec UncheckedExtrinsic} extrinsic ext m :
  decode_all extrinsic = Some ext -> get_blob_tx_param (function ext) = Some m ->
  extract extrinsic = Some [m].
Proof.
  intros Hd Hm. unfold extract. rewrite Hd. simpl. destruct (function ext); by simplify_eq/=.
Qed.
End runtime.
Arguments RuntimeCall {_} _.
Arguments UncheckedExtrinsic {_} _ _.
