(* ===== verification/Rpc.v ===== *)
(** * The DAS RPC ([crates/das-rpc/src])

    [Confidence] answers queries about sampled blocks from the database; [SubmitBlob]
    accepts application data together with the extrinsic that announces it, publishes the
    data and hands the extrinsic to the pool.  The client, the runtime API call and the
    transaction pool are parameters.  A boxed error is its message. *)

From S2P Require Import Prelude Codec DasDb KzgLib KzgIndex KzgToy DasPrimitives Blob.
From S2P Require Import ErasureCoding CorePrimitives Reliability Sidecar DasNetwork DaserNetwork.
From S2P Require Import RuntimeApi.

(** ** [error.rs] *)
Module RpcError.
Inductive t :=
| DecodingExtrinsicFailed (e : string)
| DecodingTransactionMetadataFailed (e : string)
| FetchTransactionMetadataFailed (e : string)
| InvalidTransactionFormat
| DataLength
| TransactionPushFailed (e : string).
#[export] Instance t_eq_dec : EqDecision t.
Proof. solve_decision. Defined.

Definition BASE_ERROR : Z := 10000.

(** [ErrorObject]: code, message and optional data. *)
Record ErrorObject := mkObject { code : Z; message : string; obj_data : option string }.

(** [From<Error> for JsonRpseeError]. *)
Definition into (e : t) : ErrorObject :=
  match e with
  | DecodingExtrinsicFailed e => mkObject (BASE_ERROR + 1) "Decoding extrinsic failed" (Some e)
  | DecodingTransactionMetadataFailed e =>
      mkObject (BASE_ERROR + 2) "Decoding transaction metadata failed" (Some e)
  | FetchTransactionMetadataFailed e =>
      mkObject (BASE_ERROR + 3) "Failed to fetch transaction metadata details" (Some e)
  | InvalidTransactionFormat => mkObject (BASE_ERROR + 4) "Invalid transaction format" None
  | DataLength => mkObject (BASE_ERROR + 5) "Data/Commitments/Proofs length error" None
  | TransactionPushFailed e => mkObject (BASE_ERROR + 6) "Failed to push transaction" (Some e)
  end.
End RpcError.
Export (hints) RpcError.

(** ** [confidence.rs]: the database is threaded, the network is a field *)
Module Confidence.
Section confidence.
Context `{KzgLib} `{PermillLib} {DB : Type} `{!DasKv DB}.
Context `{Codec Reliability.t} `{Codec LastProcessedBlock} {Net : Type} `{!Requests Net}.

Definition confidence (block_hash : bytes) (db : DB) : option Reliability.t :=
  get_confidence (Reliability.block_confidence block_hash) db.

Definition get_last (db : DB) : res string (option (bytes * Z)) :=
  last_pr ← Reliability.get_last db;
  Ok (fmap (M := option) (fun last => (block_hash last, block_num last)) last_pr).

Definition block_confidence (hash : bytes) (db : DB) : option Z :=
  confidence hash db ≫= fun c => Reliability.value c.

Definition is_available (hash : bytes) (db : DB) : option bool :=
  Some (match confidence hash db with
        | None => false
        | Some c => Reliability.is_availability c
        end).

Definition remove_records (network : DaserNetwork.t) (keys : list bytes) (net : Net)
    : res string unit * Net :=
  DaserNetwork.remove_records network keys net.

Definition last (db : DB) : res string (option (Z * bytes)) :=
  l ← get_last db;
  Ok (fmap (M := option) (fun '(hash, number) => (number, hash)) l).
End confidence.
End Confidence.

(** ** [submit_blob.rs] *)
Module SubmitBlob.
Section submit.
Context `{Platform} `{KzgLib} `{EmbeddedSettings} `{Codec Position} `{Codec Segment.SegmentData}.
Context {OtherCall Signature : Type} `{Codec (UncheckedExtrinsic OtherCall Signature)}.
Context {Net : Type} `{!Requests Net}.
(** The pool's extrinsic type, its state, its hashes, and the block hashes of the client. *)
Context {Xt Pool TxHash BlockHash : Type} `{Codec Xt}.
Context (runtime_api : BlockHash -> RuntimeCall OtherCall -> res string (option SidecarMetadata.t)).
(** The message of a decoding error. *)
Context (decode_error : bytes -> string).
Context (submit_one : BlockHash -> Xt -> Pool -> res string TxHash * Pool).

Record BlobTxSatus := mkStatus { tx_hash : TxHash; err : option string }.

Abbreviation failed e net pool := (Err (RpcError.into e), net, pool).

(** What becomes of the data: the message for the client and the network. *)
Definition publish (network : DaserNetwork.t) (metadata : SidecarMetadata.t) (data : bytes)
    (net : Net) : res Empty_set (option string) * Net :=
  match SidecarMetadata.verify_bytes metadata data with
  | Ok true =>
      match DaserNetwork.put_bytes network data (SidecarMetadata.app_id metadata)
              (SidecarMetadata.nonce metadata) net with
      | (Ok _, net) => (Ok None, net)
      | (Err e, net) => (Ok (Some e), net)
      | (Panic, net) => (Panic, net)
      end
  | Ok false =>
      (Ok (Some "Data verification failed. Please check your data and try again."%string), net)
  | Err e => (Ok (Some e), net)
  | Panic => (Panic, net)
  end.

(** [best_hash] is the client's best block before and after the data was published. *)
Definition submit_blob_tx (network : DaserNetwork.t) (best_hash best_hash' : BlockHash)
    (data extrinsic : bytes) (net : Net) (pool : Pool)
    : res RpcError.ErrorObject BlobTxSatus * Net * Pool :=
  match decode_all extrinsic with
  | None => failed (RpcError.DecodingExtrinsicFailed (decode_error extrinsic)) net pool
  | Some xt =>
  match decode_all extrinsic : option (UncheckedExtrinsic OtherCall Signature) with
  | None => failed (RpcError.DecodingTransactionMetadataFailed (decode_error extrinsic)) net pool
  | Some ext =>
  match runtime_api best_hash (function ext) with
  | Err e => failed (RpcError.FetchTransactionMetadataFailed e) net pool
  | Panic => (Panic, net, pool)
  | Ok None => failed RpcError.InvalidTransactionFormat net pool
  | Ok (Some metadata) =>
      if negb (SidecarMetadata.check metadata)
         || negb (Z.of_nat (length data) =? SidecarMetadata.bytes_len metadata)
      then failed RpcError.DataLength net pool
      else
        match publish network metadata data net with
        | (Panic, net) => (Panic, net, pool)
        | (Err e, net) => match e with end
        | (Ok err_msg, net) =>
            match submit_one best_hash' xt pool with
            | (Ok hash, pool) => (Ok (mkStatus hash err_msg), net, pool)
            | (Err e, pool) => failed (RpcError.TransactionPushFailed e) net pool
            | (Panic, pool) => (Panic, net, pool)
            end
        end
  end
  end
  end.
End submit.
End SubmitBlob.
