(* ===== verification/Submission.v ===== *)
(** * A submission from the RPC to the sampler

    Composes the components a blob passes through: the metadata computed from the data,
    the RPC that checks and publishes it, the extrinsic the runtime extracts the metadata
    from, and the listener that samples the data and stores the verdict validators read. *)

From S2P Require Import Prelude Codec DasDb KzgLib KzgIndex KzgToy KzgDomain DasPrimitives Blob.
From S2P Require Import ErasureCoding RowRecovery CorePrimitives Reliability Sidecar DasNetwork.
From S2P Require Import DaserNetwork DaserRows DaserBlock Daser DaserProps RuntimeApi Rpc.

Section segments.
Context `{Platform} `{KzgLib} `{!FrBytesLaws}.
Context `{!BitOrderLaws} `{!FftLaws} `{!Fk20Laws} `{!RootsLaws} `{!Fk20ProofLaws}.

(** Sizes of the deployed system: full blobs, settings as wide as an extended row. *)
Definition standard (kzg : KZG) : Prop :=
  (15 < usize_bits)%nat /\ Crypto.max_width kzg = FIELD_ELEMENTS_PER_BLOB * 2.

(** Every segment of a committed row verifies against the commitment. *)
Lemma standard_row_verifies poly kzg y segs c :
  standard kzg -> length (Crypto.coeffs poly) = Z.to_nat FIELD_ELEMENTS_PER_BLOB ->
  Crypto.commit kzg poly = Ok c ->
  poly_to_segment_vec poly kzg y FIELD_ELEMENTS_PER_SEGMENT = Ok segs ->
  length segs = Z.to_nat EXTENDED_SEGMENTS_PER_BLOB /\
  forall x s, segs !! x = Some s ->
    Segment.position s = Crypto.mkPosition (Z.of_nat x) (wrap 32 y) /\
    length (Segment.data (Segment.content s)) = Z.to_nat FIELD_ELEMENTS_PER_SEGMENT /\
    Segment.verify s kzg c SEGMENTS_PER_BLOB = Ok true.
Proof.
  intros [Hw Hm] Hl Hc Hs.
  assert (Hsl : length segs = Z.to_nat EXTENDED_SEGMENTS_PER_BLOB).
  { apply poly_to_segment_vec_Ok in Hs as (_ & evals & _ & He & Hsegs). apply Forall2_length in Hsegs.
    rewrite length_enumerate, length_chunks, He, Hl in Hsegs by (apply Nat.ltb_lt; reflexivity).
    rewrite <- Hsegs. reflexivity. }
  assert (Hu : Z.of_nat (length segs) <= 2 ^ 32) by (rewrite Hsl; vm_compute; discriminate).
  assert (Hmw : Crypto.max_width kzg < 2 ^ Z.of_nat usize_bits).
  { rewrite Hm. apply Z.lt_le_trans with (2 ^ 16); [done|]. apply Z.pow_le_mono_r; lia. }
  destruct (poly_segments_shape poly kzg y (Z.to_nat FIELD_ELEMENTS_PER_SEGMENT) segs
    (Z.to_nat SEGMENTS_PER_BLOB)) as (_ & _ & Hshape); [exact Hs|rewrite Hl; reflexivity|done|].
  split; [done|]. intros x s Hx. destruct (Hshape x s Hx) as [Hp Hsz].
  split; [exact Hp|]. split; [unfold Segment.size in Hsz; lia|].
  apply (row_segments_verify poly kzg y 4 7 segs c) with (i := x); [rewrite Hl; reflexivity| |done..].
  split; [rewrite Hm; split; [done|by rewrite <- Hm]|]. rewrite Hm, Hl. by exists 1.
Qed.

Context `{EmbeddedSettings}.

(** The rows published for a payload are those of the blobs its metadata commits to. *)
Lemma published_rows kzg data app_id nonce m segs :
  Crypto.default_embedded EMBEDDED_KZG_SETTINGS_BYTES = Ok kzg -> standard kzg -> is_bytes data ->
  SidecarMetadata.try_from_app_data data app_id nonce = Ok m ->
  bytes_to_segments data FIELD_ELEMENTS_PER_BLOB FIELD_ELEMENTS_PER_SEGMENT kzg = Ok segs ->
  exists rows, segs = concat rows /\ length rows = length (SidecarMetadata.commitments m) /\
    (length rows <= length data)%nat /\
    forall y row, rows !! y = Some row -> exists c poly,
      SidecarMetadata.commitments m !! y = Some c /\
      length (Crypto.coeffs poly) = Z.to_nat FIELD_ELEMENTS_PER_BLOB /\
      Crypto.commit kzg poly = Ok c /\
      poly_to_segment_vec poly kzg (Z.of_nat y) FIELD_ELEMENTS_PER_SEGMENT = Ok row.
Proof.
  intros Hkzg [Hw Hm] Hb Hmeta Hsegs.
  assert (Hp : 2 ^ 16 <= 2 ^ Z.of_nat usize_bits) by (apply Z.pow_le_mono_r; lia).
  assert (H31 : 31 * FIELD_ELEMENTS_PER_BLOB < 2 ^ Z.of_nat usize_bits)
    by (change (31 * FIELD_ELEMENTS_PER_BLOB) with 63488; lia).
  destruct (get_bytes_per_blob_Ok FIELD_ELEMENTS_PER_BLOB eq_refl H31) as [Hg _].
  unfold bytes_to_segments in Hsegs. case_bool_decide as Hne; [done|]. rewrite Hg in Hsegs.
  cbn [mbind res_bind] in Hsegs. rewrite (proj2 (Z.eqb_neq _ _)) in Hsegs by done.
  apply res_bind_Ok in Hsegs as (rows & Hrows & [= <-]).
  destruct (bytes_to_blobs_complete data FIELD_ELEMENTS_PER_BLOB Hb Hne eq_refl H31)
    as (blobs & Hblobs & _ & Hbl & _).
  unfold SidecarMetadata.try_from_app_data in Hmeta. rewrite Hkzg, Hblobs in Hmeta.
  cbn [mbind res_bind] in Hmeta. apply res_bind_Ok in Hmeta as (results & Hr & [= <-]).
  assert (Hr' : mapM (fun blob => Blob.commit_and_proof blob kzg FIELD_ELEMENTS_PER_BLOB) blobs
      = Ok results) by (destruct (mapM _ _); simpl in Hr; congruence). clear Hr.
  unfold bytes_to_blobs in Hblobs. rewrite bool_decide_false, Hg in Hblobs by done.
  cbn [mbind res_bind] in Hblobs. unfold chunks_to_blobs in Hblobs.
  rewrite (proj2 (Z.eqb_neq _ _)) in Hblobs by done.
  set (n := Z.to_nat (31 * FIELD_ELEMENTS_PER_BLOB)) in *.
  assert (Hn : (0 < n)%nat) by (apply Nat.ltb_lt; reflexivity).
  apply mapM_res_length in Hrows as Hl1. rewrite length_enumerate in Hl1.
  apply mapM_res_length in Hblobs as Hl2. apply mapM_res_length in Hr' as Hl3.
  exists rows. split; [done|]. split; [simpl; rewrite length_fmap; lia|]. split.
  { rewrite Hl1, length_chunks by done. clear -Hn Hne. destruct data; [done|]. simpl length.
    apply Nat.Div0.div_le_upper_bound. nia. }
  intros y row Hy. destruct (lookup_lt_is_Some_2 (chunks n data) y) as [chunk Hc];
    [apply lookup_lt_Some in Hy; lia|].
  destruct (lookup_lt_is_Some_2 blobs y) as [blob Hbl']; [apply lookup_lt_Some in Hy; lia|].
  destruct (lookup_lt_is_Some_2 results y) as [[c pr] Hcp]; [apply lookup_lt_Some in Hy; lia|].
  pose proof (mapM_res_lookup _ _ _ _ _ _ Hblobs Hc Hbl') as Hbc. cbv beta in Hbc.
  pose proof (mapM_res_lookup _ _ _ _ _ _ Hr' Hbl' Hcp) as Hcc. cbv beta in Hcc.
  eapply mapM_res_lookup in Hrows; [|rewrite lookup_enumerate, Hc; done|exact Hy].
  cbv beta iota in Hrows. rewrite Hbc in Hrows. cbn [mbind res_bind] in Hrows.
  exists c, (Blob.to_poly blob). cbn [SidecarMetadata.commitments].
  split; [by rewrite list_lookup_fmap, Hcp|]. split.
  { pose proof (Forall_lookup_1 _ _ _ _ Hbl Hbl') as Hlen. simpl in Hlen |- *. unfold Blob.to_fs_fr_vec. lia. }
  split.
  - unfold Blob.commit_and_proof in Hcc. apply res_bind_Ok in Hcc as (_ & _ & Hcc).
    apply res_bind_Ok in Hcc as (c' & Hc' & Hcc). apply res_bind_Ok in Hcc as (x & _ & Hcc).
    apply res_bind_Ok in Hcc as (pr' & _ & Hcc). by injection Hcc as -> ->.
  - by destruct (poly_to_segment_vec _ _ _ _); simplify_eq/=.
Qed.
End segments.

Section submission.
Context `{Platform} `{KzgLib} `{!FrBytesLaws} `{!KzgSingleLaws} `{!KzgBatchLaws}.
Context `{!BitOrderLaws} `{!FftLaws} `{!Fk20Laws} `{!RootsLaws} `{!Fk20ProofLaws}.
Context `{EmbeddedSettings} `{PermillLib} `{!PermillLaws} `{RngLib} `{!RngLaws}.
Context `{Codec Position} `{!CodecLaws Position}.
Context `{Codec Segment.SegmentData} `{!CodecLaws Segment.SegmentData}.
Context {Net : Type} `{!Requests Net} `{!RequestLaws Net}.
Context {DB : Type} `{!DasKv DB} `{!DasKvLaws DB} `{Codec Reliability.t} `{!CodecLaws Reliability.t}.
Implicit Types (self : DaserNetwork.t) (net : Net).

(** Positions of rows laid out one after the other. *)
Lemma rows_positions (rows : list (list Segment.t)) w :
  (forall y row, rows !! y = Some row -> Segment.position <$> row
     = (fun x => Crypto.mkPosition (Z.of_nat x) (Z.of_nat y)) <$> seq 0 w) ->
  NoDup (Segment.position <$> concat rows).
Proof.
  intros Hrows.
  assert (Heq : Segment.position <$> concat rows = y ← seq 0 (length rows);
      (fun x => Crypto.mkPosition (Z.of_nat x) (Z.of_nat y)) <$> seq 0 w).
  { assert (Hgen : forall k, (forall y row, rows !! y = Some row -> Segment.position <$> row
        = (fun x => Crypto.mkPosition (Z.of_nat x) (Z.of_nat (k + y))) <$> seq 0 w) ->
      Segment.position <$> concat rows = y ← seq k (length rows);
        (fun x => Crypto.mkPosition (Z.of_nat x) (Z.of_nat y)) <$> seq 0 w); [|by apply (Hgen 0%nat)].
    clear Hrows. induction rows as [|row rows IH]; intros k Hr; [done|].
    rewrite concat_cons, fmap_app. cbn [length seq]. rewrite bind_cons. f_equal.
    - rewrite (Hr 0%nat row eq_refl). by rewrite Nat.add_0_r.
    - apply IH. intros y row' Hy. rewrite (Hr (S y) row' Hy). by rewrite Nat.add_succ_r. }
  rewrite Heq. apply NoDup_bind; [|intros y _|apply NoDup_seq].
  - intros y y' p _ _ (x & -> & _)%list_elem_of_fmap (x' & [= _ Hy] & _)%list_elem_of_fmap. lia.
  - apply NoDup_fmap_2; [|apply NoDup_seq]. intros x x' [= Hx]. lia.
Qed.

(** Every position of the announced rows can be fetched after publication. *)
Lemma published_fetchable self kzg data app_id nonce m segs net :
  Crypto.default_embedded EMBEDDED_KZG_SETTINGS_BYTES = Ok kzg -> standard kzg ->
  DaserNetwork.kzg self = kzg -> is_bytes data -> Z.of_nat (length data) < 2 ^ 32 ->
  in_u 32 app_id -> in_u 32 nonce -> connected (Net := Net) ->
  SidecarMetadata.try_from_app_data data app_id nonce = Ok m ->
  bytes_to_segments data FIELD_ELEMENTS_PER_BLOB FIELD_ELEMENTS_PER_SEGMENT kzg = Ok segs ->
  let net' := (DaserNetwork.put_app_segments self segs app_id nonce net).2 in
  forall p c, in_matrix (Z.of_nat (length (SidecarMetadata.commitments m))) p ->
    SidecarMetadata.commitments m !! Z.to_nat (Crypto.y p) = Some c ->
    fetchable self net' app_id nonce p c /\
    harmless (DaserNetwork.kzg self) c p (reply net' (sample_key app_id nonce p)).
Proof.
  intros Hkzg Hstd Hself Hb Hlen Ha Hn Hconn Hm Hsegs net' p c [Hpx Hpy] Hc.
  destruct (published_rows kzg data app_id nonce m segs Hkzg Hstd Hb Hm Hsegs)
    as (rows & -> & Hrl & Hrd & Hrow).
  assert (Hall : forall y row, rows !! y = Some row -> exists c,
      SidecarMetadata.commitments m !! y = Some c /\
      length row = Z.to_nat EXTENDED_SEGMENTS_PER_BLOB /\
      forall x s, row !! x = Some s -> Segment.position s = Crypto.mkPosition (Z.of_nat x) (Z.of_nat y) /\
        length (Segment.data (Segment.content s)) = Z.to_nat FIELD_ELEMENTS_PER_SEGMENT /\
        Segment.verify s kzg c SEGMENTS_PER_BLOB = Ok true).
  { intros y row Hy. destruct (Hrow y row Hy) as (c' & poly & Hc' & Hpl & Hcm & Hv). exists c'.
    split; [done|]. destruct (standard_row_verifies poly kzg (Z.of_nat y) row c' Hstd Hpl Hcm Hv) as [Hl Hx].
    split; [done|]. intros i s Hs. destruct (Hx i s Hs) as (Hps & ?). split; [|done]. rewrite Hps.
    rewrite wrap_small; [done|]. unfold in_u. apply lookup_lt_Some in Hy. lia. }
  destruct (lookup_lt_is_Some_2 rows (Z.to_nat (Crypto.y p))) as [row Hrowy];
    [apply lookup_lt_Some in Hc; lia|].
  destruct (Hall _ _ Hrowy) as (c' & Hc' & Hl & Hx). rewrite Hc in Hc'. injection Hc' as <-.
  destruct (lookup_lt_is_Some_2 row (Z.to_nat (Crypto.x p))) as [s Hs]; [rewrite Hl; lia|].
  destruct (Hx _ _ Hs) as (Hps & Hsl & Hv).
  assert (Segment.position s = p) as Hsp by (rewrite Hps, !Z2Nat.id by lia; by destruct p).
  destruct (put_app_segments_reply self (concat rows) app_id nonce net) as [Hin _]; try done.
  - apply (rows_positions rows (Z.to_nat EXTENDED_SEGMENTS_PER_BLOB)). intros y row' Hy.
    destruct (Hall y row' Hy) as (cy & _ & Hl' & Hx'). apply list_eq. intros x.
    rewrite !list_lookup_fmap. destruct (row' !! x) as [s'|] eqn:Hs'.
    + apply lookup_lt_Some in Hs' as Hlt. rewrite lookup_seq_lt by lia.
      simpl. f_equal. by apply Hx'.
    + apply lookup_ge_None in Hs'. by rewrite lookup_seq_ge by lia.
  - apply Forall_concat, Forall_forall. intros row' [y Hy]%list_elem_of_lookup.
    destruct (Hall y row' Hy) as (cy & _ & Hl' & Hx'). apply Forall_lookup. intros x s' Hs'.
    destruct (Hx' x s' Hs') as (-> & _). apply lookup_lt_Some in Hs', Hy. rewrite Hl' in Hs'.
    change (Z.to_nat EXTENDED_SEGMENTS_PER_BLOB) with 256%nat in Hs'.
    unfold wf, Crypto.Position_wf, in_u. simpl. lia.
  - assert (Hsr : s ∈ concat rows).
    { apply list_elem_of_In, in_concat. exists row. split; apply list_elem_of_In; by eapply list_elem_of_lookup_2. }
    destruct (fetch_stored self _ _ s c (Hin s Hsr)) as [Hf Hh].
    + unfold wf, Segment.SegmentData_wf. rewrite Hsl. done.
    + unfold Segment.checked. rewrite Hsl, bool_decide_false; [done|]. intros He. by rewrite He in Hsl.
    + by rewrite Hself.
    + rewrite Hsp in Hf, Hh. fold net' in Hf, Hh. split; [|done]. unfold fetchable, fetched. rewrite Hf. by eexists.
Qed.

Context {OtherCall Signature : Type} `{Codec (UncheckedExtrinsic OtherCall Signature)}.
Context {Xt Pool TxHash BlockHash : Type} `{Codec Xt}.
Context (runtime_api : BlockHash -> RuntimeCall OtherCall -> res string (option SidecarMetadata.t)).
Context (decode_error : bytes -> string).
Context (submit_one : BlockHash -> Xt -> Pool -> res string TxHash * Pool).
Abbreviation submit_blob_tx := (SubmitBlob.submit_blob_tx runtime_api decode_error submit_one).

Lemma metadata_ids data app_id nonce m :
  SidecarMetadata.try_from_app_data data app_id nonce = Ok m ->
  SidecarMetadata.app_id m = app_id /\ SidecarMetadata.nonce m = nonce.
Proof.
  unfold SidecarMetadata.try_from_app_data. intros (kzg & _ & Hm)%res_bind_Ok.
  apply res_bind_Ok in Hm as (blobs & _ & Hm). apply res_bind_Ok in Hm as (rs & _ & Hm).
  by injection Hm as <-.
Qed.

(** A record of samples within the matrix is read back. *)
Lemma save_get (r : Reliability.t) id (db : DB) cols : cols < 2 ^ 32 ->
  Forall (fun s => in_matrix cols (position s)) (Reliability.samples r) ->
  get_confidence id (Reliability.save r id db) = Some r.
Proof.
  intros Hc Hall. unfold get_confidence, Reliability.get, Reliability.save. rewrite kv_get_set_eq.
  apply decode_all_encode. eapply Forall_impl; [exact Hall|]. intros s [Hx Hy].
  change EXTENDED_SEGMENTS_PER_BLOB with 256 in Hx. split; unfold in_u; lia.
Qed.

(** What [publish] does with the network. *)
Lemma publish_spec self m data net msg net' :
  SubmitBlob.publish self m data net = (Ok msg, net') ->
  match msg with
  | None => SidecarMetadata.verify_bytes m data = Ok true /\
      exists segs, bytes_to_segments data FIELD_ELEMENTS_PER_BLOB FIELD_ELEMENTS_PER_SEGMENT
          (DaserNetwork.kzg self) = Ok segs /\
        net' = (DaserNetwork.put_app_segments self segs (SidecarMetadata.app_id m)
                  (SidecarMetadata.nonce m) net).2
  | Some _ => net' = net /\
      ~ (SidecarMetadata.verify_bytes m data = Ok true /\
         is_ok (bytes_to_segments data FIELD_ELEMENTS_PER_BLOB FIELD_ELEMENTS_PER_SEGMENT
           (DaserNetwork.kzg self)) = true)
  end.
Proof.
  unfold SubmitBlob.publish, DaserNetwork.put_bytes.
  destruct (SidecarMetadata.verify_bytes m data) as [[|]| |]; try (intros [= <- <-]; by split; [|intros []]).
  destruct (bytes_to_segments _ _ _ _) as [segs| |] eqn:Hs; [|intros [= <- <-]; by split; [|intros []]|done].
  unfold DaserNetwork.put_app_segments, Service.put_values. intros [= <- <-]. eauto.
Qed.

(** C18: What [submit_blob_tx] does on every path.  If it returns a status, the extrinsic
    decoded, its call is a submission whose metadata passes [check] and has the length of
    the data, and the pool accepted the extrinsic; the status carries no error exactly when
    the data verifies against the metadata and can be split into segments, and then exactly
    these segments were published; otherwise nothing was published although the transaction
    was submitted.  If it returns an error, its code is one of 10001 to 10006 and, unless
    the pool refused the extrinsic (10006), neither the network nor the pool changed. *)
Theorem submit_blob_tx_effect self best best' data extrinsic net pool out net' pool' :
  submit_blob_tx self best best' data extrinsic net pool = (out, net', pool') ->
  match out with
  | Ok st => exists xt ext m,
      decode_all extrinsic = Some xt /\ decode_all extrinsic = Some ext /\
      runtime_api best (function ext) = Ok (Some m) /\ SidecarMetadata.check m = true /\
      SidecarMetadata.bytes_len m = Z.of_nat (length data) /\
      submit_one best' xt pool = (Ok (SubmitBlob.tx_hash st), pool') /\
      match SubmitBlob.err st with
      | None => SidecarMetadata.verify_bytes m data = Ok true /\
          exists segs, bytes_to_segments data FIELD_ELEMENTS_PER_BLOB FIELD_ELEMENTS_PER_SEGMENT
              (DaserNetwork.kzg self) = Ok segs /\
            net' = (DaserNetwork.put_app_segments self segs (SidecarMetadata.app_id m)
                      (SidecarMetadata.nonce m) net).2
      | Some _ => net' = net /\
          ~ (SidecarMetadata.verify_bytes m data = Ok true /\
             is_ok (bytes_to_segments data FIELD_ELEMENTS_PER_BLOB FIELD_ELEMENTS_PER_SEGMENT
               (DaserNetwork.kzg self)) = true)
      end
  | Err e => RpcError.BASE_ERROR + 1 <= RpcError.code e <= RpcError.BASE_ERROR + 6 /\
      (RpcError.code e <> RpcError.BASE_ERROR + 6 -> net' = net /\ pool' = pool)
  | Panic => True
  end.
Proof.
  unfold SubmitBlob.submit_blob_tx. intros Hs. destruct out as [st|e|]; [| |done].
  - destruct (decode_all extrinsic) as [xt|]; [|done].
    destruct (decode_all extrinsic) as [ext|]; [|done].
    destruct (runtime_api best (function ext)) as [[m|]| |] eqn:Hr; [|done..].
    destruct (SidecarMetadata.check m) eqn:Hc; [|done]. simpl in Hs.
    destruct (Z.eqb_spec (Z.of_nat (length data)) (SidecarMetadata.bytes_len m)) as [Hl|]; [|done].
    destruct (SubmitBlob.publish self m data net) as [[msg|[]|] net1] eqn:Hp; [|done]. simpl in Hs.
    destruct (submit_one best' xt pool) as [[h| |] pool1] eqn:Ho; [|done..].
    injection Hs as <- <- <-. exists xt, ext, m. split_and!; [done..|]. by apply publish_spec in Hp.
  - repeat (case_match; simplify_eq/=; try done); split; try (unfold RpcError.BASE_ERROR; lia); done.
Qed.

(** C14: Submitted data is found available: when the metadata in the extrinsic was computed
    from the data, the pool accepts the extrinsic and the data splits into segments, the RPC
    reports no error, and a listener that then handles the same extrinsic on a connected
    network samples it to the end and stores a record for the submission that counts as
    available - so no validator reports it. *)
Theorem submitted_data_sampled self sampler best best' data extrinsic net (pool : Pool) xt ext app_id
    nonce m segs h pool' (db : DB) :
  Crypto.default_embedded EMBEDDED_KZG_SETTINGS_BYTES = Ok (DaserNetwork.kzg self) ->
  standard (DaserNetwork.kzg self) -> DaserNetwork.kzg sampler = DaserNetwork.kzg self ->
  is_bytes data -> Z.of_nat (length data) < 2 ^ 32 -> in_u 32 app_id -> in_u 32 nonce ->
  SidecarMetadata.try_from_app_data data app_id nonce = Ok m ->
  bytes_to_segments data FIELD_ELEMENTS_PER_BLOB FIELD_ELEMENTS_PER_SEGMENT (DaserNetwork.kzg self)
    = Ok segs ->
  decode_all extrinsic = Some xt -> decode_all extrinsic = Some ext ->
  get_blob_tx_param (function ext) = Some m ->
  runtime_api best (function ext) = Ok (get_blob_tx_param (function ext)) ->
  submit_one best' xt pool = (Ok h, pool') ->
  connected (Net := Net) -> (forall net, responsive net) ->
  fair (SidecarMetadata.commitments m) ->
  exists net', submit_blob_tx self best best' data extrinsic net pool
      = (Ok (SubmitBlob.mkStatus h None), net', pool') /\
    exists fuel db' r,
      TxPoolListener.on_transaction sampler fuel net'
        (extract (OtherCall := OtherCall) (Signature := Signature) extrinsic) db = Some (Ok tt, db') /\
      get_confidence (app_confidence app_id nonce) db' = Some r /\
      Reliability.is_availability r = true.
Proof.
  intros Hkzg Hstd Hsam Hb Hlen Ha Hn Hm Hsegs Hxt Hext Hp Hapi Hsub Hconn Hresp Hfair.
  destruct (app_data_metadata data app_id nonce m Hlen Hm) as (Hv & Hck & Hbl).
  destruct (metadata_ids _ _ _ _ Hm) as [Hma Hmn].
  set (net' := (DaserNetwork.put_app_segments self segs app_id nonce net).2). exists net'. split.
  - unfold SubmitBlob.submit_blob_tx. rewrite Hxt, Hext, Hapi, Hp, Hck, Hbl, Z.eqb_refl. simpl.
    unfold SubmitBlob.publish, DaserNetwork.put_bytes. rewrite Hv, Hsegs, Hma, Hmn. simpl.
    by rewrite Hsub.
  - assert (Hcs : 0 < Z.of_nat (length (SidecarMetadata.commitments m)) < 2 ^ 32).
    { destruct (published_rows _ _ _ _ _ _ Hkzg Hstd Hb Hm Hsegs) as (rows & _ & Hrl & Hrd & _).
      unfold SidecarMetadata.check in Hck. apply andb_true_iff in Hck as [Hck _].
      apply andb_true_iff in Hck as [_ Hne%negb_true_iff%bool_decide_eq_false].
      destruct (SidecarMetadata.commitments m); [done|simpl length in *; lia]. }
    pose proof (published_fetchable sampler (DaserNetwork.kzg self) data app_id nonce m segs net
      Hkzg Hstd Hsam Hb Hlen Ha Hn Hconn Hm Hsegs) as Hpub.
    destruct (sample_application_record sampler net' app_id nonce (SidecarMetadata.commitments m) db)
      as (fuel & r & Hr & Hty & Hrl & _ & Hall); [done|done|intros p c [Hp1 Hp2]; by apply Hpub|apply Hresp|].
    exists fuel, (Reliability.save r (app_confidence app_id nonce) db), r.
    rewrite (extract_blob_tx _ _ _ Hext Hp). simpl. rewrite Hma, Hmn, Hr. simpl. split; [done|].
    split; [eapply save_get; [|eapply Forall_impl; [exact Hall|]; by intros s [? _]]; lia|].
    apply app_available; [done|lia|]. eapply Forall_impl; [exact Hall|].
    intros s (Hin & c & Hc & Hs). apply Hs.
    by apply Hpub.
Qed.
End submission.
