(* ===== verification/SubmissionRuns.v ===== *)
(** * A submission on a concrete library and network

    The library of canonical encodings, a network that keeps what is put, and a pool that
    accepts everything: three bytes of data travel from the RPC to the verdict. *)

From S2P Require Import Prelude Codec DasDb KzgLib KzgIndex KzgToy KzgDomain DasPrimitives Blob.
From S2P Require Import ErasureCoding RowRecovery CorePrimitives Reliability Sidecar DasNetwork.
From S2P Require Import DaserNetwork DaserRows DaserBlock Daser DaserProps RuntimeApi Rpc Submission.

(** Decoding that refuses values out of range. *)
Definition checked_codec (A : Type) `{Countable A} (P : A -> Prop) `{!forall a, Decision (P a)} : Codec A := {|
  scale_encode := @scale_encode A (RefCodec.ref_codec A);
  scale_decode l :=
    '(a, r) ← @scale_decode A (RefCodec.ref_codec A) l;
    if decide (P a) then Some (a, r) else None
|}.
Lemma checked_codec_laws (A : Type) `{Countable A} (P : A -> Prop) `{!forall a, Decision (P a)} :
  @CodecLaws A P (checked_codec A P).
Proof.
  intros a r Ha. simpl. rewrite RefCodec.bytes_pos_bytes. simpl. rewrite decode_encode. simpl.
  by rewrite decide_True.
Qed.
Lemma checked_codec_bound (A : Type) `{Countable A} (P : A -> Prop) `{!forall a, Decision (P a)} bs a :
  @decode_all A (checked_codec A P) bs = Some a -> P a.
Proof.
  intros ([a' r] & Hd & ->)%fmap_Some. simpl in Hd. apply bind_Some in Hd as ([a'' r'] & _ & Hd).
  case_decide; by simplify_eq.
Qed.

(** What the embedded settings are made of. *)
Lemma default_embedded_parts `{Platform} `{KzgLib} (E : bytes) kzg : Crypto.default_embedded E = Ok kzg ->
  exists g1 g2 fs, fft_settings_new (max_scale usize_bits Crypto.NUM_G1_POWERS) = Ok fs /\
    kzg = Crypto.kzg_new (kzg_settings g1 g2 fs).
Proof.
  unfold Crypto.default_embedded. intros Hk.
  destruct (Crypto.embedded_kzg_settings _ _ _) as [ks| |] eqn:He; [|done..]. injection Hk as <-.
  unfold Crypto.embedded_kzg_settings in He. case_match; [done|].
  destruct (Crypto.bytes_to_kzg_settings _ _ _ _) as [ks'| |] eqn:Hb; [|done..]. injection He as <-.
  unfold Crypto.bytes_to_kzg_settings in Hb. case_match; [done|].
  apply res_bind_Ok in Hb as (g1 & _ & Hb). apply res_bind_Ok in Hb as (g2 & _ & Hb).
  apply res_bind_Ok in Hb as (fs & Hfs & Hb). injection Hb as <-. exists g1, g2, fs. split; [|done].
  by destruct (fft_settings_new _); simplify_eq/=.
Qed.

Section runs.
#[local] Existing Instances host64 bytes_lib bytes_lib_fr bytes_lib_g1 bytes_lib_transcript
  bytes_lib_single bytes_lib_batch bytes_lib_bit_order
  ref_rng ref_rng_laws ref_permill ref_permill_laws.
#[local] Existing Instance toy_embedded.

#[local] Instance b_fft : FftLaws.
Proof. split; [by intros ? ? ? ? [= ->]|by intros ? ? ? [= ->]]. Qed.
#[local] Instance b_fk20 : Fk20Laws.
Proof. by intros ? ? ? ? [= <-]. Qed.
#[local] Instance b_roots : RootsLaws.
Proof. intros ks i _. by eexists. Qed.
#[local] Instance b_fk20_proofs : Fk20ProofLaws.
Proof. done. Qed.

(** ** Codecs *)
#[local] Instance enc_countable n : Countable (enc n).
Proof.
  apply (inj_countable (fun e : enc n => `e)
    (fun l => match enc_of n l with Ok e => Some e | _ => None end)).
  intros e. by rewrite enc_of_proj.
Defined.
#[local] Instance position_countable : Countable Position.
Proof.
  apply (inj_countable' (fun p => (Crypto.x p, Crypto.y p)) (fun '(x, y) => Crypto.mkPosition x y)).
  by intros [].
Defined.
#[local] Instance data_countable : Countable Segment.SegmentData.
Proof.
  apply (inj_countable' (A := list (enc 32) * enc 48)
    (fun d : @Segment.SegmentData bytes_lib => (Segment.data d, Segment.proof d))
    (fun '(d, p) => @Segment.mkData bytes_lib d p)). by intros [].
Defined.
#[local] Instance sample_countable : Countable Sample.
Proof.
  apply (inj_countable' (fun s => (sample_id s, position s, sample_available s))
    (fun '(i, p, a) => mkSample i p a)). by intros [].
Defined.
#[local] Instance record_countable : Countable Reliability.t.
Proof.
  apply (inj_countable' (A := list Sample * list (enc 48) * bool)
    (fun r : @Reliability.t bytes_lib => (Reliability.samples r, Reliability.commitments r,
       bool_decide (Reliability.confidence_type r = App)))
    (fun '(s, c, b) => @Reliability.mk bytes_lib s c (if b : bool then App else Block))).
  by intros [? ? []].
Defined.
#[local] Instance position_codec : Codec Position := RefCodec.ref_codec Position.
#[local] Instance position_codec_laws : CodecLaws Position := RefCodec.ref_codec_laws Position _.
#[local] Instance data_wf_dec (d : Segment.SegmentData) : Decision (Segment.SegmentData_wf d).
Proof. unfold Segment.SegmentData_wf. apply _. Defined.
#[local] Instance data_codec : Codec Segment.SegmentData :=
  checked_codec Segment.SegmentData Segment.SegmentData_wf.
#[local] Instance data_codec_laws : CodecLaws Segment.SegmentData :=
  checked_codec_laws Segment.SegmentData Segment.SegmentData_wf.
#[local] Instance record_codec : Codec Reliability.t := RefCodec.ref_codec Reliability.t.
#[local] Instance record_codec_laws : CodecLaws Reliability.t := RefCodec.ref_codec_laws Reliability.t _.

(** ** The network *)
#[local] Instance keep_net : Requests (gmap bytes bytes) := {|
  get_kad_record key net := match net !! key with
                            | Some v => Ok [mkRecord key v]
                            | None => Err "No record found."%string
                            end;
  put_kad_record r _ net := (Ok tt, <[rec_key r := rec_value r]> net);
  request_remove_records keys net := (Ok tt, fold_left (fun net key => delete key net) keys net)
|}.
#[local] Instance keep_net_laws : RequestLaws (gmap bytes bytes).
Proof.
  split; simpl.
  - intros [k v] _ net _. simpl. by rewrite lookup_insert_eq.
  - intros [k v] _ net key Hk. simpl in *. by rewrite lookup_insert_ne.
Qed.

(** ** The library computes *)
Lemma embedded_width (E : bytes) kzg : Crypto.default_embedded E = Ok kzg -> standard kzg.
Proof.
  intros Hk. split; [apply Nat.ltb_lt; reflexivity|].
  destruct (default_embedded_parts E kzg Hk) as (g1 & g2 & fs & Hfs & ->).
  change (Ok (E := string) (2 ^ max_scale 64 Crypto.NUM_G1_POWERS) = Ok fs) in Hfs. injection Hfs as <-.
  vm_compute. reflexivity.
Qed.

Lemma b_rows_total poly kzg y : length (Crypto.coeffs poly) = Z.to_nat FIELD_ELEMENTS_PER_BLOB ->
  exists segs, poly_to_segment_vec poly kzg y FIELD_ELEMENTS_PER_SEGMENT = Ok segs.
Proof.
  intros Hl. unfold poly_to_segment_vec, Polynomial.checked, Polynomial.is_valid. rewrite Hl.
  cbn [negb is_power_of_two]. change (is_power_of_two _) with true at 1. cbn [negb mbind res_bind].
  change (is_power_of_two FIELD_ELEMENTS_PER_SEGMENT) with true.
  cbn [negb mbind res_bind fk20_new fk20_data_availability bytes_lib fft_fr extend_poly].
  apply mapM_res_exists. intros [i chunk] [j Hj]%list_elem_of_lookup. rewrite lookup_enumerate in Hj.
  apply fmap_Some in Hj as (chunk' & Hj & [= -> ->]). apply lookup_lt_Some in Hj.
  rewrite length_chunks in Hj by (apply Nat.ltb_lt; reflexivity).
  rewrite lookup_replicate_2; [by eexists|]. unfold reverse_bit_order, bytes_lib, vec_resize in Hj.
  rewrite length_ref_reverse_bit_order, length_resize in Hj.
  assert (Hj' : (j < (length (Crypto.coeffs poly) * 2 + Z.to_nat FIELD_ELEMENTS_PER_SEGMENT - 1)
    / Z.to_nat FIELD_ELEMENTS_PER_SEGMENT)%nat) by exact Hj. clear Hj. rewrite Hl in Hj'.
  change ((Z.to_nat FIELD_ELEMENTS_PER_BLOB * 2 + Z.to_nat FIELD_ELEMENTS_PER_SEGMENT - 1)
    / Z.to_nat FIELD_ELEMENTS_PER_SEGMENT)%nat with 256%nat in Hj'.
  apply (Nat.lt_le_trans _ _ _ Hj').
  assert (256 <= length (Crypto.coeffs poly))%nat as Hge; [|exact Hge].
  rewrite Hl. apply Nat.leb_le. reflexivity.
Qed.

Lemma b_segments_total data kzg : is_bytes data -> data <> [] ->
  exists segs, bytes_to_segments data FIELD_ELEMENTS_PER_BLOB FIELD_ELEMENTS_PER_SEGMENT kzg = Ok segs.
Proof.
  intros Hb Hne. unfold bytes_to_segments. rewrite bool_decide_false by done.
  destruct (get_bytes_per_blob_Ok FIELD_ELEMENTS_PER_BLOB) as [-> _]; [done|done|]. bind_simpl.
  rewrite (proj2 (Z.eqb_neq _ _)) by done. set (n := Z.to_nat (31 * FIELD_ELEMENTS_PER_BLOB)).
  assert (Hn : (0 < n)%nat) by (apply Nat.ltb_lt; reflexivity).
  match goal with |- context [mapM ?f ?l] => destruct (mapM_res_exists f l) as [rows ->] end; [|by eexists].
  intros [y chunk] [i Hi]%list_elem_of_lookup. rewrite lookup_enumerate in Hi.
  apply fmap_Some in Hi as (c & Hc & [= -> ->]). apply list_elem_of_lookup_2 in Hc.
  pose proof (chunks_is_bytes n data Hn Hb) as Hcb. rewrite Forall_forall in Hcb.
  destruct (Blob.try_from_bytes_pad_complete c n FIELD_ELEMENTS_PER_BLOB) as (blob & -> & Hl & _);
    [by apply Hcb|by eapply chunk_length_le|by apply Z2Nat.id|]. bind_simpl.
  destruct (b_rows_total (Blob.to_poly blob) kzg (Z.of_nat i)) as [segs ->]; [|by eexists].
  rewrite <- Hl, Nat2Z.id. reflexivity.
Qed.

(** ** Witnesses *)
#[local] Definition always (m : SidecarMetadata.t) : Codec (UncheckedExtrinsic unit unit) := {|
  scale_encode _ := [];
  scale_decode l := Some (mkExtrinsic None (MeloStore_submit_data m), l) |}.
#[local] Instance raw_codec : Codec (list Z) := {| scale_encode l := l; scale_decode l := Some (l, []) |}.
#[local] Definition take_all (_ : unit) (xt : list Z) (pool : list (list Z))
    : res string (list Z) * list (list Z) := (Ok xt, pool ++ [xt]).

Lemma submitted_data_sampled_witness : exists m net' fuel db' r,
  let self kzg := DaserNetwork.new (Service.mk 10) kzg in
  exists kzg,
  @SubmitBlob.submit_blob_tx _ _ _ _ _ _ _ (always m) _ _ _ _ _ _ _
    (fun _ f => Ok (get_blob_tx_param f)) (fun _ => "e"%string) take_all (self kzg) tt tt [1; 2; 3] [9]
    (∅ : gmap bytes bytes) []
  = (Ok (SubmitBlob.mkStatus [9] None), net', [[9]]) /\
  TxPoolListener.on_transaction (self kzg) fuel net' (@extract _ _ _ (always m) [9]) MockDb.new
  = Some (Ok tt, db') /\
  get_confidence (app_confidence 4 5) db' = Some r /\ Reliability.is_availability r = true.
Proof.
  destruct toy_default_embedded as [kzg Hkzg]. destruct toy_metadata_exists as [m Hm].
  destruct (b_segments_total [1; 2; 3] kzg) as [segs Hsegs]; [unfold is_bytes; by_decision|done|].
  destruct (app_data_metadata [1; 2; 3] 4 5 m eq_refl Hm) as (_ & Hck & _).
  pose (c := always m).
  destruct (submitted_data_sampled (fun _ f => Ok (get_blob_tx_param f)) (fun _ => "e"%string) take_all
    (DaserNetwork.new (Service.mk 10) kzg) (DaserNetwork.new (Service.mk 10) kzg) tt tt [1; 2; 3] [9]
    (∅ : gmap bytes bytes) [] [9] (mkExtrinsic None (MeloStore_submit_data m)) 4 5 m segs [9] [[9]]
    MockDb.new) as (net' & Hs & fuel & db' & r & Hl & Hg & Hr).
  - exact Hkzg.
  - exact (embedded_width _ kzg Hkzg).
  - reflexivity.
  - unfold is_bytes. by_decision.
  - reflexivity.
  - split; [discriminate|reflexivity].
  - split; [discriminate|reflexivity].
  - exact Hm.
  - exact Hsegs.
  - reflexivity.
  - reflexivity.
  - reflexivity.
  - reflexivity.
  - reflexivity.
  - intros r q net. reflexivity.
  - intros net key. simpl. by destruct (net !! key).
  - apply ref_rng_is_fair. unfold SidecarMetadata.check in Hck.
    destruct (SidecarMetadata.commitments m); [by rewrite andb_false_r in Hck|simpl; lia].
  - exists m, net', fuel, db', r, kzg. split; [exact Hs|]. split; [exact Hl|]. split; [exact Hg|exact Hr].
Defined.

(** Two bytes of data for metadata that announces three. *)
#[local] Definition short_metadata : SidecarMetadata.t :=
  @SidecarMetadata.mk bytes_lib 4 3 5 [enc_zeros 48] [enc_zeros 48].
#[local] Definition any_kzg : KZG := @Crypto.kzg_new bytes_lib 4096.

Lemma submit_blob_tx_effect_witness :
  let run := @SubmitBlob.submit_blob_tx _ _ _ _ _ _ _ (always short_metadata) _ _ _ _ _ _ _
    (fun _ f => Ok (get_blob_tx_param f)) (fun _ => "e"%string) take_all
    (DaserNetwork.new (Service.mk 10) any_kzg) tt tt [1; 2] [9] (∅ : gmap bytes bytes) [] in
  exists e, run.1.1 = Err e /\ RpcError.code e = 10005 /\ run.1.2 = ∅ /\ run.2 = [].
Proof.
  intros run. pose (c := always short_metadata).
  exists (RpcError.into RpcError.DataLength).
  assert (Hrun : run = (Err (RpcError.into RpcError.DataLength), ∅, [])) by (vm_compute; reflexivity).
  destruct (submit_blob_tx_effect (fun _ f => Ok (get_blob_tx_param f)) (fun _ => "e"%string) take_all
    (DaserNetwork.new (Service.mk 10) any_kzg) tt tt [1; 2] [9] (∅ : gmap bytes bytes) []
    (Err (RpcError.into RpcError.DataLength)) run.1.2 run.2) as [_ Hun].
  - rewrite Hrun. exact Hrun.
  - split; [rewrite Hrun; reflexivity|]. split; [reflexivity|]. apply Hun. discriminate.
Defined.
End runs.
