(* ===== verification/PosKzg.v ===== *)
(** * The proof of a pre-cell ([crates/proof-of-space/src/cell.rs])

    Cells are checked at their position in the row; [PreCell::verify_kzg_proof] passes the
    number of segments of an extended row where the number before extension is meant. *)

From S2P Require Import Prelude Codec DasDb KzgLib KzgIndex KzgToy DasPrimitives Blob.
From S2P Require Import ErasureCoding RowRecovery CorePrimitives Reliability Sidecar DasNetwork DaserNetwork.
From S2P Require Import DaserRows DaserBlock Daser DaserProps PosUtils ProofOfSpace RuntimeApi Rpc.
From S2P Require Import Submission SubmissionRuns.

Section pre_cell.
Context `{Platform} `{KzgLib}.

(** C38: With the embedded settings the proof of a pre-cell is checked at the first segment of
    the row, whatever its position: the pre-cell is accepted exactly when a cell with its
    data would be accepted at position 0 of the row.  A cell at another position of the row
    is checked at another point, so the proof the row's author made for it is not the one
    that is asked for, and a pre-cell with the data of segment 0 is accepted at every
    position. *)
Theorem pre_cell_checked_as_first kzg c pos md p d :
  standard kzg -> Z.of_nat (length (Segment.data d)) = FIELD_ELEMENTS_PER_SEGMENT ->
  pre_cell_verify_kzg_proof (pre_cell_new pos (Segment.mk p d)) kzg c
  = cell_verify_kzg_proof (cell_new md (Segment.mk (Crypto.mkPosition 0 (Crypto.y p)) d)) kzg c /\
  (0 < Crypto.x p < EXTENDED_SEGMENTS_PER_BLOB -> exists i, i <> 0 /\
     Crypto.kzg_index kzg SEGMENTS_PER_BLOB (Crypto.x p) FIELD_ELEMENTS_PER_SEGMENT = Ok i).
Proof.
  intros [Hw Hm] Hl. split.
  - unfold pre_cell_verify_kzg_proof, cell_verify_kzg_proof, Segment.verify, Crypto.check_proof_multi, Segment.size.
    simpl. rewrite Hl. rewrite kzg_index_extended, kzg_index_row by (done || lia). by rewrite reverse_bits_0.
  - intros Hx. exists (reverse_bits 8 (Crypto.x p)). split; [|apply kzg_index_row; (done || lia)].
    intros Hz. assert (Hb : Crypto.x p = 0); [|lia].
    rewrite <- (reverse_bits_involutive 8 (Crypto.x p)) by (change EXTENDED_SEGMENTS_PER_BLOB with 256 in Hx; simpl; lia).
    by rewrite Hz, reverse_bits_0.
Qed.
End pre_cell.

Section pre_cell_witness.
#[local] Existing Instances host64 bytes_lib Sidecar.toy_embedded.

Lemma pre_cell_checked_as_first_witness : exists kzg,
  let d := Segment.mkData (replicate (Z.to_nat FIELD_ELEMENTS_PER_SEGMENT) fr_zero) g1_identity in
  pre_cell_verify_kzg_proof (pre_cell_new (PiecePosition.Row 0) (Segment.mk (Crypto.mkPosition 9 0) d)) kzg g1_identity
  = cell_verify_kzg_proof (cell_new (CellMetadata.mk (PieceMetadata.mk 1 (PiecePosition.Row 0)) 0)
      (Segment.mk (Crypto.mkPosition 0 0) d)) kzg g1_identity.
Proof.
  destruct toy_default_embedded as [kzg Hkzg]. exists kzg. intros d.
  apply (pre_cell_checked_as_first kzg g1_identity (PiecePosition.Row 0) _ (Crypto.mkPosition 9 0) d).
  - exact (embedded_width _ kzg Hkzg).
  - reflexivity.
Defined.
End pre_cell_witness.
