(* ===== verification/AvailabilityFlow.v ===== *)
(** * From the network to the header

    The listener of every validator samples the submissions it sees in the transaction pool
    through the node's view of the off-chain database; the off-chain worker reads the same
    database through the runtime's view and reports; the pallet counts; the executive builds
    the header.  Composed, what the header carries depends on what the validators could
    fetch. *)

From S2P Require Import Prelude Codec DasDb KzgLib KzgIndex KzgToy DasPrimitives Blob.
From S2P Require Import ErasureCoding CorePrimitives Reliability Sidecar MeloStore MeloOffchain.
From S2P Require Import MeloStoreProps MeloStoreFacts MeloOffchainProps Executive HeaderFlow.
From S2P Require Import Availability DasNetwork DaserNetwork DaserRows DaserBlock Daser DaserProps.
From S2P Require Import RuntimeApi Rpc Submission.

(** The node's view obeys the laws of the trait. *)
#[export] Instance outside_kv_laws {H : Type} `{HostStorageLaws H} : DasKvLaws (OffchainKvOutside.t H).
Proof.
  pose proof (OffchainKv.kv_laws (H := H)) as [L1 L2 L3 L4 L5 L6 L7]. split; intros k.
  - intros v db. exact (L1 k v (inside db)).
  - intros k' v db. exact (L2 k k' v (inside db)).
  - intros db. exact (L3 k (inside db)).
  - intros k' db. exact (L4 k k' (inside db)).
  - intros db. exact (L5 k (inside db)).
  - intros old new db Hg. specialize (L6 k old new (inside db) Hg).
    destruct (inside_ops db k new old) as (_ & Hs & _ & _ & Hc). rewrite L6, <- Hs in Hc.
    destruct (kv_compare_and_set k old new db) as [b db']. injection Hc as -> Hi Hp.
    simpl in Hi, Hp. destruct db'. simpl in *. by subst.
  - intros old new db Hg. specialize (L7 k old new (inside db) Hg).
    destruct (inside_ops db k new old) as (_ & _ & _ & _ & Hc). rewrite L7 in Hc.
    destruct (kv_compare_and_set k old new db) as [b db']. injection Hc as -> Hi Hp.
    destruct db, db'. simpl in *. by subst.
Qed.

(** More fuel does not change what a draw, and so a sampling, that ended returned. *)
Section fuel.
Context `{Platform} `{KzgLib} `{PermillLib} `{RngLib} `{Codec Position} `{Codec Segment.SegmentData}.
Context {Net : Type} `{!Requests Net} {DB : Type} `{!DasKv DB} `{Codec Reliability.t}.

Lemma draw_positions_more fuel fuel' n cs i ps acc out : (fuel <= fuel')%nat ->
  Reliability.draw_positions fuel n cs i ps acc = Some out ->
  Reliability.draw_positions fuel' n cs i ps acc = Some out.
Proof.
  revert fuel' i ps acc. induction fuel as [|fuel IH]; intros fuel' i ps acc Hle; simpl.
  - destruct (length ps <? n)%nat eqn:Hn; [done|]. by destruct fuel'; simpl; rewrite Hn.
  - destruct fuel' as [|fuel']; [lia|]. simpl. destruct (length ps <? n)%nat; [|done].
    case_bool_decide; [apply IH; lia|]. destruct (cs !! _); [apply IH; lia|done].
Qed.

Lemma sample_application_more fuel fuel' self (net : Net) a n cs (db : DB) out : (fuel <= fuel')%nat ->
  SamplingClient.sample_application fuel self net a n cs db = Some out ->
  SamplingClient.sample_application fuel' self net a n cs db = Some out.
Proof.
  intros Hle. unfold SamplingClient.sample_application, Reliability.set_sample.
  case_match; [done|]. intros (o & (d & Hd & Ho)%bind_Some & Hout)%bind_Some.
  injection Ho as <-. rewrite (draw_positions_more _ _ _ _ _ _ _ _ Hle Hd). exact Hout.
Qed.

Lemma sample_application_unique fuel fuel' self (net : Net) a n cs (db : DB) out out' :
  SamplingClient.sample_application fuel self net a n cs db = Some out ->
  SamplingClient.sample_application fuel' self net a n cs db = Some out' -> out = out'.
Proof.
  intros Hx Hy. destruct (le_ge_dec fuel fuel') as [Hle|Hge].
  - apply (sample_application_more _ fuel') in Hx; [congruence|done].
  - apply (sample_application_more _ fuel) in Hy; [congruence|done].
Qed.
End fuel.

Section flow.
Context `{Platform} `{KzgLib} `{!G1BytesLaws} `{MeloConfig} `{PermillLib} `{!PermillLaws}
  `{ClearPrefix} `{!ClearPrefixLaws} `{EmbeddedSettings} `{RngLib} `{!RngLaws}.
Context {Hash Item : Type} `{!FrameSystem Storage Hash Item} `{!SystemFinalizeLaws Storage Hash Item}.
Context {HT : Type} `{HostStorage HT} `{!HostStorageLaws HT}.
Context `{Codec Reliability.t} `{!CodecLaws Reliability.t} `{Codec ReportStatus} `{!CodecLaws ReportStatus}
  `{Codec UnavailableDataReport} `{Codec Z}.
Context `{Codec Position} `{Codec Segment.SegmentData} {Net : Type} `{!Requests Net}.
Context (HMax : 0 <= MaxBlobNum < 2 ^ 16) (HKeys : 0 <= MaxKeys < 2 ^ 32)
  (HRows : MaxKeys * MaxBlobNum < 2 ^ 32).
Implicit Types (s : Storage) (m : BlobMetadata) (v : Validator (HT := HT)) (vs : list (Validator (HT := HT))).

(** The network client of a validator, and the network as it finds it when it samples a
    submission. *)
Context (client : Validator (HT := HT) -> DaserNetwork.t)
  (net_of : Validator (HT := HT) -> BlobMetadata -> Net).

(** The parameters of the extrinsic that created the entry. *)
Definition params_of m : SidecarMetadata.t :=
  SidecarMetadata.mk (app_id m) (bytes_len m) (nonce m) (commitments m) (proofs m).

(** The host storage of the validator holds the record the listener left for the entry. *)
Definition listened v m : Prop := exists h0 fuel db',
  TxPoolListener.on_transaction (client v) fuel (net_of v m) (Some [params_of m])
    (OffchainKvOutside.new h0 None) = Some (Ok tt, db') /\
  kv_get (app_confidence (app_id m) (nonce m)) (OffchainKv.new None (v_host v))
  = kv_get (app_confidence (app_id m) (nonce m)) db'.

(** None of the data can be fetched; all of it can. *)
Definition loses m v : Prop := forall p c, in_data (commitments m) p c ->
  ~ fetchable (client v) (net_of v m) (app_id m) (nonce m) p c.
Definition finds m v : Prop := forall p c, in_data (commitments m) p c ->
  fetchable (client v) (net_of v m) (app_id m) (nonce m) p c.

(** The network answers, and no value it returns for a cell of a submission makes the check
    of the library panic. *)
Context (Hharmless : forall v m, harmless_cells (client v) (net_of v m) (app_id m) (nonce m) (commitments m))
  (Hnet : forall v m, responsive (net_of v m)).

Lemma listener_verdict v m : metadata_ok m -> fair (commitments m) -> listened v m ->
  (loses m v -> distrusts m v = true) /\ (finds m v -> distrusts m v = false).
Proof.
  intros (_ & Hne & _ & Hlen) Hfair (h0 & fuel0 & db' & Hrun & Hl).
  assert (Hcs : 0 < Z.of_nat (length (commitments m)) < 2 ^ 32)
    by (destruct (commitments m); [done|simpl length in *; lia]).
  destruct (sample_application_record (client v) (net_of v m) (app_id m) (nonce m) (commitments m)
    (OffchainKvOutside.new h0 None)) as (fuel & r & Hr & Hty & Hrl & _ & Hall); [done..|].
  assert (Hrec : get_confidence (app_confidence (app_id m) (nonce m)) (OffchainKv.new None (v_host v)) = Some r).
  { simpl in Hrun. apply bind_Some in Hrun as ([o db1] & Hr1 & Hrun).
    pose proof (sample_application_unique _ _ _ _ _ _ _ _ _ _ Hr Hr1) as [= <- <-].
    injection Hrun as <-. unfold get_confidence, Reliability.get. rewrite Hl.
    change (get_confidence (app_confidence (app_id m) (nonce m))
      (Reliability.save r (app_confidence (app_id m) (nonce m)) (OffchainKvOutside.new h0 None)) = Some r).
    eapply (save_get r _ _ (Z.of_nat (length (commitments m)))); [lia|].
    eapply Forall_impl; [exact Hall|]. by intros x [? _]. }
  unfold distrusts. rewrite Hrec. destruct (app_available r Hty) as [Htrue Hfalse]; [rewrite Hrl; lia|].
  split; intros Hf.
  - rewrite Hfalse; [done|]. eapply Forall_impl; [exact Hall|]. intros x (Hin & c & Hc & Hx).
    apply not_true_is_false. intros Hav%Hx. by apply (Hf (position x) c (conj Hin Hc)).
  - rewrite Htrue; [done|]. eapply Forall_impl; [exact Hall|]. intros x (Hin & c & Hc & Hx).
    by apply Hx, (Hf (position x) c (conj Hin Hc)).
Qed.

(** Counting: the members of a sub-collection all of which satisfy, or all of which fail,
    the test. *)
Lemma count_at_least {A} (P : A -> bool) (sub l : list A) : sub ⊆+ l ->
  Forall (fun x => P x = true) sub -> (length sub <= length (filter (fun x => P x = true) l))%nat.
Proof.
  intros Hs Hf. etrans; [|apply (submseteq_length (filter (fun x => P x = true) sub))].
  - clear Hs. induction Hf as [|x sub Hx _ IH]; [done|]. rewrite filter_cons, decide_True by done. simpl. lia.
  - apply submseteq_Permutation in Hs as [k ->]. rewrite filter_app. apply submseteq_inserts_r. done.
Qed.
Lemma count_at_most {A} (P : A -> bool) (sub l : list A) : sub ⊆+ l ->
  Forall (fun x => P x = false) sub ->
  (length (filter (fun x => P x = true) l) + length sub <= length l)%nat.
Proof.
  intros Hs Hf. apply submseteq_Permutation in Hs as [k ->]. rewrite filter_app, !length_app.
  replace (filter (fun x => P x = true) sub) with (@nil A).
  - simpl. pose proof (length_filter (fun x => P x = true) k). lia.
  - clear -Hf. induction Hf as [|x sub Hx _ IH]; [done|]. rewrite filter_cons, decide_False; [done|]. by rewrite Hx.
Qed.

(** C1: What cannot be fetched does not reach the header, and what can does, as long as not
    more than [MaxBlobNum] validators report (the bound of the vote lists; with twice as
    many authorities no report counts any more).  After any reachable
    block [n] whose submissions have no votes yet, let at most [MaxBlobNum] validators whose
    listeners sampled the submissions of block [n] - each with a fair random source and on
    the network as it found it, which answers and returns nothing that makes the library's
    check panic - run their off-chain workers, and let block [n + 1] include the reports
    in any order.  The header of block [n + 1] then carries a
    sub-sequence of the submissions of block [n]: none of which more than half of the
    authorities could fetch nothing, and each available one that all but at most half of the
    authorities' number could fetch completely. *)
Theorem lost_data_dropped s0 s vs calls h :
  genesis s0 -> rtc step s0 s -> 1 <= block_number s < 2 ^ 32 - 1 ->
  Forall (ready s) vs -> NoDup (v_index <$> vs) -> Z.of_nat (length vs) <= MaxBlobNum ->
  (forall i, votes_of (block_number s) i s = []) ->
  (forall m, m ∈ get_Metadata (block_number s) s -> fair (commitments m) /\ Forall (fun v => listened v m) vs) ->
  calls ≡ₚ concat (reports_of s <$> vs) ->
  let half := Z.of_nat (length (Keys s)) / 2 in
  let header := (finalize (apply_calls calls (next_block h s)).2).1 in
  exists kept, kept `sublist_of` get_Metadata (block_number s) s /\
    Header.commitments header = Some (concat (commitments <$> kept)) /\
    HeaderExtension.app_lookup (Header.extension header)
    = (fun m => AppLookup.mk (app_id m) (nonce m) (Z.of_nat (length (commitments m)))) <$> kept /\
    forall m vs', m ∈ get_Metadata (block_number s) s -> vs' ⊆+ vs ->
      (Forall (loses m) vs' -> half < Z.of_nat (length vs') -> m ∉ kept) /\
      (Forall (finds m) vs' -> Z.of_nat (length vs) - Z.of_nat (length vs') <= half ->
       is_available m = true -> m ∈ kept).
Proof.
  intros Hg Hr Hb Hready Hnd Hlen Hno Hlis Hperm half header.
  assert (Hi : invariant s) by (eapply invariant_reachable; [lia|done|done]).
  pose proof (header_after_reports HMax HKeys HRows s vs calls h Hi Hb Hready Hnd Hlen Hno Hperm) as Hh.
  unfold header. destruct (apply_calls calls (next_block h s)) as [os s']. destruct Hh as (_ & Hc & Hl).
  eexists. split; [|split; [exact Hc|split; [exact Hl|]]]; [apply sublist_filter|].
  intros m vs' Hm Hsub. destruct (Hlis m Hm) as [Hfair Hall].
  destruct (inv_metadata_get s (block_number s) Hi) as [_ Hok]. rewrite Forall_forall in Hok. rewrite Forall_forall in Hall.
  assert (Hv : forall v, v ∈ vs' -> (loses m v -> distrusts m v = true) /\ (finds m v -> distrusts m v = false)).
  { intros v Hv. apply listener_verdict; [by apply Hok|done|]. apply Hall. by eapply elem_of_submseteq. }
  split.
  - intros Hlose Hmaj [[_ Hle] _]%list_elem_of_filter.
    assert (Hc' := count_at_least (distrusts m) vs' vs Hsub). unfold suspicions in Hle.
    rewrite Forall_forall in Hlose. apply Nat2Z.inj_le in Hc'; [unfold half in *; lia|].
    apply Forall_forall. intros v Hin. apply Hv; [done|]. by apply Hlose.
  - intros Hfind Hmin Hav. apply list_elem_of_filter. split; [|done]. split; [done|].
    assert (Hc' := count_at_most (distrusts m) vs' vs Hsub). unfold suspicions.
    rewrite Forall_forall in Hfind. unfold half in Hmin.
    assert (Hf : Forall (fun v => distrusts m v = false) vs')
      by (apply Forall_forall; intros v Hin; apply Hv; [done|by apply Hfind]). specialize (Hc' Hf). lia.
Qed.
End flow.
