(* ===== verification/AvailabilityRuns.v ===== *)
(** * Reports and header on concrete nodes

    One authority, one submission in block 1, and a host that holds a record with a failed
    sample: the header of block 2 is empty. *)

From S2P Require Import Prelude Codec DasDb KzgLib KzgIndex KzgToy DasPrimitives Blob.
From S2P Require Import ErasureCoding CorePrimitives Reliability Sidecar MeloStore MeloOffchain.
From S2P Require Import MeloStoreProps MeloStoreFacts MeloOffchainProps MeloStoreRuns Executive.
From S2P Require Import HeaderFlow Availability DasNetwork DaserNetwork DaserRows DaserBlock Daser.
From S2P Require Import DaserProps RuntimeApi Rpc Submission SubmissionRuns AvailabilityFlow.

Section runs.
#[local] Existing Instances host64 bytes_lib bytes_lib_g1 ref_permill ref_permill_laws
  ref_clear_prefix ref_clear_prefix_laws map_host map_host_laws.
#[local] Existing Instances HeaderFlow.flow_config HeaderFlow.flow_settings HeaderFlow.flow_system
  HeaderFlow.flow_laws.
#[local] Existing Instances MeloStoreRuns.status_codec MeloStoreRuns.status_codec_laws
  MeloStoreRuns.index_codec MeloStoreRuns.report_codec.
(** Every stored record decodes to one with a failed sample. *)
#[local] Definition failed_record : Reliability.t :=
  Reliability.mk [mkSample [] (Crypto.mkPosition 0 0) false] [] App.
#[local] Instance record_codec : Codec Reliability.t := {|
  scale_encode _ := [7]; scale_decode _ := Some (failed_record, []) |}.

#[local] Definition a1 : Storage := mkStorage ∅ ∅ [2] 1 ∅ ∅ 1 (fun _ => []) [].
#[local] Definition a2 : Storage :=
  (dispatch (CallSubmitData HeaderFlow.submission) (Signed HeaderFlow.dave) a1).2.

#[local] Definition node_env : OffchainEnv (gmap bytes bytes) := {|
  authority_sign _ _ := Some [];
  local_keys := [2];
  pool_accepts c := is_ok (validate_unsigned c a2);
  is_validator := true;
  interference h := h
|}.
#[local] Definition node : Validator := mkValidator node_env MeloStoreRuns.host0 0 2.

Lemma node_ready : ready a2 node.
Proof.
  split; try done.
  intros msg. exists []. by split.
Qed.
Lemma a2_reachable : rtc step a1 a2.
Proof.
  apply rtc_once.
  by apply (step_call (CallSubmitData HeaderFlow.submission) (Signed HeaderFlow.dave) a1 (Ok tt)).
Qed.

Lemma header_drops_unavailable_witness :
  let '(outcomes, s') := apply_calls (reports_of a2 node) (next_block [] a2) in
  outcomes = [Ok tt] /\ Header.commitments (finalize s').1 = Some [].
Proof.
  pose proof (header_drops_unavailable flow_max ltac:(done) ltac:(done) a1 a2 [node]
    (reports_of a2 node) []) as Hh.
  destruct (apply_calls (reports_of a2 node) (next_block [] a2)) as [os s'] eqn:Ha.
  destruct Hh as (Hos & Hc & _).
  - split_and!; done.
  - exact a2_reachable.
  - done.
  - constructor; [exact node_ready|constructor].
  - simpl. apply NoDup_singleton.
  - done.
  - done.
  - simpl. by rewrite app_nil_r.
  - split; [|exact Hc]. change os with (os, s').1. rewrite <- Ha. vm_compute. reflexivity.
Defined.
End runs.

(** ** A network that lost the data *)
Section lost.
#[local] Existing Instances host64 bytes_lib bytes_lib_g1 ref_permill ref_permill_laws
  ref_clear_prefix ref_clear_prefix_laws map_host map_host_laws ref_rng ref_rng_laws.
#[local] Existing Instances HeaderFlow.flow_config HeaderFlow.flow_settings HeaderFlow.flow_system
  HeaderFlow.flow_laws.
#[local] Existing Instances MeloStoreRuns.status_codec MeloStoreRuns.status_codec_laws
  MeloStoreRuns.index_codec MeloStoreRuns.report_codec.
#[local] Existing Instances SubmissionRuns.record_codec SubmissionRuns.record_codec_laws
  SubmissionRuns.position_codec SubmissionRuns.data_codec
  SubmissionRuns.keep_net.

#[local] Definition lost_client (_ : Validator (HT := gmap bytes bytes)) : DaserNetwork.t :=
  DaserNetwork.new (Service.mk 10) SubmissionRuns.any_kzg.
#[local] Definition lost_net (_ : Validator (HT := gmap bytes bytes)) (_ : BlobMetadata) : gmap bytes bytes := ∅.
#[local] Definition lost_entry : BlobMetadata :=
  mkMetadata 1 HeaderFlow.dave [g1_identity] [g1_identity] 10 true 1.

(** What the listener leaves in an empty database. *)
#[local] Definition sampled_host : gmap bytes bytes :=
  match TxPoolListener.on_transaction (lost_client node) 1 (lost_net node lost_entry)
          (Some [params_of lost_entry]) (OffchainKvOutside.new ∅ None) with
  | Some (_, db) => OffchainKvOutside.db db
  | None => ∅
  end.
#[local] Definition lost_node : Validator := mkValidator node_env sampled_host 0 2.

Lemma lost_node_ready : ready a2 lost_node.
Proof.
  split; try done.
  intros msg. exists []. by split.
Qed.
Lemma lost_node_listened : listened lost_client lost_net lost_node lost_entry.
Proof.
  exists ∅, 1%nat. eexists. split; vm_compute; reflexivity.
Qed.
Lemma lost_node_loses : loses lost_client lost_net lost_entry lost_node.
Proof. intros p c _ [d Hd]. done. Qed.

Lemma lost_harmless v a n cs : harmless_cells (lost_client v) (∅ : gmap bytes bytes) a n cs.
Proof. intros p c _ vs w d Hv. done. Qed.

Lemma lost_data_dropped_witness :
  let s' := (apply_calls (reports_of a2 lost_node) (next_block [] a2)).2 in
  exists kept, Header.commitments (finalize s').1 = Some (concat (commitments <$> kept)) /\
    lost_entry ∉ kept.
Proof.
  destruct (lost_data_dropped flow_max ltac:(done) ltac:(done) lost_client lost_net
    (fun _ _ => lost_harmless _ _ _ _) ltac:(done) a1 a2 [lost_node]
    (reports_of a2 lost_node) []) as (kept & _ & Hc & _ & Hkept).
  - split_and!; done.
  - exact a2_reachable.
  - done.
  - constructor; [exact lost_node_ready|constructor].
  - simpl. apply NoDup_singleton.
  - done.
  - done.
  - intros m [->|[]%not_elem_of_nil]%elem_of_cons. split; [|constructor; [exact lost_node_listened|constructor]].
    apply ref_rng_is_fair. simpl. lia.
  - simpl. by rewrite app_nil_r.
  - exists kept. split; [exact Hc|]. destruct (Hkept lost_entry [lost_node]) as [Hlost _].
    + apply list_elem_of_singleton. reflexivity.
    + reflexivity.
    + apply Hlost; [|done]. constructor; [exact lost_node_loses|constructor].
Defined.
End lost.
