(* ===== verification/RuntimeConfig.v ===== *)
(** * Runtime configuration ([runtime/src/config.rs], [runtime/src/lib.rs])

    The constants with which the runtime instantiates its pallets, and the small functions
    it defines itself: the deposit, the conversion of 256-bit numbers, the balancing of
    the election miner and the mortality of the transactions off-chain workers sign.
    Ratios are given by their parts: per billion, per million and per cent. *)

From S2P Require Import Prelude Codec DasDb KzgLib KzgIndex KzgToy DasPrimitives Blob.
From S2P Require Import ErasureCoding CorePrimitives Reliability Sidecar PosUtils ProofOfSpace.
From S2P Require Import MeloStore MeloStoreProps FarmersFortune.

Module Time.
Definition MILLISECS_PER_BLOCK : Z := 6000.
Definition SECS_PER_BLOCK : Z := MILLISECS_PER_BLOCK / 1000.
(** Units in blocks. *)
Definition MINUTES : Z := 60 / SECS_PER_BLOCK.
Definition HOURS : Z := MINUTES * 60.
End Time.

Module Core.
Definition NORMAL_DISPATCH_RATIO : Z := 75 * 10000000.
Definition AVERAGE_ON_INITIALIZE_RATIO : Z := 10 * 10000000.
Definition EXISTENTIAL_DEPOSIT : Z := 500.
Definition EPOCH_DURATION_IN_SLOTS : Z := 1 * Time.HOURS.
Definition MAX_BLOB_NUMBER : Z := 100.
End Core.

Module Currency.
Definition MILLICENTS : Z := 1000000000.
Definition CENTS : Z := 1000 * MILLICENTS.
Definition DOLLARS : Z := 100 * CENTS.
Definition deposit (items bytes : Z) : Z := items * 15 * CENTS + bytes * 6 * CENTS.
End Currency.

Module System.
Definition BlockHashCount : Z := 2400.
Definition MaxBlobNumber : Z := Core.MAX_BLOB_NUMBER.
Definition MaxExtedLen : Z := Core.MAX_BLOB_NUMBER * 2.
End System.

Module Consensus.
Definition MINER_MAX_ITERATIONS : Z := 10.
Definition EpochDuration : Z := Core.EPOCH_DURATION_IN_SLOTS.
Definition SignedPhase : Z := Core.EPOCH_DURATION_IN_SLOTS / 4.
Definition UnsignedPhase : Z := Core.EPOCH_DURATION_IN_SLOTS / 4.
Definition SessionsPerEra : Z := 6.
Definition BondingDuration : Z := 24 * 28.
Definition SlashDeferDuration : Z := 24 * 7.
(** Products of [u32]. *)
Definition ReportLongevity : Z := wrap 32 (wrap 32 (BondingDuration * SessionsPerEra) * EpochDuration).
Definition ImOnlineUnsignedPriority : Z := 2 ^ 64 - 1.
Definition StakingUnsignedPriority : Z := (2 ^ 64 - 1) / 2.
Definition MultiPhaseUnsignedPriority : Z := StakingUnsignedPriority - 1.
Definition MaxKeys : Z := 10000.
End Consensus.

Module Gov.
Definition CouncilMaxMembers : Z := 100.
Definition DesiredMembers : Z := 13.
End Gov.

(** ** The pallets' configurations *)
Section configs.
Context `{KzgLib} (Account ImOnlineId ImOnlineSignature : Type) `{EqDecision Account}
  `{EqDecision ImOnlineId} `{EqDecision ImOnlineSignature}.
Context (verify : ImOnlineId -> bytes -> ImOnlineSignature -> bool).

(** [impl pallet_melo_store::Config for Runtime]; [Get<u64> for ()] is zero. *)
#[local] Instance runtime_melo_config : MeloConfig := {|
  AccountId := Account;
  AuthorityId := ImOnlineId;
  Signature := ImOnlineSignature;
  MaxKeys := Consensus.MaxKeys;
  MaxBlobNum := System.MaxBlobNumber;
  MaxExtedLen := System.MaxExtedLen;
  MeloUnsignedPriority := 0;
  authority_verify := verify
|}.

(** [impl pallet_farmers_fortune::Config for Runtime]; [pallet_balances] is the currency. *)
Definition runtime_fortune_config (Bal : Type) (free : Account -> Bal -> Z)
    (deposit_creating : Account -> Z -> Bal -> Bal) (encode : Account -> bytes)
    : FortuneConfig := {|
  RewardAmount := 100 * Currency.DOLLARS;
  MaxClaimantsPerBlock := 100;
  Balances := Bal;
  ExistentialDeposit := Core.EXISTENTIAL_DEPOSIT;
  free_balance := free;
  deposit_creating := deposit_creating;
  encode_account := encode
|}.
End configs.

(** ** Conversions *)

(** [U256ToBalance::convert]: saturating. *)
Definition BalanceToU256 (balance : Z) : Z := balance.
Definition U256ToBalance (n : Z) : Z := if n <? 2 ^ 128 then n else 2 ^ 128 - 1.

Lemma balance_roundtrip b n : in_u 128 b ->
  U256ToBalance (BalanceToU256 b) = b /\ (0 <= n -> U256ToBalance n = Z.min n (2 ^ 128 - 1)).
Proof.
  intros Hb. unfold U256ToBalance, BalanceToU256, in_u in *. change (Z.of_nat 128) with 128 in Hb.
  split; [by rewrite (proj2 (Z.ltb_lt _ _)) by apply Hb|].
  intros _. destruct (Z.ltb_spec n (2 ^ 128)); lia.
Qed.

(** [<u32>::decode] of a seed padded with zeroes: little endian. *)
Definition u32_decode_padded (seed : bytes) : Z :=
  from_be_bytes (rev (take 4 (seed ++ replicate 4 0))).

(** [OffchainRandomBalancing::get]: iterations and tolerance. *)
Definition balancing (random_seed : bytes) : Z * Z :=
  let iterations := match Consensus.MINER_MAX_ITERATIONS with
                    | 0 => 0
                    | max => u32_decode_padded random_seed mod Z.min (max + 1) (2 ^ 32 - 1)
                    end in
  (iterations, 0).

(** The compile-time assertions of the runtime, and the bounds its arithmetic needs: the
    products of 32-bit constants do not wrap, both election phases fit into an epoch, an
    equivocation can be reported as long as the stake is bonded, reports of other pallets
    precede election solutions, and the deposit of any 32-bit counts fits a balance. *)
Lemma config_consistent items bytes' : in_u 32 items -> in_u 32 bytes' ->
  Core.AVERAGE_ON_INITIALIZE_RATIO <= Core.NORMAL_DISPATCH_RATIO /\
  Gov.DesiredMembers <= Gov.CouncilMaxMembers /\
  Consensus.ReportLongevity = Consensus.BondingDuration * Consensus.SessionsPerEra * Consensus.EpochDuration /\
  Consensus.SignedPhase + Consensus.UnsignedPhase <= Consensus.EpochDuration /\
  Consensus.SlashDeferDuration * 4 = Consensus.BondingDuration /\
  Consensus.MultiPhaseUnsignedPriority < Consensus.StakingUnsignedPriority < Consensus.ImOnlineUnsignedPriority /\
  0 <= Currency.deposit items bytes' < 2 ^ 128.
Proof.
  intros Hi Hb. unfold in_u in *. change (Z.of_nat 32) with 32 in *.
  do 6 (split; [vm_compute; by intros|]).
  unfold Currency.deposit. change Currency.CENTS with 1000000000000.
  change (2 ^ 32) with 4294967296 in *. change (2 ^ 128) with 340282366920938463463374607431768211456. lia.
Qed.

Lemma balancing_bounded seed :
  let '(iterations, tolerance) := balancing seed in
  0 <= iterations <= Consensus.MINER_MAX_ITERATIONS /\ tolerance = 0.
Proof.
  unfold balancing. split; [|done]. change (match Consensus.MINER_MAX_ITERATIONS with 0 => 0 | max => _ end)
    with (u32_decode_padded seed mod 11). change Consensus.MINER_MAX_ITERATIONS with 10.
  pose proof (Z.mod_pos_bound (u32_decode_padded seed) 11 eq_refl). lia.
Qed.

(** ** Signed transactions of off-chain workers *)

(** [sp_runtime::generic::Era]: a mortal era of a power-of-two period that starts at
    [current]. *)
Class EraLib := {
  Era : Type;
  era_mortal : Z -> Z -> Era;
  era_birth : Era -> Z -> Z
}.
Class EraLaws `{EraLib} : Prop :=
  era_birth_mortal : forall k current now, 2 <= k <= 12 -> 0 <= current <= now -> now < current + 2 ^ k ->
    era_birth (era_mortal (2 ^ k) current) now = current.

(** The signed extensions that carry data; the others are units. *)
Record SignedExtra `{EraLib} := mkExtra { check_era : Era; check_nonce : Z; charge_tip : Z }.
Arguments mkExtra {_} _ _ _.

Section signing.
Context `{EraLib} `{!EraLaws} {RCall Public Account Address Sig Payload S : Type}.
(** [SignedPayload::new], [using_encoded] with [C::sign], [Indices::unlookup], and the
    block number of [frame_system]. *)
Context (payload_new : RCall -> SignedExtra -> S -> option Payload)
  (sign : Payload -> Public -> option Sig) (unlookup : Account -> Address) (now : S -> Z).

(** [checked_next_power_of_two] of a [u32]. *)
Definition checked_next_power_of_two (n : Z) : option Z :=
  let p := 2 ^ Z.log2_up n in if p <? 2 ^ 32 then Some p else None.

Definition create_transaction (call : RCall) (public : Public) (account : Account) (nonce : Z) (s : S)
    : option (RCall * (Address * Sig * SignedExtra)) :=
  let tip := 0 in
  let period := default 2 ((fun c => c / 2) <$> checked_next_power_of_two System.BlockHashCount) in
  let current_block := Z.max (now s - 1) 0 in
  let era := era_mortal period current_block in
  let extra := mkExtra era nonce tip in
  raw_payload ← payload_new call extra s;
  signature ← sign raw_payload public;
  Some (call, (unlookup account, signature, extra)).

(** The block hashes [frame_system] keeps, and the only way the payload can fail: the hash
    of the era's first block is gone. *)
Context (hash_known : S -> Z -> bool)
  (Hkept : forall s b, 0 <= b < now s -> now s - b <= System.BlockHashCount -> hash_known s b = true)
  (Hpayload : forall c e s, hash_known s (era_birth (check_era e) (now s)) = true ->
     is_Some (payload_new c e s)).

(** Transactions the runtime creates can be signed and stay valid for their era: after
    any block, [create_transaction] fails only where signing fails; the era it chooses
    starts at the previous block, spans 2048 blocks - the longest power of two below the
    number of block hashes kept - and at every later block of the era the hash its
    signature covers is still known. *)
Theorem create_transaction_valid call public account nonce s :
  1 <= now s < 2 ^ 32 -> (forall p, is_Some (sign p public)) ->
  exists sig extra, create_transaction call public account nonce s = Some (call, (unlookup account, sig, extra)) /\
    check_nonce extra = nonce /\ charge_tip extra = 0 /\
    forall s', now s <= now s' < now s - 1 + 2048 ->
      era_birth (check_era extra) (now s') = now s - 1 /\ hash_known s' (now s - 1) = true.
Proof.
  intros Hn Hsign. unfold create_transaction.
  change (default 2 _) with (2 ^ 11). rewrite Z.max_l by lia.
  assert (Hera : forall s', now s <= now s' < now s - 1 + 2048 ->
    era_birth (era_mortal (2 ^ 11) (now s - 1)) (now s') = now s - 1 /\ hash_known s' (now s - 1) = true).
  { intros s' Hs'. split; [apply era_birth_mortal; lia|]. apply Hkept; unfold System.BlockHashCount; lia. }
  destruct (Hera s ltac:(lia)) as [Hb Hk].
  destruct (Hpayload call (mkExtra (era_mortal (2 ^ 11) (now s - 1)) nonce 0) s) as [p Hp];
    [by simpl; rewrite Hb|]. rewrite Hp. simpl. destruct (Hsign p) as [sig Hs]. rewrite Hs. simpl.
  exists sig. eexists. split; [done|]. by split_and!.
Qed.
End signing.

(** Eras as pairs of period and phase. *)
Section signing_witness.
#[local] Instance ref_era : EraLib := {|
  Era := Z * Z;
  era_mortal period current := (period, current mod period);
  era_birth era now := (Z.max now era.2 - era.2) / era.1 * era.1 + era.2
|}.
#[local] Instance ref_era_laws : EraLaws.
Proof.
  intros k current now Hk Hc Hn. simpl. assert (Hp : 0 < 2 ^ k) by (apply Z.pow_pos_nonneg; lia).
  pose proof (Z.mod_pos_bound current (2 ^ k) Hp). pose proof (Z.div_mod current (2 ^ k) ltac:(lia)) as Hd.
  pose proof (Z.div_pos current (2 ^ k) ltac:(lia) Hp). rewrite Z.max_l by nia.
  replace ((now - current mod 2 ^ k) / 2 ^ k) with (current / 2 ^ k); [lia|].
  apply (Z.div_unique _ _ _ (now - current)); lia.
Qed.

Lemma create_transaction_valid_witness : exists extra,
  create_transaction (fun c e (_ : Z) => Some c) (fun (p : Z) (public : Z) => Some (p + public))
    (fun a : Z => a) (fun n => n) 5 6 7 8 100 = Some (5, (7, 11, extra)) /\
  era_birth (check_era extra) 2000 = 99.
Proof.
  destruct (create_transaction_valid (fun c e (_ : Z) => Some c)
    (fun (p : Z) (public : Z) => Some (p + public)) (fun a : Z => a) (fun n : Z => n)
    (fun s b => (s - b <=? System.BlockHashCount)) ltac:(intros s b _ Hb; by apply Z.leb_le)
    ltac:(intros; by eexists) 5 6 7 8 100) as (sig & extra & Hc & _ & _ & He).
  - lia.
  - intros p. by eexists.
  - exists extra. split; [rewrite Hc; by injection Hc as <-|]. apply He. lia.
Defined.
End signing_witness.
