(* ===== verification/Weights.v ===== *)
(** * Weights ([weights.rs] of the two pallets, [runtime/src/config.rs])

    The weight of every call as the pallets announce it, and the share of a block the runtime
    gives to normal calls.  Weights are pairs of 64-bit numbers with saturating arithmetic;
    the cost of the database, the base weight of an extrinsic and the rounding of ratios are
    Substrate's. *)

From S2P Require Import Prelude Codec DasDb KzgLib KzgIndex KzgToy DasPrimitives Blob.
From S2P Require Import ErasureCoding CorePrimitives Reliability Sidecar PosUtils ProofOfSpace.
From S2P Require Import MeloStore MeloStoreProps FarmersFortune FortuneProps RuntimeConfig.

Definition sat64 (z : Z) : Z := Z.min z (2 ^ 64 - 1).

(** [frame_support::weights::Weight] *)
Module Weight.
Record t := mk { ref_time : Z; proof_size : Z }.
Definition from_parts (ref_time proof_size : Z) : t := mk ref_time proof_size.
Definition saturating_add (a b : t) : t :=
  mk (sat64 (ref_time a + ref_time b)) (sat64 (proof_size a + proof_size b)).
Definition saturating_mul (a : t) (n : Z) : t := mk (sat64 (ref_time a * n)) (sat64 (proof_size a * n)).
End Weight.
Import Weight.

(** What the calls and the limits use of Substrate. *)
Class WeightLib := {
  db_read : Z;
  db_write : Z;
  base_extrinsic : Z;
  WEIGHT_REF_TIME_PER_SECOND : Z;
  perbill_mul : Z -> Z -> Z
}.
(** A second is 10^12 picoseconds, RocksDB costs 25 and 100 microseconds, and a ratio is
    rounded to a neighbour. *)
Class WeightLaws `{WeightLib} : Prop := {
  second_ps : WEIGHT_REF_TIME_PER_SECOND = 1000000000000;
  db_read_ps : db_read = 25000000;
  db_write_ps : db_write = 100000000;
  base_nonneg : 0 <= base_extrinsic <= 1000000000;
  perbill_near : forall p x, 0 <= p <= 1000000000 -> 0 <= x ->
    x * p / 1000000000 <= perbill_mul p x <= x * p / 1000000000 + 1
}.

Section weights.
Context `{WeightLib}.

(** [RuntimeDbWeight] *)
Definition reads (r : Z) : t := from_parts (sat64 (db_read * r)) 0.
Definition writes (w : Z) : t := from_parts (sat64 (db_write * w)) 0.

(** ** [pallet_melo_store::weights] *)
Definition weight_register_app : t :=
  saturating_add (saturating_add (from_parts 19200000 1489) (reads 1)) (writes 1).
Definition weight_submit_data (k : Z) : t :=
  saturating_add
    (saturating_add
      (saturating_add (from_parts 30490082 96773479) (saturating_mul (from_parts 490654 0) k))
      (reads 2)) (writes 1).
Definition weight_validate_unsigned_and_then_report (k e : Z) : t :=
  let w := from_parts 242300000 96773479 in
  let w := saturating_add w (saturating_mul (from_parts 429668 0) k) in
  let w := saturating_add w (saturating_mul (from_parts 8776048 0) e) in
  let w := saturating_add w (reads 2) in
  let w := saturating_add w (reads (sat64 (1 * e))) in
  let w := saturating_add w (writes 1) in
  let w := saturating_add w (writes (sat64 (1 * e))) in
  saturating_add w (saturating_mul (from_parts 0 2901) e).

(** ** [pallet_farmers_fortune::weights] *)
Definition weight_claim : t :=
  saturating_add (saturating_add (from_parts 809074147000 15570) (reads 6)) (writes 2).

(** ** The weights the calls declare *)
Definition WEIGHT_PER_BLOB : t := from_parts 1024 0.
Definition submit_data_weight (commitments_len proofs_len : Z) : t :=
  saturating_add (saturating_mul WEIGHT_PER_BLOB (Z.max commitments_len 1))
    (weight_submit_data (wrap 32 proofs_len)).
Definition report_weight (validators_len index_set_len : Z) : t :=
  weight_validate_unsigned_and_then_report validators_len (wrap 32 index_set_len).
Definition register_app_weight : t := weight_register_app.
Definition claim_weight : t := weight_claim.

(** ** [config.rs]: the limits of a block *)
Definition MAXIMUM_BLOCK_WEIGHT : t :=
  from_parts (sat64 (WEIGHT_REF_TIME_PER_SECOND * 2)) (2 ^ 64 - 1).
Definition normal_max_total : t :=
  mk (perbill_mul Core.NORMAL_DISPATCH_RATIO (ref_time MAXIMUM_BLOCK_WEIGHT))
     (perbill_mul Core.NORMAL_DISPATCH_RATIO (proof_size MAXIMUM_BLOCK_WEIGHT)).

(** The normal extrinsics of a block, by the weights of their calls, respect the limit. *)
Definition normal_fits (calls : list t) : Prop :=
  sum_Z ((fun w => ref_time w + base_extrinsic) <$> calls) <= ref_time normal_max_total /\
  sum_Z (proof_size <$> calls) <= proof_size normal_max_total.
End weights.

Section block.
Context `{WeightLib} `{!WeightLaws}.

Lemma normal_total_bounds :
  1500000000000 <= ref_time normal_max_total <= 1500000000001 /\
  13835058055282163000 <= proof_size normal_max_total.
Proof.
  unfold normal_max_total, MAXIMUM_BLOCK_WEIGHT, from_parts. cbn [ref_time proof_size]. rewrite second_ps.
  change (2 ^ 64 - 1) with 18446744073709551615.
  pose proof (perbill_near Core.NORMAL_DISPATCH_RATIO 2000000000000 ltac:(by vm_compute) ltac:(lia)) as Hr.
  pose proof (perbill_near Core.NORMAL_DISPATCH_RATIO 18446744073709551615 ltac:(by vm_compute) ltac:(lia)) as Hp.
  change (2000000000000 * Core.NORMAL_DISPATCH_RATIO / 1000000000) with 1500000000000 in Hr.
  change (sat64 (1000000000000 * 2)) with 2000000000000.
  change (18446744073709551615 * Core.NORMAL_DISPATCH_RATIO / 1000000000) with 13835058055282163711 in Hp. lia.
Qed.

Lemma claim_ref_time : ref_time claim_weight = 809424147000.
Proof.
  unfold claim_weight, weight_claim, reads, writes, saturating_add. simpl.
  rewrite db_read_ps, db_write_ps. reflexivity.
Qed.

Lemma sum_Z_bound {A} (f : A -> Z) (c : Z) l : Forall (fun x => c <= f x) l ->
  c * Z.of_nat (length l) <= sum_Z (f <$> l).
Proof.
  unfold sum_Z. induction 1 as [|x l Hx _ IH]; [simpl; lia|].
  rewrite fmap_cons. cbn [foldr length]. rewrite Nat2Z.inj_succ. lia.
Qed.

(** What a report of the off-chain worker costs. *)
Lemma report_weight_bounds k e : 0 <= k <= Consensus.MaxKeys -> 0 <= e <= System.MaxExtedLen ->
  0 <= ref_time (report_weight k e) <= 32000000000 /\ 0 <= proof_size (report_weight k e) <= 100000000.
Proof.
  change Consensus.MaxKeys with 10000. change System.MaxExtedLen with 200. intros Hk He.
  unfold report_weight. rewrite wrap_small by (unfold in_u; lia).
  unfold weight_validate_unsigned_and_then_report, saturating_add, saturating_mul, reads, writes, from_parts.
  cbn [ref_time proof_size]. rewrite db_read_ps, db_write_ps. unfold sat64.
  change (2 ^ 64 - 1) with 18446744073709551615.
  rewrite !(Z.min_l _ 18446744073709551615) by lia. lia.
Qed.

(** ** Claims in a block *)
Section claims.
Context `{Platform} `{KzgLib} `{HashLib} `{MeloConfig} `{!FortuneConfig} `{EmbeddedSettings}.
Context `{Codec Segment.t} `{!CommitmentFromPosition Storage} `{!CommitmentFromPositionLaws}.
Import FarmersFortune.

Record ClaimCall := mkClaimCall { origin : Origin; pre : PreCell; left_cell : Cell; right_cell : Cell }.
Definition run_claims (calls : list ClaimCall) (s : State) : State :=
  fold_left (fun s c => (dispatch (origin c) (pre c) (left_cell c) (right_cell c) s).2) calls s.

Lemma dispatch_pays c s :
  paid (fevents (dispatch (origin c) (pre c) (left_cell c) (right_cell c) s).2)
  <= paid (fevents s) + Z.max 0 RewardAmount.
Proof.
  unfold dispatch, transactional.
  destruct (claim (origin c) (pre c) (left_cell c) (right_cell c) s) as [[u| |] s'] eqn:Hc; simpl; [|lia..].
  apply claim_Ok_inv in Hc as (who & st & _ & _ & _ & _ & _ & _ & ->).
  change (paid (RewardClaimed who RewardAmount :: fevents s) <= paid (fevents s) + Z.max 0 RewardAmount).
  unfold paid. rewrite fmap_cons. unfold sum_Z. cbn [foldr]. lia.
Qed.

(** C24: Weights decide how many claims a block pays: the announced weight of a claim is more
    than half of what normal calls may use, so the normal calls of a block contain at most
    one claim, and a block pays at most one reward; the limit of [MaxClaimantsPerBlock] claims
    is never reached.  The reports of the off-chain workers do fit: a report of all keys with
    the largest number of items takes less than a fortieth of the share. *)
Theorem one_claim_per_block (others : list t) (calls : list ClaimCall) s :
  Forall (fun w => 0 <= ref_time w /\ 0 <= proof_size w) others ->
  normal_fits (others ++ ((fun _ => claim_weight) <$> calls)) ->
  (length calls <= 1)%nat /\
  paid (fevents (run_claims calls s)) <= paid (fevents s) + Z.max 0 RewardAmount /\
  forall k e, 0 <= k <= Consensus.MaxKeys -> 0 <= e <= System.MaxExtedLen ->
    normal_fits [report_weight k e] /\ 40 * ref_time (report_weight k e) <= ref_time normal_max_total.
Proof.
  intros Ho [Hr _]. destruct normal_total_bounds as [[Hn1 Hn2] Hps]. pose proof base_nonneg as Hb.
  assert (Hlen : (length calls <= 1)%nat).
  { rewrite fmap_app, sum_Z_app in Hr.
    assert (0 <= sum_Z ((fun w => ref_time w + base_extrinsic) <$> others)).
    { apply sum_Z_nonneg. apply Forall_fmap. eapply Forall_impl; [exact Ho|]. simpl. lia. }
    pose proof (sum_Z_bound (fun w => ref_time w + base_extrinsic) 809424147000
      ((fun _ => claim_weight) <$> calls)) as Hs.
    rewrite length_fmap in Hs. lapply Hs.
    - intros. lia.
    - apply Forall_fmap, Forall_true. intros c. unfold compose. rewrite claim_ref_time. lia. }
  split_and!; [done| |].
  - destruct calls as [|c [|]]; simpl in *; [lia|apply dispatch_pays|lia].
  - intros k e Hk He. destruct (report_weight_bounds k e Hk He) as [? ?].
    unfold normal_fits, sum_Z. set (m := normal_max_total) in *. set (w := report_weight k e) in *.
    clearbody m w. simpl. lia.
Qed.
End claims.
End block.

Section block_witness.
#[local] Existing Instances host64 bytes_lib Sidecar.toy_embedded ref_permill fair_config fair_fortune
  one_hash one_codec.
#[local] Instance rocks_db : WeightLib := {|
  db_read := 25000000; db_write := 100000000; base_extrinsic := 100000000;
  WEIGHT_REF_TIME_PER_SECOND := 1000000000000; perbill_mul p x := x * p / 1000000000
|}.
#[local] Instance rocks_db_laws : WeightLaws.
Proof. split; simpl; [done|done|done|lia|intros p x Hp Hx; lia]. Qed.

(** One claim fits, and is paid. *)
Lemma one_claim_per_block_witness :
  let c := mkClaimCall (Signed FortuneProps.carol) FortuneProps.the_pre (FortuneProps.the_cell 0)
    (FortuneProps.the_cell 1) in
  normal_fits [claim_weight] /\ paid (FarmersFortune.fevents (run_claims [c] FortuneProps.f0)) <= 100.
Proof.
  intros c. assert (Hf : normal_fits [claim_weight]) by (split; vm_compute; discriminate).
  split; [exact Hf|].
  destruct (one_claim_per_block [] [c] FortuneProps.f0) as (_ & Hp & _); [constructor|exact Hf|]. exact Hp.
Defined.
End block_witness.
