(* ===== verification/VoterBags.v ===== *)
(** * Voter bags ([runtime/src/voter_bags.rs])

    The upper thresholds of the bags in which the staking pallet sorts voters, generated for an
    existential weight and a constant ratio.  The bags-list pallet puts a voter in the first
    bag whose threshold is not below its weight. *)

From S2P Require Import Prelude RuntimeConfig.

Definition EXISTENTIAL_WEIGHT : Z := 100000000000000.
(** [1.0628253590743408], in units of [10^-16]. *)
Definition CONSTANT_RATIO : Z := 10628253590743408.

Definition THRESHOLDS : list Z :=
  [100000000000000; 106282535907434; 112959774389150; 120056512776105; 127599106300477;
   135615565971369; 144135662599590; 153191037357827; 162815319286803; 173044250183800;
   183915817337347; 195470394601017; 207750892330229; 220802916738890; 234674939267673;
   249418476592914; 265088281944639; 281742548444211; 299443125216738; 318255747080822;
   338250278668647; 359500973883001; 382086751654776; 406091489025036; 431604332640068;
   458720029816222; 487539280404019; 518169110758247; 550723271202866; 585322658466782;
   622095764659305; 661179154452653; 702717972243610; 746866481177808; 793788636038393;
   843658692126636; 896661852395681; 952994955240703; 1012867205499736; 1076500951379881;
   1144132510194192; 1216013045975769; 1292409502228280; 1373605593276862; 1459902857901004;
   1551621779162291; 1649102974585730; 1752708461114642; 1862822999536805; 1979855523374646;
   2104240657545975; 2236440332435128; 2376945499368703; 2526277953866680; 2684992273439945;
   2853677877130641; 3032961214443876; 3223508091799862; 3426026145146232; 3641267467913124;
   3870031404070482; 4113167516660186; 4371578742827277; 4646224747067156; 4938125485141739;
   5248364991899922; 5578095407069235; 5928541253969291; 6301003987036955; 6696866825051405;
   7117599888008300; 7564765656719910; 8040024775416580; 8545142218898723; 9081993847142344;
   9652573371700016; 10258999759768490; 10903525103419522; 11588542983217942; 12316597357287042;
   13090392008832678; 13912800587211472; 14786877279832732; 15715868154526436; 16703223214499558;
   17752609210649358; 18867923258814856; 20053307312537008; 21313163545075252; 22652170697804756;
   24075301455707600; 25587840914485432; 27195406207875088; 28903967368057400; 30719869496628636;
   32649856328471220; 34701095276033064; 36881204047022752; 39198278934370992; 41660924883519016;
   44278287448695240; 47060086756856400; 50016653605425536; 53158967827883320; 56498699069691424;
   60048250125977912; 63820803001928304; 67830367866937216; 72091835084322176; 76621030509822880;
   81434774264248528; 86550943198537824; 91988537283208848; 97767750168749840; 103910044178992000;
   110438230015967792; 117376551472255616; 124750775465407920; 132588287728824640; 140918194514440064;
   149771430684917568; 159180874596775264; 169181470201085280; 179810356815193344; 191107007047393216;
   203113373386768288; 215874044002592672; 229436408331885600; 243850833070063392; 259170849218267264;
   275453350882006752; 292758806559399232; 311151483703668992; 330699687393865920; 351476014000157824;
   373557620785735808; 397026512446556096; 421969845653044224; 448480252724740928; 476656185639923904;
   506602281657757760; 538429751910786752; 572256794410890176; 608209033002485632; 646419983893124352;
   687031551494039552; 730194555412054016; 776069290549944960; 824826122395314176; 876646119708695936;
   931721726960522368; 990257479014182144; 1052470760709299712; 1118592614166106112; 1188868596808997376;
   1263559693295730432; 1342943284738898688; 1427314178819094784; 1516985704615302400; 1612290876218400768;
   1713583629449105408; 1821240136273157632; 1935660201795120128; 2057268749018809600; 2186517396888336384;
   2323886137470138880; 2469885118504583168; 2625056537947004416; 2789976657533970944; 2965257942852572160;
   3151551337860326400; 3349548682302620672; 3559985281005267968; 3783642634583792128; 4021351341710503936;
   4273994183717548544; 4542509402991247872; 4827894187332742144; 5131208373224844288; 5453578381757959168;
   5796201401831965696; 6160349836169256960; 6547376026650146816; 6958717276519173120; 7395901188113309696;
   7860551335934872576; 8354393296137270272; 8879261054815360000; 9437103818898946048; 10029993254943105024;
   10660131182698121216; 11329857752030707712; 12041660133563240448; 12798181755305525248; 13602232119581272064;
   14456797236706498560; 15365050714167523328; 16330365542480556032; 17356326621502140416; 18446744073709551615].

(** [pallet_bags_list::notional_bag_for]: the first threshold that is not below the weight. *)
Definition bag_of (weight : Z) : option (nat * Z) := list_find (fun t => weight <= t) THRESHOLDS.

(** Consecutive thresholds: increasing, and by the ratio up to one part in [10^9] or one
    unit. *)
Definition step_ok (a b : Z) : bool :=
  (a <? b) && (Z.abs (b * 10 ^ 16 - a * CONSTANT_RATIO) <=? Z.max (10 ^ 16) (a * CONSTANT_RATIO / 10 ^ 9)).
Fixpoint steps_ok (l : list Z) : bool :=
  match l with
  | a :: (b :: _) as l' => step_ok a b && steps_ok l'
  | _ => true
  end.

Lemma thresholds_geometric : steps_ok THRESHOLDS = true /\ length THRESHOLDS = 200%nat /\
  head THRESHOLDS = Some EXISTENTIAL_WEIGHT /\ last THRESHOLDS = Some (2 ^ 64 - 1).
Proof. split_and!; vm_compute; reflexivity. Qed.

Lemma steps_ok_sorted l : steps_ok l = true -> StronglySorted Z.lt l.
Proof.
  intros Hs. apply Sorted_StronglySorted; [intros x y z; lia|].
  induction l as [|a l IH]; [constructor|]. destruct l as [|b l]; [repeat constructor|].
  cbn [steps_ok] in Hs. apply andb_true_iff in Hs as [Hab Hl]. constructor; [by apply IH|].
  constructor. unfold step_ok in Hab. by apply andb_true_iff in Hab as [Hlt%Z.ltb_lt _].
Qed.

(** Every weight of 64 bits has its bag, and the bag is determined by the weight alone: the
    thresholds before it are below the weight.  The first bag holds every weight up to the
    existential one, [10^14], though the runtime's existential deposit is 500. *)
Theorem every_voter_has_a_bag weight : in_u 64 weight ->
  exists i t, bag_of weight = Some (i, t) /\ weight <= t /\
    (forall j t', (j < i)%nat -> THRESHOLDS !! j = Some t' -> t' < weight) /\
    (i = 0%nat <-> weight <= EXISTENTIAL_WEIGHT) /\ Core.EXISTENTIAL_DEPOSIT = 500.
Proof.
  intros Hw. assert (Hlast : (2 ^ 64 - 1) ∈ THRESHOLDS) by by_decision.
  destruct (list_find_elem_of (fun t => weight <= t) THRESHOLDS (2 ^ 64 - 1)) as [[i t] Hf];
    [done|unfold in_u in Hw; lia|].
  exists i, t. split; [exact Hf|]. apply list_find_Some in Hf as (Ht & Hle & Hbefore). split_and!.
  - exact Hle.
  - intros j t' Hj Ht'. specialize (Hbefore j t' Ht' Hj). lia.
  - split.
    + intros ->. injection Ht as <-. exact Hle.
    + intros Hle0. destruct i as [|i]; [done|]. exfalso.
      apply (Hbefore 0%nat EXISTENTIAL_WEIGHT); [done|lia|done].
  - done.
Qed.
