(* ===== verification/AutoConfig.v ===== *)
(** * The configuration macro ([crates/auto-config/src/lib.rs])

    [auto_config] adds associated types to the implementation of a pallet's [Config].  Syntax
    trees are those of [syn], as far as the macro looks at them; parsing of a type is a
    parameter. *)

From S2P Require Import Prelude.

Module AutoConfig.
Section auto_config.
(** [syn::Type] and [syn::parse_str] *)
Context {Ty : Type} (parse_str : string -> option Ty) {Other : Type}.

Inductive ImplItem :=
| ItemType (ident : string) (ty : Ty)
| ItemOther (item : Other).
(** The path of the trait by the names of its segments; an inherent implementation has none. *)
Record ItemImpl := mkImpl { trait_ : option (list string); items : list ImplItem }.

(** [unwrap] of a type that does not parse panics. *)
Definition generate_impl_item_type (type_name field_name : string) : res string ImplItem :=
  parsed_type ← unwrap (parse_str type_name);
  Ok (ItemType field_name parsed_type).

Record Flags := mkFlags { include_event : bool; include_weight : bool; include_currency : bool }.
(** The tokens of the attribute one by one; commas and unknown words are skipped. *)
Definition read_arg (f : Flags) (arg : string) : Flags :=
  if bool_decide (arg = "skip_event"%string) then mkFlags false (include_weight f) (include_currency f)
  else if bool_decide (arg = "skip_weight"%string) then mkFlags (include_event f) false (include_currency f)
  else if bool_decide (arg = "include_currency"%string) then mkFlags (include_event f) (include_weight f) true
  else f.
Definition read_args (args : list string) : Flags := fold_left read_arg args (mkFlags true true false).

Definition auto_config (args : list string) (item : ItemImpl) : res string ItemImpl :=
  let flags := read_args args in
  path ← unwrap (trait_ item);
  pallet_name ← unwrap (head path);
  let additional_items := [] in
  additional_items ← (if include_event flags
    then item ← generate_impl_item_type "RuntimeEvent" "RuntimeEvent"; Ok (additional_items ++ [item])
    else Ok additional_items);
  additional_items ← (if include_weight flags
    then item ← generate_impl_item_type (pallet_name +:+ "::weights::SubstrateWeight<Runtime>") "WeightInfo";
         Ok (additional_items ++ [item])
    else Ok additional_items);
  additional_items ← (if include_currency flags
    then item ← generate_impl_item_type "Balances" "Currency"; Ok (additional_items ++ [item])
    else Ok additional_items);
  Ok (mkImpl (trait_ item) (items item ++ additional_items)).

(** The associated types an implementation defines. *)
Definition names (l : list ImplItem) : list string :=
  omap (M := list) (fun i => match i with ItemType n _ => Some n | ItemOther _ => None end) l.

Lemma read_args_spec args :
  include_event (read_args args) = negb (bool_decide ("skip_event"%string ∈ args)) /\
  include_weight (read_args args) = negb (bool_decide ("skip_weight"%string ∈ args)) /\
  include_currency (read_args args) = bool_decide ("include_currency"%string ∈ args).
Proof.
  induction args as [|a args IH] using rev_ind; [done|].
  unfold read_args in *. rewrite fold_left_app. simpl. destruct IH as (He & Hw & Hc).
  set (f := fold_left read_arg args (mkFlags true true false)) in *. unfold read_arg.
  assert (Hin : forall x : string, bool_decide (x ∈ args ++ [a]) = bool_decide (x ∈ args) || bool_decide (x = a)).
  { intros x. rewrite <- bool_decide_or. apply bool_decide_ext. set_solver. }
  rewrite !Hin. repeat case_bool_decide; subst; simpl in *; try done;
    rewrite ?orb_true_r, ?orb_false_r, ?He, ?Hw, ?Hc; by split_and!.
Qed.

(** What the macro adds: the expansion of an implementation of a trait in the pallet [p] keeps
    every item and appends, in this order, the event type unless [skip_event] is given,
    the pallet's own weights unless [skip_weight] is given, and the currency if
    [include_currency] is given; the order and number of the arguments and other words
    do not matter.  The expansion defines a type twice exactly when a type it adds was
    defined by hand.  It panics on an inherent implementation. *)
Theorem auto_config_adds args item :
  match trait_ item with
  | Some (p :: _) =>
      parse_str "RuntimeEvent" <> None -> parse_str "Balances" <> None ->
      parse_str (p +:+ "::weights::SubstrateWeight<Runtime>") <> None ->
      exists added,
      auto_config args item = Ok (mkImpl (trait_ item) (items item ++ added)) /\
      names added
      = (if bool_decide ("skip_event"%string ∈ args) then [] else ["RuntimeEvent"%string])
        ++ (if bool_decide ("skip_weight"%string ∈ args) then [] else ["WeightInfo"%string])
        ++ (if bool_decide ("include_currency"%string ∈ args) then ["Currency"%string] else []) /\
      (forall ty, ItemType "WeightInfo" ty ∈ added ->
         parse_str (p +:+ "::weights::SubstrateWeight<Runtime>") = Some ty) /\
      (NoDup (names (items item)) ->
       (NoDup (names (items item ++ added)) <-> forall n, n ∈ names added -> n ∉ names (items item)))
  | _ => auto_config args item = Panic
  end.
Proof.
  destruct (trait_ item) as [[|p path]|] eqn:Ht; unfold auto_config; rewrite Ht; [done| |done].
  intros H1 H2 H3.
  destruct (read_args_spec args) as (He & Hw & Hc).
  destruct (parse_str "RuntimeEvent") as [te|] eqn:E1; [|done].
  destruct (parse_str (p +:+ "::weights::SubstrateWeight<Runtime>")) as [tw|] eqn:E2; [|done].
  destruct (parse_str "Balances") as [tc|] eqn:E3; [|done].
  exists ((if include_event (read_args args) then [ItemType "RuntimeEvent" te] else [])
    ++ (if include_weight (read_args args) then [ItemType "WeightInfo" tw] else [])
    ++ (if include_currency (read_args args) then [ItemType "Currency" tc] else [])).
  assert (Hnd : NoDup (names ((if include_event (read_args args) then [ItemType "RuntimeEvent" te] else [])
    ++ (if include_weight (read_args args) then [ItemType "WeightInfo" tw] else [])
    ++ (if include_currency (read_args args) then [ItemType "Currency" tc] else []))))
    by (destruct (include_event _), (include_weight _), (include_currency _); by_decision).
  split_and!.
  - simpl. unfold generate_impl_item_type. rewrite E1, E2, E3. simpl.
    by destruct (include_event _), (include_weight _), (include_currency _).
  - rewrite He, Hw, Hc. by repeat case_bool_decide.
  - intros ty Hin. destruct (include_event _), (include_weight _), (include_currency _); simpl in Hin; set_solver.
  - intros Hi. unfold names in *. rewrite omap_app, NoDup_app. split.
    + intros (_ & Hd & _) n Hn Hn'. by eapply Hd.
    + intros Hd. split_and!; [done| |done]. intros n Hn Hn'. by eapply Hd.
Qed.
End auto_config.
End AutoConfig.
