(* ===== verification/ChainSpec.v ===== *)
(** * Chain specifications ([node/src/chain_spec.rs], [load_spec] of [node/src/command.rs])

    The genesis configurations the node is shipped with, and the conditions under which the
    pallets build their storage from one.  Key derivation and the random source are
    parameters; accounts and public keys are their 32 bytes. *)

From S2P Require Import Prelude Hex Codec ColumnExtension RuntimeConfig.

(** [sp_core::Pair::from_string(..).public()] of the two schemes, and [into_account]. *)
Class KeyLib := {
  sr25519_public : string -> option bytes;
  ed25519_public : string -> option bytes;
  into_account : bytes -> bytes
}.

Inductive StakerStatus := Validator | Nominator (targets : list bytes).

Module SessionKeys.
Record t := mk { grandpa : bytes; babe : bytes; im_online : bytes; authority_discovery : bytes }.
End SessionKeys.

Record AuthorityKeys := mkAuthority { controller : bytes; stash : bytes; session_keys : SessionKeys.t }.

(** The fields the specification sets; the others are defaults. *)
Record GenesisConfig := mkGenesis {
  code : bytes;
  balances : list (bytes * Z);
  session : list (bytes * bytes * SessionKeys.t);
  validator_count : Z;
  minimum_validator_count : Z;
  invulnerables : list bytes;
  slash_reward_fraction : Z;
  stakers : list (bytes * bytes * Z * StakerStatus);
  elections_members : list (bytes * Z);
  technical_members : list bytes;
  sudo_key : option bytes;
  babe_authorities : list bytes;
  im_online_keys : list bytes;
  authority_discovery_keys : list bytes;
  grandpa_authorities : list bytes;
  assets : list (Z * bytes * bool * Z);
  min_create_bond : Z;
  min_join_bond : Z
}.

Definition ALICE : string := "Alice".
Definition BOB : string := "Bob".
Definition CHARLIE : string := "Charlie".
Definition DAVE : string := "Dave".
Definition EVE : string := "Eve".
Definition FERDIE : string := "Ferdie".
Definition ENDOWMENT : Z := 10000000 * Currency.DOLLARS.
Definition STASH : Z := ENDOWMENT / 1000.
(** [<NposSolution16 as NposSolution>::LIMIT]. *)
Definition MaxNominations : Z := 16.

Section spec.
Context `{KeyLib}.
(** [rng.gen::<usize>()] and [choose_multiple] at the i-th nominator, and the embedded wasm. *)
Context (gen_usize : nat -> Z) (choose_multiple : nat -> list AuthorityKeys -> nat -> list AuthorityKeys)
  (wasm_binary : option bytes).
Implicit Types (a : AuthorityKeys) (ws : list AuthorityKeys).

(** ** Helpers; an underivable seed panics. *)
Definition get_from_seed (public : string -> option bytes) (seed : string) : res string bytes :=
  unwrap (public (String.append "//" seed)).

Definition account_id_from_seed (seed : string) : res string bytes :=
  into_account <$> get_from_seed sr25519_public seed.

Definition sr25519_id (key : string) : res string bytes := account_id_from_seed key.

Definition from_seed (seed : string) : res string AuthorityKeys :=
  controller ← account_id_from_seed seed;
  stash ← account_id_from_seed (String.append seed "//stash");
  babe ← get_from_seed sr25519_public seed;
  grandpa ← get_from_seed ed25519_public seed;
  im_online ← get_from_seed sr25519_public seed;
  authority_discovery ← get_from_seed sr25519_public seed;
  Ok (mkAuthority controller stash (SessionKeys.mk grandpa babe im_online authority_discovery)).

Definition from_accounts (controller grandpa : bytes) (stash : option bytes) : AuthorityKeys :=
  let raw := controller in
  let stash := default controller stash in
  mkAuthority controller stash (SessionKeys.mk grandpa raw raw raw).

Definition endow_accounts (accounts : list string) : res string (list bytes) :=
  @concat bytes <$> mapM (fun x => a ← account_id_from_seed x;
                            b ← account_id_from_seed (String.append x "//stash"); Ok [a; b]) accounts.

Definition authority_keys_from_seeds (seeds : list string) : res string (list AuthorityKeys) :=
  mapM from_seed seeds.

(** ** [testnet_genesis] *)

(** Accounts not yet endowed are appended, in order. *)
Definition endow (endowed_accounts : list bytes) (xs : list bytes) : list bytes :=
  fold_left (fun endowed x => if bool_decide (x ∈ endowed) then endowed else endowed ++ [x]) xs endowed_accounts.

(** The remainder by zero panics. *)
Definition nominator_staker (initial_authorities : list AuthorityKeys) (i : nat) (x : bytes)
    : res string (bytes * bytes * Z * StakerStatus) :=
  let limit := Z.min MaxNominations (Z.of_nat (length initial_authorities)) in
  if limit =? 0 then Panic
  else
    let count := gen_usize i mod limit in
    let nominations := stash <$> choose_multiple i initial_authorities (Z.to_nat count) in
    Ok (x, x, STASH, Nominator nominations).

Definition testnet_genesis (initial_authorities : list AuthorityKeys) (initial_nominators : list bytes)
    (root_key : bytes) (endowed_accounts : option (list bytes)) : res string GenesisConfig :=
  endowed_accounts ← match endowed_accounts with
                     | Some l => Ok l
                     | None => endow_accounts [ALICE; BOB; CHARLIE; DAVE; EVE; FERDIE]
                     end;
  let endowed_accounts := endow endowed_accounts ((controller <$> initial_authorities) ++ initial_nominators) in
  nominators ← mapM (fun '(i, x) => nominator_staker initial_authorities i x) (enumerate initial_nominators);
  let stakers := ((fun x => (stash x, controller x, STASH, Validator)) <$> initial_authorities) ++ nominators in
  let num_endowed_accounts := length endowed_accounts in
  let half := take ((num_endowed_accounts + 1) / 2) endowed_accounts in
  code ← unwrap wasm_binary;
  alice ← sr25519_id ALICE;
  Ok (mkGenesis code
        ((fun x => (x, ENDOWMENT)) <$> endowed_accounts)
        ((fun x => (stash x, stash x, session_keys x)) <$> initial_authorities)
        (wrap 32 (Z.of_nat (length initial_authorities)))
        (wrap 32 (Z.of_nat (length initial_authorities)))
        (stash <$> initial_authorities)
        (10 * 10000000)
        stakers
        ((fun member => (member, STASH)) <$> half)
        half
        (Some root_key)
        [] [] [] []
        [(9, alice, true, 1)]
        (10 * Currency.DOLLARS)
        Currency.DOLLARS).

(** ** The shipped specifications *)
Definition development_config_genesis : res string GenesisConfig :=
  authorities ← authority_keys_from_seeds [ALICE];
  alice ← sr25519_id ALICE;
  testnet_genesis authorities [] alice None.

Definition local_testnet_genesis : res string GenesisConfig :=
  authorities ← authority_keys_from_seeds [ALICE; BOB; CHARLIE];
  alice ← sr25519_id ALICE;
  testnet_genesis authorities [] alice None.

Definition overtrue_authorities : list AuthorityKeys :=
  [ from_accounts (hex "4850a46ca0afedc00ad8239f903fe0348fc7f2dfb6af5100ef85f1d934871b1c")
      (hex "518f9fedc6b65cee2bfbe750e8fd92b24266e1b624c6359730e63081233ebcd3") None;
    from_accounts (hex "3ebd4644efe640497ffa8d6421bdf4f4d297b9e725a8bba08d61edad809bb871")
      (hex "fb21af619fe27e9963afe208f04d57d141624170a141a8fae2ada560941f44d5") None;
    from_accounts (hex "d07e877f36ba61175dc769463fc131354338c382c95b8d6e9e36252ca05c6f79")
      (hex "f2f5d903a18828e3d4cb2dd1da7882900dbc9825eade91dcf61bcd1e25b0b817") None ].

Definition overtrue_testnet_genesis : res string GenesisConfig :=
  testnet_genesis overtrue_authorities []
    (hex "4850a46ca0afedc00ad8239f903fe0348fc7f2dfb6af5100ef85f1d934871b1c")
    (Some [hex "8a9679d0624a555c9c1088578b0c488b03c5150fe6c021f4968d338a6ebfb24b"]).

(** ** [load_spec]: the genesis a chain id selects *)
Context (from_json_file : string -> res string GenesisConfig).
Definition load_spec (id : string) : res string GenesisConfig :=
  if String.eqb id "" then
    Err "Please specify which chain you want to run, e.g. --dev or --chain=local"%string
  else if String.eqb id "overtrue" then overtrue_testnet_genesis
  else if String.eqb id "dev" then development_config_genesis
  else if String.eqb id "local" then local_testnet_genesis
  else from_json_file id.

(** ** A consistent genesis

    The parts of a genesis refer to each other: the bonds and the members' stakes to the
    balances, the nominations and the session keys to the validators, and the members to the
    limits of the runtime's configuration. *)
Definition endowed (g : GenesisConfig) (who : bytes) (v : Z) : Prop :=
  exists b, (who, b) ∈ balances g /\ v <= b.
Record consistent (g : GenesisConfig) : Prop := {
  b_balances : NoDup (balances g).*1;
  b_deposit : Forall (fun p => Core.EXISTENTIAL_DEPOSIT <= p.2) (balances g);
  b_stash : NoDup ((fun s => s.1.1.1) <$> stakers g);
  b_bond : Forall (fun s => endowed g s.1.1.1 s.1.2) (stakers g);
  b_targets : forall x c v ts, (x, c, v, Nominator ts) ∈ stakers g ->
    ts ⊆ invulnerables g /\ Z.of_nat (length ts) <= MaxNominations;
  b_session : (fun k => k.1.1) <$> session g = invulnerables g;
  b_count : invulnerables g <> [] /\ validator_count g = Z.of_nat (length (invulnerables g));
  b_members : NoDup (elections_members g).*1 /\
    Z.of_nat (length (elections_members g)) <= Gov.DesiredMembers /\
    Forall (fun m => endowed g m.1 m.2) (elections_members g);
  b_technical : NoDup (technical_members g) /\
    Z.of_nat (length (technical_members g)) <= Gov.CouncilMaxMembers;
  (* the keys are given once, in the session part *)
  b_authorities : babe_authorities g = [] /\ im_online_keys g = [] /\
    authority_discovery_keys g = [] /\ grandpa_authorities g = []
}.

Lemma endow_spec xs : forall l, NoDup l ->
  NoDup (endow l xs) /\ (forall x, x ∈ endow l xs <-> x ∈ l \/ x ∈ xs).
Proof.
  induction xs as [|y xs IH]; intros l Hl; cbn [endow fold_left].
  - split; [done|]. intros x. rewrite elem_of_nil. tauto.
  - case_bool_decide as Hy.
    + destruct (IH l Hl) as [Hn He]. split; [done|]. intros x. rewrite elem_of_cons. fold (endow l xs).
      rewrite He. split; [tauto|]. intros [?|[->|?]]; auto.
    + destruct (IH (l ++ [y])) as [Hn He].
      { apply NoDup_app. split_and!; [done|set_solver|apply NoDup_singleton]. }
      split; [done|]. intros x. fold (endow (l ++ [y]) xs). rewrite He. set_solver.
Qed.

Lemma endow_length xs : forall l, (length (endow l xs) <= length l + length xs)%nat.
Proof.
  induction xs as [|y xs IH]; intros l; cbn [endow fold_left]; [lia|].
  case_bool_decide; simpl length; [specialize (IH l)|specialize (IH (l ++ [y]))];
    unfold endow in IH; rewrite ?length_app in IH; simpl in IH; lia.
Qed.

(** Nominations are drawn from the authorities. *)
Context (Hchoose : forall i ws n, choose_multiple i ws n ⊆ ws /\ (length (choose_multiple i ws n) <= n)%nat).

Lemma nominators_spec ws xs : ws <> [] -> exists ns,
  mapM (fun '(i, x) => nominator_staker ws i x) (enumerate xs) = Ok ns /\
  (fun s => s.1.1.1) <$> ns = xs /\
  Forall (fun s => s.1.2 = STASH /\ exists ts, s.2 = Nominator ts /\ ts ⊆ stash <$> ws /\
    Z.of_nat (length ts) <= MaxNominations) ns.
Proof.
  intros Hws. assert (Hlim : 0 < Z.min MaxNominations (Z.of_nat (length ws))).
  { unfold MaxNominations. destruct ws; [done|simpl; lia]. }
  pose (f := fun p : nat * bytes => (p.2, p.2, STASH, Nominator (stash <$> choose_multiple p.1 ws
    (Z.to_nat (gen_usize p.1 mod Z.min MaxNominations (Z.of_nat (length ws))))))).
  exists (f <$> enumerate xs). split_and!.
  - apply mapM_res_Ok_total. intros [i x] _. unfold nominator_staker.
    by rewrite (proj2 (Z.eqb_neq _ _)) by lia.
  - rewrite <- list_fmap_compose. apply snd_enumerate.
  - apply Forall_fmap, Forall_forall. intros [i x] _. split; [done|]. eexists. split; [done|].
    set (n := Z.to_nat _). destruct (Hchoose i ws n) as [Hsub Hlen]. simpl. split.
    + intros t. rewrite !list_elem_of_fmap. intros (a & -> & Ha). exists a. split; [done|]. by apply Hsub.
    + rewrite length_fmap. pose proof (Z.mod_pos_bound (gen_usize i) _ Hlim) as Hm.
      assert (Z.of_nat n <= MaxNominations) by (unfold n; simpl; lia). lia.
Qed.

Lemma testnet_genesis_consistent ws ns root es es0 wasm alice :
  match es with Some l => Ok l | None => endow_accounts [ALICE; BOB; CHARLIE; DAVE; EVE; FERDIE] end = Ok es0 ->
  wasm_binary = Some wasm -> sr25519_id ALICE = Ok alice ->
  ws <> [] -> NoDup es0 -> NoDup ((stash <$> ws) ++ ns) ->
  (forall a, a ∈ ws -> stash a ∈ es0 \/ stash a ∈ controller <$> ws) ->
  (length es0 + length ws + length ns <= 26)%nat ->
  exists g, testnet_genesis ws ns root es = Ok g /\ consistent g /\
    invulnerables g = stash <$> ws /\ sudo_key g = Some root /\ code g = wasm.
Proof.
  intros Hes Hw Hal Hne Hnd Hst Hin Hlen. unfold testnet_genesis. rewrite Hes. bind_simpl.
  destruct (nominators_spec ws ns Hne) as (nst & -> & Hnx & Hnall). bind_simpl. rewrite Hw. simpl unwrap.
  bind_simpl. rewrite Hal. bind_simpl. set (e := endow es0 _).
  destruct (endow_spec ((controller <$> ws) ++ ns) es0 Hnd) as [Hen Hee].
  pose proof (endow_length ((controller <$> ws) ++ ns) es0) as Hel. rewrite length_app, length_fmap in Hel.
  fold e in Hen, Hee, Hel. eexists. split; [done|].
  assert (He : forall who v g, balances g = (fun x => (x, ENDOWMENT)) <$> e -> who ∈ e -> v <= ENDOWMENT -> endowed g who v).
  { intros who v g Hg Hwho Hv. exists ENDOWMENT. split; [|done]. rewrite Hg. apply list_elem_of_fmap. by exists who. }
  assert (Hhalf : (length (take ((length e + 1) / 2) e) <= 13)%nat).
  { rewrite length_take. assert ((length e + 1) / 2 <= 13)%nat by (apply Nat.lt_succ_r, Nat.Div0.div_lt_upper_bound; lia). lia. }
  set (half := take ((length e + 1) / 2) e) in *.
  split_and!; [|done..].
  split; simpl.
  - by rewrite <- list_fmap_compose, list_fmap_id.
  - apply Forall_fmap, Forall_forall. intros x _. simpl. by vm_compute.
  - rewrite fmap_app, Hnx, <- list_fmap_compose. exact Hst.
  - apply Forall_app. split.
    + apply Forall_fmap, Forall_forall. intros a Ha. eapply He; [done| |by vm_compute].
      apply Hee. rewrite elem_of_app. destruct (Hin a Ha); auto.
    + apply Forall_lookup. intros i st Hi. rewrite Forall_lookup in Hnall. destruct (Hnall i st Hi) as [Hv _].
      rewrite Hv. eapply He; [done| |by vm_compute]. apply Hee. right. apply elem_of_app. right.
      rewrite <- Hnx. apply list_elem_of_fmap. exists st. split; [done|]. by eapply list_elem_of_lookup_2.
  - intros x c v ts [Hx|Hx]%elem_of_app.
    + apply list_elem_of_fmap in Hx as (a & [=] & _).
    + rewrite Forall_forall in Hnall. by destruct (Hnall _ Hx) as (_ & ts' & [= <-] & ? & ?).
  - by rewrite <- list_fmap_compose.
  - rewrite length_fmap, wrap_small by (unfold in_u; lia). split; [|done]. by intros Hn%fmap_nil_inv.
  - rewrite <- list_fmap_compose, list_fmap_id, length_fmap. split_and!.
    + apply (sublist_NoDup _ e); [done|apply sublist_take].
    + unfold Gov.DesiredMembers. lia.
    + apply Forall_fmap, Forall_forall. intros x Hx. eapply He; [done| |by vm_compute].
      unfold half in Hx. apply elem_of_take in Hx as (j & Hj & _). by eapply list_elem_of_lookup_2.
  - split; [apply (sublist_NoDup _ e); [done|apply sublist_take]|]. unfold Gov.CouncilMaxMembers. lia.
  - done.
Qed.

(** Without an authority to nominate, a nominator makes the genesis panic. *)
Lemma nominators_need_authorities ns root es : ns <> [] -> wasm_binary <> None ->
  testnet_genesis [] ns root (Some es) = Panic.
Proof. intros Hn _. destruct ns; [done|]. done. Qed.

(** The seeds of the development accounts. *)
Definition dev_seeds : list string :=
  concat ((fun x => [x; String.append x "//stash"]) <$> [ALICE; BOB; CHARLIE; DAVE; EVE; FERDIE]).

(** Derivation works on these seeds and gives different accounts. *)
Context (acct : string -> bytes)
  (Hacct : forall x, x ∈ dev_seeds -> account_id_from_seed x = Ok (acct x))
  (Hinj : NoDup (acct <$> dev_seeds))
  (Hkeys : forall x, x ∈ dev_seeds -> is_Some (sr25519_public (String.append "//" x)) /\
     is_Some (ed25519_public (String.append "//" x))).

Lemma dev_endowed : endow_accounts [ALICE; BOB; CHARLIE; DAVE; EVE; FERDIE] = Ok (acct <$> dev_seeds).
Proof.
  unfold endow_accounts. rewrite (mapM_res_Ok_total _ (fun x => [acct x; acct (String.append x "//stash")])); [done|].
  intros x Hx. rewrite (Hacct x), (Hacct (String.append x "//stash")); [done|..];
    unfold dev_seeds; set_solver.
Qed.

Lemma from_seed_account x : x ∈ dev_seeds -> String.append x "//stash" ∈ dev_seeds ->
  exists a, from_seed x = Ok a /\ controller a = acct x /\ stash a = acct (String.append x "//stash").
Proof.
  intros Hx Hy. unfold from_seed. rewrite (Hacct x Hx). bind_simpl. rewrite (Hacct _ Hy). bind_simpl.
  unfold get_from_seed. destruct (Hkeys x Hx) as [[p ->] [q ->]]. simpl unwrap. bind_simpl. by eexists.
Qed.

Lemma seeds_spec_builds seeds n wasm : seeds = take (S n) [ALICE; BOB; CHARLIE] -> wasm_binary = Some wasm ->
  exists g, (authorities ← authority_keys_from_seeds seeds; alice ← sr25519_id ALICE;
             testnet_genesis authorities [] alice None) = Ok g /\ consistent g /\
    invulnerables g = (fun x => acct (String.append x "//stash")) <$> seeds /\
    sudo_key g = Some (acct ALICE).
Proof.
  intros Hse Hw. assert (Hsub : forall x, x ∈ seeds -> x ∈ dev_seeds /\ String.append x "//stash" ∈ dev_seeds).
  { intros x Hx. assert (x ∈ [ALICE; BOB; CHARLIE]).
    { rewrite Hse in Hx. apply elem_of_take in Hx as (j & Hj & _). by eapply list_elem_of_lookup_2. }
    unfold dev_seeds. set_solver. }
  assert (exists ws, authority_keys_from_seeds seeds = Ok ws /\
    stash <$> ws = (fun x => acct (String.append x "//stash")) <$> seeds) as (ws & Hws & Hst).
  { clear Hse Hw. unfold authority_keys_from_seeds. induction seeds as [|x seeds IH]; [by exists []|].
    destruct IH as (ws & Hws & Hst); [intros y Hy; apply Hsub; by right|].
    destruct (Hsub x) as [Hx Hy]; [by left|]. destruct (from_seed_account x Hx Hy) as (a & Ha & _ & Hs).
    exists (a :: ws). simpl. rewrite Ha. bind_simpl. rewrite Hws. bind_simpl. split; [done|].
    by f_equal. }
  rewrite Hws. bind_simpl. unfold sr25519_id. rewrite (Hacct ALICE) by (unfold dev_seeds; set_solver). bind_simpl.
  assert (Hlen : length ws = length seeds) by (apply (f_equal length) in Hst; by rewrite !length_fmap in Hst).
  assert (Hl3 : (1 <= length seeds <= 3)%nat) by (rewrite Hse, length_take; simpl; lia).
  assert (Hnd : NoDup ((fun x => acct (String.append x "//stash")) <$> seeds)).
  { apply (sublist_NoDup _ _ Hinj). rewrite Hse. destruct n as [|[|[|n]]]; simpl; repeat constructor. }
  destruct (testnet_genesis_consistent ws [] (acct ALICE) None (acct <$> dev_seeds) wasm (acct ALICE))
    as (g & Hg & Hb & Hi & Hs & _).
  - apply dev_endowed.
  - done.
  - apply Hacct. unfold dev_seeds. set_solver.
  - intros ->. simpl in Hlen. lia.
  - done.
  - by rewrite app_nil_r, Hst.
  - intros a Ha. left. assert (Hsa : stash a ∈ stash <$> ws) by (apply list_elem_of_fmap; by exists a).
    rewrite Hst in Hsa. apply list_elem_of_fmap in Hsa as (x & -> & Hx). apply list_elem_of_fmap.
    exists (String.append x "//stash"). split; [done|]. by apply Hsub.
  - rewrite length_fmap, Hlen. simpl. lia.
  - exists g. by rewrite Hi, Hst.
Qed.

End spec.

(** ** A derivation that keeps the seed *)
Section spec_witness.
#[local] Definition string_bytes (s : string) : bytes := Z.of_N ∘ Ascii.N_of_ascii <$> String.list_ascii_of_string s.
#[local] Instance seed_keys : KeyLib := {|
  sr25519_public s := Some (string_bytes s); ed25519_public s := Some (string_bytes s); into_account k := k |}.
#[local] Definition seed_account (x : string) : bytes := string_bytes (String.append "//" x).

End spec_witness.
