(* ===== verification/Runtime.v ===== *)
(** * The assembled runtime ([runtime/src/lib.rs])

    The runtime composes the two pallets of this repository with those of Substrate.  Of
    the latter this file needs the session pallet, which tells the pallets listed in
    [SessionKeys] - and only these - about the keys of the validators; the state of all
    other pallets is opaque and, as pallets own their storage, disjoint from that of the two.
    Root's power to overwrite raw storage or the code is left out. *)

From S2P Require Import Prelude Codec DasDb KzgLib KzgIndex KzgToy DasPrimitives Blob.
From S2P Require Import ErasureCoding CorePrimitives Reliability Sidecar PosUtils ProofOfSpace.
From S2P Require Import MeloStore MeloOffchain MeloStoreProps MeloStoreFacts MeloStoreRuns Executive.
From S2P Require Import ColumnExtension HeaderFlow FarmersFortune FortuneProps RuntimeConfig.

(** The pallets that take part in sessions through a key, and the one that would. *)
Inductive Provider := Grandpa | Babe | ImOnline | AuthorityDiscovery | MeloStorePallet.
#[export] Instance Provider_eq_dec : EqDecision Provider.
Proof. solve_decision. Defined.

(** [impl_opaque_keys! SessionKeys] and its [KeyTypeIdProviders]. *)
Definition SessionKeys : list Provider := [Grandpa; Babe; ImOnline; AuthorityDiscovery].

Section runtime.
Context `{Platform} `{KzgLib} `{HashLib} `{PermillLib} `{!PermillLaws} `{ClearPrefix} `{!ClearPrefixLaws}
  `{EmbeddedSettings} `{!G1BytesLaws} `{Codec Segment.t}.
Context {Account ImOnlineId ImOnlineSignature : Type} `{EqDecision Account}
  `{EqDecision ImOnlineId} `{EqDecision ImOnlineSignature}.
Context (verify : ImOnlineId -> bytes -> ImOnlineSignature -> bool).
Context {Bal : Type} (free : Account -> Bal -> Z) (deposit : Account -> Z -> Bal -> Bal)
  (encode : Account -> bytes).
#[local] Instance melo_config : MeloConfig := runtime_melo_config Account ImOnlineId ImOnlineSignature verify.
#[local] Instance fortune_config : FortuneConfig :=
  runtime_fortune_config Account ImOnlineId ImOnlineSignature verify Bal free deposit encode.

(** The state of the other pallets, and what the session handlers among them do. *)
Context {Rest Keys' : Type} (im_online_key : Keys' -> ImOnlineId).

(** What [pallet_session] announces: the keys of the validators, by account. *)
Inductive SessionEvent :=
| GenesisSession (validators : list (Account * Keys'))
| NewSession (validators : list (Account * Keys'))
| BeforeSessionEnding
| Disabled (validator_index : Z).

Context (other_handler : Provider -> SessionEvent -> Rest -> res string Rest).

Record RuntimeState := mkRuntime { fortune : FarmersFortune.State; rest : Rest }.
Definition melo (st : RuntimeState) : Storage := FarmersFortune.store (fortune st).
Definition set_melo (s : Storage) (st : RuntimeState) : RuntimeState :=
  mkRuntime (FarmersFortune.set_store s (fortune st)) (rest st).

(** The key of the data submission pallet is that of im-online. *)
Definition our_keys (validators : list (Account * Keys')) : list (Account * ImOnlineId) :=
  (fun '(who, k) => (who, im_online_key k)) <$> validators.

(** A handler of one provider; [BeforeSessionEnding] has the default, empty body. *)
Definition handle (p : Provider) (e : SessionEvent) (st : RuntimeState) : res string RuntimeState :=
  match p with
  | MeloStorePallet =>
      match e with
      | GenesisSession validators =>
          s ← on_genesis_session (our_keys validators) (melo st); Ok (set_melo s st)
      | NewSession validators => Ok (set_melo (on_new_session (our_keys validators) (melo st)) st)
      | BeforeSessionEnding => Ok st
      | Disabled i => s ← on_disabled i (melo st); Ok (set_melo s st)
      end
  | p => r ← other_handler p e (rest st); Ok (mkRuntime (fortune st) r)
  end.

(** [T::SessionHandler]: each provider in turn. *)
Fixpoint session_handler (providers : list Provider) (e : SessionEvent) (st : RuntimeState)
    : res string RuntimeState :=
  match providers with
  | [] => Ok st
  | p :: providers => st ← handle p e st; session_handler providers e st
  end.

(** What happens to the state: calls of the two pallets, their hooks, sessions, the start of
    a block, and whatever the other pallets do. *)
Inductive runtime_step : RuntimeState -> RuntimeState -> Prop :=
| rt_melo_call c origin st o s' : call_wf c -> dispatch c origin (melo st) = (o, s') ->
    runtime_step st (set_melo s' st)
| rt_claim origin pc l r st o f' : FarmersFortune.dispatch origin pc l r (fortune st) = (o, f') ->
    runtime_step st (mkRuntime f' (rest st))
| rt_finalize st : runtime_step st (set_melo (on_finalize (block_number (melo st)) (melo st)) st)
| rt_block st h : runtime_step st (set_melo (next_block h (melo st)) st)
| rt_session e st st' : session_handler SessionKeys e st = Ok st' -> runtime_step st st'
| rt_other st b r : runtime_step st (mkRuntime (FarmersFortune.set_balances b (fortune st)) r).

(** ** Without keys *)
Definition all_available (s : Storage) : Prop :=
  forall b, Forall (fun m => is_available m = true) (get_Metadata b s).

(** The keys are unset and nothing is marked. *)
Record keyless (s : Storage) : Prop := {
  kl_invariant : invariant s;
  kl_keys : Keys s = [];
  kl_available : all_available s
}.

Lemma handle_keeps_melo p e st st' : p ∈ SessionKeys -> handle p e st = Ok st' -> melo st' = melo st.
Proof.
  intros Hp Hh. unfold handle in Hh. destruct p; try (by apply res_bind_Ok in Hh as (r & _ & [= <-])).
  exfalso. unfold SessionKeys in Hp. set_solver.
Qed.

Lemma session_keeps_melo e ps st st' : ps ⊆ SessionKeys -> session_handler ps e st = Ok st' ->
  melo st' = melo st.
Proof.
  revert st. induction ps as [|p ps IH]; intros st Hs Hh; [by injection Hh as <-|].
  apply res_bind_Ok in Hh as (st1 & Hp & Hh). rewrite (IH st1); [|set_solver|done].
  eapply handle_keeps_melo; [|done]. set_solver.
Qed.

Lemma report_refused r sig origin s : Keys s = [] -> exists e, dispatch (CallReport r sig) origin s = (Err e, s).
Proof.
  intros Hk. unfold dispatch, transactional, report, mbind, stM_bind, ensureM, ensure_none, gets, lift_res.
  destruct origin; simpl; [by eexists..|]. rewrite Hk, lookup_nil.
  rewrite (bool_decide_false (is_Some None)) by (by intros [? ?]).
  unfold ensure. by repeat (destruct (_ : bool); simpl; [|by eexists]); eexists.
Qed.

Lemma dispatch_keyless c origin s o s' : call_wf c -> dispatch c origin s = (o, s') ->
  keyless s -> keyless s'.
Proof.
  intros Hwf Hd [Hi Hk Ha]. assert (Hi' : invariant s') by (by eapply dispatch_invariant).
  destruct c as [p|r sig|].
  - unfold dispatch, transactional in Hd.
    destruct (submit_data origin p s) as [[u|e|] s1] eqn:Hs; simplify_eq; [|by split..].
    apply submit_data_Ok_inv in Hs as (who & bn & _ & _ & _ & _ & _ & _ & _ & _ & _ & ->).
    split; [done|done|]. intros b. unfold get_Metadata at 1. simpl.
    destruct (decide (b = block_number s)) as [->|Hb].
    + rewrite lookup_insert_eq. simpl. apply Forall_app. split; [apply Ha|by constructor].
    + rewrite lookup_insert_ne by done. apply Ha.
  - destruct (report_refused r sig origin s Hk) as [e He]. rewrite He in Hd. injection Hd as <- <-. by split.
  - unfold dispatch, transactional in Hd.
    destruct (register_app origin s) as [[u|e|] s1] eqn:Hr; simplify_eq; [|by split..].
    unfold register_app, ensure_signed, lift_res, gets, modify, deposit_event in Hr.
    apply stM_bind_Ok in Hr as (who & s2 & Ho & Hr). destruct origin; simplify_eq.
    apply stM_bind_Ok in Hr as (app & s3 & [= <- <-] & Hr).
    apply stM_bind_Ok in Hr as (? & s4 & [= _ <-] & [= _ <-]). split; [done|exact Hk|exact Ha].
Qed.

(** A claim runs the data submission pallet only to read commitments. *)
Lemma claim_keyless origin pc l r f o f' : FarmersFortune.dispatch origin pc l r f = (o, f') ->
  keyless (FarmersFortune.store f) -> keyless (FarmersFortune.store f').
Proof.
  intros Hd Hkl. unfold FarmersFortune.dispatch, transactional in Hd.
  destruct (FarmersFortune.claim origin pc l r f) as [[u| |] f1] eqn:Hc; simplify_eq; [|done..].
  apply claim_Ok_inv in Hc as (who & st & _ & _ & _ & _ & Hpr & _ & ->). simpl.
  assert (Hread : forall b p s o s', cfp_commitments b p s = (o, s') -> keyless s -> keyless s').
  { intros b p s o' s' Hr [Hi Hk Ha]. destruct (commitments_at_state b p s o' s' Hr) as [->|(l' & Hl & ->)]; [by split|].
    split; [by apply ext_invariant|done|exact Ha]. }
  destruct Hpr as (c1 & c2 & c3 & st1 & st2 & R1 & R2 & R3 & _). eauto.
Qed.

Lemma runtime_keyless st st' : runtime_step st st' -> keyless (melo st) -> keyless (melo st').
Proof.
  intros Hs Hkl. destruct Hs as [c origin st o s' Hwf Hd|origin pc l r st o f' Hd|st|st h|e st st' Hh|st b r].
  - by eapply dispatch_keyless.
  - by eapply claim_keyless.
  - destruct Hkl as [Hi Hk Ha].
    split; [|unfold on_finalize; simpl; by destruct (_ <=? _)..].
    by apply (step_invariant ltac:(done) (melo st)); [apply step_finalize|].
  - destruct Hkl as [Hi Hk Ha]. split; [|done..].
    by apply (step_invariant ltac:(done) (melo st)); [apply step_block|].
  - by rewrite (session_keeps_melo e SessionKeys st st').
  - done.
Qed.

Lemma reachable_keyless st0 st : genesis (melo st0) -> Keys (melo st0) = [] ->
  rtc runtime_step st0 st -> keyless (melo st).
Proof.
  intros Hg Hk Hr. assert (keyless (melo st0)) as Hkl.
  { split; [by apply invariant_genesis|done|]. destruct Hg as (Hm & _). intros b. unfold get_Metadata.
    rewrite Hm, lookup_empty. constructor. }
  clear Hg Hk. induction Hr as [st|st1 st2 st3 Hs _ IH]; [done|]. apply IH. by eapply runtime_keyless.
Qed.

Context {Hash Item : Type} `{!FrameSystem Storage Hash Item} `{!SystemFinalizeLaws Storage Hash Item}.
Context {HT : Type} `{HostStorage HT} `{!OffchainEnv HT} `{Codec Reliability.t} `{Codec ReportStatus}
  `{Codec UnavailableDataReport} `{Codec Z}.

Lemma keyless_worker s now w : Keys s = [] -> offchain_worker (HT := HT) s now w = w.
Proof.
  intros Hk. unfold offchain_worker. destruct is_validator; [|done]. unfold send_unavailability_report.
  assert (Hl : local_authority_keys s = []) by (unfold local_authority_keys; by rewrite Hk).
  induction (seq 0 _) as [|gap gaps IH]; [done|]. cbn [gaps_reports].
  assert (Hg : gap_reports s now (Z.of_nat gap) w = ([], w)).
  { unfold gap_reports. rewrite Hl. destruct (_ <? _); [done|]. by case_bool_decide. }
  rewrite Hg. by destruct (gaps_reports s now gaps w).
Qed.

(** C7: In the assembled runtime nothing is ever reported unavailable.  [SessionKeys] does
    not list the data submission pallet, so from a genesis without keys - the only one the
    chain specification builds - no sequence of blocks, calls, claims and sessions gives it
    a key.  In every reachable state the pool and the pallet refuse every report, the
    off-chain worker of every node does nothing, and the header of the block carries all
    submissions of the previous block, available or not. *)
Theorem reports_never_count st0 st :
  genesis (melo st0) -> Keys (melo st0) = [] -> rtc runtime_step st0 st ->
  let s := melo st in
  Keys s = [] /\
  (forall r sig origin, validate_unsigned (CallReport r sig) s = Err Stale /\
     exists e, dispatch (CallReport r sig) origin s = (Err e, s)) /\
  (forall now (w : Worker), offchain_worker (HT := HT) s now w = w) /\
  (1 < block_number s < 2 ^ 32 ->
   Header.commitments (finalize s).1
   = Some (concat (commitments <$> get_Metadata (block_number s - 1) s))).
Proof.
  intros Hg Hk Hr s. destruct (reachable_keyless st0 st Hg Hk Hr) as [Hi Hks Ha]. split_and!.
  - done.
  - intros r sig origin. split; [|by apply report_refused]. simpl. fold s in Hks.
    by rewrite Hks, lookup_nil.
  - intros now w. by apply keyless_worker.
  - intros Hb. destruct (header_of_invariant ltac:(done) ltac:(done) ltac:(done) s Hi Hb) as (Hc & _).
    rewrite Hc. unfold iter_metadata. by rewrite filter_all by apply Ha.
Qed.

(** Were the pallet listed, a session would set its keys. *)
Theorem listed_provider_gets_keys validators st st' :
  session_handler (SessionKeys ++ [MeloStorePallet]) (NewSession validators) st = Ok st' ->
  Keys (melo st') = (fun v => im_online_key v.2) <$> validators.
Proof.
  intros Hh. cbn [SessionKeys app session_handler] in Hh.
  repeat (apply res_bind_Ok in Hh as (? & ? & Hh)). injection Hh as <-.
  match goal with Hm : handle MeloStorePallet _ _ = Ok _ |- _ => injection Hm as <- end.
  unfold melo, set_melo, our_keys. simpl. rewrite <- list_fmap_compose. apply list_fmap_ext. by intros ? [].
Qed.
End runtime.

(** ** A session, a submission, the next block *)
Section runtime_witness.
#[local] Existing Instances host64 bytes_lib bytes_lib_g1 ref_permill ref_permill_laws
  ref_clear_prefix ref_clear_prefix_laws map_host map_host_laws.
#[local] Existing Instances HeaderFlow.flow_settings FortuneProps.one_hash FortuneProps.one_codec
  MeloStoreRuns.status_codec MeloStoreRuns.index_codec MeloStoreRuns.report_codec.
#[local] Definition any_signature (_ : Z) (_ _ : bytes) : bool := true.
#[local] Instance w_config : MeloConfig := runtime_melo_config Z Z bytes any_signature.
#[local] Definition w_free (who : Z) (b : gmap Z Z) : Z := default 0 (b !! who).
#[local] Definition w_deposit (who v : Z) (b : gmap Z Z) : gmap Z Z := <[who := w_free who b + v]> b.
#[local] Definition w_encode (_ : Z) : bytes := [0].
#[local] Instance w_fortune : FortuneConfig :=
  runtime_fortune_config Z Z bytes any_signature (gmap Z Z) w_free w_deposit w_encode.
#[local] Instance w_system : FrameSystem Storage Z Z := {|
  reset_events s := s; initialize _ _ _ s := s; register_extra_weight_unchecked _ _ s := s;
  note_finished_initialize s := s; sys_block_number := block_number; sys_block_hash _ _ := 7;
  insert_block_hash _ _ s := s; note_extrinsic _ s := s; note_finished_extrinsics s := s;
  block_weight_total _ := Weight.zero;
  system_finalize s := (Header.new (block_number s) 0 0 7 [], s);
  last_upgrade_outdated _ := false; put_last_upgrade s := s;
  item_is_pre_runtime _ := false; base_block := Weight.zero; max_block := Weight.zero
|}.
#[local] Instance w_laws : SystemFinalizeLaws Storage Z Z.
Proof. done. Qed.
#[local] Instance w_record : Codec Reliability.t := {| scale_encode _ := []; scale_decode _ := None |}.
#[local] Instance w_env : OffchainEnv (gmap bytes bytes) := {|
  authority_sign _ _ := Some []; local_keys := [7]; pool_accepts _ := true;
  is_validator := true; interference h := h
|}.

(** The other pallets count the session events they see. *)
#[local] Definition count (_ : Provider) (_ : SessionEvent (Account := Z) (Keys' := Z)) (n : nat)
    : res string nat := Ok (S n).
#[local] Definition w_submission : SidecarMetadata.t :=
  SidecarMetadata.mk 1 10 1 [g1_identity] [g1_identity].
#[local] Definition w_store (ks : list Z) : Storage := mkStorage ∅ ∅ ks 1 ∅ ∅ 1 (fun _ => []) [].
Abbreviation state := (RuntimeState any_signature w_free w_deposit w_encode (Rest := nat)).
#[local] Definition w_state (s : Storage) (n : nat) : state :=
  mkRuntime any_signature w_free w_deposit w_encode (FarmersFortune.mkState ∅ ∅ s []) n.
#[local] Definition w_who : @AccountId w_config := 1%Z.
#[local] Definition w_submitted : Storage :=
  (dispatch (CallSubmitData w_submission) (Signed w_who) (w_store [])).2.
Abbreviation rstep := (runtime_step any_signature w_free w_deposit w_encode id count).

Lemma witness_run : rtc rstep (w_state (w_store []) 0) (w_state (next_block [] w_submitted) 4).
Proof.
  eapply rtc_l; [by apply (rt_session _ _ _ _ _ _ (NewSession [(1, 7)]) _ (w_state (w_store []) 4))|].
  eapply rtc_l; [by eapply (rt_melo_call _ _ _ _ _ _ (CallSubmitData w_submission) (Signed w_who))|].
  apply rtc_once. apply (rt_block _ _ _ _ _ _ (w_state w_submitted 4) []).
Qed.

Lemma reports_never_count_witness :
  let s := next_block [] w_submitted in
  Keys s = [] /\ Header.commitments (finalize s).1 = Some [g1_identity] /\
  exists e, dispatch (CallReport (mkReport 1 0 [0] 0) []) Unsigned s = (Err e, s).
Proof.
  destruct (reports_never_count any_signature w_free w_deposit w_encode id count
    (HT := gmap bytes bytes) (w_state (w_store []) 0) (w_state (next_block [] w_submitted) 4))
    as (Hk & Hr & _ & Hh).
  - split_and!; done.
  - reflexivity.
  - exact witness_run.
  - split; [exact Hk|]. split; [apply Hh; done|]. apply Hr.
Defined.
End runtime_witness.
