(* ===== verification/Light.v ===== *)
(** * The light client ([light/src], [crates/meloxt/src/header.rs])

    The light client follows the finalized headers of a node over RPC, samples every block
    and answers queries from the records it stores ([Rpc.Confidence]).  [MelodotHeader] is
    the header as [meloxt] decodes it.  The subscription is the list of its messages, each
    with the state of the DAS network when the header is sampled. *)

From S2P Require Import Prelude Codec DasDb KzgLib KzgIndex KzgToy DasPrimitives Blob.
From S2P Require Import ErasureCoding CorePrimitives Reliability Sidecar DasNetwork DaserNetwork.
From S2P Require Import Daser.

(** ** [meloxt::MelodotHeader] *)
Module MelodotHeader.
Section header.
Context {Digest : Type} `{KzgLib} `{HashLib}.

Record t := mk {
  parent_hash : bytes;
  number : Z;
  state_root : bytes;
  extrinsics_root : bytes;
  digest : Digest;
  extension : HeaderExtension.t
}.

Definition commitments_bytes (self : t) : bytes :=
  HeaderExtension.commitments_bytes (extension self).

Definition commitments (self : t) : option (list KZGCommitment) :=
  mapM (M := option) (decode_all (A := FsG1)) (chunks BYTES_PER_G1 (commitments_bytes self)).

(** [try_into] to [u32]. *)
Definition col_num (self : t) : option Z :=
  let n := Z.of_nat (length (commitments_bytes self) / BYTES_PER_G1) in
  if n <? 2 ^ 32 then Some n else None.

Definition hash `{Codec t} (self : t) : bytes := blake2_256 (scale_encode self).

#[export] Instance header_with_commitment `{Codec t} : HeaderWithCommitment Z bytes t := {|
  hwc_extension := extension; hwc_commitments := commitments;
  hwc_commitments_bytes := commitments_bytes; hwc_col_num := col_num;
  hwc_number := number; hwc_hash := hash
|}.
End header.
Arguments t : clear implicits.
End MelodotHeader.

(** ** [tokio::sync::mpsc::channel]: a bounded buffer *)
Module Channel.
Record t (A : Type) := mk { capacity : nat; buffer : list A; receiver : bool }.
Arguments mk {A}.
Arguments capacity {A}.
Arguments buffer {A}.
Arguments receiver {A}.

Inductive SendResult (A : Type) := Sent (ch : t A) | Closed | Waits.
Arguments Sent {A}.
Arguments Closed {A}.
Arguments Waits {A}.

Definition channel {A} (capacity : nat) : t A := mk capacity [] true.

(** [send(value).await]: an error when the receiver is gone, a wait while the buffer is
    full. *)
Definition send {A} (value : A) (ch : t A) : SendResult A :=
  if negb (receiver ch) then Closed
  else if (length (buffer ch) <? capacity ch)%nat
  then Sent (mk (capacity ch) (buffer ch ++ [value]) true)
  else Waits.
End Channel.

Module Light.
Section light.
Context `{Platform} `{KzgLib} `{PermillLib} `{RngLib} `{Codec Position} `{Codec Segment.SegmentData}.
Context {Net : Type} `{!Requests Net}.
Context {Hash Header : Type} `{Codec Hash} `{!HeaderWithCommitment Z Hash Header}.
Context {DB : Type} `{!DasKv DB} `{Codec Reliability.t} `{Codec LastProcessedBlock} `{Codec Z}.

(** The database behind the mutex, the channel of headers, and the errors sent. *)
Record t := mk { database : DB; message_tx : Channel.t Header; error_sender : list string }.

(** How the task is left: the stream ended, it waits in [message_tx.send] for a header, or
    it panicked. *)
Inductive Ended := Returned | Waiting (header : Header) | Panicked.

(** The body of the loop from the send on; [None] while sampling still draws. *)
Definition sample_header (fuel : nat) (network : DaserNetwork.t) (net : Net) (header : Header)
    (s : t) : option (res string unit * t) :=
  out ← SamplingClient.sample_block fuel network net header (database s);
  Some (match out.1 with Panic => Panic | _ => Ok tt end,
        mk out.2 (message_tx s) (error_sender s)).

Fixpoint handle_messages (fuel : nat) (network : DaserNetwork.t)
    (messages : list ((string + Header) * Net)) (s : t) : option (Ended * t) :=
  match messages with
  | [] =>
      Some (Returned, mk (database s) (message_tx s)
              (error_sender s ++ ["Finalized blocks subscription disconnected"%string]))
  | (inr header, net) :: messages =>
      match Channel.send header (message_tx s) with
      | Channel.Waits => Some (Waiting header, s)
      | sent =>
          let ch := match sent with Channel.Sent ch => ch | _ => message_tx s end in
          out ← sample_header fuel network net header (mk (database s) ch (error_sender s));
          match out with
          | (Panic, s) => Some (Panicked, s)
          | (_, s) => handle_messages fuel network messages s
          end
      end
  | (inl _, _) :: messages => handle_messages fuel network messages s
  end.

(** [subscribe_finalized] may fail, and the task then returns. *)
Definition finalized_headers (fuel : nat) (network : DaserNetwork.t)
    (subscription : (string + list ((string + Header) * Net))) (s : t) : option (Ended * t) :=
  match subscription with
  | inr messages => handle_messages fuel network messages s
  | inl _ => Some (Returned, s)
  end.

(** [main.rs]: the task [run] spawns.  The receiver of the header channel is kept but never
    read. *)
Definition run (fuel : nat) (network : DaserNetwork.t)
    (subscription : (string + list ((string + Header) * Net))) (database : DB) : option (Ended * t) :=
  finalized_headers fuel network subscription (mk database (Channel.channel 100) []).
End light.
Arguments t : clear implicits.
Arguments Ended : clear implicits.
End Light.
