(* ===== verification/LightProps.v ===== *)
(** * Properties of the light client

    What a sampled block's record says, what the RPC then answers, and how many headers the
    client handles. *)

From S2P Require Import Prelude Codec DasDb KzgLib KzgIndex KzgToy DasPrimitives Blob.
From S2P Require Import ErasureCoding CorePrimitives Reliability Sidecar DasNetwork DaserNetwork.
From S2P Require Import DaserRows DaserBlock Daser DaserProps RuntimeApi Rpc Light.

(** Block numbers are [u32]. *)
#[export] Instance LastProcessedBlock_wf : Wf LastProcessedBlock := fun b => in_u 32 (block_num b).

(** ** More fuel gives the same result *)
Section fuel.
Context `{Platform} `{KzgLib} `{PermillLib} `{RngLib} `{Codec Position} `{Codec Segment.SegmentData}.
Context {Net : Type} `{!Requests Net}.
Context {Hash Header : Type} `{Codec Hash} `{!HeaderWithCommitment Z Hash Header}.
Context {DB : Type} `{!DasKv DB} `{Codec Reliability.t} `{Codec LastProcessedBlock} `{Codec Z}.

Lemma draw_positions_mono fuel fuel' n cs : (fuel <= fuel')%nat -> forall i ps acc out,
  Reliability.draw_positions fuel n cs i ps acc = Some out ->
  Reliability.draw_positions fuel' n cs i ps acc = Some out.
Proof.
  revert fuel'. induction fuel as [|fuel IH]; intros fuel' Hle i ps acc out.
  - simpl. destruct (length ps <? n)%nat eqn:Hn; [done|]. intros [= <-].
    destruct fuel'; simpl; by rewrite Hn.
  - destruct fuel' as [|fuel']; [lia|]. simpl. destruct (length ps <? n)%nat; [|done].
    case_bool_decide; [apply IH; lia|]. case_match; [apply IH; lia|done].
Qed.

Lemma set_sample_mono fuel fuel' n ls h (r : Reliability.t) out : (fuel <= fuel')%nat ->
  Reliability.set_sample fuel n ls h r = Some out -> Reliability.set_sample fuel' n ls h r = Some out.
Proof.
  intros Hle. unfold Reliability.set_sample. case_match; [done|].
  intros (o & Hd & Ho)%bind_Some. by rewrite (draw_positions_mono _ _ _ _ Hle _ _ _ _ Hd).
Qed.

Lemma sample_block_mono fuel fuel' self (net : Net) (h : Header) (db : DB) out : (fuel <= fuel')%nat ->
  SamplingClient.sample_block fuel self net h db = Some out ->
  SamplingClient.sample_block fuel' self net h db = Some out.
Proof.
  intros Hle. unfold SamplingClient.sample_block, SamplingClient.sample_commitments.
  destruct (hwc_commitments h) as [cs|]; [|done]. case_bool_decide; [done|].
  destruct (extend_fs_g1 _ _) as [ext| |]; [|done..].
  intros (o & Hs & Ho)%bind_Some. apply bind_Some in Hs as (o' & Hset & Hs).
  rewrite (set_sample_mono _ _ _ _ _ _ _ Hle Hset). cbn [mbind option_bind]. by injection Hs as <-.
Qed.

Lemma handle_messages_mono fuel fuel' self (messages : list ((string + Header) * Net)) :
  (fuel <= fuel')%nat -> forall (s : Light.t Header DB) out,
  Light.handle_messages fuel self messages s = Some out ->
  Light.handle_messages fuel' self messages s = Some out.
Proof.
  intros Hle. induction messages as [|[[e|h] net] messages IH]; intros s out; [done|apply IH|].
  simpl. unfold Light.sample_header. destruct (Channel.send h (Light.message_tx s)); [| |done];
    intros (o & Hs & Ho)%bind_Some; apply bind_Some in Hs as (o' & Hs & [= <-]);
    simpl in Hs |- *; rewrite (sample_block_mono _ _ _ _ _ _ _ Hle Hs); simpl;
    simpl in Ho; destruct (o'.1); auto.
Qed.
End fuel.

Section light.
Context `{Platform} `{KzgLib} `{PermillLib} `{!PermillLaws} `{RngLib} `{!RngLaws}.
Context `{Codec Position} `{Codec Segment.SegmentData}.
Context {Net : Type} `{!Requests Net}.
Context {Hash Header : Type} `{Codec Hash} `{!HeaderWithCommitment Z Hash Header}.
Context {DB : Type} `{!DasKv DB} `{!DasKvLaws DB}.
Context `{Codec Reliability.t} `{!CodecLaws Reliability.t}.
Context `{Codec LastProcessedBlock} `{!CodecLaws LastProcessedBlock} `{Codec Z}.
Context (self : DaserNetwork.t).
Context (Hresp : forall net : Net, responsive net).
(** Block hashes are 32 bytes. *)
Context (Hhash : forall h : Header, length (DaserNetwork.hash_bytes h) = 32%nat).
Implicit Types (h : Header) (net : Net) (db : DB).

(** A network none of whose values makes the check of the library panic. *)
Definition calm net : Prop := forall key p c, harmless (DaserNetwork.kzg self) c p (reply net key).

(** A header whose block can be sampled: its commitments decode, can be extended, and its
    lookup table names a submission for every row. *)
Definition extended h : list KZGCommitment :=
  match hwc_commitments h with
  | Some cs => match extend_fs_g1 (Crypto.get_fs (DaserNetwork.kzg self)) cs with Ok ext => ext | _ => [] end
  | None => []
  end.
Definition samplable h : Prop :=
  in_u 32 (hwc_number h) /\
  exists cs, hwc_commitments h = Some cs /\ (cs = [] \/
    extend_fs_g1 (Crypto.get_fs (DaserNetwork.kzg self)) cs = Ok (extended h) /\
    0 < Z.of_nat (length (extended h)) < 2 ^ 32 /\ fair (extended h) /\
    forall y, 0 <= y < Z.of_nat (length (extended h)) / 2 ->
      is_Some (AppLookup.get_lookup (HeaderExtension.app_lookup (hwc_extension h)) y)).

(** What the record of a sampled block says. *)
Definition records net h (r : Reliability.t) : Prop :=
  Reliability.confidence_type r = Block /\
  length (Reliability.samples r) = Z.to_nat SAMPLES_PER_BLOCK /\
  NoDup (position <$> Reliability.samples r) /\
  Forall (fun s => in_matrix (Z.of_nat (length (extended h))) (position s) /\
    exists c, extended h !! Z.to_nat (Crypto.y (position s)) = Some c /\
      (sample_available s = true <-> is_Some (fetched self net (sample_id s) (position s) c)))
    (Reliability.samples r).

Lemma block_samples_total ls bh cols ps : 0 < cols ->
  Forall (in_matrix cols) ps -> (forall y, 0 <= y < cols / 2 -> is_Some (AppLookup.get_lookup ls y)) ->
  exists samples, Reliability.make_samples Block ls (Some bh) cols ps = Ok samples.
Proof.
  intros Hc Hps Hls. simpl. apply mapM_res_exists. intros p Hp. rewrite Forall_forall in Hps.
  destruct (Hps p Hp) as [_ Hy]. unfold Reliability.block_sample.
  destruct (Z.ltb_spec (Crypto.y p) (cols / 2)); [|by eexists].
  destruct (Hls (Crypto.y p)) as [[l ry] ->]; [lia|]. by eexists.
Qed.

Lemma sample_block_record net h db : calm net -> samplable h -> hwc_commitments h <> Some [] ->
  exists fuel r, records net h r /\
    SamplingClient.sample_block fuel self net h db
    = Some (Ok tt, SamplingClient.set_last_at (hwc_number h) (DaserNetwork.hash_bytes h)
                     (Reliability.save r (DaserNetwork.hash_bytes h) db)).
Proof.
  intros Hcalm (Hnum & cs & Hcs & [->|(Hext & Hlen & Hfair & Hls)]) Hne; [done|].
  set (ls := HeaderExtension.app_lookup (hwc_extension h)) in *.
  set (bh := DaserNetwork.hash_bytes h).
  destruct (set_sample_live (Z.to_nat SAMPLES_PER_BLOCK) ls (Some bh) (Reliability.new Block (extended h)))
    as (fuel & out & Hset & Hnp); [done|done| |].
  { change EXTENDED_SEGMENTS_PER_BLOB with 256. change (Z.of_nat (Z.to_nat SAMPLES_PER_BLOCK)) with 8.
    cbn [Reliability.new Reliability.commitments]. lia. }
  destruct out as [[r scs]|e|]; [| |done].
  2: { exfalso. unfold Reliability.set_sample in Hset.
       cbn [Reliability.new Reliability.commitments Reliability.confidence_type] in Hset.
       rewrite wrap_small in Hset by (unfold in_u; lia). rewrite (proj2 (Z.eqb_neq _ _)) in Hset by lia.
       apply bind_Some in Hset as (o & Hd & [= Ho]).
       apply draw_positions_sound in Hd as (ps & acc & -> & (_ & Hin & _) & _);
         [|done|by split_and!; [apply NoDup_nil_2|apply Forall_nil_2|constructor]|simpl; lia].
       destruct (block_samples_total ls bh (Z.of_nat (length (extended h))) ps) as [samples Hs];
         [lia|done|done|]. simpl in Hs. cbn [mbind res_bind] in Ho. by rewrite Hs in Ho. }
  pose proof (set_sample_spec fuel _ ls (Some bh) (Reliability.new Block (extended h)) r scs Hlen Hset)
    as (Hl & Hnd & Hall & Hscs & _ & Hty). cbv zeta in *.
  cbn [Reliability.new Reliability.commitments Reliability.confidence_type] in Hscs, Hty, Hall.
  apply Forall2_length in Hscs as Hsl.
  exists fuel, (Reliability.mk (zip_with (mark self net) (Reliability.samples r) scs)
    (Reliability.commitments r) (Reliability.confidence_type r)).
  destruct (marked_samples self net (Z.of_nat (length (extended h))) (extended h)
    (fun _ _ => True) (Reliability.samples r) scs) as (Hml & Hmp & Hma); [|done|].
  { eapply Forall_impl; [exact Hall|]. by intros s (? & ? & _). }
  split.
  - unfold records. cbn [Reliability.samples Reliability.confidence_type]. rewrite Hml, Hmp.
    split_and!; [done..|]. eapply Forall_impl; [exact Hma|]. by intros s (? & ? & _).
  - unfold SamplingClient.sample_block, SamplingClient.sample_commitments. rewrite Hcs.
    rewrite bool_decide_false by congruence. fold ls bh. rewrite Hext, Hset. cbn [mbind option_bind].
    unfold SamplingClient.sample. rewrite sample_all_spec; [done|done|].
    apply Forall2_same_length_lookup. split; [done|]. intros i s c _ _. apply Hcalm.
Qed.

(** ** What the database says after a block *)
Definition reports_last (hd : Header) db : Prop :=
  Confidence.last db = Ok (Some (hwc_number hd, DaserNetwork.hash_bytes hd)).
Definition answered net h db : Prop :=
  exists r, records net h r /\ Confidence.confidence (DaserNetwork.hash_bytes h) db = Some r.

Lemma set_last_at_reports h db : in_u 32 (hwc_number h) -> kv_get LAST_AT_KEY db = None ->
  reports_last h (SamplingClient.set_last_at (hwc_number h) (DaserNetwork.hash_bytes h) db).
Proof.
  intros Hn Hl. unfold reports_last, Confidence.last, Confidence.get_last, Reliability.get_last.
  unfold SamplingClient.set_last_at. rewrite Hl, kv_get_set_eq, decode_all_encode by done. done.
Qed.

Lemma set_last_at_other n bh db k : length k = 32%nat ->
  kv_get k (SamplingClient.set_last_at n bh db) = kv_get k db.
Proof.
  intros Hk. unfold SamplingClient.set_last_at. case_match; [|done]. apply kv_get_set_ne. by intros <-.
Qed.

Lemma sample_block_step net h db : calm net -> samplable h -> kv_get LAST_AT_KEY db = None ->
  exists fuel db', SamplingClient.sample_block fuel self net h db = Some (Ok tt, db') /\
    kv_get LAST_AT_KEY db' = None /\ reports_last h db' /\
    (hwc_commitments h <> Some [] -> answered net h db') /\
    forall k, length k = 32%nat -> k <> DaserNetwork.hash_bytes h -> kv_get k db' = kv_get k db.
Proof.
  intros Hcalm Hs Hl. destruct (decide (hwc_commitments h = Some [])) as [Hnil|Hne].
  - exists 0%nat, (SamplingClient.set_last_at (hwc_number h) (DaserNetwork.hash_bytes h) db).
    split_and!; [|by rewrite set_last_at_last_at|by apply set_last_at_reports; [apply Hs|]|done|].
    + unfold SamplingClient.sample_block. by rewrite Hnil.
    + intros k Hk _. by apply set_last_at_other.
  - destruct (sample_block_record net h db Hcalm Hs Hne) as (fuel & r & Hr & Hb). exists fuel. eexists.
    split; [exact Hb|]. set (db1 := Reliability.save r (DaserNetwork.hash_bytes h) db).
    assert (Hl1 : kv_get LAST_AT_KEY db1 = None).
    { unfold db1. rewrite save_last_at; [done|]. by rewrite Hhash. }
    split_and!; [by rewrite set_last_at_last_at|by apply set_last_at_reports; [apply Hs|]| |].
    + intros _. exists r. split; [done|]. unfold Confidence.confidence, get_confidence, Reliability.get.
      rewrite set_last_at_other by apply Hhash. unfold db1, Reliability.save, block_confidence.
      rewrite kv_get_set_eq. apply decode_all_encode. destruct Hr as (_ & _ & _ & Hall).
      destruct Hs as (_ & cs & Hcs & [->|(_ & Hlen & _)]); [done|].
      eapply Forall_impl; [exact Hall|]. intros s ([Hx Hy] & _).
      change EXTENDED_SEGMENTS_PER_BLOB with 256 in Hx. split; unfold in_u; lia.
    + intros k Hk Hne'. rewrite set_last_at_other by done. by apply kv_get_set_ne.
Qed.

(** ** The stream *)
Definition headers_of (messages : list ((string + Header) * Net)) : list (Header * Net) :=
  omap (M := list) (fun m => match m.1 with inr h => Some (h, m.2) | inl _ => None end) messages.

Lemma answered_frame net h db db' : kv_get (DaserNetwork.hash_bytes h) db' = kv_get (DaserNetwork.hash_bytes h) db ->
  answered net h db -> answered net h db'.
Proof.
  intros He (r & Hr & Hc). exists r. split; [done|].
  unfold Confidence.confidence, get_confidence, Reliability.get, block_confidence in *. by rewrite He.
Qed.

Lemma light_messages_spec messages : forall (s : Light.t Header DB),
  Channel.receiver (Light.message_tx s) = true ->
  (length (Channel.buffer (Light.message_tx s)) + length (headers_of messages)
     <= Channel.capacity (Light.message_tx s))%nat ->
  Forall (fun m => samplable m.1 /\ calm m.2) (headers_of messages) ->
  NoDup (DaserNetwork.hash_bytes <$> (headers_of messages).*1) ->
  kv_get LAST_AT_KEY (Light.database s) = None ->
  exists fuel s', Light.handle_messages fuel self messages s = Some (Light.Returned, s') /\
    (forall h net, (h, net) ∈ headers_of messages -> hwc_commitments h <> Some [] ->
       answered net h (Light.database s')) /\
    match last (headers_of messages) with
    | Some (h, _) => reports_last h (Light.database s')
    | None => Light.database s' = Light.database s
    end /\
    forall k, length k = 32%nat -> k ∉ DaserNetwork.hash_bytes <$> (headers_of messages).*1 ->
      kv_get k (Light.database s') = kv_get k (Light.database s).
Proof.
  induction messages as [|[[e|h] net] messages IH]; intros s Hr Hroom Hs Hnd Hl.
  - exists 0%nat. eexists. split; [done|]. split_and!; [|done..]. by intros ? ? []%not_elem_of_nil.
  - by apply IH.
  - change (headers_of ((inr h, net) :: messages)) with ((h, net) :: headers_of messages) in *.
    rewrite !fmap_cons in Hnd. apply Forall_cons in Hs as [[Hh Hq] Hs]. apply NoDup_cons in Hnd as [Hnew Hnd].
    cbn [length] in Hroom.
    destruct (sample_block_step net h (Light.database s) Hq Hh Hl) as (f1 & db1 & Hb & Hl1 & Hrep & Hans & Hfr).
    set (ch := Channel.mk (Channel.capacity (Light.message_tx s))
      (Channel.buffer (Light.message_tx s) ++ [h]) true).
    destruct (IH (Light.mk db1 ch (Light.error_sender s))) as (f2 & s' & Hm & Hall & Hlast & Hfr');
      [done| |done|done|done|].
    { simpl. rewrite length_app. simpl. lia. }
    exists (f1 `max` f2)%nat, s'. split; [|split_and!].
    + simpl. unfold Channel.send. rewrite Hr. simpl.
      rewrite (proj2 (Nat.ltb_lt _ _)) by lia. unfold Light.sample_header. simpl.
      rewrite (sample_block_mono _ _ _ _ _ _ _ (Nat.le_max_l f1 f2) Hb). simpl.
      by apply (handle_messages_mono f2); [lia|].
    + intros h' net' [[= -> ->]|Hin]%elem_of_cons Hne; [|by apply Hall].
      apply (answered_frame net h db1); [|by apply Hans]. by apply Hfr'; [apply Hhash|].
    + rewrite last_cons. destruct (last (headers_of messages)) as [[h' net']|]; [done|]. by rewrite Hlast.
    + intros k Hk Hnin. rewrite !fmap_cons, not_elem_of_cons in Hnin. destruct Hnin as [Hne Hnin].
      rewrite (Hfr' k Hk Hnin). by apply Hfr.
Qed.

(** C17: What the light client's RPC answers.  The stream has at most 100 headers with
    different hashes, whatever errors are mixed in; each can be sampled (its commitments
    decode and extend, its lookup entries cover their rows, and the random source yields
    enough different positions) on a network whose answers do not make the check panic; and
    the database has no last header yet.  Then the client
    handles the whole stream.  Every header with commitments has a record of
    [SAMPLES_PER_BLOCK] samples at different positions, each available exactly when verifying
    data was fetched for it: [blockConfidence] is the confidence for the number of available
    samples, and [isAvailable] compares the longest run of them with the threshold.  [last]
    is the last header of the stream.  [blockConfidence] of a block that was neither in the
    stream nor in the database before is [None]. *)
Theorem light_answers messages (db0 : DB) :
  (length (headers_of messages) <= 100)%nat -> Forall (fun m => samplable m.1 /\ calm m.2) (headers_of messages) ->
  NoDup (DaserNetwork.hash_bytes <$> (headers_of messages).*1) -> kv_get LAST_AT_KEY db0 = None ->
  exists fuel s', Light.run fuel self (inr messages) db0 = Some (Light.Returned, s') /\
    let db := Light.database s' in
    (forall h net, (h, net) ∈ headers_of messages -> hwc_commitments h <> Some [] ->
       exists r, records net h r /\
         Confidence.block_confidence (DaserNetwork.hash_bytes h) db
         = Some (calculate_confidence
                   (Z.of_nat (length (filter (fun s => sample_available s = true) (Reliability.samples r))))
                   BLOCK_FAILURE_PROBABILITY) /\
         Confidence.is_available (DaserNetwork.hash_bytes h) db
         = Some (BLOCK_AVAILABILITY_THRESHOLD <=? Z.of_nat (Reliability.success_count r))) /\
    (forall h net, last (headers_of messages) = Some (h, net) ->
       Confidence.last db = Ok (Some (hwc_number h, DaserNetwork.hash_bytes h))) /\
    (forall k, length k = 32%nat -> k ∉ DaserNetwork.hash_bytes <$> (headers_of messages).*1 ->
       kv_get k db0 = None -> Confidence.block_confidence k db = None).
Proof.
  intros Hlen Hs Hnd Hl.
  destruct (light_messages_spec messages (Light.mk db0 (Channel.channel 100) [])) as
    (fuel & s' & Hm & Hall & Hlast & Hfr); [done|done..|].
  exists fuel, s'. split; [exact Hm|]. cbv zeta. split_and!.
  - intros h net Hin Hne. destruct (Hall h net Hin Hne) as (r & Hr & Hc). exists r. split; [done|].
    unfold Confidence.block_confidence, Confidence.is_available. rewrite Hc. simpl.
    destruct Hr as (Hty & Hn & _ & _). unfold Reliability.value, Reliability.is_availability. rewrite Hty, Hn.
    pose proof (length_filter (fun s => sample_available s = true) (Reliability.samples r)) as Hf.
    pose proof (success_count_le r) as Hsc. rewrite Hn in Hf, Hsc.
    change (Z.to_nat SAMPLES_PER_BLOCK) with 8%nat in *. simpl.
    rewrite !wrap_small by (unfold in_u; lia). done.
  - intros h net He. by rewrite He in Hlast.
  - intros k Hk Hnin Hk0. specialize (Hfr k Hk Hnin).
    unfold Confidence.block_confidence, Confidence.confidence, get_confidence, Reliability.get, block_confidence.
    rewrite Hfr. simpl. by rewrite Hk0.
Qed.

Lemma light_messages_stuck messages : forall (s : Light.t Header DB) room,
  Channel.receiver (Light.message_tx s) = true ->
  (length (Channel.buffer (Light.message_tx s)) + room = Channel.capacity (Light.message_tx s))%nat ->
  (room < length (headers_of messages))%nat -> Forall (fun m => samplable m.1 /\ calm m.2) (headers_of messages) ->
  kv_get LAST_AT_KEY (Light.database s) = None ->
  exists fuel s' h net, Light.handle_messages fuel self messages s = Some (Light.Waiting h, s') /\
    headers_of messages !! room = Some (h, net) /\
    forall k, length k = 32%nat -> k ∉ DaserNetwork.hash_bytes <$> (take room (headers_of messages)).*1 ->
      kv_get k (Light.database s') = kv_get k (Light.database s).
Proof.
  induction messages as [|[[e|h] net] messages IH]; intros s room Hr Hroom Hlt Hs Hl.
  - simpl in Hlt. lia.
  - by apply IH.
  - change (headers_of ((inr h, net) :: messages)) with ((h, net) :: headers_of messages) in *.
    apply Forall_cons in Hs as [[Hh Hq] Hs]. cbn [length] in Hlt.
    destruct room as [|room].
    { exists 0%nat, s, h, net. split; [|done]. simpl. unfold Channel.send. rewrite Hr. simpl.
      by rewrite (proj2 (Nat.ltb_ge _ _)) by lia. }
    destruct (sample_block_step net h (Light.database s) Hq Hh Hl) as (f1 & db1 & Hb & Hl1 & _ & _ & Hfr).
    set (ch := Channel.mk (Channel.capacity (Light.message_tx s))
      (Channel.buffer (Light.message_tx s) ++ [h]) true).
    destruct (IH (Light.mk db1 ch (Light.error_sender s)) room) as (f2 & s' & h' & net' & Hm & Hi & Hfr');
      [done| |lia|done|done|].
    { simpl. rewrite length_app. simpl. lia. }
    exists (f1 `max` f2)%nat, s', h', net'. split_and!.
    + simpl. unfold Channel.send. rewrite Hr. simpl.
      rewrite (proj2 (Nat.ltb_lt _ _)) by lia. unfold Light.sample_header. simpl.
      rewrite (sample_block_mono _ _ _ _ _ _ _ (Nat.le_max_l f1 f2) Hb). simpl.
      by apply (handle_messages_mono f2); [lia|].
    + exact Hi.
    + intros k Hk Hnin. rewrite firstn_cons, !fmap_cons, not_elem_of_cons in Hnin.
      destruct Hnin as [Hne Hnin]. rewrite (Hfr' k Hk Hnin). by apply Hfr.
Qed.

(** C33: The light client stops after 100 headers: the header channel created by [run] has
    room for 100 entries and its receiver is never read, so on a longer stream the task
    handles the first 100 headers and then waits in [message_tx.send] for the next one
    forever; no later block is ever sampled, and the RPC keeps answering for it what it
    answered before. *)
Theorem light_stops_after_100 messages (db0 : DB) :
  (100 < length (headers_of messages))%nat -> Forall (fun m => samplable m.1 /\ calm m.2) (headers_of messages) ->
  NoDup (DaserNetwork.hash_bytes <$> (headers_of messages).*1) -> kv_get LAST_AT_KEY db0 = None ->
  exists fuel s' h net, Light.run fuel self (inr messages) db0 = Some (Light.Waiting h, s') /\
    headers_of messages !! 100%nat = Some (h, net) /\
    forall h' net', (h', net') ∈ drop 100 (headers_of messages) ->
      let k := DaserNetwork.hash_bytes h' in
      Confidence.block_confidence k (Light.database s') = Confidence.block_confidence k db0 /\
      Confidence.is_available k (Light.database s') = Confidence.is_available k db0.
Proof.
  intros Hlen Hs Hnd Hl.
  destruct (light_messages_stuck messages (Light.mk db0 (Channel.channel 100) []) 100) as
    (fuel & s' & h & net & Hm & Hi & Hfr); [done..|].
  exists fuel, s', h, net. split_and!; [exact Hm|done|]. intros h' net' Hin k.
  assert (Hk : kv_get k (Light.database s') = kv_get k db0).
  { apply Hfr; [apply Hhash|]. rewrite <- (take_drop 100 (headers_of messages)), !fmap_app in Hnd.
    apply NoDup_app in Hnd as (_ & Hd & _). intros Hk. apply (Hd _ Hk).
    apply list_elem_of_fmap. exists h'. split; [done|]. apply list_elem_of_fmap. by exists (h', net'). }
  unfold Confidence.block_confidence, Confidence.is_available, Confidence.confidence, get_confidence,
    Reliability.get, block_confidence. by rewrite Hk.
Qed.
End light.
