(* ===== verification/LightRuns.v ===== *)
(** * The light client on concrete streams

    On the one-element library and the network of [DaserRuns]: a short stream with an error
    in it, and a stream of 101 headers. *)

From S2P Require Import Prelude Codec DasDb KzgLib KzgIndex KzgToy DasPrimitives Blob.
From S2P Require Import ErasureCoding CorePrimitives Reliability Sidecar DasNetwork DaserNetwork.
From S2P Require Import DaserRows DaserBlock Daser DaserProps DaserRuns RuntimeApi Rpc Light LightProps.

Section runs.
#[local] Existing Instances host64 unit_lib pos_codec data_codec all_net hash_codec
  u_header ref_rng ref_rng_laws ref_permill ref_permill_laws record_codec record_codec_laws number_codec.
#[local] Instance last_eq_dec : EqDecision LastProcessedBlock.
Proof. solve_decision. Defined.
#[local] Instance last_countable : Countable LastProcessedBlock.
Proof.
  apply (inj_countable' (fun b => (block_num b, block_hash b)) (fun '(n, h) => mkLast n h)).
  by intros [].
Defined.
#[local] Instance block_codec : Codec LastProcessedBlock := RefCodec.ref_codec LastProcessedBlock.
#[local] Instance block_codec_laws : CodecLaws LastProcessedBlock :=
  RefCodec.ref_codec_laws LastProcessedBlock _.

Lemma u_calm (net : unit) : calm DaserRuns.u_self net.
Proof. intros key p c. apply DaserRuns.u_harmless. Qed.
Lemma u_responsive (net : unit) : responsive net.
Proof. intros key. discriminate. Qed.

Lemma u_samplable (n : Z) : in_u 32 n -> samplable DaserRuns.u_self n.
Proof.
  intros Hn. split; [exact Hn|]. exists [tt]. split; [reflexivity|]. right.
  split; [reflexivity|]. split; [split; reflexivity|]. split.
  - apply ref_rng_is_fair. apply Nat.ltb_lt. reflexivity.
  - intros y Hy. change (Z.of_nat (length (extended DaserRuns.u_self n)) / 2) with 1 in Hy.
    assert (y = 0) as -> by lia. by eexists.
Qed.

#[local] Definition stream (ns : list Z) : list ((string + Z) * unit) := (fun n => (inr n, tt)) <$> ns.

Lemma light_answers_witness : exists fuel s',
  Light.run fuel DaserRuns.u_self (inr (stream [7] ++ [(inl "lost"%string, tt)] ++ stream [8])) MockDb.new
  = Some (Light.Returned, s') /\
  Confidence.last (Light.database s') = Ok (Some (8, replicate 31 0 ++ [8])) /\
  Confidence.block_confidence (replicate 31 0 ++ [9]) (Light.database s') = None /\
  Confidence.block_confidence (replicate 31 0 ++ [7]) (Light.database s') <> None.
Proof.
  destruct (light_answers DaserRuns.u_self u_responsive u_hash_length
    (stream [7] ++ [(inl "lost"%string, tt)] ++ stream [8]) MockDb.new) as (fuel & s' & Hr & Ha & Hl & Hn).
  - apply Nat.leb_le. reflexivity.
  - repeat constructor; (apply u_calm || (apply u_samplable; split; (discriminate || reflexivity))).
  - by_decision.
  - reflexivity.
  - exists fuel, s'. split; [exact Hr|]. split; [exact (Hl 8 tt eq_refl)|]. split.
    + apply Hn; [reflexivity| |reflexivity]. by_decision.
    + destruct (Ha 7 tt) as (r & _ & Hc & _); [left|discriminate|].
      change (DaserNetwork.hash_bytes 7) with (replicate 31 0 ++ [7]) in Hc. rewrite Hc. discriminate.
Defined.

#[local] Definition long : list Z := Z.of_nat <$> seq 1 101.

Lemma light_stops_after_100_witness : exists fuel s',
  Light.run fuel DaserRuns.u_self (inr (stream long)) MockDb.new = Some (Light.Waiting 101, s') /\
  Confidence.block_confidence (replicate 31 0 ++ [101]) (Light.database s') = None.
Proof.
  destruct (light_stops_after_100 DaserRuns.u_self u_responsive u_hash_length (stream long) MockDb.new)
    as (fuel & s' & h & net & Hr & Hi & Hn).
  - apply Nat.ltb_lt. reflexivity.
  - apply Forall_forall. change (headers_of (stream long)) with ((fun n => (n, tt)) <$> long).
    intros m (n & -> & (i & -> & Hi)%list_elem_of_fmap)%list_elem_of_fmap. split; [|apply u_calm].
    apply elem_of_seq in Hi. apply u_samplable. unfold in_u. cbn [fst]. lia.
  - by_decision.
  - reflexivity.
  - assert (h = 101) as -> by (by vm_compute in Hi; injection Hi).
    exists fuel, s'. split; [exact Hr|].
    destruct (Hn 101 tt) as [Hb _]; [|exact Hb]. change (drop 100 _) with [(101, tt)]. left.
Defined.
End runs.
