(* ===== verification/Meloxt.v ===== *)
(** * The chain client library ([crates/meloxt/src])

    Conversions of the program's types into the types generated from the runtime's metadata,
    in which commitments, proofs and scalars are byte arrays, and the reading of a nonce
    from the runtime's storage. *)

From S2P Require Import Prelude Codec Hex DasDb KzgLib KzgIndex KzgToy DasPrimitives Blob.
From S2P Require Import ErasureCoding CorePrimitives Reliability Sidecar PosUtils ProofOfSpace.

(** ** Generated runtime types *)
Record RtSegmentData := mkRtData { rt_data : list bytes; rt_proof : bytes }.
Record RtSegment := mkRtSegment { rt_position : Position; rt_content : RtSegmentData }.
Record RtCell := mkRtCell { rt_cell_metadata : CellMetadata.t; rt_cell_seg : RtSegment }.
Record RtPreCell := mkRtPreCell { rt_pre_position : PiecePosition.t; rt_pre_seg : RtSegment }.
Record RtSidecarMetadata := mkRtSidecar {
  rt_commitments : list bytes;
  rt_proofs : list bytes;
  rt_app_id : Z;
  rt_nonce : Z;
  rt_bytes_len : Z
}.

Section helper.
Context `{KzgLib}.

Definition commitments_to_runtime (commitments : list KZGCommitment) : list bytes :=
  g1_to_bytes <$> commitments.
Definition proofs_to_runtime (proofs : list KZGProof) : list bytes := g1_to_bytes <$> proofs.
Definition bls_scalars_to_runtime (scalars : list BlsScalar) : list bytes := fr_to_bytes <$> scalars.

Definition sidecar_metadata_to_runtime (metadata : SidecarMetadata.t) : RtSidecarMetadata :=
  mkRtSidecar (commitments_to_runtime (SidecarMetadata.commitments metadata))
    (proofs_to_runtime (SidecarMetadata.proofs metadata))
    (SidecarMetadata.app_id metadata) (SidecarMetadata.nonce metadata)
    (SidecarMetadata.bytes_len metadata).

Definition piece_position_to_runtime (pos : PiecePosition.t) : PiecePosition.t :=
  match pos with
  | PiecePosition.Row row => PiecePosition.Row row
  | PiecePosition.Column column => PiecePosition.Column column
  end.

Definition piece_metadata_to_runtime (pos : PiecePosition.t) (block_num : Z) : PieceMetadata.t :=
  PieceMetadata.mk block_num (piece_position_to_runtime pos).

Definition segment_to_runtime (segment : Segment.t) : RtSegment :=
  mkRtSegment
    (Crypto.mkPosition (Crypto.x (Segment.position segment)) (Crypto.y (Segment.position segment)))
    (mkRtData (bls_scalars_to_runtime (Segment.data (Segment.content segment)))
       (g1_to_bytes (Segment.proof (Segment.content segment)))).

(** The source repeats the conversion of the segment in both functions. *)
Definition pre_cell_to_runtime (pre_cell : PreCell) : RtPreCell :=
  mkRtPreCell (piece_position_to_runtime (pre_position pre_cell)) (segment_to_runtime (pre_seg pre_cell)).

Definition cell_to_runtime (cell : Cell) : RtCell :=
  let piece := CellMetadata.piece_metadata (cell_metadata cell) in
  mkRtCell
    (CellMetadata.mk
       (piece_metadata_to_runtime (PieceMetadata.pos piece) (PieceMetadata.block_num piece))
       (CellMetadata.offset (cell_metadata cell)))
    (segment_to_runtime (cell_seg cell)).

(** ** [ClientSync::nonce]: [storage] answers the query for the key of the map entry *)
Definition nonce `{Codec Z} (storage_key : Z -> res string bytes)
    (storage : bytes -> res string (option bytes)) (app_id : Z) : res string Z :=
  address ← storage_key app_id;
  maybe_nonce_data ← storage address;
  match maybe_nonce_data with
  | None => Ok 0
  | Some nonce_data => ok_or (decode_all nonce_data) "decode"%string
  end.

(** ** [ClientSync::create_params]: data and signed extrinsic as hexadecimal strings *)
Definition to_hex_string (bs : bytes) : string := String.append "0x" (hex_encode bs).

(** [create_signed] and [encoded] are the signing of the client library. *)
Definition create_params (create_signed : RtSidecarMetadata -> res string bytes) (bs : bytes)
    (metadata : SidecarMetadata.t) : res string (string * string) :=
  let submit_data_tx := sidecar_metadata_to_runtime metadata in
  extrinsic ← create_signed submit_data_tx;
  Ok (to_hex_string bs, to_hex_string extrinsic).

(** Metadata of random bytes: a failure panics. *)
Definition sidecar_metadata `{Platform} `{EmbeddedSettings} (random : list Z) (bytes_len app_id nonce : Z)
    : res string (SidecarMetadata.t * bytes) :=
  let bs := take (Z.to_nat bytes_len) random in
  m ← unwrap (match SidecarMetadata.try_from_app_data bs app_id nonce with Ok m => Some m | _ => None end);
  Ok (m, bs).
Definition sidecar_metadata_runtime `{Platform} `{EmbeddedSettings} (random : list Z) (bytes_len app_id nonce : Z)
    : res string (RtSidecarMetadata * bytes) :=
  '(metadata, bs) ← sidecar_metadata random bytes_len app_id nonce;
  Ok (sidecar_metadata_to_runtime metadata, bs).

(** Nothing is lost on the way to the runtime. *)
Section injective.
Context `{!G1BytesLaws} `{!FrBytesLaws}.

#[export] Instance g1_to_bytes_inj : Inj (=) (=) g1_to_bytes.
Proof. intros a b Hab%(f_equal g1_from_bytes). rewrite !g1_from_to_bytes in Hab. congruence. Qed.
#[export] Instance fr_to_bytes_inj : Inj (=) (=) fr_to_bytes.
Proof. intros a b Hab%(f_equal fr_from_bytes). rewrite !fr_from_to_bytes in Hab. congruence. Qed.

#[export] Instance segment_to_runtime_inj : Inj (=) (=) segment_to_runtime.
Proof.
  intros [[x y] [d p]] [[x' y'] [d' p']]. unfold segment_to_runtime, bls_scalars_to_runtime. simpl.
  intros [= -> -> Hd Hp]. apply (inj g1_to_bytes) in Hp as ->.
  by apply (inj (fmap fr_to_bytes)) in Hd as ->.
Qed.

#[export] Instance pre_cell_to_runtime_inj : Inj (=) (=) pre_cell_to_runtime.
Proof.
  intros [s p] [s' p']. unfold pre_cell_to_runtime. simpl. intros Heq.
  pose proof (f_equal rt_pre_position Heq) as Hp. pose proof (f_equal rt_pre_seg Heq) as Hs.
  simpl in Hp, Hs. apply (inj segment_to_runtime) in Hs as ->.
  by destruct p, p'; simplify_eq/=.
Qed.

#[export] Instance cell_to_runtime_inj : Inj (=) (=) cell_to_runtime.
Proof.
  intros [[[b p] o] s] [[[b' p'] o'] s']. unfold cell_to_runtime. simpl. intros Heq.
  pose proof (f_equal rt_cell_metadata Heq) as Hm. pose proof (f_equal rt_cell_seg Heq) as Hs.
  simpl in Hm, Hs. apply (inj segment_to_runtime) in Hs as ->.
  by destruct p, p'; simplify_eq/=.
Qed.
End injective.
End helper.
