(* ===== verification/ClientFlow.v ===== *)
(** * The client library and the chain

    What the strings of [create_params] carry, and what happens to a client that numbers its
    submissions with [nonce]. *)

From S2P Require Import Prelude Codec Hex DasDb KzgLib KzgIndex KzgToy DasPrimitives Blob.
From S2P Require Import ErasureCoding CorePrimitives Reliability Sidecar PosUtils ProofOfSpace.
From S2P Require Import MeloStore MeloStoreProps MeloStoreFacts Meloxt RuntimeConfig ChainSpec.

(** ** Parameters of a submission

    Both strings of [create_params] carry what they were made of, behind the prefix. *)
Lemma create_params_carry `{KzgLib} create_signed bs m s x :
  is_bytes bs -> (forall r e, create_signed r = Ok e -> is_bytes e) ->
  create_params create_signed bs m = Ok (s, x) ->
  exists e, create_signed (sidecar_metadata_to_runtime m) = Ok e /\
    s = to_hex_string bs /\ x = to_hex_string e /\
    hex (hex_encode bs) = bs /\ hex (hex_encode e) = e.
Proof.
  intros Hb He. unfold create_params. intros (e & Hc & [= <- <-])%res_bind_Ok.
  exists e. split_and!; [done..|by apply hex_roundtrip|]. apply hex_roundtrip. by eapply He.
Qed.

(** ** Numbering submissions *)
Section numbering.
Context `{Platform} `{KzgLib} `{MeloConfig} `{PermillLib} `{Codec Z} `{!CodecLaws Z (H := in_u 32)}.

(** The node answers with the pallet's map. *)
Definition serves (storage_key : Z -> res string bytes) (storage : bytes -> res string (option bytes))
    (s : Storage) : Prop :=
  forall a, exists addr, storage_key a = Ok addr /\ storage addr = Ok (scale_encode <$> Nonces s !! a).

(** The next nonce by the client library is refused for every application but the latest
    one, unless both happen to have sent as many submissions. *)
Theorem client_nonce_refused storage_key storage s who p n :
  serves storage_key storage s -> (forall a v, Nonces s !! a = Some v -> in_u 32 v) ->
  Meloxt.nonce storage_key storage (SidecarMetadata.app_id p) = Ok n ->
  SidecarMetadata.nonce p = n + 1 -> n + 1 < 2 ^ 32 ->
  get_Nonces (AppId s) s + 1 < 2 ^ 32 ->
  n = get_Nonces (SidecarMetadata.app_id p) s /\
  (n <> get_Nonces (AppId s) s -> forall o s', dispatch (CallSubmitData p) (Signed who) s = (o, s') ->
     o <> Ok tt /\ s' = s).
Proof.
  intros Hsv Hwf Hn Hp Hu Hlat. destruct (Hsv (SidecarMetadata.app_id p)) as (addr & Hk & Hst).
  unfold Meloxt.nonce in Hn. rewrite Hk in Hn. simpl in Hn. rewrite Hst in Hn. simpl in Hn.
  assert (Hg : n = get_Nonces (SidecarMetadata.app_id p) s).
  { unfold get_Nonces. destruct (Nonces s !! SidecarMetadata.app_id p) as [v|] eqn:Hv; simpl in Hn; [|by injection Hn].
    rewrite decode_all_encode in Hn by (by eapply Hwf). by injection Hn. }
  split; [exact Hg|]. intros Hne o s'. unfold dispatch, transactional.
  destruct (submit_data (Signed who) p s) as [[u|e|] s1] eqn:Hs; [|by intros [= <- <-]..].
  apply submit_data_Ok_inv in Hs as (_ & _ & _ & _ & _ & _ & _ & Hnn & _). lia.
Qed.
End numbering.
