(* ===== verification/Farmer.v ===== *)
(** * The farmer ([farmer/src/event_handler.rs])

    On every best block the farmer selects rows and columns of the extended matrix, fetches
    them, keeps the segments that qualify as pre-cells, saves what it fetched as pieces and
    claims every solution it finds.  The loop has the shape of the light client's: the
    subscription is the list of its messages with the state of the network at the time. *)

From S2P Require Import Prelude Codec DasDb KzgLib KzgIndex KzgToy DasPrimitives Blob.
From S2P Require Import ErasureCoding CorePrimitives Reliability Sidecar DasNetwork DaserNetwork.
From S2P Require Import Daser PosUtils ProofOfSpace Light Meloxt.

Module Farmer.
Section farmer.
Context `{Platform} `{KzgLib} `{HashLib} `{ScaleInts} `{BitVecLib}.
Context `{Codec Position} `{Codec Segment.SegmentData} `{Codec YPos.t} `{Codec PieceMetadata.t}.
Context `{Codec Piece.t} `{Codec Segment.t} `{Codec (list CellMetadata.t)}.
Context `{Codec (list (CellMetadata.t * CellMetadata.t))}.
Context {Net : Type} `{!Requests Net}.
Context {Hash Header : Type} `{Codec Hash} `{!HeaderWithCommitment Z Hash Header}.
Context {DB : Type} `{!DasKv DB}.

Definition process_segment_data (farmer_id : FarmerId.t) (position_fn : Position -> PiecePosition.t)
    (pre_cells : list PreCell) (segment : option Segment.t) : list PreCell :=
  match segment with
  | Some seg =>
      if Solution.check_pre_cell seg farmer_id PRE_CELL_LEADING_ZEROS
      then pre_cells ++ [pre_cell_new (position_fn (Segment.position seg)) seg]
      else pre_cells
  | None => pre_cells
  end.

(** The piece made of a chunk, if the chunk has a segment. *)
Definition piece_of_chunk (block_number : Z) (piece_position_fn : Position -> PiecePosition.t)
    (chunk : list (option Segment.t)) : option Piece.t :=
  let segment_vec := omap (M := list) id chunk in
  match segment_vec with
  | first_segment :: _ =>
      Some (Piece.new block_number (piece_position_fn (Segment.position first_segment)) segment_vec)
  | [] => None
  end.

(** [for_each] over the chunks; an error of [save] is logged. *)
Fixpoint process_chunks (block_number : Z) (farmer_id : FarmerId.t)
    (piece_position_fn : Position -> PiecePosition.t) (chunks : list (list (option Segment.t)))
    : stM string DB unit := fun db =>
  match chunks with
  | [] => (Ok tt, db)
  | chunk :: chunks =>
      match piece_of_chunk block_number piece_position_fn chunk with
      | None => process_chunks block_number farmer_id piece_position_fn chunks db
      | Some piece =>
          match Piece.save piece farmer_id db with
          | (Panic, db) => (Panic, db)
          | (_, db) => process_chunks block_number farmer_id piece_position_fn chunks db
          end
      end
  end.
Definition process_segments (segments : list (option Segment.t)) (block_number : Z)
    (farmer_id : FarmerId.t) (piece_position_fn : Position -> PiecePosition.t) : stM string DB unit :=
  process_chunks block_number farmer_id piece_position_fn
    (chunks (Z.to_nat EXTENDED_SEGMENTS_PER_BLOB) segments).

(** The solutions of all pre-cells; an error is logged. *)
Fixpoint all_solutions (db : DB) (farmer_id : FarmerId.t) (block_hash : bytes)
    (pre_cells : list PreCell) : res string (list Solution.t) :=
  match pre_cells with
  | [] => Ok []
  | pre_cell :: pre_cells =>
      match Solution.find_solutions db farmer_id pre_cell block_hash with
      | Panic => Panic
      | found =>
          rest ← all_solutions db farmer_id block_hash pre_cells;
          Ok (match found with Ok ss => ss | _ => [] end ++ rest)
      end
  end.

(** The transaction [farmers_fortune::claim]. *)
Record Claim := mkClaim {
  claim_pre_cell : RtPreCell;
  claim_win_cell_left : RtCell;
  claim_win_cell_right : RtCell
}.
Definition claim_of (solution : Solution.t) : Claim :=
  mkClaim (pre_cell_to_runtime (Solution.pre_cell solution))
    (cell_to_runtime (Solution.win_cell_left solution))
    (cell_to_runtime (Solution.win_cell_right solution)).

(** [header.hash()] as bytes. *)
Definition block_hash (header : Header) : bytes := DaserNetwork.hash_bytes header.

(** [tokio::try_join!] of the two fetches, for the selected rows and columns. *)
Definition fetch (network : DaserNetwork.t) (farmer_id : FarmerId.t) (header : Header) (rows_count : Z)
    (net : Net) : res string (list (option Segment.t) * list (option Segment.t)) :=
  row_inds ← Solution.select_indices farmer_id (block_hash header)
               (Z.to_nat (wrap 32 (rows_count * 2))) 1;
  col_inds ← Solution.select_indices farmer_id (block_hash header)
               (Z.to_nat EXTENDED_SEGMENTS_PER_BLOB) 1;
  '(rows, _) ← SamplingClient.fetch_rows network header row_inds net;
  '(cols, _, _) ← SamplingClient.fetch_cols network header col_inds net;
  Ok (rows, cols).

(** A query of the database. *)
Definition reads {A} (f : DB -> res string A) : stM string DB A := fun db => (f db, db).

(** A block with data after the header was sent on the channel: the claims submitted. *)
Definition handle_block (network : DaserNetwork.t) (farmer_id : FarmerId.t) (header : Header)
    (rows_count : Z) (net : Net) (db : DB) : res string (list Claim) * DB :=
  match fetch network farmer_id header rows_count net with
  | Panic => (Panic, db)
  | Err _ => (Ok [], db)
  | Ok (rows, cols) =>
      let pre_cells := fold_left (process_segment_data farmer_id PiecePosition.from_row) rows [] in
      let pre_cells := fold_left (process_segment_data farmer_id PiecePosition.from_column) cols pre_cells in
      (_ ← process_segments rows (hwc_number header) farmer_id PiecePosition.from_row;
       _ ← process_segments cols (hwc_number header) farmer_id PiecePosition.from_column;
       solutions ← reads (fun db => all_solutions db farmer_id (block_hash header) pre_cells);
       mret (claim_of <$> solutions)) db
  end.

(** ** The loop *)
Record t := mk {
  database : DB;
  message_tx : Channel.t Header;
  error_sender : list string;
  submitted : list Claim
}.
Inductive Ended := Returned | Waiting (header : Header) | Panicked.

Fixpoint handle_messages (network : DaserNetwork.t) (farmer_id : FarmerId.t)
    (messages : list ((string + Header) * Net)) (s : t) : Ended * t :=
  match messages with
  | [] =>
      (Returned, mk (database s) (message_tx s)
         (error_sender s ++ ["Best blocks subscription disconnected"%string]) (submitted s))
  | (inl _, _) :: messages => handle_messages network farmer_id messages s
  | (inr header, net) :: messages =>
      let rows_count := default 0 (hwc_col_num header) in
      if rows_count =? 0 then handle_messages network farmer_id messages s
      else
        match Channel.send header (message_tx s) with
        | Channel.Waits => (Waiting header, s)
        | sent =>
            let ch := match sent with Channel.Sent ch => ch | _ => message_tx s end in
            match handle_block network farmer_id header rows_count net (database s) with
            | (Ok claims, db) =>
                handle_messages network farmer_id messages
                  (mk db ch (error_sender s) (submitted s ++ claims))
            | (_, db) => (Panicked, mk db ch (error_sender s) (submitted s))
            end
        end
  end.

(** [main.rs]: [account] is the encoding of the signer's account. *)
Definition run (network : DaserNetwork.t) (account : bytes)
    (subscription : string + list ((string + Header) * Net)) (database : DB) : Ended * t :=
  let s := mk database (Channel.channel 100) [] [] in
  match subscription with
  | inl _ => (Returned, s)
  | inr messages => handle_messages network (FarmerId.new account) messages s
  end.
End farmer.
Arguments t : clear implicits.
End Farmer.
