(* ===== verification/FarmerProps.v ===== *)
(** * Properties of the farmer

    What a farmer that follows the best blocks has stored and claimed, as long as its pieces
    have different positions; and why the pieces of one block in general do not. *)

From S2P Require Import Prelude Codec DasDb KzgLib KzgIndex KzgToy DasPrimitives Blob.
From S2P Require Import ErasureCoding CorePrimitives Reliability Sidecar DasNetwork DaserNetwork.
From S2P Require Import Daser PosUtils ProofOfSpace PosIndex PosProps Light Meloxt Farmer.

Section farmer.
Context `{Platform} `{KzgLib} `{!FrBytesLaws} `{HashLib} `{!HashLaws} `{ScaleInts} `{!ScaleIntsLaws}.
Context `{BitVecLib} `{Codec Position} `{Codec Segment.SegmentData}.
Context `{Codec YPos.t} `{!CodecLaws YPos.t} `{Codec PiecePosition.t}
  `{Codec PieceMetadata.t} `{!CodecLaws PieceMetadata.t} `{!PieceKeyLayout}
  `{Codec Piece.t} `{!CodecLaws Piece.t} `{Codec Segment.t}
  `{Codec (list CellMetadata.t)} `{!CodecLaws (list CellMetadata.t)}
  `{Codec (list (CellMetadata.t * CellMetadata.t))}
  `{!CodecLaws (list (CellMetadata.t * CellMetadata.t))}.
Context {Net : Type} `{!Requests Net}.
Context {Hash Header : Type} `{Codec Hash} `{!HeaderWithCommitment Z Hash Header}.
Context {DB : Type} `{!DasKv DB} `{!DasKvLaws DB}.
Context (network : DaserNetwork.t) (farmer_id : FarmerId.t).
Context (Hfarmer : length (FarmerId.inner farmer_id) = 32%nat).
(** Block hashes are bytes. *)
Context (Hhash : forall h : Header, is_bytes (Farmer.block_hash h)).
Implicit Types (header : Header) (net : Net) (db : DB) (ps : list Piece.t).

Abbreviation message := ((string + Header) * Net)%type.
Implicit Types messages : list message.

(** ** What a block yields *)
Definition fetched_of header net : list (option Segment.t) * list (option Segment.t) :=
  match Farmer.fetch network farmer_id header (default 0 (hwc_col_num header)) net with
  | Ok out => out
  | _ => ([], [])
  end.
Definition pieces_of (block_number : Z) (fn : Position -> PiecePosition.t)
    (segments : list (option Segment.t)) : list Piece.t :=
  omap (M := list) (Farmer.piece_of_chunk block_number fn)
    (chunks (Z.to_nat EXTENDED_SEGMENTS_PER_BLOB) segments).
Definition block_pieces header net : list Piece.t :=
  let '(rows, cols) := fetched_of header net in
  pieces_of (hwc_number header) PiecePosition.from_row rows
  ++ pieces_of (hwc_number header) PiecePosition.from_column cols.
Definition pre_cells_in (fn : Position -> PiecePosition.t) (segments : list (option Segment.t))
    (pc : PreCell) : Prop :=
  exists seg, Some seg ∈ segments /\
    Solution.check_pre_cell seg farmer_id PRE_CELL_LEADING_ZEROS = true /\
    pc = mkPreCell seg (fn (Segment.position seg)).
Definition block_pre_cell header net (pc : PreCell) : Prop :=
  let '(rows, cols) := fetched_of header net in
  pre_cells_in PiecePosition.from_row rows pc \/ pre_cells_in PiecePosition.from_column cols pc.

Definition has_data header : bool := negb (default 0 (hwc_col_num header) =? 0).
Definition message_pieces (m : message) : list Piece.t :=
  match m with
  | (inr header, net) => if has_data header then block_pieces header net else []
  | (inl _, _) => []
  end.
Definition carries_data (m : message) : bool :=
  match m with (inr header, _) => has_data header | (inl _, _) => false end.
Definition data_headers messages : nat := length (filter (fun m => carries_data m = true) messages).
Definition stored_pieces messages : list Piece.t := messages ≫= message_pieces.

(** A claim for [header] by a farmer that has seen [messages]: a pre-cell of the block and a
    pair of neighbouring stored cells with the same Y value whose Z value is the challenge. *)
Definition claimed messages header net (c : Farmer.Claim) : Prop :=
  exists pc j k a b, block_pre_cell header net pc /\ (j < k)%nat /\
    (stored_pieces messages ≫= cells_of) !! j = Some b /\
    (stored_pieces messages ≫= cells_of) !! k = Some a /\
    matched farmer_id a b /\ pair_z a b = ZValueManager.get_challenge (Farmer.block_hash header) /\
    c = Farmer.mkClaim (pre_cell_to_runtime pc) (cell_to_runtime (mkCell a.1 a.2))
          (cell_to_runtime (mkCell b.1 b.2)).

(** ** One block *)
Lemma process_chunks_save_all bn fn cs : forall db db',
  save_all farmer_id (omap (M := list) (Farmer.piece_of_chunk bn fn) cs) db = (Ok tt, db') ->
  Farmer.process_chunks bn farmer_id fn cs db = (Ok tt, db').
Proof.
  induction cs as [|chunk cs IH]; intros db db'; [done|]. cbn [omap list_omap Farmer.process_chunks].
  destruct (Farmer.piece_of_chunk bn fn chunk) as [piece|]; [|apply IH]. cbn [save_all].
  intros ([] & db1 & Hs & Ha)%stM_bind_Ok. rewrite Hs. by apply IH.
Qed.

Lemma pre_cells_fold fn segments acc pc :
  pc ∈ fold_left (Farmer.process_segment_data farmer_id fn) segments acc <->
  pc ∈ acc \/ pre_cells_in fn segments pc.
Proof.
  revert acc. induction segments as [|seg segments IH]; intros acc; simpl.
  - split; [by left|]. intros [?|(seg & []%not_elem_of_nil & _)]; done.
  - rewrite IH. unfold pre_cells_in. destruct seg as [seg|]; simpl.
    + destruct (Solution.check_pre_cell seg farmer_id PRE_CELL_LEADING_ZEROS) eqn:Hc.
      * rewrite elem_of_app, list_elem_of_singleton. unfold pre_cell_new.
        setoid_rewrite elem_of_cons. split.
        -- intros [[?| ->]|(s & ? & ?)]; [by left|right; exists seg; naive_solver|right; naive_solver].
        -- intros [?|(s & [[= ->]|?] & ? & ->)]; [by left; left|by left; right|right; naive_solver].
      * setoid_rewrite elem_of_cons. split; [naive_solver|].
        intros [?|(s & [[= ->]|?] & ? & ->)]; [by left|congruence|right; naive_solver].
    + setoid_rewrite elem_of_cons. naive_solver.
Qed.

Lemma challenge_bound header : in_u 16 (ZValueManager.get_challenge (Farmer.block_hash header)).
Proof. apply hash_to_u16_xor_bound, Hhash. Qed.

Lemma all_solutions_spec blocks ps db h pcs : Forall (piece_ok farmer_id blocks) ps ->
  in_u 16 (ZValueManager.get_challenge h) ->
  indexed farmer_id blocks ps (ps ≫= cells_of) (recorded farmer_id (ps ≫= cells_of)) db ->
  exists sols, Farmer.all_solutions db farmer_id h pcs = Ok sols /\
    forall s, s ∈ sols <-> exists pc j k a b, pc ∈ pcs /\ (j < k)%nat /\
      (ps ≫= cells_of) !! j = Some b /\ (ps ≫= cells_of) !! k = Some a /\
      matched farmer_id a b /\ pair_z a b = ZValueManager.get_challenge h /\
      s = Solution.mk h farmer_id pc (mkCell a.1 a.2) (mkCell b.1 b.2).
Proof.
  intros Hok Hz Hix. induction pcs as [|pc pcs (sols & IH & Hin)]; simpl.
  - exists []. split; [done|]. intros s. split; [set_solver|]. intros (? & ? & ? & ? & ? & []%not_elem_of_nil & _).
  - destruct (find_solutions_indexed farmer_id Hfarmer blocks ps db pc h _ Hok Hz Hix) as (ss & Hss & Hin1).
    unfold Solution.find_solutions. rewrite Hss, IH. bind_simpl. eexists. split; [done|].
    intros s. rewrite elem_of_app, Hin1, Hin. setoid_rewrite elem_of_cons. split.
    + intros [(j & k & a & b & ?)|(pc' & j & k & a & b & ? & ?)]; [exists pc|exists pc']; exists j, k, a, b; naive_solver.
    + intros (pc' & j & k & a & b & [->|Hpc] & Hr); [left|right]; [by exists j, k, a, b|]. by exists pc', j, k, a, b.
Qed.

Lemma save_all_app ps ps' db db' : save_all farmer_id (ps ++ ps') db = (Ok tt, db') ->
  exists db1, save_all farmer_id ps db = (Ok tt, db1) /\ save_all farmer_id ps' db1 = (Ok tt, db').
Proof.
  revert db. induction ps as [|p ps IH]; intros db; [by eexists|]. cbn [app save_all].
  intros ([] & db1 & Hp & Ha)%stM_bind_Ok. apply IH in Ha as (db2 & Ha & Hb). exists db2.
  split; [|done]. apply stM_bind_Ok. by exists tt, db1.
Qed.

(** Handling a block saves its pieces and claims what [claimed] says. *)
Lemma handle_block_spec blocks messages header net db :
  let m := (inr header, net) in
  has_data header = true ->
  Farmer.fetch network farmer_id header (default 0 (hwc_col_num header)) net <> Panic ->
  Forall (piece_ok farmer_id blocks) (stored_pieces (messages ++ [m])) ->
  NoDup (Piece.metadata <$> stored_pieces (messages ++ [m])) ->
  let ps := stored_pieces messages in let ps' := stored_pieces (messages ++ [m]) in
  indexed farmer_id blocks ps (ps ≫= cells_of) (recorded farmer_id (ps ≫= cells_of)) db ->
  exists claims db',
    Farmer.handle_block network farmer_id header (default 0 (hwc_col_num header)) net db = (Ok claims, db') /\
    indexed farmer_id blocks ps' (ps' ≫= cells_of) (recorded farmer_id (ps' ≫= cells_of)) db' /\
    forall c, c ∈ claims <-> claimed (messages ++ [m]) header net c.
Proof.
  intros m Hd Hnp Hok Hnd ps ps' Hix.
  assert (Hps' : ps' = ps ++ block_pieces header net).
  { unfold ps', ps, stored_pieces. rewrite bind_app. cbn [mbind list_bind]. rewrite app_nil_r. cbn. by rewrite Hd. }
  fold ps' in Hok, Hnd. rewrite Hps' in Hok, Hnd |- *. apply Forall_app in Hok as Hok'.
  destruct Hok' as [Hok1 Hok2].
  assert (Hst : stored ps (ps ≫= cells_of)).
  { apply Forall_forall. intros c (p & Hc & Hp)%list_elem_of_bind. by exists p. }
  destruct (save_all_spec farmer_id Hfarmer blocks (block_pieces header net) ps _ db Hix Hok1 Hst Hok2 Hnd)
    as (db' & Hsave & Hix'). rewrite <- bind_app in Hix'.
  unfold Farmer.handle_block, claimed. fold ps'. rewrite Hps'.
  unfold block_pieces, block_pre_cell, fetched_of in *.
  destruct (Farmer.fetch _ _ _ _ _) as [[rows cols]|e|]; [| |done].
  - apply save_all_app in Hsave as (db1 & Hrows%process_chunks_save_all & Hcols%process_chunks_save_all).
    set (pcs := fold_left (Farmer.process_segment_data farmer_id PiecePosition.from_column) cols
      (fold_left (Farmer.process_segment_data farmer_id PiecePosition.from_row) rows [])).
    destruct (all_solutions_spec blocks _ db' (Farmer.block_hash header) pcs Hok (challenge_bound header) Hix')
      as (sols & Hsols & Hin).
    exists (Farmer.claim_of <$> sols), db'. split; [|split; [done|]].
    + unfold mbind, stM_bind, Farmer.process_segments, Farmer.reads. rewrite Hrows, Hcols. fold pcs.
      by rewrite Hsols.
    + intros c. rewrite list_elem_of_fmap. setoid_rewrite Hin.
      assert (Hpcs : forall pc, pc ∈ pcs <-> pre_cells_in PiecePosition.from_row rows pc \/
          pre_cells_in PiecePosition.from_column cols pc).
      { intros pc. unfold pcs. rewrite !pre_cells_fold. set_solver. }
      split.
      * intros (s & -> & pc & j & k & a & b & Hpc%Hpcs & ? & ? & ? & ? & ? & ->). by exists pc, j, k, a, b.
      * intros (pc & j & k & a & b & Hpc%Hpcs & ? & ? & ? & ? & ? & ->). eexists.
        split; [|by exists pc, j, k, a, b]. done.
  - simpl in *. injection Hsave as <-. exists [], db. rewrite app_nil_r in *. split_and!; [done|done|].
    intros c. split; [set_solver|]. by intros (pc & ? & ? & ? & ? & [(? & []%not_elem_of_nil & _)|(? & []%not_elem_of_nil & _)] & _).
Qed.

(** ** The stream *)
Lemma claims_cons c past (m : message) post :
  (exists post1 header net post2, m :: post = post1 ++ (inr header, net) :: post2 /\
     has_data header = true /\ claimed (past ++ post1 ++ [(inr header, net)]) header net c) <->
  match m with
  | (inr header, net) => has_data header = true /\ claimed (past ++ [m]) header net c
  | (inl _, _) => False
  end \/
  exists post1 header net post2, post = post1 ++ (inr header, net) :: post2 /\
     has_data header = true /\ claimed ((past ++ [m]) ++ post1 ++ [(inr header, net)]) header net c.
Proof.
  split.
  - intros ([|m' post1] & header & net & post2 & Heq & Hd & Hc); simplify_eq/=; [by left|right].
    exists post1, header, net, post2. by rewrite <- app_assoc.
  - intros [Hm|(post1 & header & net & post2 & -> & Hd & Hc)].
    + destruct m as [[e|header] net]; [done|]. destruct Hm as [Hd Hc]. by exists [], header, net, post.
    + exists (m :: post1), header, net, post2. split_and!; [done|done|]. by rewrite <- app_assoc in Hc.
Qed.

Lemma farmer_messages_spec blocks post : forall past (s : Farmer.t Header DB),
  Channel.receiver (Farmer.message_tx s) = true ->
  (length (Channel.buffer (Farmer.message_tx s)) + data_headers post
     <= Channel.capacity (Farmer.message_tx s))%nat ->
  (forall header net, (inr header, net) ∈ post ->
     Farmer.fetch network farmer_id header (default 0 (hwc_col_num header)) net <> Panic) ->
  Forall (piece_ok farmer_id blocks) (stored_pieces (past ++ post)) ->
  NoDup (Piece.metadata <$> stored_pieces (past ++ post)) ->
  let ps := stored_pieces past in
  indexed farmer_id blocks ps (ps ≫= cells_of) (recorded farmer_id (ps ≫= cells_of)) (Farmer.database s) ->
  exists s', Farmer.handle_messages network farmer_id post s = (Farmer.Returned, s') /\
    forall c, c ∈ Farmer.submitted s' <-> c ∈ Farmer.submitted s \/
      exists post1 header net post2, post = post1 ++ (inr header, net) :: post2 /\
        has_data header = true /\ claimed (past ++ post1 ++ [(inr header, net)]) header net c.
Proof.
  induction post as [|m post IH]; intros past s Hr Hroom Hnp Hok Hnd ps Hix.
  { eexists. split; [done|]. intros c. split; [by left|]. intros [?|(? & ? & ? & ? & Hn & _)]; [done|].
    by destruct (app_cons_not_nil _ _ _ Hn). }
  assert (Hcut : past ++ m :: post = (past ++ [m]) ++ post) by (by rewrite <- app_assoc).
  assert (Hskip : carries_data m = false -> stored_pieces (past ++ [m]) = ps).
  { intros Hc. unfold ps, stored_pieces. rewrite bind_app. destruct m as [[e|h] net]; simpl in *;
      [|rewrite Hc]; by rewrite app_nil_r. }
  rewrite Hcut in Hok, Hnd.
  destruct (carries_data m) eqn:Hc.
  - destruct m as [[e|header] net]; [done|]. simpl in Hc.
    unfold data_headers in Hroom. rewrite filter_cons_True in Hroom by done. cbn [length] in Hroom.
    destruct (handle_block_spec blocks past header net (Farmer.database s)) as (claims & db' & Hb & Hix' & Hcl);
      [done|apply Hnp; left| | |done|].
    { unfold stored_pieces in Hok. rewrite bind_app in Hok. by apply Forall_app in Hok as [? _]. }
    { unfold stored_pieces in Hnd. rewrite bind_app, fmap_app in Hnd. by apply NoDup_app in Hnd as [? _]. }
    set (ch := Channel.mk (Channel.capacity (Farmer.message_tx s))
      (Channel.buffer (Farmer.message_tx s) ++ [header]) true).
    destruct (IH (past ++ [(inr header, net)])
      (Farmer.mk db' ch (Farmer.error_sender s) (Farmer.submitted s ++ claims))) as (s' & Hm & Hin);
      [done| |by intros; apply Hnp; right|done|done|done|].
    { simpl. rewrite length_app. simpl. unfold data_headers. lia. }
    exists s'. split.
    + cbn [Farmer.handle_messages]. unfold has_data in Hc. apply negb_true_iff in Hc. rewrite Hc.
      unfold Channel.send. rewrite Hr. cbn [negb]. rewrite (proj2 (Nat.ltb_lt _ _)) by lia.
      fold ch. by rewrite Hb.
    + intros c. rewrite Hin. cbn [Farmer.submitted]. rewrite elem_of_app, Hcl, (claims_cons c past). tauto.
  - destruct (IH (past ++ [m]) s) as (s' & Hm & Hin); [done| |by intros; apply Hnp; right|done|done| |].
    { unfold data_headers in Hroom |- *. by rewrite filter_cons_False in Hroom by congruence. }
    { by rewrite Hskip. }
    exists s'. split.
    + destruct m as [[e|header] net]; [exact Hm|]. cbn [Farmer.handle_messages].
      simpl in Hc. unfold has_data in Hc. apply negb_false_iff in Hc. by rewrite Hc.
    + intros c. rewrite Hin, (claims_cons c past). destruct m as [[e|header] net]; [tauto|].
      simpl in Hc. rewrite Hc. split; [tauto|]. intros [?|[[[=] _]|?]]; tauto.
Qed.

(** ** Pieces of one block *)

(** A key that neither index uses is left alone by the indexing of cells. *)
Lemma y_save_frame (v : YValueManager.t) db db' k :
  YValueManager.save v db = Ok db' -> k <> YValueManager.key v -> kv_get k db' = kv_get k db.
Proof.
  unfold YValueManager.save. intros Hs Hk. destruct (_ =? 0); [by simplify_eq|].
  destruct (kv_get (YValueManager.key v) db); res_inv; by apply kv_get_set_ne.
Qed.

Lemma z_save_frame (v : ZValueManager.t) db k :
  k <> encode_u16 (ZValueManager.z v) -> kv_get k (ZValueManager.save v db) = kv_get k db.
Proof. intros Hk. unfold ZValueManager.save. case_bool_decide; [done|]. by apply kv_get_set_ne. Qed.

Lemma save_pairs_frame x_pos cm seg mcs k : (forall z, k <> encode_u16 z) -> forall db out db',
  Piece.save_pairs x_pos cm seg mcs db = (out, db') -> kv_get k db' = kv_get k db.
Proof.
  intros Hk. induction mcs as [|mc mcs IH]; intros db out db'; simpl; [by intros [= _ <-]|].
  unfold mbind, stM_bind. destruct (Piece.get_cell mc db) as [[seg'|]| |]; [| |by intros [= _ <-]..].
  - intros Hs%IH. rewrite Hs. by apply z_save_frame.
  - by intros Hs%IH.
Qed.

Lemma save_cells_frame (md : PieceMetadata.t) cells k : (forall z, k <> encode_u16 z) ->
  (forall i seg, (i, seg) ∈ cells -> k <> ykey (wrap 32 (Z.of_nat i)) (y_of farmer_id seg)) ->
  forall db out db', Piece.save_cells md farmer_id cells db = (out, db') -> kv_get k db' = kv_get k db.
Proof.
  intros Hz. induction cells as [|[i seg] cells IH]; intros Hy db out db'; simpl; [by intros [= _ <-]|].
  unfold mbind, stM_bind, lift_res. destruct (calculate_y_Ok farmer_id Hfarmer seg) as [-> _].
  destruct (YValueManager.save _ db) as [db1| |] eqn:Hs; [|by intros [= _ <-]..].
  apply (y_save_frame _ _ _ k) in Hs; [|apply Hy; left].
  destruct (YValueManager.match_cells _ db1) as [mcs| |]; [|by intros [= _ <-]..].
  destruct (Piece.save_pairs _ _ _ mcs db1) as [out2 db2] eqn:Hp.
  apply (save_pairs_frame _ _ _ _ k Hz) in Hp.
  assert (Hcells : forall j seg', (j, seg') ∈ cells -> k <> ykey (wrap 32 (Z.of_nat j)) (y_of farmer_id seg'))
    by (intros j seg' Hin; apply Hy; by right).
  destruct out2; [|intros [= _ <-]; congruence..].
  intros Hc%(IH Hcells). congruence.
Qed.

(** A saved piece is in the store, unless one of its Y values is its block number. *)
Lemma save_stores (p : Piece.t) db out db' : wf p ->
  Forall (fun seg => y_of farmer_id seg <> block_of p) (Piece.segments p) ->
  Piece.save p farmer_id db = (out, db') -> kv_get (Piece.key p) db' = Some (scale_encode p).
Proof.
  intros [Hm _] Hy. unfold Piece.save, mbind, stM_bind, modify. intros Hs.
  apply (save_cells_frame _ _ (Piece.key p)) in Hs.
  - by rewrite Hs, kv_get_set_eq.
  - intros z. by apply (pkey_zkey farmer_id Hfarmer).
  - intros i seg Hin. apply pkey_ykey; [done|by apply calculate_y_Ok|].
    rewrite Forall_forall in Hy. intros Heq. apply (Hy seg); [|done].
    apply list_elem_of_lookup in Hin as [j Hj]. rewrite lookup_enumerate in Hj.
    apply fmap_Some in Hj as (seg' & Hj & [= _ ->]). by eapply list_elem_of_lookup_2.
Qed.

(** The store after saving the pieces of the chunks holds the last one. *)
Lemma process_chunks_last bn fn md cs : forall db db',
  Forall (fun p => wf p /\ Piece.metadata p = md /\
    Forall (fun seg => y_of farmer_id seg <> block_of p) (Piece.segments p))
    (omap (M := list) (Farmer.piece_of_chunk bn fn) cs) ->
  Farmer.process_chunks bn farmer_id fn cs db = (Ok tt, db') ->
  kv_get (PieceMetadata.key md) db'
  = match last (omap (M := list) (Farmer.piece_of_chunk bn fn) cs) with
    | Some p => Some (scale_encode p)
    | None => kv_get (PieceMetadata.key md) db
    end.
Proof.
  induction cs as [|chunk cs IH]; intros db db'; cbn [omap list_omap Farmer.process_chunks]; [by intros _ [= <-]|].
  destruct (Farmer.piece_of_chunk bn fn chunk) as [p|]; [|apply IH].
  intros [(Hw & <- & Hy) Hall]%Forall_cons.
  destruct (Piece.save p farmer_id db) as [out db1] eqn:Hs. apply save_stores in Hs; [|done|done].
  intros Hp. rewrite last_cons, (IH db1 db'); [|done|by destruct out].
  destruct (last _); [done|exact Hs].
Qed.

(** C35: The rows of a block displace each other: [PiecePosition::from_row] takes the column
    of the first segment, so every fetched row whose segment in column 0 was found is saved
    as [Row 0] of the block.  When this holds for all rows, then after [process_segments]
    the cells of every one of these pieces are read from the row saved last; the other rows
    are lost, though their cells stay in the indices. *)
Theorem farmer_rows_collide bn rows db db' :
  let ps := pieces_of bn PiecePosition.from_row rows in
  in_u 32 bn -> Forall (fun seg => wf seg /\ y_of farmer_id seg <> bn) (omap (M := list) id rows) ->
  Forall (fun chunk => exists y d rest, chunk = Some (Segment.mk (Crypto.mkPosition 0 y) d) :: rest)
    (chunks (Z.to_nat EXTENDED_SEGMENTS_PER_BLOB) rows) ->
  rows <> [] ->
  Farmer.process_segments rows bn farmer_id PiecePosition.from_row db = (Ok tt, db') ->
  length ps = length (chunks (Z.to_nat EXTENDED_SEGMENTS_PER_BLOB) rows) /\
  exists p, last ps = Some p /\ forall q i, q ∈ ps ->
    Piece.metadata q = PieceMetadata.mk bn (PiecePosition.Row 0) /\
    Piece.get_cell (CellMetadata.mk (Piece.metadata q) i) db' = Ok (Piece.cell p i).
Proof.
  intros ps Hbn Hsegs Hfirst Hne Hproc.
  set (md := PieceMetadata.mk bn (PiecePosition.Row 0)).
  assert (Hps : Forall2 (fun chunk p => Piece.metadata p = md /\
      Piece.segments p = omap (M := list) id chunk)
      (chunks (Z.to_nat EXTENDED_SEGMENTS_PER_BLOB) rows) ps).
  { unfold ps, pieces_of. clear -Hfirst. induction Hfirst as [|chunk cs (y & d & rest & ->) _ IH]; [constructor|].
    cbn [omap list_omap]. constructor; [|exact IH]. done. }
  assert (Hlen : length ps = length (chunks (Z.to_nat EXTENDED_SEGMENTS_PER_BLOB) rows))
    by (symmetry; by eapply Forall2_length).
  assert (Hall : Forall (fun p => wf p /\ Piece.metadata p = md /\
      Forall (fun seg => y_of farmer_id seg <> block_of p) (Piece.segments p)) ps).
  { apply Forall_forall. intros p [i Hi]%list_elem_of_lookup.
    destruct (Forall2_lookup_r _ _ _ _ _ Hps Hi) as (chunk & Hc & Hmd & Hsg).
    assert (Hin : forall seg, seg ∈ Piece.segments p -> wf seg /\ y_of farmer_id seg <> bn).
    { intros seg Hs. rewrite Hsg in Hs. apply list_elem_of_omap in Hs as (o & Ho & Hid). simpl in Hid. subst o.
      rewrite Forall_forall in Hsegs. apply Hsegs, list_elem_of_omap. exists (Some seg). split; [|done].
      rewrite <- (concat_chunks (Z.to_nat EXTENDED_SEGMENTS_PER_BLOB) rows) by (apply Nat.ltb_lt; reflexivity).
      apply list_elem_of_In, in_concat. exists chunk. split; apply list_elem_of_In; [by eapply list_elem_of_lookup_2|done]. }
    split; [|split; [done|]].
    - split; [rewrite Hmd; by split|]. apply Forall_forall. intros seg Hs. by apply Hin.
    - apply Forall_forall. intros seg Hs. unfold block_of. rewrite Hmd. by apply Hin. }
  split; [done|]. pose proof (process_chunks_last _ _ md _ _ _ Hall Hproc) as Hlast. fold (pieces_of bn PiecePosition.from_row rows) ps in Hlast.
  destruct (last ps) as [p|] eqn:Hp.
  2: { apply last_None in Hp. rewrite Hp in Hlen. exfalso. rewrite chunks_unfold in Hlen; [done| |done].
       apply Nat.ltb_lt. reflexivity. }
  exists p. split; [done|]. intros q i Hq. rewrite Forall_forall in Hall.
  destruct (Hall q Hq) as (_ & Hmd & _). rewrite Hmd. split; [done|].
  unfold Piece.get_cell. cbn [CellMetadata.piece_metadata CellMetadata.offset]. rewrite Hlast.
  rewrite decode_all_encode; [done|]. apply Hall. by apply last_Some_elem_of.
Qed.
End farmer.

Section claims.
Context `{Platform} `{KzgLib} `{!FrBytesLaws} `{HashLib} `{!HashLaws} `{ScaleInts} `{!ScaleIntsLaws}.
Context `{BitVecLib} `{Codec Position} `{Codec Segment.SegmentData}.
Context `{Codec YPos.t} `{!CodecLaws YPos.t} `{Codec PiecePosition.t}
  `{Codec PieceMetadata.t} `{!CodecLaws PieceMetadata.t} `{!PieceKeyLayout}
  `{Codec Piece.t} `{!CodecLaws Piece.t} `{Codec Segment.t}
  `{Codec (list CellMetadata.t)} `{!CodecLaws (list CellMetadata.t)}
  `{Codec (list (CellMetadata.t * CellMetadata.t))}
  `{!CodecLaws (list (CellMetadata.t * CellMetadata.t))}.
Context {Net : Type} `{!Requests Net}.
Context {Hash Header : Type} `{Codec Hash} `{!HeaderWithCommitment Z Hash Header}.
Context {DB : Type} `{!DasKv DB} `{!DasKvLaws DB}.

Lemma farmer_id_length account : length (FarmerId.inner (FarmerId.new account)) = 32%nat.
Proof. unfold FarmerId.new. case_match; [done|]. apply length_blake2_256. Qed.

(** ** The whole run

    What the runs below are about: the hashes of headers are bytes, the stream has at most 100
    blocks with data (the channel nobody reads holds 100 headers), no fetch panics (the handler
    of columns can), the pieces made of what was fetched can be saved, and the store is empty. *)
Record followed (network : DaserNetwork.t) (farmer_id : FarmerId.t)
    (messages : list ((string + Header) * Net)) (db0 : DB) : Prop := {
  followed_hash : forall h : Header, is_bytes (Farmer.block_hash h);
  followed_room : (data_headers messages <= 100)%nat;
  followed_fetch : forall header net, (inr header, net) ∈ messages ->
    Farmer.fetch network farmer_id header (default 0 (hwc_col_num header)) net <> Panic;
  followed_pieces : savable farmer_id (stored_pieces network farmer_id messages);
  followed_store : empty_db db0
}.

Lemma farmer_run_spec (network : DaserNetwork.t) account messages (db0 : DB) :
  followed network (FarmerId.new account) messages db0 ->
  exists s, Farmer.run network account (inr messages) db0 = (Farmer.Returned, s) /\
    forall c, c ∈ Farmer.submitted s <->
      exists earlier header net later, messages = earlier ++ (inr header, net) :: later /\
        has_data header = true /\
        claimed network (FarmerId.new account) (earlier ++ [(inr header, net)]) header net c.
Proof.
  set (farmer_id := FarmerId.new account). intros [Hhash Hroom Hnp [Hnd Hok] He].
  destruct (farmer_messages_spec network farmer_id (farmer_id_length account) Hhash
    (fun b => b ∈ block_of <$> stored_pieces network farmer_id messages) messages []
    (Farmer.mk db0 (Channel.channel 100) [] [])) as (s & Hm & Hin); [done|done|done|exact Hok|done| |].
  { exact (empty_indexed farmer_id (farmer_id_length account) _ db0 He). }
  exists s. split; [exact Hm|]. intros c. rewrite Hin. simpl. split; [|by right].
  by intros [[]%not_elem_of_nil|?].
Qed.

(** C15: What a farmer claims.  The farmer follows, from an empty store, a stream with at most
    100 blocks with data.  No fetch panics (the handler of columns does for some answers), and
    the pieces it makes of what it fetched can be saved: they have different positions - so
    no block yields two complete rows, which would both be saved as row 0 - their numbers are
    in range, and none of their Y values is the number of a block a piece is saved for.
    Then the run returns, and the claims submitted are exactly these: for every block, every
    segment fetched for it that passes the pre-cell check together with every pair of
    neighbouring cells, stored for this block or an earlier one, with the same nonzero Y
    value and the block's challenge as Z value. *)
Theorem farmer_claims (network : DaserNetwork.t) account (messages : list ((string + Header) * Net))
    (db0 : DB) :
  let farmer_id := FarmerId.new account in
  (forall h : Header, is_bytes (Farmer.block_hash h)) ->
  (data_headers messages <= 100)%nat ->
  (forall header net, (inr header, net) ∈ messages ->
     Farmer.fetch network farmer_id header (default 0 (hwc_col_num header)) net <> Panic) ->
  savable farmer_id (stored_pieces network farmer_id messages) -> empty_db db0 ->
  exists s, Farmer.run network account (inr messages) db0 = (Farmer.Returned, s) /\
    forall c, c ∈ Farmer.submitted s <->
      exists earlier header net later, messages = earlier ++ (inr header, net) :: later /\
        has_data header = true /\
        claimed network farmer_id (earlier ++ [(inr header, net)]) header net c.
Proof. intros farmer_id ? ? ? ? ?. by apply farmer_run_spec. Qed.
End claims.
