(* ===== verification/FarmerRuns.v ===== *)
(** * The farmer on a concrete block

    The library of canonical encodings, the hash and codecs of [PosProps], and a network
    that has two segments of the first row of a block with one submission. *)

From S2P Require Import Prelude Codec DasDb KzgLib KzgIndex KzgToy DasPrimitives Blob.
From S2P Require Import ErasureCoding CorePrimitives Reliability Sidecar DasNetwork DaserNetwork.
From S2P Require Import DaserRuns Daser PosUtils ProofOfSpace PosIndex PosProps Light Meloxt Farmer FarmerProps.

Section runs.
#[local] Existing Instances host64 bytes_lib bytes_lib_fr MockDb.kv MockDb.kv_laws map_net ref_bitvec
  toy_hash toy_hash_laws toy_ints toy_ints_laws ypos_codec ypos_codec_laws PosProps.position_codec
  metadata_codec metadata_codec_laws metadata_layout piece_codec piece_codec_laws segment_codec
  cells_codec cells_codec_laws pairs_codec pairs_codec_laws
  Position_countable' SegmentData_countable Piece_eq_dec.
#[local] Instance point_codec : Codec Position := RefCodec.ref_codec _.
#[local] Instance content_codec : Codec Segment.SegmentData := RefCodec.ref_codec _.
#[local] Instance bytes_codec : Codec (list Z) := {| scale_encode l := l; scale_decode l := Some (l, []) |}.

Abbreviation challenge := PosProps.challenge.
Abbreviation seg_at := PosProps.seg_at.

(** The hash selects row 0 and columns 0 and 7 and passes the check for index 0; it has the Z value of the two segments as
    challenge. *)
#[local] Definition hash : list Z := 129 :: 0 :: Z.lxor (challenge / 256) 129 :: replicate 29 0.
#[local] Instance one_block : HeaderWithCommitment Z (list Z) unit := {|
  hwc_extension _ := HeaderExtension.mk [] [AppLookup.mk 1 1 1];
  hwc_commitments _ := Some [enc_zeros 48]; hwc_commitments_bytes _ := [];
  hwc_col_num _ := Some 1; hwc_number _ := 9; hwc_hash _ := hash
|}.
#[local] Definition self : DaserNetwork.t := DaserNetwork.new (Service.mk 10) (@Crypto.kzg_new bytes_lib 4096).
#[local] Definition two_segments : gmap bytes bytes :=
  (DaserNetwork.put_app_segments self [seg_at 0; seg_at 1] 1 1 ∅).2.
#[local] Definition messages : list ((string + unit) * gmap bytes bytes) := [(inr tt, two_segments)].

#[local] Definition row_piece : Piece.t := Piece.new 9 (PiecePosition.Row 0) [seg_at 0; seg_at 1].
#[local] Definition col_piece : Piece.t := Piece.new 9 (PiecePosition.Column 0) [seg_at 0].

Lemma stored_two : stored_pieces self FarmerId.default messages = [row_piece; col_piece].
Proof. by_decision. Qed.

Lemma fetch_two : is_ok (Farmer.fetch self FarmerId.default tt 1 two_segments) = true.
Proof. vm_compute. reflexivity. Qed.

Lemma two_savable : savable FarmerId.default [row_piece; col_piece].
Proof.
  split; [by_decision|].
  assert (Hy : forall x, y_of FarmerId.default (seg_at x) = 5) by reflexivity.
  repeat constructor; simpl; unfold in_u; try lia; rewrite Hy;
    intros Hin; repeat (apply elem_of_cons in Hin as [Hin|Hin]; [discriminate Hin|]);
    by apply not_elem_of_nil in Hin.
Qed.

Lemma hash_bytes_ok : is_bytes hash.
Proof. unfold is_bytes. by_decision. Qed.

Lemma first_row_segment : (fetched_of self FarmerId.default tt two_segments).1 !! 0%nat = Some (Some (seg_at 0)).
Proof. by_decision. Qed.

#[local] Definition cell_at (offset : Z) : CellMetadata.t * Segment.t :=
  (CellMetadata.mk (PieceMetadata.mk 9 (PiecePosition.Row 0)) offset, seg_at offset).

Lemma two_followed : followed self FarmerId.default messages MockDb.new.
Proof.
  split.
  - intros h. exact hash_bytes_ok.
  - apply Nat.leb_le. reflexivity.
  - intros [] net Hin Hp. apply list_elem_of_singleton in Hin. injection Hin as ->.
    pose proof fetch_two as Hf. change (default 0 (hwc_col_num tt)) with 1 in Hp. rewrite Hp in Hf. discriminate Hf.
  - rewrite stored_two. exact two_savable.
  - intros k. apply lookup_empty.
Qed.

Lemma first_pre_cell :
  block_pre_cell self FarmerId.default tt two_segments (mkPreCell (seg_at 0) (PiecePosition.Row 0)).
Proof.
  unfold block_pre_cell. pose proof first_row_segment as H0.
  destruct (fetched_of self FarmerId.default tt two_segments) as [rows cols]. left.
  exists (seg_at 0). split; [by eapply list_elem_of_lookup_2|]. split; reflexivity.
Qed.

Lemma farmer_claims_witness : exists s,
  Farmer.run self [0] (inr messages) MockDb.new = (Farmer.Returned, s) /\
  Farmer.mkClaim (pre_cell_to_runtime (mkPreCell (seg_at 0) (PiecePosition.Row 0)))
    (cell_to_runtime (mkCell (cell_at 1).1 (cell_at 1).2))
    (cell_to_runtime (mkCell (cell_at 0).1 (cell_at 0).2)) ∈ Farmer.submitted s.
Proof.
  destruct two_followed as [F1 F2 F3 F4 F5].
  destruct (farmer_claims self [0] messages MockDb.new F1 F2 F3 F4 F5) as (s & Hr & Hc).
  exists s. split; [exact Hr|]. apply Hc. exists [], tt, two_segments, []. split; [reflexivity|].
  split; [reflexivity|]. exists (mkPreCell (seg_at 0) (PiecePosition.Row 0)), 0%nat, 1%nat, (cell_at 1), (cell_at 0).
  change (FarmerId.new [0]) with FarmerId.default. change ([] ++ [(inr tt, two_segments)]) with messages.
  rewrite stored_two.
  split_and!; [exact first_pre_cell|lia|reflexivity|reflexivity|by_decision|by_decision|reflexivity].
Defined.

(** Two rows, one segment of each. *)
#[local] Definition seg_in_row (y : Z) : Segment.t := Segment.mk (Crypto.mkPosition 0 y) (Segment.content (seg_at 0)).
#[local] Definition two_rows : list (option Segment.t) :=
  (Some (seg_in_row 0) :: replicate 255 None) ++ (Some (seg_in_row 1) :: replicate 255 None).

Lemma farmer_rows_collide_witness : exists db',
  Farmer.process_segments two_rows 9 FarmerId.default PiecePosition.from_row MockDb.new = (Ok tt, db') /\
  Piece.get_cell (CellMetadata.mk (PieceMetadata.mk 9 (PiecePosition.Row 0)) 0) db' = Ok (Some (seg_in_row 1)).
Proof.
  set (out := Farmer.process_segments two_rows 9 FarmerId.default PiecePosition.from_row MockDb.new).
  assert (Hout : out = (Ok tt, out.2)).
  { apply injective_projections; [|reflexivity]. by_decision. }
  exists out.2. split; [exact Hout|].
  destruct (farmer_rows_collide FarmerId.default eq_refl 9 two_rows MockDb.new out.2) as (_ & p & Hp & Hq).
  - split; [discriminate|reflexivity].
  - assert (Hy : forall y, y_of FarmerId.default (seg_in_row y) <> 9) by (intros y; discriminate).
    assert (Hl : omap (M := list) id two_rows = [seg_in_row 0; seg_in_row 1]) by by_decision.
    rewrite Hl. repeat constructor; (apply Hy || (simpl; unfold in_u; lia)).
  - assert (Hl : chunks (Z.to_nat EXTENDED_SEGMENTS_PER_BLOB) two_rows
      = [Some (seg_in_row 0) :: replicate 255 None; Some (seg_in_row 1) :: replicate 255 None]) by by_decision.
    rewrite Hl. repeat constructor; by repeat eexists.
  - discriminate.
  - exact Hout.
  - assert (Hps : pieces_of 9 PiecePosition.from_row two_rows
      = [Piece.new 9 (PiecePosition.Row 0) [seg_in_row 0]; Piece.new 9 (PiecePosition.Row 0) [seg_in_row 1]])
      by by_decision.
    rewrite Hps in Hp, Hq. injection Hp as <-.
    destruct (Hq (Piece.new 9 (PiecePosition.Row 0) [seg_in_row 0]) 0) as [_ Hg]; [left|exact Hg].
Defined.
End runs.
