(* ===== verification/FarmerFlow.v ===== *)
(** * A farmer's claims on the chain

    The claims the farmer submits ([farmer/src/event_handler.rs]), converted to the runtime's
    types by the chain client, decoded by the runtime and judged by the rewards pallet: which
    of them are paid. *)

From S2P Require Import Prelude Codec DasDb KzgLib KzgIndex KzgToy DasPrimitives Blob KzgTypes.
From S2P Require Import ErasureCoding CorePrimitives Reliability Sidecar DasNetwork DaserNetwork.
From S2P Require Import Daser PosUtils ProofOfSpace PosIndex PosProps Light Meloxt Farmer FarmerProps FarmerRuns DaserRuns.
From S2P Require Import MeloStore MeloStoreProps FarmersFortune FortuneProps.
From S2P Require Import NetworkMetrics NetworkStart NodeService SqliteDb ClientStart.

(** ** What the runtime decodes *)
Section decode.
Context `{Platform} `{KzgLib}.

Definition segment_from_runtime (s : RtSegment) : option Segment.t :=
  data ← mapM (M := option) (decode_all (A := FsFr)) (rt_data (rt_content s));
  proof ← decode_all (A := FsG1) (rt_proof (rt_content s));
  Some (Segment.mk (rt_position s) (Segment.mkData data proof)).
Definition pre_cell_from_runtime (c : RtPreCell) : option PreCell :=
  seg ← segment_from_runtime (rt_pre_seg c); Some (mkPreCell seg (rt_pre_position c)).
Definition cell_from_runtime (c : RtCell) : option Cell :=
  seg ← segment_from_runtime (rt_cell_seg c); Some (mkCell (rt_cell_metadata c) seg).

(** The arguments of the call [claim]. *)
Definition claim_from_runtime (c : Farmer.Claim) : option (PreCell * Cell * Cell) :=
  pre_cell ← pre_cell_from_runtime (Farmer.claim_pre_cell c);
  win_cell_left ← cell_from_runtime (Farmer.claim_win_cell_left c);
  win_cell_right ← cell_from_runtime (Farmer.claim_win_cell_right c);
  Some (pre_cell, win_cell_left, win_cell_right).

Context `{!G1BytesLaws} `{!FrBytesLaws}.

Lemma segment_from_to s : segment_from_runtime (segment_to_runtime s) = Some s.
Proof.
  destruct s as [[x y] [d p]]. unfold segment_from_runtime, segment_to_runtime. simpl.
  assert (Hd : mapM (M := option) (decode_all (A := FsFr)) (bls_scalars_to_runtime d) = Some d).
  { apply mapM_Some. unfold bls_scalars_to_runtime. induction d as [|r d IH]; constructor; [|done].
    exact (decode_all_encode (A := FsFr) r I). }
  rewrite Hd. simpl. pose proof (decode_all_encode (A := FsG1) p I) as Hp.
  change (scale_encode p) with (g1_to_bytes p) in Hp. by rewrite Hp.
Qed.

Lemma claim_from_to s :
  claim_from_runtime (Farmer.claim_of s)
  = Some (Solution.pre_cell s, Solution.win_cell_left s, Solution.win_cell_right s).
Proof.
  destruct s as [h f [ps pp] [[[lb lp] lo] ls] [[[rb rp] ro] rs]].
  unfold claim_from_runtime, pre_cell_from_runtime, cell_from_runtime, Farmer.claim_of,
    pre_cell_to_runtime, cell_to_runtime. simpl.
  rewrite !segment_from_to. simpl. by destruct pp, lp, rp.
Qed.
End decode.

(** ** The verdict *)
Section verdict.
Context `{Platform} `{KzgLib} `{!G1BytesLaws} `{!FrBytesLaws} `{HashLib} `{!HashLaws}.
Context `{ScaleInts} `{!ScaleIntsLaws} `{BitVecLib} `{EmbeddedSettings} `{Codec Position} `{Codec Segment.SegmentData}.
Context `{Codec YPos.t} `{!CodecLaws YPos.t} `{Codec PiecePosition.t}
  `{Codec PieceMetadata.t} `{!CodecLaws PieceMetadata.t} `{!PieceKeyLayout}
  `{Codec Piece.t} `{!CodecLaws Piece.t} `{Codec Segment.t}
  `{Codec (list CellMetadata.t)} `{!CodecLaws (list CellMetadata.t)}
  `{Codec (list (CellMetadata.t * CellMetadata.t))}
  `{!CodecLaws (list (CellMetadata.t * CellMetadata.t))}.
Context {DB : Type} `{!DasKv DB} `{!DasKvLaws DB}.
Context `{MeloConfig} `{!FortuneConfig} `{!CommitmentFromPosition Storage}.
Context {Net : Type} `{!Requests Net}.
Context {Hash Header : Type} `{Codec Hash} `{!HeaderWithCommitment Z Hash Header}.
Import FarmersFortune.

(** Every pre-cell the farmer keeps passes the pre-cell check. *)
Lemma block_pre_cell_checked (network : DaserNetwork.t) farmer_id (header : Header) (net : Net) pc :
  block_pre_cell network farmer_id header net pc ->
  Solution.check_pre_cell (pre_seg pc) farmer_id PRE_CELL_LEADING_ZEROS = true.
Proof.
  unfold block_pre_cell. destruct (fetched_of network farmer_id header net).
  by intros [(seg & _ & Hc & ->)|(seg & _ & Hc & ->)].
Qed.

(** The checks of the chain that the farmer has not made: the row or column of the pre-cell
    is one selected for the farmer among 32, the proof of the pre-cell, the rows or columns
    of the cells are selected by the hashes of their blocks, the challenge is the Z value of
    the cells in the order presented, and their proofs. *)
Definition judged (kzg : KZG) (farmer_id : FarmerId.t) (hash : bytes) (pc : PreCell)
    (l r : Cell) (hash_left hash_right : bytes) (c1 c2 c3 : KZGCommitment) : res string bool :=
  and_then (Ok (Solution.is_index_valid farmer_id hash (pre_cell_piece_index pc) 32 1))
    (and_then (pre_cell_verify_kzg_proof pc kzg c1)
      (and_then (and_then (Ok (PosUtils.is_index_valid hash_left (cell_piece_index l) 32 1))
                  (and_then (Ok (PosUtils.is_index_valid hash_right (cell_piece_index r) 32 1))
                    (Ok (ZValueManager.get_challenge hash
                         =? ZValueManager.calculate_z (cell_seg l) (cell_seg r)))))
        (and_then (cell_verify_kzg_proof l kzg c2) (cell_verify_kzg_proof r kzg c3)))).

Lemma verify_judged kzg farmer_id hash pc a b hl hr c1 c2 c3 :
  length (FarmerId.inner farmer_id) = 32%nat ->
  Crypto.default_embedded EMBEDDED_KZG_SETTINGS_BYTES = Ok kzg ->
  Solution.check_pre_cell (pre_seg pc) farmer_id PRE_CELL_LEADING_ZEROS = true ->
  matched farmer_id a b ->
  Solution.verify (Solution.new hash farmer_id pc (mkCell a.1 a.2) (mkCell b.1 b.2))
    c1 c2 c3 hl hr PRE_CELL_LEADING_ZEROS 1
  = judged kzg farmer_id hash pc (mkCell a.1 a.2) (mkCell b.1 b.2) hl hr c1 c2 c3.
Proof.
  intros Hf Hk Hpc Hm. unfold Solution.verify, judged. rewrite Hk. cbn -[Z.eqb].
  rewrite Hpc. cbn -[Z.eqb].
  unfold Solution.validate_win_cell_with_kzg, Solution.validate_win_cell, ZValueManager.verify.
  cbn -[Z.eqb].
  rewrite (proj1 (calculate_y_Ok farmer_id Hf a.2)). bind_simpl.
  rewrite (proj1 (calculate_y_Ok farmer_id Hf b.2)). bind_simpl.
  rewrite (matched_is_pair farmer_id a b Hm). destruct Hm as (_ & -> & _).
  by rewrite Z.eqb_refl, !andb_true_r.
Qed.

(** The outcome of a claim that passes the first checks and finds its commitments. *)
Lemma claim_outcome who pc l r s c1 c2 c3 st1 st2 st3 :
  let now := block_number (store s) in
  1 <= now -> (who ∉ claimants now s) ->
  Z.of_nat (length (claimants now s)) < MaxClaimantsPerBlock ->
  cfp_commitments (now - 1) (Segment.position (pre_seg pc)) (store s) = (Ok (Some c1), st1) ->
  cfp_commitments (CellMetadata.block_number (cell_metadata l)) (Segment.position (cell_seg l)) st1
    = (Ok (Some c2), st2) ->
  cfp_commitments (CellMetadata.block_number (cell_metadata r)) (Segment.position (cell_seg r)) st2
    = (Ok (Some c3), st3) ->
  (dispatch (Signed who) pc l r s).1
  = match Solution.verify
            (Solution.new (block_hash (store s) (now - 1)) (FarmerId.new (encode_account who)) pc l r)
            c1 c2 c3 (block_hash (store s) (CellMetadata.block_number (cell_metadata l)))
            (block_hash (store s) (CellMetadata.block_number (cell_metadata r)))
            PRE_CELL_LEADING_ZEROS 1 with
    | Ok true => Ok tt
    | Ok false => Err (ModuleError InvalidSolution)
    | _ => Panic
    end.
Proof.
  intros now Hnow Hnin Hlen R1 R2 R3.
  unfold dispatch, transactional, claim, FarmersFortune.ensure_signed, mbind, stM_bind, lift_res,
    gets, ensureM, modify. fold now.
  rewrite (proj2 (Z.ltb_lt _ _) Hlen), (bool_decide_false _ Hnin). simpl.
  rewrite (proj2 (Z.ltb_ge _ _)) by lia.
  unfold commitment_or, on_store, mbind, stM_bind, lift_res. rewrite R1. simpl.
  rewrite R2. simpl. rewrite R3. simpl.
  destruct (Solution.verify _ _ _ _ _ _ _ _) as [[]| |]; simpl; [|done..].
  unfold try_push. by rewrite (proj2 (Z.ltb_lt _ _) Hlen).
Qed.

(** The verdict of the pallet on the claim ([pc], [l], [r]) of [who], made for [header]. *)
Definition verdict (kzg : KZG) (who : AccountId) (header : Header) (pc : PreCell) (l r : Cell) : Prop :=
  forall s c1 c2 c3 st1 st2 st3,
  let now := block_number (store s) in
  let prev := block_hash (store s) (now - 1) in
  let left := CellMetadata.block_number (cell_metadata l) in
  let right := CellMetadata.block_number (cell_metadata r) in
  1 <= now -> (who ∉ claimants now s) ->
  Z.of_nat (length (claimants now s)) < MaxClaimantsPerBlock ->
  cfp_commitments (now - 1) (Segment.position (pre_seg pc)) (store s) = (Ok (Some c1), st1) ->
  cfp_commitments left (Segment.position (cell_seg l)) st1 = (Ok (Some c2), st2) ->
  cfp_commitments right (Segment.position (cell_seg r)) st2 = (Ok (Some c3), st3) ->
  (dispatch (Signed who) pc l r s).1
  = match judged kzg (FarmerId.new (encode_account who)) prev pc l r
            (block_hash (store s) left) (block_hash (store s) right) c1 c2 c3 with
    | Ok true => Ok tt
    | Ok false => Err (ModuleError InvalidSolution)
    | _ => Panic
    end /\
  (prev = Farmer.block_hash header ->
   (ZValueManager.get_challenge prev =? ZValueManager.calculate_z (cell_seg l) (cell_seg r))
   = (CellMetadata.offset (cell_metadata l) mod 2 =? 0)
     || (ZValueManager.calculate_z (cell_seg r) (cell_seg l)
         =? ZValueManager.calculate_z (cell_seg l) (cell_seg r))).

(** A claim made for [header]: what the chain decodes it to and the verdict. *)
Lemma claimed_verdict (network : DaserNetwork.t) who messages (header : Header) (net : Net)
    (c : Farmer.Claim) kzg :
  let farmer_id := FarmerId.new (encode_account who) in
  claimed network farmer_id messages header net c ->
  Crypto.default_embedded EMBEDDED_KZG_SETTINGS_BYTES = Ok kzg ->
  exists pc l r, claim_from_runtime c = Some (pc, l, r) /\ verdict kzg who header pc l r.
Proof.
  intros farmer_id (pc & j & k & a & b & Hpc & _ & _ & _ & Hm & Hz & ->) Hk.
  exists pc, (mkCell a.1 a.2), (mkCell b.1 b.2). split.
  { exact (claim_from_to (Solution.mk [] farmer_id pc (mkCell a.1 a.2) (mkCell b.1 b.2))). }
  intros s c1 c2 c3 st1 st2 st3 now prev left right Hnow Hnin Hlen R1 R2 R3. split.
  - rewrite (claim_outcome who pc _ _ s c1 c2 c3 st1 st2 st3) by done. fold now prev farmer_id.
    by rewrite (verify_judged kzg farmer_id prev pc a b) by
      (done || apply farmer_id_length || exact (block_pre_cell_checked _ _ _ _ _ Hpc)).
  - intros ->. rewrite <- Hz. unfold pair_z. simpl.
    destruct (_ mod 2 =? 0); simpl; [apply Z.eqb_refl|done].
Qed.

(** C16: What becomes of a farmer's claims.  Take a run of the farmer ([followed]) from an empty
    store, over at most 100 blocks with data, in which no fetch panics and the pieces made can
    be saved (different positions, no Y value equal to the number of a saved block).  The run returns, and every claim it submitted was made for a block of the
    stream and is decoded by the chain to a pre-cell and two cells such that: in every state
    in which the farmer's account may claim and the commitments are known, the call is paid
    exactly if it passes the checks the farmer did not make ([judged]), and is an invalid
    solution otherwise.  The challenge is that of the block before the one that includes the
    claim: included right after the block it was made for, the challenge is met exactly when
    the left cell has the even offset or the Z value is the same in both orders. *)
Theorem farmer_claim_verdict (network : DaserNetwork.t) who (messages : list ((string + Header) * Net))
    (db0 : DB) kzg :
  let farmer_id := FarmerId.new (encode_account who) in
  followed network farmer_id messages db0 ->
  Crypto.default_embedded EMBEDDED_KZG_SETTINGS_BYTES = Ok kzg ->
  exists s, Farmer.run network (encode_account who) (inr messages) db0 = (Farmer.Returned, s) /\
    forall c, c ∈ Farmer.submitted s -> exists header net pc l r,
      (inr header, net) ∈ messages /\ claim_from_runtime c = Some (pc, l, r) /\
      verdict kzg who header pc l r.
Proof.
  intros farmer_id Hf Hk. destruct (farmer_run_spec network (encode_account who) messages db0 Hf) as (s & Hr & Hin).
  exists s. split; [exact Hr|]. intros c (earlier & header & net & later & -> & _ & Hc)%Hin.
  destruct (claimed_verdict network who _ header net c kzg Hc Hk) as (pc & l & r & Hd & Hv).
  exists header, net, pc, l, r. split; [set_solver|]. by split.
Qed.

(** ** Several farmers

    Every farmer started by [farmer/src/main.rs] signs with the same development key, so all
    of them are one account to the pallet: after one of them was paid in a block, every
    claim of the others in that block is refused and changes nothing. *)
Theorem farmers_share_account `{!CommitmentFromPositionLaws} {K : Type} `{Swarm K} `{!Libp2p K}
    {Conn : Type} `{Sqlite Conn} {SocketAddr Api Signer : Type} (dev_alice : Signer) (account : Signer -> AccountId)
    (outside1 outside2 : Outside SocketAddr Api) (config1 config2 : Config.t SocketAddr) es1 es2
    pc l r pc' l' r' s s1 :
  farmer_run (K := K) (Conn := Conn) dev_alice outside1 config1 [] = (Ok tt, es1) ->
  farmer_run (K := K) (Conn := Conn) dev_alice outside2 config2 [] = (Ok tt, es2) ->
  exists client1 network1 client2 network2,
    LoopSpawned client1 network1 0 ∈ es1 /\ LoopSpawned client2 network2 0 ∈ es2 /\
    Client.signer client1 = Client.signer client2 /\
    (dispatch (Signed (account (Client.signer client1))) pc l r s = (Ok tt, s1) ->
     exists e, dispatch (Signed (account (Client.signer client2))) pc' l' r' s1 = (Err (ModuleError e), s1) /\
       (e = MaxClaimantsReached \/ e = AlreadyClaimed)).
Proof.
  intros (w1 & c1 & n1 & S1 & ->)%farmer_run_Ok (w2 & c2 & n2 & S2 & ->)%farmer_run_Ok.
  exists c1, n1, c2, n2. rewrite S1, S2. split_and!; [by repeat constructor|by repeat constructor|done|].
  clear S1 S2. intros Hd. unfold dispatch, transactional in Hd.
  destruct (claim _ pc l r s) as [[[]| |] s'] eqn:Hc; simplify_eq.
  apply claim_Ok_inv in Hc as (who & st & [= <-] & _ & _ & _ & _ & [f ->] & ->).
  unfold dispatch, transactional, claim, FarmersFortune.ensure_signed, mbind, stM_bind, lift_res, gets, ensureM.
  set (cur := claimants _ _). assert (Hin : account dev_alice ∈ cur).
  { unfold cur, claimants. simpl. rewrite lookup_insert_eq. simpl. set_solver. }
  simpl. rewrite (bool_decide_true _ Hin).
  destruct (Z.of_nat (length cur) <? MaxClaimantsPerBlock); simpl; eexists; split; auto.
Qed.
End verdict.

(** ** A claim that is paid

    The block of [FarmerRuns]: the cell of the stored column is the left one. *)
Section verdict_witness.
#[local] Existing Instances host64 bytes_lib bytes_lib_g1 bytes_lib_fr Sidecar.toy_embedded map_net ref_bitvec
  MockDb.kv MockDb.kv_laws toy_hash toy_hash_laws toy_ints toy_ints_laws ypos_codec ypos_codec_laws
  PosProps.position_codec metadata_codec metadata_codec_laws metadata_layout piece_codec piece_codec_laws
  segment_codec cells_codec cells_codec_laws pairs_codec pairs_codec_laws point_codec content_codec
  bytes_codec one_block fair_config fair_fortune ref_permill.
#[local] Definition column_cell : CellMetadata.t * Segment.t :=
  (CellMetadata.mk (PieceMetadata.mk 9 (PiecePosition.Column 0)) 0, PosProps.seg_at 0).
#[local] Definition the_claim : Farmer.Claim :=
  Farmer.claim_of (Solution.mk [] FarmerId.default (mkPreCell (PosProps.seg_at 0) (PiecePosition.Row 0))
    (mkCell column_cell.1 column_cell.2) (mkCell (FarmerRuns.cell_at 1).1 (FarmerRuns.cell_at 1).2)).
#[local] Definition chain10 : FarmersFortune.State :=
  FarmersFortune.mkState ∅ ∅
    (mkStorage ∅ {[9 := [g1_identity]]} [] 0 ∅ ∅ 10 (fun _ => FarmerRuns.hash) []) [].

Lemma the_claim_made : claimed FarmerRuns.self FarmerId.default FarmerRuns.messages tt FarmerRuns.two_segments the_claim.
Proof.
  exists (mkPreCell (PosProps.seg_at 0) (PiecePosition.Row 0)), 1%nat, 2%nat, column_cell, (FarmerRuns.cell_at 1).
  rewrite stored_two.
  split_and!; [exact first_pre_cell|lia|reflexivity|reflexivity|by_decision|by_decision|reflexivity].
Qed.

Lemma carol_followed :
  followed FarmerRuns.self (FarmerId.new (encode_account FortuneProps.carol)) FarmerRuns.messages MockDb.new.
Proof. change (FarmerId.new (encode_account FortuneProps.carol)) with FarmerId.default. exact two_followed. Qed.

Lemma the_claim_submitted s :
  Farmer.run FarmerRuns.self (encode_account FortuneProps.carol) (inr FarmerRuns.messages) MockDb.new
  = (Farmer.Returned, s) -> the_claim ∈ Farmer.submitted s.
Proof.
  intros Hr. destruct (farmer_run_spec FarmerRuns.self (encode_account FortuneProps.carol) FarmerRuns.messages
    MockDb.new carol_followed) as (s' & Hr' & Hin).
  rewrite Hr in Hr'. injection Hr' as <-. apply Hin. exists [], tt, FarmerRuns.two_segments, [].
  split_and!; [reflexivity..|exact the_claim_made].
Qed.

Lemma farmer_claim_verdict_witness : exists s pc l r,
  Farmer.run FarmerRuns.self (encode_account FortuneProps.carol) (inr FarmerRuns.messages) MockDb.new
  = (Farmer.Returned, s) /\ the_claim ∈ Farmer.submitted s /\
  claim_from_runtime the_claim = Some (pc, l, r) /\
  (FarmersFortune.dispatch (Signed FortuneProps.carol) pc l r chain10).1 = Ok tt.
Proof.
  destruct toy_default_embedded as [kzg Hkzg].
  destruct (farmer_claim_verdict FarmerRuns.self FortuneProps.carol FarmerRuns.messages MockDb.new kzg
    carol_followed Hkzg) as (s & Hr & Hv).
  pose proof (the_claim_submitted s Hr) as Hin.
  destruct (Hv the_claim Hin) as (header & net & pc & l & r & _ & Hc & Hd).
  exists s, pc, l, r. split_and!; [exact Hr|exact Hin|exact Hc|].
  pose proof (claim_from_to (Solution.mk [] FarmerId.default (mkPreCell (PosProps.seg_at 0) (PiecePosition.Row 0))
    (mkCell column_cell.1 column_cell.2) (mkCell (FarmerRuns.cell_at 1).1 (FarmerRuns.cell_at 1).2))) as Hc'.
  unfold the_claim in Hc. rewrite Hc' in Hc. injection Hc as <- <- <-.
  destruct (Hd chain10 g1_identity g1_identity g1_identity (FarmersFortune.store chain10)
    (FarmersFortune.store chain10) (FarmersFortune.store chain10)) as [Ho _];
    [done|apply not_elem_of_nil|done|reflexivity|reflexivity|reflexivity|].
  rewrite Ho. reflexivity.
Defined.
End verdict_witness.
